(* ===== verification/_CoqProject ===== *)
-Q . S2P
Prelude.v
JsNumber.v
Rounding.v
JsString.v
Json.v
Text.v
Digits.v
JsonParse.v
Uri.v
BoundedLog.v
RuntimeConfig.v
Api.v
Gateway.v
Store.v
Metrics.v
Stream.v
Notifications.v
Palette.v
PaletteStorage.v
Explorer.v
Trace.v
Consensus.v
Overview.v
Dom.v
ViewExplorer.v
ViewConsensus.v
ViewOverview.v
ViewTrace.v
Console.v
ViewShell.v
