(* ===== verification/Prelude.v ===== *)
(** * VaultKV operator console: a verification development

    The program is the operator console of VaultKV (src/frontend), a React
    application that shows a replicated key-value cluster and lets an operator
    run commands, take nodes down and trace requests.  It talks to a gateway over
    HTTP and a WebSocket.  The C++ engine and the tools of the repository are
    outside this development, and so is the Python gateway except for the routes of
    its key API, which decide what a request of the console means; what the console
    relies on of them enters the definitions as arguments (replies, messages,
    failures).

    ** The parts and how they interact

    - Runtime configuration (lib/runtimeConfig.ts) builds every URL.
    - The metrics hooks (hooks.ts, hooks/useClusterWS.ts) keep a WebSocket open,
      reconnect, fall back to polling, and turn each message into a node list and
      a metrics point, which they write to the stores.
    - The cluster store (store.ts) holds the nodes, the metrics history, the
      connection status and the mask of nodes the operator took down; its kill
      and restart actions update optimistically and roll back on a refusal.  The
      smaller stores (store/clusterStore.ts, store/metricsStore.ts) serve the
      second hook.
    - App.tsx holds the navigation, the command palette, the notification centre,
      the key explorer, the consensus view, the trace runner and the floating
      graph.  pages/ and components/ hold a second explorer, consensus view and
      dashboard on the smaller stores.

    ** Files

    - [Prelude]: notations, tactics, the hint database [vk], array operations
      ([slice], [filter], [find], [map]) and their lemmas.
    - [JsNumber]: numbers as IEEE 754 binary64 with the rounding of the standard
      library's executable specification; [Math.max] and [Math.round].
    - [JsString]: strings as lists of UTF-16 code units; [trim], [includes],
      [toLowerCase], [encodeURIComponent]; the class [Platform] of what the host
      supplies (case mapping of non-ASCII text, page location, URL parser, wording
      of the engine's errors).
    - [Rounding]: rounding is monotone, so products and maxima are.
    - [Json]: parsed values, property access that throws on [null], outcomes of
      [fetch].  [Text]: [toString], [toFixed], [String], [Number] and
      [JSON.stringify].  [Uri]: percent and UTF-8
      decoding, the inverse of [encodeURIComponent].  [Digits]: decimal digits read
      back.  [JsonParse]: [JSON.parse], and its round trip with [JSON.stringify].
    - [BoundedLog]: the interface of the newest-first logs of the explorers and the
      consensus views, and what such a log holds after any run.
    - [RuntimeConfig]: apiUrl and wsUrl of lib/runtimeConfig.ts.
    - [Api]: the requests on /api/keys and the path the URL parser makes of them.
    - [Gateway]: the routes and parameters of /api/keys in src/gateway/main.py
      ([dispatch], [path_param], [SetRequest]), on the class [Framework] of what the
      server and the web framework document: the decoded path, the query, the parsed
      body and the validation of parameters.  [handled] says which handler a request
      reaches with which arguments, [deliverable] for which forms that is the right
      one.
    - [Store]: store.ts.  Each action is split at its [await]; [Sys] pairs the
      store with the actions in flight, and [sys_step] interleaves them with
      snapshots, metrics and status changes.
    - [Metrics]: consumeSnapshot of hooks.ts and ingest of useClusterWS.ts.
    - [Stream]: the effects of both hooks against browser events; the class
      [SocketHook] carries their differences, its laws what the proofs use.
    - [Notifications], [Palette]: the effects and handlers of App.
    - [PaletteStorage]: the recent searches as the text in local storage and as the
      parsed values, which nothing validates.
    - [Explorer]: module [View] for ExplorerView, module [Page] for
      pages/Explorer.tsx and KeyTable.tsx, with commands in flight.
    - [Trace]: runTrace of ArchitectureView as a machine of five stages.
    - [Consensus]: module [RaftView] on top of [Store], module [RaftPage] for
      pages/Raft.tsx, module [NodeCard].
    - [Overview]: dashboards and module [MiniGraph] for FloatingMiniGraph.
    - [Dom]: rendered trees with their keys, handlers and chart data; which handlers
      a click runs, which lists are well keyed; the class [Locale] of locale
      formatting.
    - [ViewExplorer], [ViewConsensus], [ViewOverview], [ViewTrace]: what the
      components return, a module per component ([ExplorerView], [KeyTable],
      [ExplorerPage]; [RaftViewUI], [NodeCardUI], [RaftPageUI]; [DashboardUI],
      OpsChart, LagChart, [DashboardPage], [MiniGraphUI], Landing;
      [ArchitectureUI]).  Handlers in a tree are the events of the component's model.
    - [Console]: App as one system.  [Console] holds the stream with the store, the
      actions in flight, the notification centre, the palette, the floating graph and
      all views mounted so far; [perform] is the synchronous part of a task,
      [run_effects] the effects of App after it, [console_reachable] the reachable
      states.
    - [ViewShell]: what App returns for a state of [Console] and the parsed values of
      the recent searches; [accepted] says what an operator may do in a state.

    ** What the theorems show

    - Store: the mask hides every node taken down in all interleavings; at most
      one leader, and it is healthy, if the snapshots say so; the history is the
      last 120 points; an undisturbed action commits or rolls back exactly, and a
      refused one discards concurrent updates.
    - Hooks: both derive the same points; rates are never negative; at most one
      connection exists, a mounted hook never gets stuck, an unmounted one is
      quiet, the status follows the socket.
    - Explorer and trace runner: a request reaches the gateway's handler of the
      operation with the key and value that were entered, except for the keys the
      gateway cannot take in a path; the buttons start a command exactly when the
      handlers do; every accepted command gets exactly one row; a trace run
      ends with the right verdict and sends a request only with a healthy leader
      and majority; the stages are always consistent.
    - Consensus views: reports tell what became of the store; the interval of an
      election watch stops in time, and its log is exact if replies are prompt.
    - Notifications and palette: the notices are exactly the changes of health,
      leader and majority; the highlighted result exists; what is stored survives
      a reload.
    - Console: every component of the composed system stays in the states it reaches
      alone, so its theorems hold there; a consensus view is taken with the actions
      it started ([raft_alone], [own]), also after it was left.  The feed reports
      exactly the changes of the store ([news] compares the two stores); a kill takes effect and is reported at once; a masked node is never
      reported recovered.
    - Rendering: the screen renders whenever the stored searches have the asserted
      type, offers only tasks whose conditions hold, keys its lists distinctly, shows the status of the connection and
      the endpoint that is used; charts plot fields their rows have.
    - Storage: the text of the recent searches is read back as they were.
    - Several theorems pin down behaviour that differs from the evident intent:
      lost updates on a roll-back, unrecognised network errors, recovery shown as
      traffic, stale sockets, leader 0, node 0 in the selector, dot keys and keys
      with slashes, hidden error details, doubled election entries, log
      lines stamped when they are rendered, an example frame with wrong lengths, stored
      entries that break the search overlay.

    ** Modelling choices

    An asynchronous function is cut at its suspension points; what its closure
    captured is a record in the list of things in flight, and any of them may
    continue next.  Handlers of one turn of the event loop are atomic, as are the
    microtasks they start.  Clock readings are inputs.  Exceptions are the sum
    type [completion].  Numbers keep their binary64 rounding; ids and ports are
    integers.

    A rendered tree keeps elements, keys, handlers, enabling, texts and the classes
    that depend on state; constant styling and animation properties are erased.  In
    [Console] a change of tab mounts the new view at once, without the exit
    animation of the old one, and the tasks of unmounted views that were in flight
    still settle.  That generated notification ids differ is a hypothesis where it
    is used.

    The only fuel is in text conversion: [shortest] tries up to 18 digits, and
    binary64 needs at most 17; [decimal_exponent] starts at most three below its
    result; [json_parse] has two units per character, and [json_parse_fuel] shows
    that no other fuel reads more.  Everything else is structural recursion, or a
    step function applied to a list of events.

    ** Not modelled

    The bodies of the gateway's handlers, its redirects of paths with a final slash,
    and messages of the gateway whose node lists have malformed elements (the source
    casts them without a check).  Constant styles, drawing of charts and animation;
    formatting by locale, which is a parameter; the React root; the configuration of
    the bundler and of the style generator, which only exports constants; a WebSocket
    constructor that throws.

    ** Plan

    Next: [toString] read back by [Number] for all numbers; the second set of pages
    with its stores composed as [Console] composes App; the gateway's replies as a
    contract of the store. *)

From stdpp Require Export prelude.
From Stdlib Require Export ZArith Lia ZifyBool ZifyN ZifyNat Sorted.

(** ** Notation scope of the development *)

Declare Scope vk_scope.
Delimit Scope vk_scope with vk.
Open Scope vk_scope.

(** ** Array operations of the source language *)

(** [l.slice(-k)] for a literal [k > 0]: the last [k] elements. *)
Definition slice_last {A} (k : nat) (l : list A) : list A :=
  drop (length l - k) l.

(** [l.slice(0, k)] for a literal [k >= 0]: the first [k] elements. *)
Definition slice_first {A} (k : nat) (l : list A) : list A := take k l.

(** [l.find(p)]: the first element satisfying the predicate, or [undefined]. *)
Fixpoint array_find {A} (p : A → bool) (l : list A) : option A :=
  match l with
  | [] => None
  | x :: l' => if p x then Some x else array_find p l'
  end.

(** [l.filter(p)] with a boolean callback. *)
Fixpoint array_filter {A} (p : A → bool) (l : list A) : list A :=
  match l with
  | [] => []
  | x :: l' => if p x then x :: array_filter p l' else array_filter p l'
  end.

(** [l.map((x, i) => f(i, x))]. *)
Definition array_mapi {A B} (f : nat → A → B) (l : list A) : list B := imap f l.

(** [l[l.length - 1]]: the last element, or [undefined]. *)
Definition array_last {A} (l : list A) : option A := last l.

(** [[...l].sort((a, b) => f(a) - f(b))]: sorting is stable. *)
Fixpoint insert_by {A} (f : A → Z) (x : A) (l : list A) : list A :=
  match l with
  | [] => [x]
  | y :: l' => if (f x <=? f y)%Z then x :: l else y :: insert_by f x l'
  end.

Definition array_sort_by {A} (f : A → Z) (l : list A) : list A := foldr (insert_by f) [] l.

(** [a ?? b]. *)
Definition nullish {A} (o : option A) (d : A) : A :=
  match o with Some x => x | None => d end.

(** ** Proof automation *)

Create HintDb vk.
#[export] Hint Constants Opaque : vk.

(** Splits every [if] and [match] on a variable-free scrutinee in the goal. *)
Ltac split_ifs :=
  repeat match goal with
  | |- context [if ?b then _ else _] => destruct b eqn:?
  | |- context [match ?o with Some _ => _ | None => _ end] => destruct o eqn:?
  end.

(** The usual closing step: simplification, boolean reflection, arithmetic. *)
Ltac vk_done := simplify_eq/=; try done; try lia; eauto with vk.

(** ** Lemmas on the array operations *)

Lemma slice_last_length {A} k (l : list A) : length (slice_last k l) = min k (length l).
Proof. unfold slice_last. rewrite length_drop. lia. Qed.

Lemma slice_first_length {A} k (l : list A) : length (slice_first k l) = min k (length l).
Proof. apply length_take. Qed.

Lemma slice_last_all {A} k (l : list A) : length l ≤ k → slice_last k l = l.
Proof. intros H. unfold slice_last. replace (length l - k) with 0 by lia. done. Qed.

Lemma slice_last_snoc {A} k (l : list A) x :
  slice_last (S k) (l ++ [x]) = slice_last k l ++ [x].
Proof.
  unfold slice_last. rewrite length_app; simpl.
  replace (length l + 1 - S k) with (length l - k) by lia.
  rewrite drop_app_le by lia. done.
Qed.

Lemma slice_last_slice_last {A} j k (l : list A) :
  j ≤ k → slice_last j (slice_last k l) = slice_last j l.
Proof.
  intros H. unfold slice_last. rewrite drop_drop, length_drop. f_equal. lia.
Qed.

(** Truncating the old part first does not change a truncated concatenation. *)
Lemma take_app_take {A} n (l k : list A) : take n (l ++ take n k) = take n (l ++ k).
Proof. rewrite !take_app, take_take. do 2 f_equal. lia. Qed.

Lemma slice_last_suffix {A} k (l : list A) : slice_last k l `suffix_of` l.
Proof. unfold slice_last. exists (take (length l - k) l). by rewrite take_drop. Qed.

Lemma array_find_Some {A} (p : A → bool) l x :
  array_find p l = Some x → x ∈ l ∧ p x = true.
Proof.
  induction l as [|y l IH]; simpl; [done|].
  destruct (p y) eqn:E; intros H; simplify_eq.
  - split; [left|done].
  - destruct (IH H). split; [by right|done].
Qed.

Lemma array_find_None {A} (p : A → bool) l :
  array_find p l = None ↔ ∀ x, x ∈ l → p x = false.
Proof.
  induction l as [|y l IH]; simpl; [set_solver|].
  destruct (p y) eqn:E; split; intros H; simplify_eq.
  - exfalso. specialize (H y). rewrite E in H. by discriminate H; left.
  - intros x [->|Hx]%elem_of_cons; [done|]. by apply IH.
  - apply IH. set_solver.
Qed.

Lemma array_filter_In {A} (p : A → bool) l x :
  x ∈ array_filter p l ↔ p x = true ∧ x ∈ l.
Proof.
  induction l as [|y l IH]; simpl; [set_solver|].
  destruct (p y) eqn:E; rewrite ?elem_of_cons, IH; naive_solver congruence.
Qed.

Lemma array_filter_length {A} (p : A → bool) l :
  length (array_filter p l) ≤ length l.
Proof. induction l as [|y l IH]; simpl; [done|]. destruct (p y); simpl; lia. Qed.

Lemma array_filter_NoDup {A} (p : A → bool) l :
  NoDup l → NoDup (array_filter p l).
Proof.
  induction 1 as [|y l Hy Hl IH]; simpl; [constructor|].
  destruct (p y); [|done]. constructor; [|done].
  rewrite array_filter_In. naive_solver.
Qed.

Lemma array_filter_sublist {A} (p : A → bool) l : array_filter p l `sublist_of` l.
Proof.
  induction l as [|y l IH]; simpl; [constructor|]. destruct (p y); by constructor.
Qed.

(** If [g] determines [f], distinct values of [f] give distinct values of [g]. *)
Lemma NoDup_fmap_finer {A B C} (f : A → B) (g : A → C) l :
  (∀ x y, g x = g y → f x = f y) → NoDup (f <$> l) → NoDup (g <$> l).
Proof.
  intros Hg. induction l as [|x l IH]; [constructor|]. rewrite !fmap_cons.
  intros [Hx Hl]%NoDup_cons. constructor; [|by apply IH].
  intros (y & Hy & Hin)%list_elem_of_fmap. apply Hx. rewrite (Hg x y Hy). by apply list_elem_of_fmap_2.
Qed.

Lemma insert_by_perm {A} (f : A → Z) x l : insert_by f x l ≡ₚ x :: l.
Proof.
  induction l as [|y l IH]; [done|]. cbn [insert_by]. destruct (f x <=? f y)%Z; [done|].
  rewrite IH. apply Permutation_swap.
Qed.

Lemma array_sort_by_perm {A} (f : A → Z) l : array_sort_by f l ≡ₚ l.
Proof.
  induction l as [|x l IH]; [done|]. cbn [array_sort_by foldr]. rewrite insert_by_perm.
  by apply perm_skip.
Qed.

Lemma insert_by_sorted {A} (f : A → Z) x l :
  StronglySorted Z.le (f <$> l) → StronglySorted Z.le (f <$> insert_by f x l).
Proof.
  induction l as [|y l IH]; intros Hs; [repeat constructor|]. cbn [insert_by].
  rewrite fmap_cons in Hs. apply StronglySorted_inv in Hs as [Hs Hy].
  destruct (Z.leb_spec (f x) (f y)) as [Hle|Hlt]; rewrite fmap_cons; constructor.
  - rewrite fmap_cons. by constructor.
  - rewrite fmap_cons. constructor; [done|]. eapply Forall_impl; [exact Hy|]. lia.
  - by apply IH.
  - rewrite insert_by_perm, fmap_cons. constructor; [lia|done].
Qed.

Lemma array_sort_by_sorted {A} (f : A → Z) l : StronglySorted Z.le (f <$> array_sort_by f l).
Proof. induction l as [|x l IH]; [constructor|]. by apply insert_by_sorted. Qed.

#[export] Hint Resolve array_filter_NoDup array_filter_length : vk.
