(* ===== verification/JsNumber.v ===== *)
(** * JavaScript numbers

    A JavaScript [number] is an IEEE 754 binary64 value.  The carrier and the
    arithmetic are the executable specification of floating-point arithmetic of
    the standard library (precision 53, exponent bound 1024), so NaN, the
    infinities, signed zeros and rounding behave as in the source language.
    This file adds the parts of [Math] the console uses and the order lemmas
    its metrics rely on. *)

From Stdlib Require Import SpecFloat.
From S2P Require Import Prelude.

Local Open Scope Z_scope.

(** ** Values and arithmetic *)

Abbreviation number := spec_float.

Definition n_add (x y : number) : number := SFadd 53 1024 x y.
Definition n_sub (x y : number) : number := SFsub 53 1024 x y.
Definition n_mul (x y : number) : number := SFmul 53 1024 x y.
Definition n_div (x y : number) : number := SFdiv 53 1024 x y.

(** The comparisons [x < y], [x <= y] and [x === y] on numbers. *)
Definition n_lt (x y : number) : bool := SFltb x y.
Definition n_le (x y : number) : bool := SFleb x y.
Definition n_eq (x y : number) : bool := SFeqb x y.

(** An integer literal, rounded to the nearest representable value. *)
Definition n_of_Z (z : Z) : number := binary_normalize 53 1024 z 0 false.

(** The decimal literal [m / 10^k], correctly rounded: both operands are exact
    for the literals of the source, and the division rounds once. *)
Definition n_dec (m : Z) (k : Z) : number := n_div (n_of_Z m) (n_of_Z (10 ^ k)).

Definition is_nan (x : number) : bool :=
  match x with S754_nan => true | _ => false end.

Definition is_finite (x : number) : bool :=
  match x with S754_zero _ | S754_finite _ _ _ => true | _ => false end.

Definition n_zero : number := S754_zero false.

(** ** [Math.max] and [Math.round] *)

(** One iteration of the loop of [Math.max] on non-NaN values. *)
Definition max_step (highest x : number) : number :=
  match x, highest with
  | S754_zero false, S754_zero true => x
  | _, _ => if n_lt highest x then x else highest
  end.

Definition math_max (x y : number) : number :=
  if is_nan x || is_nan y then S754_nan
  else max_step (max_step (S754_infinity true) x) y.

(** [Math.round]: the nearest integer, ties towards +∞; values in [-0.5, 0)
    and -0 give -0, values in [0, 0.5) give +0. *)
Definition math_round (x : number) : number :=
  match x with
  | S754_finite s m e =>
      if 0 <=? e then x
      else
        let z := cond_Zopp s (Zpos m) in
        let r := (2 * z + 2 ^ (- e)) / 2 ^ (1 - e) in
        if r =? 0 then S754_zero s else n_of_Z r
  | _ => x
  end.

(** ** Sign classes *)

(** [x] carries the sign [s] and is not NaN. *)
Definition has_sign (s : bool) (x : number) : bool :=
  match x with
  | S754_zero s' | S754_infinity s' | S754_finite s' _ _ => Bool.eqb s s'
  | S754_nan => false
  end.

(** [x >= 0] as a number: a zero of either sign, or a positive value. *)
Definition ge_zero (x : number) : bool := n_le n_zero x.

(** A strictly positive number: a positive finite value or +∞. *)
Definition is_pos (x : number) : bool :=
  match x with S754_finite false _ _ | S754_infinity false => true | _ => false end.

(** The mantissa of a shift record is not negative. *)
Definition shr_nonneg (r : shr_record) : Prop := 0 <= shr_m r.

(** ** Rounding keeps the sign and never produces NaN *)

Lemma shr_1_nonneg r : shr_nonneg r → shr_nonneg (shr_1 r).
Proof. destruct r as [[|[]|] b s]; unfold shr_nonneg; simpl; lia. Qed.

Lemma iter_pos_nonneg p : ∀ r, shr_nonneg r → shr_nonneg (SpecFloat.iter_pos shr_1 p r).
Proof. induction p; simpl; auto using shr_1_nonneg. Qed.

Lemma shr_fexp_nonneg m e l :
  0 <= m → 0 <= shr_m (fst (shr_fexp 53 1024 m e l)).
Proof.
  intros Hm. unfold shr_fexp, shr.
  assert (shr_nonneg (shr_record_of_loc m l)) by (by destruct l as [|[]]).
  destruct (fexp _ _ _ - e); simpl; [done| |done]. by apply iter_pos_nonneg.
Qed.

Lemma round_nearest_even_nonneg m l : 0 <= m → 0 <= round_nearest_even m l.
Proof. destruct l as [|[]]; simpl; try destruct (Z.even m); lia. Qed.

Lemma binary_round_aux_sign s m e l :
  0 <= m → has_sign s (binary_round_aux 53 1024 s m e l) = true.
Proof.
  intros Hm. unfold binary_round_aux.
  pose proof (shr_fexp_nonneg m e l Hm) as H1.
  destruct (shr_fexp 53 1024 m e l) as [r1 e1]; simpl in H1.
  pose proof (shr_fexp_nonneg _ e1 loc_Exact
    (round_nearest_even_nonneg _ (loc_of_shr_record r1) H1)) as H2.
  destruct (shr_fexp _ _ _ e1 loc_Exact) as [r2 e2]; simpl in H2.
  destruct (shr_m r2); [|case_match|lia]; simpl; by destruct s.
Qed.

Lemma binary_round_sign s m e : has_sign s (binary_round 53 1024 s m e) = true.
Proof. unfold binary_round. case_match. by apply binary_round_aux_sign. Qed.

Lemma n_of_Z_sign z : has_sign (z <? 0) (n_of_Z z) = true.
Proof. destruct z; unfold n_of_Z; simpl; auto using binary_round_sign. Qed.

(** ** Division *)

Lemma has_sign_not_nan s x : has_sign s x = true → is_nan x = false.
Proof. by destruct x. Qed.

Lemma not_nan_has_sign x : is_nan x = false → ∃ s, has_sign s x = true.
Proof. destruct x as [s|s| |s m e]; simpl; try done; exists s; by destruct s. Qed.

Lemma div_core_nonneg m1 e1 m2 e2 :
  0 <= fst (fst (SFdiv_core_binary 53 1024 (Zpos m1) e1 (Zpos m2) e2)).
Proof.
  unfold SFdiv_core_binary.
  set (s := _ - _ - _).
  set (m' := match s with Zpos _ => _ | _ => _ end).
  assert (0 <= m') by (subst m'; destruct s; rewrite ?Z.shiftl_nonneg; lia).
  pose proof (Z.div_pos m' (Zpos m2) ltac:(done) ltac:(lia)) as Hd.
  unfold Z.div in Hd. destruct (Z.div_eucl _ _); simpl in *. lia.
Qed.

(** A quotient by a positive number keeps the sign of the dividend, unless both
    are infinite. *)
Lemma n_div_sign s x y :
  has_sign s x = true → is_pos y = true →
  is_finite x || is_finite y = true → has_sign s (n_div x y) = true.
Proof.
  intros Hx Hy Hf. unfold n_div.
  destruct x as [sx|sx| |sx mx ex], y as [sy|sy| |sy my ey]; try done;
    destruct sy; try done; simpl in *; rewrite ?xorb_false_r; try done.
  pose proof (div_core_nonneg mx ex my ey) as Hq.
  destruct (SFdiv_core_binary _ _ _ _ _ _) as [[q e] l]; simpl in Hq.
  apply Bool.eqb_prop in Hx as ->. by apply binary_round_aux_sign.
Qed.

Lemma n_div_zero_pos y : is_pos y = true → n_div n_zero y = n_zero.
Proof. by destruct y as [|[]| |[]]. Qed.

Lemma n_div_inf_inf s y : is_pos y = true → is_finite y = false → n_div (S754_infinity s) y = S754_nan.
Proof. by destruct y as [|[]| |[]]. Qed.

Lemma n_div_nan_r x : n_div x S754_nan = S754_nan.
Proof. by destruct x. Qed.

(** ** [Math.max] *)

Lemma math_max_nan_l x : math_max S754_nan x = S754_nan.
Proof. done. Qed.

Lemma math_max_nan_r x : math_max x S754_nan = S754_nan.
Proof. by destruct x. Qed.

Lemma math_max_zero_neg x : has_sign true x = true → math_max n_zero x = n_zero.
Proof. by destruct x as [[]|[]| |[]]. Qed.

Lemma math_max_zero_pos x : has_sign false x = true → math_max n_zero x = x.
Proof. by destruct x as [[]|[]| |[]]. Qed.

(** [Math.max(0, x)] is +0 or positive for every [x] that is a number. *)
Lemma math_max_zero_sign x : is_nan x = false → has_sign false (math_max n_zero x) = true.
Proof. by destruct x as [[]|[]| |[]]. Qed.

(** [Math.max(c, x)] with a positive literal [c] is positive, or NaN. *)
Lemma math_max_pos_l c x : is_pos c = true → is_nan x = false → is_pos (math_max c x) = true.
Proof.
  destruct c as [|[]| |[]]; try done; intros _;
    destruct x as [[]|[]| |[]]; try done; intros _; unfold math_max, max_step; simpl;
    by case_match.
Qed.

Lemma n_le_refl x : is_nan x = false → n_le x x = true.
Proof.
  destruct x as [[]|[]| |[] m e]; try done; intros _; unfold n_le, SFleb; simpl;
    by rewrite Z.compare_refl, Pos.compare_cont_refl.
Qed.

Lemma n_lt_le x y : n_lt x y = true → n_le x y = true.
Proof. unfold n_lt, n_le, SFltb, SFleb. by destruct (SFcompare x y) as [[]|]. Qed.

Lemma max_step_ge x y :
  is_nan x = false → n_le x (max_step x y) = true.
Proof.
  intros Hx. unfold max_step.
  assert (n_le x (if n_lt x y then y else x) = true) as Hif.
  { destruct (n_lt x y) eqn:E; auto using n_lt_le, n_le_refl. }
  destruct y as [[]|[]| |[]]; try done; by destruct x as [[]|[]| |[]].
Qed.

(** [Math.max(x, y)] is at least [x]. *)
Lemma math_max_ge_l x y :
  is_nan x = false → is_nan y = false → n_le x (math_max x y) = true.
Proof.
  intros Hx Hy. unfold math_max. rewrite Hx, Hy. simpl.
  replace (max_step (S754_infinity true) x) with x by by destruct x as [[]|[]| |[]].
  by apply max_step_ge.
Qed.

(** ** Multiplication *)

(** A product by a positive finite number is NaN only if the other factor is. *)
Lemma n_mul_not_nan x y :
  is_nan x = false → is_pos y = true → is_finite y = true → is_nan (n_mul x y) = false.
Proof.
  intros Hx Hp Hf. destruct y as [|[]| |[] my ey]; try done.
  destruct x as [|[]| |sx mx ex]; try done.
  eapply has_sign_not_nan, binary_round_aux_sign. lia.
Qed.

(** ** [Math.round] *)

Lemma math_round_sign s x : has_sign s x = true → has_sign s (math_round x) = true.
Proof.
  destruct x as [s'|s'| |s' m e]; try done. simpl. intros ->%Bool.eqb_prop.
  destruct (Z.leb_spec 0 e) as [He|He]; [by destruct s'|].
  set (z := cond_Zopp s' (Zpos m)). set (r := (2 * z + 2 ^ (- e)) / 2 ^ (1 - e)).
  destruct (Z.eqb_spec r 0) as [_|Hr]; [by destruct s'|].
  assert (0 < 2 ^ (- e)) by (apply Z.pow_pos_nonneg; lia).
  assert (2 ^ (1 - e) = 2 * 2 ^ (- e)) as Hp.
  { replace (1 - e) with (Z.succ (- e)) by lia. rewrite Z.pow_succ_r; lia. }
  replace s' with (r <? 0); [apply n_of_Z_sign|].
  subst r z. rewrite Hp in *. destruct s'; simpl in *.
  - apply Z.ltb_lt. apply Z.le_neq; split; [|done].
    apply Z.lt_succ_r, Z.div_lt_upper_bound; lia.
  - apply Z.ltb_ge. apply Z.div_pos; lia.
Qed.

(** Clamping before or after dividing and rounding gives the same rate, except
    when the difference and the interval are both infinite. *)
Lemma rate_clamp_commutes d dt :
  is_pos dt = true ∨ is_nan dt = true →
  (has_sign true d && negb (is_finite d) && negb (is_finite dt) = false) ∨ is_nan dt = true →
  math_max n_zero (math_round (n_div d dt)) = math_round (n_div (math_max n_zero d) dt).
Proof.
  intros Hdt Hinf.
  destruct (is_nan dt) eqn:Hn.
  { destruct dt; try done. by rewrite !n_div_nan_r. }
  destruct Hdt as [Hdt|?]; [|done]. destruct Hinf as [Hinf|?]; [|done].
  destruct (is_nan d) eqn:Hd; [by destruct d|].
  destruct (not_nan_has_sign d Hd) as [[] Hs].
  - rewrite (math_max_zero_neg d), n_div_zero_pos by done.
    change (math_round n_zero) with n_zero. apply math_max_zero_neg, math_round_sign, n_div_sign; [done..|].
    rewrite Hs in Hinf. by destruct (is_finite d), (is_finite dt).
  - rewrite (math_max_zero_pos d) by done.
    destruct (is_finite d || is_finite dt) eqn:Hf.
    + by apply math_max_zero_pos, math_round_sign, n_div_sign.
    + apply orb_false_elim in Hf as [Hf Hf'].
      destruct d as [[]|[]| |[]]; try done.
      by rewrite n_div_inf_inf by done.
Qed.

#[export] Hint Resolve math_max_zero_sign math_max_pos_l math_round_sign n_div_sign : vk.
