(* ===== verification/Rounding.v ===== *)
(** * Rounding to the nearest even number

    What the rounding step of binary64 computes: the exact value, an integer
    multiple of a power of two, is divided by a power of two and rounded to the
    nearest integer.  From this description follow that rounding preserves the
    order, that a product grows with its factor, and that integers below 2^53 are
    exact. *)

From Stdlib Require Import SpecFloat.
From S2P Require Import Prelude JsNumber.

Local Open Scope Z_scope.

(** ** Rounding a quotient *)

(** [m / 2^d] rounded to the nearest integer, ties to even. *)
Definition rne (m d : Z) : Z :=
  let q := m / 2 ^ d in let r := m mod 2 ^ d in
  match 2 * r ?= 2 ^ d with
  | Lt => q
  | Eq => if Z.even q then q else q + 1
  | Gt => q + 1
  end.

(** The exponent of the result of rounding [m * 2^e]. *)
Definition place (m e : Z) : Z := fexp 53 1024 (Zdigits2 m + e).

(** The number with mantissa [q] and exponent [c], after the carry. *)
Definition pack (s : bool) (q c : Z) : number :=
  match q with
  | Zpos m => if c <=? 971 then S754_finite s m c else S754_infinity s
  | _ => S754_zero s
  end.

(** A mantissa that rounds up to 2^53 moves to the next binade. *)
Definition carry (q c : Z) : Z * Z := if q =? 2 ^ 53 then (2 ^ 52, c + 1) else (q, c).

(** A mantissa of the right size for its exponent. *)
Definition canonical (q c : Z) : Prop :=
  0 <= q < 2 ^ 53 ∧ -1074 <= c ∧ (-1074 < c → 2 ^ 52 <= q).

(** ** Digits *)

Lemma digits_log2 p : Zpos (digits2_pos p) = Z.log2 (Zpos p) + 1.
Proof.
  induction p as [p IH|p IH|]; [| |done]; cbn [digits2_pos]; rewrite Pos2Z.inj_succ, IH.
  - rewrite Pos2Z.inj_xI, Z.log2_succ_double by lia. lia.
  - rewrite Pos2Z.inj_xO, Z.log2_double by lia. lia.
Qed.

Lemma Zdigits2_log2 m : 0 < m → Zdigits2 m = Z.log2 m + 1.
Proof. destruct m; [lia| |lia]. intros _. apply digits_log2. Qed.

Lemma place_eq m e : 0 < m → place m e = Z.max (Z.log2 m + e - 52) (-1074).
Proof. intros Hm. unfold place, fexp, emin. rewrite Zdigits2_log2 by done. lia. Qed.

(** ** Shifting a mantissa right *)

(** The record after dropping [d] bits of [m]: the quotient, the half bit, and
    whether anything is below it. *)
Definition bits (m d : Z) (r : shr_record) : Prop :=
  shr_m r = m / 2 ^ d ∧
  ∃ x, 0 <= x < 2 ^ d ∧ m mod 2 ^ d = x ∧
    (if shr_r r then 2 ^ d <= 2 * x ∧ (shr_s r = false ↔ 2 * x = 2 ^ d)
     else 2 * x < 2 ^ d ∧ (shr_s r = false ↔ x = 0)).

Lemma bits_start m : bits m 0 {| shr_m := m; shr_r := false; shr_s := false |}.
Proof. split; cbn; [by rewrite Z.div_1_r|]. exists 0. rewrite Z.mod_1_r. lia. Qed.

Lemma shr_1_div r : 0 <= shr_m r → shr_m (shr_1 r) = shr_m r / 2 ∧ shr_r (shr_1 r) = Z.odd (shr_m r).
Proof.
  destruct r as [m rr s]. cbn [shr_m]. intros Hm. rewrite <-Z.div2_div.
  by destruct m as [|[]|].
Qed.

Lemma shr_1_sticky r : shr_s (shr_1 r) = shr_r r || shr_s r.
Proof. by destruct r as [[|[]|[]] [] []]. Qed.

Lemma bits_step m d r : 0 <= m → 0 <= d → bits m d r → bits m (d + 1) (shr_1 r).
Proof.
  intros Hm Hd (Hq & x & Hx & Hmod & Hbits).
  assert (0 < 2 ^ d) by (apply Z.pow_pos_nonneg; lia).
  assert (0 <= m / 2 ^ d) by (apply Z.div_pos; lia).
  destruct (shr_1_div r ltac:(lia)) as [Hq' Hr]. unfold bits.
  rewrite Hq', Hr, shr_1_sticky, Hq, Z.pow_add_r, Z.pow_1_r by lia. split.
  { by rewrite Z.div_div by lia. }
  exists (2 ^ d * (m / 2 ^ d mod 2) + x).
  rewrite Z.rem_mul_r, Hmod by lia. rewrite Zmod_odd. split; [|split; [lia|]].
  - clear -Hx. destruct (Z.odd _); lia.
  - clear -Hx Hbits. destruct (Z.odd _), (shr_r r), (shr_s r); cbn [orb]; destruct Hbits as [? [? ?]];
      (split; [lia|]); split; intros; try done; lia.
Qed.

Lemma iter_pos_plus {A} (f : A → A) p x : SpecFloat.iter_pos f p x = Pos.iter f x p.
Proof.
  revert x. induction p as [p IH|p IH|]; intros x; cbn [SpecFloat.iter_pos Pos.iter]; [|..|done];
    rewrite !IH; [|done]. f_equal. by rewrite <-!Pos.iter_swap.
Qed.

Lemma bits_iter m p : 0 <= m →
  bits m (Zpos p) (SpecFloat.iter_pos shr_1 p {| shr_m := m; shr_r := false; shr_s := false |}).
Proof.
  intros Hm. rewrite iter_pos_plus.
  induction p as [|p IH] using Pos.peano_ind; [apply (bits_step m 0); [done..|apply bits_start]|].
  rewrite Pos.iter_succ, Pos2Z.inj_succ. by apply bits_step.
Qed.

Lemma bits_rne m d r : bits m d r → round_nearest_even (shr_m r) (loc_of_shr_record r) = rne m d.
Proof.
  intros (Hq & x & Hx & Hmod & Hbits). unfold rne. rewrite Hmod, <-Hq.
  destruct r as [q [] []]; cbn [shr_m shr_r shr_s loc_of_shr_record round_nearest_even] in *;
    destruct Hbits as [? Hs], (Z.compare_spec (2 * x) (2 ^ d)); destruct Hs; try done; lia.
Qed.

(** ** Order *)

Lemma pow2_pos d : 0 <= d → 0 < 2 ^ d.
Proof. intros. apply Z.pow_pos_nonneg; lia. Qed.

Lemma rne_bounds m d : 0 <= d → m / 2 ^ d <= rne m d <= m / 2 ^ d + 1.
Proof. intros Hd. unfold rne. destruct (_ ?= _); [destruct (Z.even _)|..]; lia. Qed.

Lemma rne_mono m n d : 0 <= d → m <= n → rne m d <= rne n d.
Proof.
  intros Hd Hmn. pose proof (pow2_pos d Hd) as Hp.
  pose proof (Z.div_le_mono m n (2 ^ d) Hp Hmn) as Hq.
  destruct (Z.eq_dec (m / 2 ^ d) (n / 2 ^ d)) as [Heq|];
    [|pose proof (rne_bounds m d Hd); pose proof (rne_bounds n d Hd); lia].
  pose proof (Z.div_mod m (2 ^ d) ltac:(lia)) as Hm. pose proof (Z.div_mod n (2 ^ d) ltac:(lia)) as Hn.
  unfold rne. rewrite Heq in *. revert Hm Hn.
  generalize (n / 2 ^ d), (m mod 2 ^ d), (n mod 2 ^ d). intros q r t Hm Hn.
  assert (r <= t) by lia. clear Hm Hn.
  destruct (Z.compare_spec (2 * r) (2 ^ d)), (Z.compare_spec (2 * t) (2 ^ d)); destruct (Z.even q); lia.
Qed.

Lemma rne_exact q d : 0 <= d → rne (q * 2 ^ d) d = q.
Proof.
  intros Hd. pose proof (pow2_pos d Hd). unfold rne. rewrite Z.div_mul, Z.mod_mul by lia.
  destruct (Z.compare_spec (2 * 0) (2 ^ d)); lia.
Qed.

Lemma rne_0 m : rne m 0 = m.
Proof. rewrite <-(Z.mul_1_r m) at 1. by apply (rne_exact m 0). Qed.

(** Scaling the value and the divisor alike. *)
Lemma rne_scale m d k : 0 <= d → 0 <= k → rne (m * 2 ^ k) (d + k) = rne m d.
Proof.
  intros Hd Hk. pose proof (pow2_pos d Hd). pose proof (pow2_pos k Hk). unfold rne.
  rewrite Z.pow_add_r, Z.div_mul_cancel_r, Z.mul_mod_distr_r by lia.
  replace (2 * (m mod 2 ^ d * 2 ^ k)) with (2 * (m mod 2 ^ d) * 2 ^ k) by lia.
  by rewrite <-Zmult_compare_compat_r by lia.
Qed.

(** A power of two is a bound that rounding respects. *)
Lemma rne_below m d k : 0 <= d → d <= k → m <= 2 ^ k → rne m d <= 2 ^ (k - d).
Proof.
  intros Hd Hk Hm. rewrite <-(rne_exact (2 ^ (k - d)) d) by done. apply rne_mono; [done|].
  rewrite <-Z.pow_add_r by lia. by replace (k - d + d) with k by lia.
Qed.

Lemma rne_above m d k : 0 <= d → d <= k → 2 ^ k <= m → 2 ^ (k - d) <= rne m d.
Proof.
  intros Hd Hk Hm. rewrite <-(rne_exact (2 ^ (k - d)) d) by done. apply rne_mono; [done|].
  rewrite <-Z.pow_add_r by lia. by replace (k - d + d) with k by lia.
Qed.

(** ** The rounding step *)

Section Place.

Context (m e : Z) (Hm : 0 < m) (He : e <= place m e).

Let c := place m e.
Let q := rne m (c - e).

Lemma place_ge : -1074 <= c ∧ Z.log2 m + e - 52 <= c.
Proof. subst c. rewrite place_eq by done. lia. Qed.

Lemma rounded_upper : 0 <= q <= 2 ^ 53.
Proof.
  assert (e <= c) by apply He. split.
  - pose proof (rne_bounds m (c - e) ltac:(lia)). subst q.
    pose proof (Z.div_pos m (2 ^ (c - e)) ltac:(lia) (pow2_pos (c - e) ltac:(lia))). lia.
  - destruct place_ge as [_ Hc]. pose proof (Z.log2_spec m Hm) as [_ Hl].
    replace 53 with (c + 53 - e - (c - e)) by lia. apply rne_below; [lia..|].
    transitivity (2 ^ Z.succ (Z.log2 m)); [lia|]. apply Z.pow_le_mono_r; lia.
Qed.

Lemma rounded_lower : -1074 < c → 2 ^ 52 <= q.
Proof.
  assert (e <= c) by apply He. intros Hc. assert (c = Z.log2 m + e - 52) as Hceq by (subst c; rewrite place_eq in * by done; lia).
  pose proof (Z.log2_spec m Hm) as [Hl _].
  replace 52 with (Z.log2 m - (c - e)) by lia. apply rne_above; [lia..|done].
Qed.

Lemma carry_canonical : let '(q', c') := carry q c in canonical q' c'.
Proof.
  pose proof place_ge. pose proof rounded_upper. pose proof rounded_lower.
  unfold carry, canonical. destruct (Z.eqb_spec q (2 ^ 53)); lia.
Qed.

Lemma shr_fexp_first : ∃ r, shr_fexp 53 1024 m e loc_Exact = (r, c) ∧ bits m (c - e) r.
Proof.
  assert (e <= c) by apply He. unfold shr_fexp, shr. change (shr_record_of_loc m loc_Exact) with (Build_shr_record m false false).
  fold (place m e). fold c. destruct (c - e) as [|p|p] eqn:E; [| |lia].
  - exists (Build_shr_record m false false). split; [f_equal; lia|apply bits_start].
  - eexists. split; [f_equal; lia|]. apply bits_iter. lia.
Qed.

End Place.

Lemma fexp_53 x : fexp 53 1024 x = Z.max (x - 53) (-1074).
Proof. done. Qed.

Lemma shr_fexp_again q c :
  0 <= q <= 2 ^ 53 → -1074 <= c →
  let '(r, c') := shr_fexp 53 1024 q c loc_Exact in (shr_m r, c') = carry q c.
Proof.
  intros Hq Hc. unfold shr_fexp. change (shr_record_of_loc q loc_Exact) with (Build_shr_record q false false).
  rewrite fexp_53. unfold carry. destruct (Z.eqb_spec q (2 ^ 53)) as [->|Hne].
  - change (Zdigits2 (2 ^ 53)) with 54. replace (Z.max (54 + c - 53) (-1074) - c) with 1 by lia. done.
  - assert (Zdigits2 q <= 53) as Hd.
    { destruct (Z.eq_dec q 0) as [->|]; [done|]. rewrite Zdigits2_log2 by lia.
      pose proof (Z.log2_lt_pow2 q 53 ltac:(lia)). lia. }
    unfold shr. destruct (Z.max (Zdigits2 q + c - 53) (-1074) - c) eqn:E; [done|lia|done].
Qed.

(** Rounding an exact value is [rne] at the place of the value. *)
Lemma round_exact s m e :
  0 < m → e <= place m e →
  binary_round_aux 53 1024 s m e loc_Exact =
  let '(q, c) := carry (rne m (place m e - e)) (place m e) in pack s q c.
Proof.
  intros Hm He. unfold binary_round_aux.
  destruct (shr_fexp_first m e Hm He) as (r & -> & Hr). rewrite (bits_rne _ _ _ Hr).
  pose proof (shr_fexp_again (rne m (place m e - e)) (place m e) (rounded_upper m e Hm He)
    (proj1 (place_ge m e Hm))) as Ha.
  pose proof (carry_canonical m e Hm He) as Hc.
  destruct (shr_fexp _ _ _ (place m e) loc_Exact) as [r' c']. rewrite <-Ha in *.
  unfold pack. destruct (shr_m r'); [done|done|]. destruct Hc as [Hc _]. lia.
Qed.

(** ** Comparing results *)

Lemma canonical_exponent q c :
  canonical q c → 0 < q → c = Z.max (Z.log2 (q * 2 ^ (c + 1074)) - 1126) (-1074).
Proof.
  intros (Hq & Hc & Hn) Hpos. rewrite Z.log2_mul_pow2 by lia.
  destruct (Z.eq_dec c (-1074)) as [->|Hne].
  - pose proof (Z.log2_lt_pow2 q 53 Hpos). lia.
  - assert (Z.log2 q = 52); [|lia].
    apply Z.log2_unique; [lia|]. change (2 ^ Z.succ 52) with (2 ^ 53). lia.
Qed.

(** Canonical pairs are compared like their values. *)
Lemma pack_mono q1 c1 q2 c2 :
  canonical q1 c1 → canonical q2 c2 → q1 * 2 ^ (c1 + 1074) <= q2 * 2 ^ (c2 + 1074) →
  n_le (pack false q1 c1) (pack false q2 c2) = true.
Proof.
  intros H1 H2 Hle. pose proof H1 as (Hq1 & Hc1 & _). pose proof H2 as (Hq2 & Hc2 & _).
  pose proof (pow2_pos (c1 + 1074) ltac:(lia)). pose proof (pow2_pos (c2 + 1074) ltac:(lia)).
  destruct q1 as [|p1|]; [|..|lia]; destruct q2 as [|p2|]; [done| |lia|nia| |lia];
    unfold pack; [by destruct (c2 <=? 971)|].
  assert (c1 <= c2) as Hc.
  { rewrite (canonical_exponent _ _ H1), (canonical_exponent _ _ H2) by lia.
    pose proof (Z.log2_le_mono _ _ Hle). lia. }
  destruct (Z.leb_spec c1 971), (Z.leb_spec c2 971); try lia; [|done|done].
  unfold n_le, SFleb. cbn [SFcompare]. destruct (Z.compare_spec c1 c2) as [->| |]; [|done|lia].
  change (Pos.compare_cont Eq p1 p2) with (Pos.compare p1 p2).
  destruct (Pos.compare_spec p1 p2); [done|done|nia].
Qed.

Lemma carry_value q c :
  -1074 <= c → (carry q c).1 * 2 ^ ((carry q c).2 + 1074) = q * 2 ^ (c + 1074).
Proof.
  intros Hc. unfold carry. destruct (Z.eqb_spec q (2 ^ 53)) as [->|]; [|done]. cbn [fst snd].
  rewrite <-!Z.pow_add_r by lia. f_equal. lia.
Qed.

Lemma place_mono m n e : 0 < m → m <= n → place m e <= place n e.
Proof.
  intros Hm Hn. rewrite !place_eq by lia. pose proof (Z.log2_le_mono _ _ Hn). lia.
Qed.

(** Rounding preserves the order of values with a common exponent. *)
Lemma rne_place_mono m n e :
  0 < m → m <= n → e <= place m e →
  rne m (place m e - e) * 2 ^ (place m e + 1074) <= rne n (place n e - e) * 2 ^ (place n e + 1074).
Proof.
  intros Hm Hn He. pose proof (place_mono m n e Hm Hn) as Hc.
  destruct (place_ge m e Hm) as [H1 H1'].
  destruct (Z.eq_dec (place m e) (place n e)) as [Heq|Hne].
  { rewrite <-Heq. apply Z.mul_le_mono_nonneg_r; [apply Z.lt_le_incl, pow2_pos; lia|].
    apply rne_mono; [lia|done]. }
  pose proof (rounded_lower n e ltac:(lia) ltac:(lia) ltac:(lia)) as Hlow.
  pose proof (Z.log2_spec m Hm) as [_ Hl]. set (k := Z.max (Z.log2 m + 1) (place m e - e)).
  pose proof (rne_below m (place m e - e) k ltac:(lia) ltac:(lia)) as Hup.
  assert (m <= 2 ^ k) as Hmk.
  { transitivity (2 ^ Z.succ (Z.log2 m)); [lia|]. apply Z.pow_le_mono_r; lia. }
  specialize (Hup Hmk). pose proof (place_eq n e ltac:(lia)).
  transitivity (2 ^ (k - (place m e - e)) * 2 ^ (place m e + 1074)).
  { apply Z.mul_le_mono_nonneg_r; [apply Z.lt_le_incl, pow2_pos; lia|done]. }
  transitivity (2 ^ 52 * 2 ^ (place n e + 1074)).
  - rewrite <-!Z.pow_add_r by lia. apply Z.pow_le_mono_r; lia.
  - apply Z.mul_le_mono_nonneg_r; [apply Z.lt_le_incl, pow2_pos; lia|done].
Qed.

Lemma round_mono_common m n e :
  0 < m → m <= n → e <= place m e →
  n_le (binary_round_aux 53 1024 false m e loc_Exact) (binary_round_aux 53 1024 false n e loc_Exact) = true.
Proof.
  intros Hm Hn He. pose proof (place_mono m n e Hm Hn) as Hc.
  rewrite !round_exact by lia.
  pose proof (carry_canonical m e Hm He) as H1. pose proof (carry_canonical n e ltac:(lia) ltac:(lia)) as H2.
  pose proof (carry_value (rne m (place m e - e)) _ (proj1 (place_ge m e Hm))) as V1.
  pose proof (carry_value (rne n (place n e - e)) _ (proj1 (place_ge n e ltac:(lia)))) as V2.
  destruct (carry (rne m _) _) as [q1 c1], (carry (rne n _) _) as [q2 c2]. cbn [fst snd] in *.
  apply pack_mono; [done..|]. rewrite V1, V2. by apply rne_place_mono.
Qed.

(** The result depends on the value only. *)
Lemma round_scale s m e k :
  0 < m → 0 <= k → e <= place m e →
  binary_round_aux 53 1024 s (m * 2 ^ k) (e - k) loc_Exact = binary_round_aux 53 1024 s m e loc_Exact.
Proof.
  intros Hm Hk He. pose proof (pow2_pos k Hk).
  assert (place (m * 2 ^ k) (e - k) = place m e) as Hp.
  { rewrite !place_eq, Z.log2_mul_pow2 by nia. f_equal. lia. }
  rewrite !round_exact by (rewrite ?Hp; nia). rewrite Hp.
  replace (place m e - (e - k)) with (place m e - e + k) by lia. by rewrite rne_scale by lia.
Qed.

(** ** Products *)

(** A positive number with a full mantissa. *)
Definition is_normal (x : number) : bool :=
  match x with S754_finite false m _ => (digits2_pos m =? 53)%positive | _ => false end.

Lemma normal_mantissa m e :
  is_normal (S754_finite false m e) = true → 2 ^ 52 <= Zpos m < 2 ^ 53.
Proof.
  cbn [is_normal]. intros Hd%Pos.eqb_eq. pose proof (digits_log2 m) as Hl. rewrite Hd in Hl.
  pose proof (Z.log2_spec (Zpos m) ltac:(lia)) as Hs.
  replace (Z.log2 (Zpos m)) with 52 in Hs by lia. exact Hs.
Qed.

Lemma product_place m n e : 0 < m → 2 ^ 52 <= n → e <= place (m * n) e.
Proof.
  intros Hm Hn. rewrite place_eq by nia.
  assert (52 <= Z.log2 (m * n)); [|lia]. apply Z.log2_le_pow2; nia.
Qed.

(** A product by a larger factor is at least as large. *)
Lemma n_mul_mono x a b :
  has_sign false x = true → is_normal a = true → is_normal b = true → n_le a b = true →
  n_le (n_mul x a) (n_mul x b) = true.
Proof.
  intros Hx Ha Hb Hab.
  destruct a as [| | |[] ma ea], b as [| | |[] mb eb]; try done.
  destruct x as [[]|[]| |[] mx ex]; try done.
  apply normal_mantissa in Ha, Hb.
  assert (ea <= eb ∧ Zpos ma <= Zpos mb * 2 ^ (eb - ea)) as [He Hm].
  { revert Hab. unfold n_le, SFleb. cbn [SFcompare].
    destruct (Z.compare_spec ea eb) as [->|Hlt|]; [|intros _|done].
    - change (Pos.compare_cont Eq ma mb) with (Pos.compare ma mb). rewrite Z.sub_diag.
      destruct (Pos.compare_spec ma mb); try done; lia.
    - split; [lia|]. pose proof (Z.pow_le_mono_r 2 1 (eb - ea) ltac:(lia) ltac:(lia)). nia. }
  unfold n_mul. cbn [SFmul xorb].
  rewrite <-(round_scale false (Zpos (mx * mb)) (ex + eb) (eb - ea)); [|lia|lia|].
  2: { rewrite Pos2Z.inj_mul. apply product_place; lia. }
  replace (ex + eb - (eb - ea)) with (ex + ea) by lia.
  apply round_mono_common; rewrite ?Pos2Z.inj_mul; [lia|nia|]. apply product_place; lia.
Qed.

(** ** Order of numbers and [Math.max] *)

Lemma n_le_trans x y z : n_le x y = true → n_le y z = true → n_le x z = true.
Proof.
  unfold n_le, SFleb. destruct x as [[]|[]| |[] m1 e1], y as [[]|[]| |[] m2 e2], z as [[]|[]| |[] m3 e3];
    cbn [SFcompare]; try done;
    change (Pos.compare_cont Eq) with Pos.compare;
    destruct (Z.compare_spec e1 e2), (Z.compare_spec e2 e3), (Z.compare_spec e1 e3); try done; try lia;
    destruct (Pos.compare_spec m1 m2), (Pos.compare_spec m2 m3), (Pos.compare_spec m1 m3); try done; lia.
Qed.

Lemma n_not_lt_le x y : is_nan x = false → is_nan y = false → n_lt x y = false → n_le y x = true.
Proof.
  unfold n_lt, n_le, SFltb, SFleb.
  destruct x as [[]|[]| |[] m1 e1], y as [[]|[]| |[] m2 e2]; cbn [SFcompare is_nan]; try done;
    change (Pos.compare_cont Eq) with Pos.compare;
    destruct (Z.compare_spec e1 e2), (Z.compare_spec e2 e1); try done; try lia;
    destruct (Pos.compare_spec m1 m2), (Pos.compare_spec m2 m1); try done; lia.
Qed.

Lemma math_max_pos c x :
  is_pos c = true → is_nan x = false → math_max c x = if n_lt c x then x else c.
Proof.
  intros Hc Hx. unfold math_max. rewrite Hx. destruct c as [|[]| |[]]; try done;
    destruct x as [[]|[]| |[]]; done.
Qed.

(** A larger bound and a larger argument give a larger maximum. *)
Lemma math_max_mono c d x y :
  is_pos c = true → is_pos d = true → is_nan x = false → is_nan y = false →
  n_le c d = true → n_le x y = true → n_le (math_max c x) (math_max d y) = true.
Proof.
  intros Hc Hd Hx Hy Hcd Hxy. rewrite !math_max_pos by done.
  destruct (n_lt c x), (n_lt d y) eqn:E; [done| | |done].
  - apply n_not_lt_le in E; [by eapply n_le_trans|by destruct d|done].
  - eapply n_le_trans; [done|]. by apply n_lt_le.
Qed.

(** [Math.max(c, x * a)] grows with the literals [c] and [a], whatever the sign
    of [x]. *)
Lemma scaled_max_mono c d a b x :
  is_pos c = true → is_pos d = true → n_le c d = true →
  is_normal a = true → is_normal b = true → n_le a b = true → is_nan x = false →
  n_le (math_max c (n_mul x a)) (math_max d (n_mul x b)) = true.
Proof.
  intros Hc Hd Hcd Ha Hb Hab Hx.
  assert (∀ y, is_normal y = true → is_nan (n_mul x y) = false) as Hn.
  { intros y Hy. apply n_mul_not_nan; [done|by destruct y as [| | |[]]..]. }
  destruct (not_nan_has_sign x Hx) as [[] Hs]; [|by apply math_max_mono; auto using n_mul_mono].
  assert (∀ y, is_normal y = true → has_sign true (n_mul x y) = true) as Hneg.
  { intros [| | |[] m e]; try done. destruct x as [[]|[]| |[]]; try done.
    intros _. by apply binary_round_aux_sign. }
  assert (∀ k y, is_pos k = true → has_sign true y = true → math_max k y = k) as Hmax.
  { intros k y Hk Hy. by destruct k as [|[]| |[]], y as [[]|[]| |[]]. }
  by rewrite !Hmax by auto.
Qed.

(** ** Integers *)

Lemma iter_xO m d : Zpos (Pos.iter xO m d) = Zpos m * 2 ^ Zpos d.
Proof.
  induction d as [|d IH] using Pos.peano_ind; [cbn; lia|].
  rewrite Pos.iter_succ, Pos2Z.inj_xO, IH, Pos2Z.inj_succ, Z.pow_succ_r; lia.
Qed.

(** A positive integer below 2^53 is the number with that value. *)
Lemma n_of_Z_exact p :
  Zpos p < 2 ^ 53 →
  ∃ m e, n_of_Z (Zpos p) = S754_finite false m e ∧ -52 <= e <= 0 ∧ Zpos m = Zpos p * 2 ^ (- e).
Proof.
  intros Hp. unfold n_of_Z, binary_normalize, binary_round, shl_align.
  pose proof (Z.log2_nonneg (Zpos p)). assert (Z.log2 (Zpos p) <= 52).
  { pose proof (Z.log2_lt_pow2 (Zpos p) 53 ltac:(lia)). lia. }
  rewrite digits_log2, fexp_53. set (e := Z.log2 (Zpos p) - 52).
  replace (Z.max _ _) with e by lia. rewrite Z.sub_0_r.
  assert (∀ mz, Zpos mz = Zpos p * 2 ^ (- e) →
    binary_round_aux 53 1024 false (Zpos mz) e loc_Exact = S754_finite false mz e) as Hr.
  { intros mz Hmz. assert (place (Zpos mz) e = e) as Hpl.
    { rewrite place_eq, Hmz, Z.log2_mul_pow2 by lia. lia. }
    rewrite round_exact, Hpl, Z.sub_diag, rne_0 by lia. unfold carry, pack.
    destruct (Z.eqb_spec (Zpos mz) (2 ^ 53)) as [Heq|_]; [|destruct (Z.leb_spec e 971); [done|lia]].
    exfalso. apply (f_equal Z.log2) in Heq. rewrite Hmz, Z.log2_mul_pow2 in Heq by lia.
    change (Z.log2 (2 ^ 53)) with 53 in Heq. lia. }
  destruct e as [|d|d] eqn:E; [|lia|].
  - exists p, 0. rewrite Hr by lia. split_and!; [done|lia..].
  - exists (Pos.iter xO p d), (Zneg d). rewrite Hr by apply iter_xO. split_and!; [done|lia|lia|apply iter_xO].
Qed.

(** The integer a number stands for, if it is one. *)
Definition n_to_Z (x : number) : option Z :=
  match x with
  | S754_zero _ => Some 0
  | S754_finite s m e =>
      if 0 <=? e then Some (cond_Zopp s (Zpos m * 2 ^ e))
      else if Zpos m mod 2 ^ (- e) =? 0 then Some (cond_Zopp s (Zpos m / 2 ^ (- e)))
      else None
  | _ => None
  end.

Lemma n_to_Z_of_Z z : 0 <= z < 2 ^ 53 → n_to_Z (n_of_Z z) = Some z.
Proof.
  destruct z as [|p|p]; [done| |lia]. intros [_ Hp].
  destruct (n_of_Z_exact p Hp) as (m & e & -> & He & Hm). cbn [n_to_Z cond_Zopp].
  pose proof (pow2_pos (- e) ltac:(lia)).
  destruct (Z.leb_spec 0 e).
  - replace e with 0 in * by lia. f_equal. lia.
  - rewrite Hm, Z.mod_mul, Z.div_mul by lia. done.
Qed.
