(* ===== verification/JsString.v ===== *)
(** * JavaScript strings

    A string is the list of its UTF-16 code units.  The file models the
    [String.prototype] methods, the number-to-string conversion of integers and
    [encodeURIComponent] the console uses.  Lower-casing of strings with
    non-ASCII characters needs the Unicode tables and is a field of the
    [Platform] class; ASCII strings are lowered here. *)

From stdpp Require Import pretty.
From Stdlib Require Import Ascii String.
Export Stdlib.Strings.String.StringSyntax.
From S2P Require Import Prelude.

Local Open Scope N_scope.
Local Open Scope list_scope.

(** ** Strings and literals *)

Abbreviation jsstring := (list N).

(** The code units of an ASCII literal. *)
Fixpoint js (s : string) : jsstring :=
  match s with
  | EmptyString => []
  | String a s' => N_of_ascii a :: js s'
  end.

Notation "« s »" := (js s%string) (at level 0, s at level 200) : vk_scope.

(** Code units of well-formed strings are 16 bits wide. *)
Definition units_ok (s : jsstring) : Prop := Forall (λ c, c < 65536) s.

(** [`${n}`] for an integer below 10^21 in absolute value: its decimal digits. *)
Definition show_Z (z : Z) : jsstring := js (pretty z).

(** [`${n}`] for an array length or index. *)
Definition show_nat (n : nat) : jsstring := js (pretty n).

Definition slash : N := 47.
Definition percent : N := 37.

(** ** Prefix, substring *)

Definition jeqb (s t : jsstring) : bool := bool_decide (s = t).

Fixpoint startsWith (s p : jsstring) {struct p} : bool :=
  match p, s with
  | [], _ => true
  | c :: p', d :: s' => (c =? d) && startsWith s' p'
  | _ :: _, [] => false
  end.

(** [s.includes(needle)]: the needle starts at some position of [s]. *)
Fixpoint includes (s needle : jsstring) : bool :=
  startsWith s needle || match s with [] => false | _ :: s' => includes s' needle end.

(** ** [trim] *)

(** WhiteSpace and LineTerminator of ECMAScript. *)
Definition is_space (c : N) : bool :=
  ((9 <=? c) && (c <=? 13)) || (c =? 32) || (c =? 160) || (c =? 5760)
  || ((8192 <=? c) && (c <=? 8202)) || (c =? 8232) || (c =? 8233)
  || (c =? 8239) || (c =? 8287) || (c =? 12288) || (c =? 65279).

Fixpoint trim_start (s : jsstring) : jsstring :=
  match s with
  | c :: s' => if is_space c then trim_start s' else s
  | [] => []
  end.

Definition trim_end (s : jsstring) : jsstring := rev (trim_start (rev s)).

Definition trim (s : jsstring) : jsstring := trim_end (trim_start s).

(** ** [toLowerCase] *)

Definition is_ascii (s : jsstring) : bool := forallb (λ c, c <? 128) s.

Definition lower_unit (c : N) : N := if (65 <=? c) && (c <=? 90) then c + 32 else c.

(** What the host environment supplies: case mapping of non-ASCII strings, the
    page location, the URL parser (protocol and host of a valid absolute URL,
    [None] when the constructor throws), and the wording of the engine's
    TypeError, URIError and SyntaxError messages. *)
Class Platform := {
  unicode_lower : jsstring → jsstring;
  location_protocol : jsstring;
  location_host : jsstring;
  url_parse : jsstring → option (jsstring * jsstring);
  type_error_message : jsstring;
  uri_error_message : jsstring;
  syntax_error_message : jsstring;
}.

Definition toLowerCase `{Platform} (s : jsstring) : jsstring :=
  if is_ascii s then lower_unit <$> s else unicode_lower s.

(** ** [encodeURIComponent] *)

(** Characters that are left as they are: letters, digits and [-_.!~*'()]. *)
Definition unreserved (c : N) : bool :=
  ((65 <=? c) && (c <=? 90)) || ((97 <=? c) && (c <=? 122)) || ((48 <=? c) && (c <=? 57))
  || bool_decide (c ∈ «"-_.!~*'()"»).

(** The code points of a string; [None] when it holds a lone surrogate. *)
Fixpoint code_points (s : jsstring) : option (list N) :=
  match s with
  | [] => Some []
  | c :: s' =>
      if (c <? 55296) || (57343 <? c) then cons c <$> code_points s'
      else if 56320 <=? c then None
      else match s' with
           | d :: s'' =>
               if (56320 <=? d) && (d <=? 57343)
               then cons (65536 + (c - 55296) * 1024 + (d - 56320)) <$> code_points s''
               else None
           | [] => None
           end
  end.

Definition utf8 (cp : N) : list N :=
  if cp <? 128 then [cp]
  else if cp <? 2048 then [192 + cp / 64; 128 + cp mod 64]
  else if cp <? 65536 then [224 + cp / 4096; 128 + (cp / 64) mod 64; 128 + cp mod 64]
  else [240 + cp / 262144; 128 + (cp / 4096) mod 64; 128 + (cp / 64) mod 64; 128 + cp mod 64].

Definition hex_digit (d : N) : N := if d <? 10 then 48 + d else 55 + d.

Definition percent_byte (b : N) : jsstring := [percent; hex_digit (b / 16); hex_digit (b mod 16)].

Definition encode_code_point (cp : N) : jsstring :=
  if unreserved cp then [cp] else concat (percent_byte <$> utf8 cp).

(** [None] is the URIError thrown for lone surrogates. *)
Definition encodeURIComponent (s : jsstring) : option jsstring :=
  (λ cps, concat (encode_code_point <$> cps)) <$> code_points s.

(** ** Lemmas on literals and conversions *)

Lemma js_app s t : js (s +:+ t) = js s ++ js t.
Proof. induction s; simpl; f_equal; done. Qed.

#[export] Instance js_inj : Inj (=) (=) js.
Proof.
  intros s. induction s as [|a s IH]; intros [|b t] H; simplify_eq/=; [done|].
  f_equal; [|by apply IH].
  by rewrite <-(ascii_N_embedding a), <-(ascii_N_embedding b); f_equal.
Qed.

#[global] Arguments js : simpl never.

#[export] Instance show_Z_inj : Inj (=) (=) show_Z.
Proof. intros x y H. by apply (inj pretty), (inj js). Qed.

#[export] Instance show_nat_inj : Inj (=) (=) show_nat.
Proof. intros x y H. by apply (inj pretty), (inj js). Qed.

(** ** Lemmas on prefixes and substrings *)

Lemma startsWith_spec s p : startsWith s p = true ↔ ∃ t, s = p ++ t.
Proof.
  revert s. induction p as [|c p IH]; intros s; simpl; [naive_solver|].
  destruct s as [|d s]; simpl.
  { split; [intros H; discriminate H|]. intros [t Ht]. discriminate Ht. }
  rewrite andb_true_iff, N.eqb_eq, IH. split.
  - intros [-> [t ->]]. by exists t.
  - intros [t ?]; simplify_eq. eauto.
Qed.

Lemma includes_spec s needle :
  includes s needle = true ↔ ∃ a b, s = a ++ needle ++ b.
Proof.
  induction s as [|c s IH]; simpl; rewrite orb_true_iff, startsWith_spec.
  - split.
    + intros [[t Ht]|?]; [|done]. exists [], t. done.
    + intros (a & b & Hab). left. symmetry in Hab.
      apply app_nil in Hab as [-> Hab]. exists b. done.
  - rewrite IH. split.
    + intros [[t Ht]|(a & b & ->)]; [exists [], t; done|].
      exists (c :: a), b. done.
    + intros ([|c' a] & b & Hab); simplify_eq/=; [left|right]; eauto.
Qed.

Lemma includes_app_l a s needle : includes s needle = true → includes (a ++ s) needle = true.
Proof.
  rewrite !includes_spec. intros (x & y & ->). exists (a ++ x), y. by rewrite <-app_assoc.
Qed.

Lemma includes_app_r s b needle : includes s needle = true → includes (s ++ b) needle = true.
Proof.
  rewrite !includes_spec. intros (x & y & ->). exists x, (y ++ b). by rewrite <-!app_assoc.
Qed.

(** ** Lemmas on lower-casing *)

Lemma lower_unit_idem c : lower_unit (lower_unit c) = lower_unit c.
Proof. unfold lower_unit. repeat case_match; lia. Qed.

Lemma is_ascii_lower s : is_ascii s = true → is_ascii (lower_unit <$> s) = true.
Proof.
  induction s as [|c s IH]; simpl; [done|]. rewrite !andb_true_iff. intros [Hc Hs].
  split; [|by apply IH]. unfold lower_unit. case_match; lia.
Qed.

Lemma is_ascii_app s t : is_ascii (s ++ t) = is_ascii s && is_ascii t.
Proof. apply forallb_app. Qed.

Lemma toLowerCase_ascii `{Platform} s :
  is_ascii s = true → toLowerCase s = lower_unit <$> s.
Proof. intros Hs. unfold toLowerCase. by rewrite Hs. Qed.

Lemma toLowerCase_idem `{Platform} s :
  is_ascii s = true → toLowerCase (toLowerCase s) = toLowerCase s.
Proof.
  intros Hs. rewrite (toLowerCase_ascii s), toLowerCase_ascii by auto using is_ascii_lower.
  rewrite <-list_fmap_compose. apply list_fmap_ext. intros; simpl. apply lower_unit_idem.
Qed.

(** ** Lemmas on trimming *)

Lemma trim_start_suffix s : trim_start s `suffix_of` s.
Proof.
  induction s as [|c s IH]; simpl; [done|]. case_match; [|done]. by apply suffix_cons_r.
Qed.

Lemma trim_start_head s c t : trim_start s = c :: t → is_space c = false.
Proof. induction s as [|d s IH]; simpl; [done|]. case_match; naive_solver. Qed.

Lemma trim_start_id s : (∀ c t, s = c :: t → is_space c = false) → trim_start s = s.
Proof. destruct s as [|c s]; simpl; [done|]. intros H. by rewrite (H c s). Qed.

Lemma trim_start_idem s : trim_start (trim_start s) = trim_start s.
Proof. apply trim_start_id. eauto using trim_start_head. Qed.
