(* ===== verification/Json.v ===== *)
(** * JSON values and exceptions

    The values [JSON.parse] and [Response.json()] produce, property access on
    them (which throws a TypeError on [null]), truthiness, and the exceptions
    the console's [catch] clauses inspect. *)

From S2P Require Import Prelude JsNumber JsString.

(** ** Values *)

(** The fields of an object are its own properties in property order. *)
Inductive json :=
  | JNull
  | JBool (b : bool)
  | JNum (n : number)
  | JStr (s : jsstring)
  | JArr (l : list json)
  | JObj (fields : list (jsstring * json)).

(** [Boolean(v)], with [None] for [undefined]. *)
Definition truthy (v : option json) : bool :=
  match v with
  | None | Some JNull => false
  | Some (JBool b) => b
  | Some (JNum n) => negb (is_nan n || n_eq n n_zero)
  | Some (JStr s) => negb (jeqb s [])
  | Some (JArr _) | Some (JObj _) => true
  end.

(** [a ?? b] on a property value: [undefined] and [null] are replaced. *)
Definition json_nullish (v : option json) (d : json) : json :=
  match v with None | Some JNull => d | Some x => x end.

(** The value of a field; the last binding wins, as in [JSON.parse]. *)
Fixpoint field (fs : list (jsstring * json)) (k : jsstring) : option json :=
  match fs with
  | [] => None
  | (k', v) :: fs' =>
      match field fs' k with
      | Some w => Some w
      | None => if jeqb k' k then Some v else None
      end
  end.

(** ** Exceptions *)

(** A thrown value: an [Error] with its message, or anything else. *)
Inductive thrown :=
  | ThrownError (message : jsstring)
  | ThrownOther.

(** Normal completion, or an exception. *)
Inductive completion (A : Type) :=
  | Normal (a : A)
  | Throw (e : thrown).
Arguments Normal {A} a.
Arguments Throw {A} e.

#[export] Instance Normal_inj {A} : Inj (=) (=) (@Normal A).
Proof. by intros a b [= ->]. Qed.

(** [v.k] on a parsed value, for keys no built-in prototype defines. *)
Definition get_prop `{Platform} (v : json) (k : jsstring) : completion (option json) :=
  match v with
  | JNull => Throw (ThrownError type_error_message)
  | JObj fs => Normal (field fs k)
  | _ => Normal None
  end.

(** What [fetch] followed by [res.json()] gives: a response with its status and
    its body ([None] when the body is not JSON and [json()] rejects), or a
    rejected fetch. *)
Inductive fetch_outcome :=
  | Responded (status : Z) (body : option json)
  | Rejected (e : thrown).

(** [res.ok]: a status in the range 200-299. *)
Definition status_ok (status : Z) : bool := ((200 <=? status) && (status <=? 299))%Z.
