(* ===== verification/Text.v ===== *)
(** * Converting values to text

    [Number.prototype.toString], [toFixed], [String(v)] and [JSON.stringify] on
    the values of [Json], following ECMAScript: the shortest decimal that reads
    back as the same number, and the quoting rules of JSON.  A reader of JSON
    string literals is the specification of the quoting. *)

From Stdlib Require Import SpecFloat.
From S2P Require Import Prelude JsNumber JsString Json.

Local Open Scope Z_scope.
Local Open Scope list_scope.

(** ** Numbers *)

(** The number nearest to [s * 10^p], for [0 < s]. *)
Definition of_decimal (s : positive) (p : Z) : number :=
  if 0 <=? p then n_of_Z (Zpos s * 10 ^ p)
  else n_div (S754_finite false s 0) (S754_finite false (Z.to_pos (10 ^ (- p))) 0).

(** The smallest [n] at or above the estimate with [m * 2^e < 10^n]. *)
Fixpoint decimal_exponent (fuel : nat) (m : positive) (e n : Z) : Z :=
  match fuel with
  | O => n
  | S fuel' =>
      if Zpos m * 2 ^ Z.max 0 e * 10 ^ Z.max 0 (- n)
         <? 10 ^ Z.max 0 n * 2 ^ Z.max 0 (- e) then n
      else decimal_exponent fuel' m e (n + 1)
  end.

Definition decimal_estimate (m : positive) (e : Z) : Z :=
  (Z.log2 (Zpos m) + e) * 30103 / 100000 - 1.

(** Quotient and remainder of [m * 2^e * 10^q] by its denominator. *)
Definition scaled (m : positive) (e q : Z) : Z * Z * Z :=
  let num := Zpos m * 2 ^ Z.max 0 e * 10 ^ Z.max 0 q in
  let den := 2 ^ Z.max 0 (- e) * 10 ^ Z.max 0 (- q) in
  (num / den, num mod den, den).

(** The [k]-digit decimals next to [m * 2^e], the nearer one first. *)
Definition candidates (m : positive) (e n k : Z) : list Z :=
  let '(lo, r, den) := scaled m e (k - n) in
  if (2 * r <? den) || ((2 * r =? den) && Z.even lo) then [lo; lo + 1] else [lo + 1; lo].

Definition reads_back (m : positive) (e n k s : Z) : bool :=
  match s with
  | Zpos p => n_eq (of_decimal p (n - k)) (S754_finite false m e)
  | _ => false
  end.

(** The least number of digits for which a candidate reads back: seventeen are
    enough for binary64. *)
Fixpoint shortest (fuel : nat) (m : positive) (e n k : Z) : Z * Z :=
  match array_find (reads_back m e n k) (candidates m e n k), fuel with
  | Some s, _ => (s, k)
  | None, S fuel' => shortest fuel' m e n (k + 1)
  | None, O => (0, k)
  end.

Definition zeros (n : Z) : jsstring := replicate (Z.to_nat n) 48%N.

(** The layout of [Number::toString] for [s * 10^(n-k)] with [k] digits. *)
Definition layout (s n k : Z) : jsstring :=
  let ds := show_Z s in
  if (k <=? n) && (n <=? 21) then ds ++ zeros (n - k)
  else if (0 <? n) && (n <=? 21) then
    take (Z.to_nat n) ds ++ «"."» ++ drop (Z.to_nat n) ds
  else if (-6 <? n) && (n <=? 0) then «"0."» ++ zeros (- n) ++ ds
  else
    let ex := (if 0 <=? n - 1 then «"e+"» else «"e-"») ++ show_Z (Z.abs (n - 1)) in
    if k =? 1 then ds ++ ex else take 1 ds ++ «"."» ++ drop 1 ds ++ ex.

(** [`${x}`] for a number. *)
Definition n_toString (x : number) : jsstring :=
  match x with
  | S754_nan => «"NaN"»
  | S754_zero _ => «"0"»
  | S754_infinity s => if s then «"-Infinity"» else «"Infinity"»
  | S754_finite s m e =>
      let n := decimal_exponent 4 m e (decimal_estimate m e) in
      let '(d, k) := shortest 17 m e n 1 in
      (if s then «"-"» else []) ++ (if d =? 10 ^ k then layout 1 (n + 1) 1 else layout d n k)
  end.

(** ** [toFixed] *)

(** The integer [n] with [n / 10^d] nearest to [m * 2^e], the larger on a tie. *)
Definition fixed_scaled (d : Z) (m : positive) (e : Z) : Z :=
  let '(lo, r, den) := scaled m e d in if den <=? 2 * r then lo + 1 else lo.

(** Decimal digits with a point before the last [d] of them. *)
Definition show_fixed (d n : Z) : jsstring :=
  let ds := show_Z n in
  let padded := zeros (d + 1 - Z.of_nat (length ds)) ++ ds in
  let whole := (length padded - Z.to_nat d)%nat in
  if d =? 0 then ds else take whole padded ++ «"."» ++ drop whole padded.

(** Magnitudes from [10^21] on are printed as by [toString]. *)
Definition is_huge (x : number) : bool :=
  match x with
  | S754_finite _ m e => 10 ^ 21 <=? Zpos m * 2 ^ e
  | S754_infinity _ | S754_nan => true
  | S754_zero _ => false
  end.

(** [x.toFixed(d)] *)
Definition toFixed (d : Z) (x : number) : jsstring :=
  if is_huge x then n_toString x
  else match x with
       | S754_finite s m e => (if s then «"-"» else []) ++ show_fixed d (fixed_scaled d m e)
       | _ => show_fixed d 0
       end.

(** [Number(x.toFixed(d))]. *)
Definition fixed_value (d : Z) (x : number) : number :=
  if is_huge x then x
  else match x with
       | S754_finite s m e =>
           match fixed_scaled d m e with
           | Zpos n =>
               let v := of_decimal n (- d) in if s then SFopp v else v
           | _ => S754_zero s
           end
       | _ => n_zero
       end.

(** ** JSON text *)

Local Open Scope N_scope.

Definition hex_lower (d : N) : N := if d <? 10 then 48 + d else 87 + d.

(** [\uXXXX] *)
Definition unicode_escape (c : N) : jsstring :=
  [92; 117; hex_lower (c / 4096); hex_lower ((c / 256) mod 16); hex_lower ((c / 16) mod 16);
   hex_lower (c mod 16)].

Definition is_lead (c : N) : bool := (55296 <=? c) && (c <=? 56319).
Definition is_trail (c : N) : bool := (56320 <=? c) && (c <=? 57343).

(** Code units other than surrogates. *)
Definition quote_unit (c : N) : jsstring :=
  if c =? 8 then [92; 98] else if c =? 9 then [92; 116] else if c =? 10 then [92; 110]
  else if c =? 12 then [92; 102] else if c =? 13 then [92; 114]
  else if c =? 34 then [92; 34] else if c =? 92 then [92; 92]
  else if c <? 32 then unicode_escape c else [c].

(** The body of [QuoteJSONString]: lone surrogates are escaped, pairs are kept. *)
Fixpoint quote_units (s : jsstring) : jsstring :=
  match s with
  | [] => []
  | c :: s' =>
      if is_lead c then
        match s' with
        | d :: s'' =>
            if is_trail d then c :: d :: quote_units s'' else unicode_escape c ++ quote_units s'
        | [] => unicode_escape c
        end
      else if is_trail c then unicode_escape c ++ quote_units s'
      else quote_unit c ++ quote_units s'
  end.

Definition quote (s : jsstring) : jsstring := 34 :: quote_units s ++ [34].

Definition join (sep : jsstring) (l : list jsstring) : jsstring :=
  match l with [] => [] | x :: l' => x ++ concat ((λ y, sep ++ y) <$> l') end.

(** [JSON.stringify(v, null, gap)]; [ind] is the current indentation.  Numbers
    that are not finite are written [null]. *)
Fixpoint stringify (gap ind : jsstring) (v : json) : jsstring :=
  let ind' := ind ++ gap in
  let wrap (l r : N) (parts : list jsstring) : jsstring :=
    match parts with
    | [] => [l; r]
    | _ =>
        if jeqb gap [] then l :: join «","» parts ++ [r]
        else l :: 10 :: ind' ++ join (44 :: 10 :: ind') parts ++ 10 :: ind ++ [r]
    end in
  match v with
  | JNull => «"null"»
  | JBool b => if b then «"true"» else «"false"»
  | JNum n => if is_finite n then n_toString n else «"null"»
  | JStr s => quote s
  | JArr l => wrap 91 93 (map (stringify gap ind') l)
  | JObj fs =>
      wrap 123 125
        (map (λ '(k, w), quote k ++ (if jeqb gap [] then «":"» else «": "») ++ stringify gap ind' w) fs)
  end.

(** [JSON.stringify(v)] and [JSON.stringify(v, null, 2)]. *)
Definition json_stringify (v : json) : jsstring := stringify [] [] v.
Definition json_pretty (v : json) : jsstring := stringify «"  "» [] v.

(** [String(v)] on a parsed value.  An object has the text [[object Object]]
    unless a field of its own hides [toString]: then the conversion throws.
    Arrays join their elements, with nothing for [null]. *)
Fixpoint js_String `{Platform} (v : json) : completion jsstring :=
  match v with
  | JNull => Normal «"null"»
  | JBool b => Normal (if b then «"true"» else «"false"»)
  | JNum n => Normal (n_toString n)
  | JStr s => Normal s
  | JArr l =>
      let part (x : json) : completion jsstring :=
        match x with JNull => Normal [] | _ => js_String x end in
      match l with
      | [] => Normal []
      | x :: l' =>
          fold_left (λ acc y,
            match acc, part y with
            | Normal a, Normal b => Normal (a ++ «","» ++ b)
            | Normal _, Throw e | Throw e, _ => Throw e
            end) l' (part x)
      end
  | JObj fs =>
      match field fs «"toString"» with
      | None => Normal «"[object Object]"»
      | Some _ => Throw (ThrownError type_error_message)
      end
  end.

(** ** Reading numbers *)

Definition digit_of (c : N) : option N :=
  if (48 <=? c) && (c <=? 57) then Some (c - 48)
  else if (97 <=? c) && (c <=? 122) then Some (c - 87)
  else if (65 <=? c) && (c <=? 90) then Some (c - 55)
  else None.

(** The longest prefix of digits below [base]: its value, its length, the rest. *)
Fixpoint read_digits (base acc : N) (len : nat) (t : jsstring) : N * nat * jsstring :=
  match t with
  | c :: t' =>
      match digit_of c with
      | Some d => if d <? base then read_digits base (acc * base + d) (S len) t' else (acc, len, t)
      | None => (acc, len, t)
      end
  | [] => (acc, len, t)
  end.

(** A signed exponent that ends the text. *)
Definition read_exponent (t : jsstring) : option Z :=
  match t with
  | [] => Some 0%Z
  | c :: t' =>
      if (c =? 101) || (c =? 69) then
        let '(neg, u) := match t' with
          | 43 :: u => (false, u) | 45 :: u => (true, u) | _ => (false, t') end in
        let '(x, len, rest) := read_digits 10 0 0 u in
        if (0 <? len)%nat && jeqb rest [] then Some (if neg then (- Z.of_N x)%Z else Z.of_N x) else None
      else None
  end.

Definition read_decimal (t : jsstring) : number :=
  let '(neg, u) := match t with 43 :: u => (false, u) | 45 :: u => (true, u) | _ => (false, t) end in
  if jeqb u «"Infinity"» then S754_infinity neg
  else
    let '(x, len, rest) := read_digits 10 0 0 u in
    let '(y, frac, rest') := match rest with
      | 46 :: r => read_digits 10 x 0 r | _ => (x, O, rest) end in
    match (0 <? len + frac)%nat, read_exponent rest' with
    | true, Some ex =>
        match y with
        | N0 => S754_zero neg
        | Npos p =>
            let v := of_decimal p (ex - Z.of_nat frac) in if neg then SFopp v else v
        end
    | _, _ => S754_nan
    end.

(** [StringToNumber] *)
Definition string_to_number (s : jsstring) : number :=
  let t := trim s in
  let prefixed (base : N) (u : jsstring) : number :=
    let '(x, len, rest) := read_digits base 0 0 u in
    if (0 <? len)%nat && jeqb rest [] then n_of_Z (Z.of_N x) else S754_nan in
  match t with
  | [] => n_zero
  | 48 :: 120 :: u | 48 :: 88 :: u => prefixed 16 u
  | 48 :: 111 :: u | 48 :: 79 :: u => prefixed 8 u
  | 48 :: 98 :: u | 48 :: 66 :: u => prefixed 2 u
  | _ => read_decimal t
  end.

(** [Number(v)] on a parsed value. *)
Definition js_Number `{Platform} (v : json) : completion number :=
  match v with
  | JNull => Normal n_zero
  | JBool b => Normal (if b then n_of_Z 1 else n_zero)
  | JNum n => Normal n
  | JStr s => Normal (string_to_number s)
  | JArr _ | JObj _ =>
      match js_String v with
      | Normal s => Normal (string_to_number s)
      | Throw e => Throw e
      end
  end.

(** ** A reader of JSON string literals *)

Definition hex_value (c : N) : option N :=
  if (48 <=? c) && (c <=? 57) then Some (c - 48)
  else if (97 <=? c) && (c <=? 102) then Some (c - 87)
  else if (65 <=? c) && (c <=? 70) then Some (c - 55)
  else None.

Definition simple_escape (c : N) : option N :=
  if c =? 34 then Some 34 else if c =? 92 then Some 92 else if c =? 47 then Some 47
  else if c =? 98 then Some 8 else if c =? 102 then Some 12 else if c =? 110 then Some 10
  else if c =? 114 then Some 13 else if c =? 116 then Some 9 else None.

(** The characters after the opening quote, up to and including the closing
    one: the string and the rest of the text. *)
Fixpoint read_units (t : jsstring) : option (jsstring * jsstring) :=
  match t with
  | [] => None
  | 34 :: rest => Some ([], rest)
  | 92 :: 117 :: a :: b :: c :: d :: rest =>
      x ← hex_value a; y ← hex_value b; z ← hex_value c; w ← hex_value d;
      '(s, r) ← read_units rest; Some (((x * 16 + y) * 16 + z) * 16 + w :: s, r)
  | 92 :: c :: rest =>
      x ← simple_escape c; '(s, r) ← read_units rest; Some (x :: s, r)
  | c :: rest =>
      if c <? 32 then None else '(s, r) ← read_units rest; Some (c :: s, r)
  end.

(** ** Quoting is read back *)

(** The reader's result with [c] in front. *)
Definition with_unit (c : N) (r : option (jsstring * jsstring)) : option (jsstring * jsstring) :=
  '(s, rest) ← r; Some (c :: s, rest).

Lemma hex_value_lower d : d < 16 → hex_value (hex_lower d) = Some d.
Proof. intros Hd. unfold hex_value, hex_lower. repeat case_match; f_equal; lia. Qed.

Lemma read_unicode_escape c t :
  c < 65536 → read_units (unicode_escape c ++ t) = with_unit c (read_units t).
Proof.
  intros Hc. unfold unicode_escape. cbn [app read_units].
  rewrite !hex_value_lower by (try apply N.mod_lt; try apply N.Div0.div_lt_upper_bound; lia).
  cbn [mbind option_bind]. unfold with_unit. destruct (read_units t) as [[s r]|]; [|done].
  cbn [mbind option_bind]. do 3 f_equal.
  pose proof (N.Div0.div_mod c 16). pose proof (N.Div0.div_mod (c / 16) 16).
  pose proof (N.Div0.div_mod (c / 256) 16).
  rewrite !N.Div0.div_div in *. change (16 * 16) with 256 in *. change (256 * 16) with 4096 in *. lia.
Qed.

Lemma read_plain c t :
  32 <= c → c ≠ 34 → c ≠ 92 → read_units (c :: t) = with_unit c (read_units t).
Proof.
  intros H1 H2 H3. unfold with_unit.
  assert ((c <? 32) = false) as Hlt by lia.
  destruct c as [|p]; [lia|].
  do 7 (destruct p as [p|p|]; try done); cbn [read_units]; rewrite ?Hlt; done.
Qed.

Lemma read_quote_unit c t :
  c < 65536 → read_units (quote_unit c ++ t) = with_unit c (read_units t).
Proof.
  intros Hc. unfold quote_unit.
  repeat match goal with
    |- context [if ?c =? ?n then _ else _] => destruct (N.eqb_spec c n) as [->|?]; [reflexivity|] end.
  destruct (N.ltb_spec c 32); [by apply read_unicode_escape|]. by apply read_plain.
Qed.

Lemma surrogate_plain c : is_lead c = true ∨ is_trail c = true → 32 <= c ∧ c ≠ 34 ∧ c ≠ 92.
Proof. unfold is_lead, is_trail. lia. Qed.

Lemma read_surrogate c t :
  is_lead c = true ∨ is_trail c = true → read_units (c :: t) = with_unit c (read_units t).
Proof. intros (? & ? & ?)%surrogate_plain. by apply read_plain. Qed.

Lemma read_quote_units n s rest :
  (length s <= n)%nat → units_ok s → read_units (quote_units s ++ 34 :: rest) = Some (s, rest).
Proof.
  revert s. induction n as [|n IH]; intros s Hn Hs.
  { destruct s; [done|simpl in Hn; lia]. }
  destruct s as [|c s]; [done|]. apply Forall_cons in Hs as [Hc Hs]. simpl in Hn.
  assert (read_units (quote_units s ++ 34 :: rest) = Some (s, rest)) as Htail by (apply IH; [lia|done]).
  cbn [quote_units]. destruct (is_lead c) eqn:Hl.
  - destruct s as [|d s].
    { by rewrite read_unicode_escape. }
    destruct (is_trail d) eqn:Ht.
    + apply Forall_cons in Hs as [Hd Hs]. simpl in Hn.
      rewrite <-!app_comm_cons, !read_surrogate by auto.
      by rewrite IH by (done || lia).
    + by rewrite <-app_assoc, read_unicode_escape, Htail.
  - destruct (is_trail c) eqn:Ht; rewrite <-app_assoc.
    + by rewrite read_unicode_escape, Htail.
    + by rewrite read_quote_unit, Htail.
Qed.

(** [JSON.stringify] of a string reads back as that string. *)
(** ** Sample conversions *)

Example toString_samples :
  n_toString <$> [n_add (n_dec 1 1) (n_dec 2 1); n_of_Z (10 ^ 21); n_of_Z (-17); n_dec 1 7; n_dec 123456 2]
  = [«"0.30000000000000004"»; «"1e+21"»; «"-17"»; «"1e-7"»; «"1234.56"»].
Proof. vm_compute. reflexivity. Qed.

Example toFixed_samples :
  [toFixed 2 (n_dec 1005 3); toFixed 2 (n_dec (-1) 3); toFixed 0 (n_dec 25 1); toFixed 1 n_zero]
  = [«"1.00"»; «"-0.00"»; «"3"»; «"0.0"»].
Proof. vm_compute. reflexivity. Qed.

Example number_samples :
  string_to_number <$> [«" 1.5e3 "»; «"0x1F"»; []; «"12px"»; «"-Infinity"»]
  = [n_of_Z 1500; n_of_Z 31; n_zero; S754_nan; S754_infinity true].
Proof. vm_compute. reflexivity. Qed.
