(* ===== verification/Digits.v ===== *)
(** * Decimal digits

    The decimal representation of a number consists of digits, and reading them
    gives the number back.  Shared by the readers of JSON text and by the keys of
    rendered lists. *)

From stdpp Require Import pretty.
From Stdlib Require Import Ascii String SpecFloat.
From S2P Require Import Prelude JsNumber JsString Json Text.

Local Open Scope N_scope.
Local Open Scope list_scope.

Definition is_digit (c : N) : bool := (48 <=? c) && (c <=? 57).

(** [ds] is a run of digits that reads as [x] after [acc]. *)
Definition digits_of (x : N) (ds : jsstring) : Prop :=
  Forall (λ c, is_digit c = true) ds ∧
  ∀ acc len rest,
    read_digits 10 acc len (ds ++ rest) =
    read_digits 10 (acc * 10 ^ N.of_nat (length ds) + x) (len + length ds) rest.

Lemma digits_nil : digits_of 0 [].
Proof. split; [constructor|]. intros. cbn [app length]. f_equal; [lia|lia]. Qed.

Lemma digit_value d : d < 10 → digit_of (48 + d) = Some d.
Proof. intros Hd. unfold digit_of. case_match; [f_equal; lia|lia]. Qed.

Lemma digits_snoc x ds d :
  d < 10 → digits_of x ds → digits_of (x * 10 + d) (ds ++ [48 + d]).
Proof.
  intros Hd [Hds Hread]. split.
  { apply Forall_app. split; [done|]. apply Forall_singleton. unfold is_digit. lia. }
  intros acc len rest. rewrite <-app_assoc, Hread. cbn [app read_digits].
  rewrite digit_value by done. rewrite (proj2 (N.ltb_lt d 10)) by done.
  rewrite length_app. cbn [length]. f_equal; [|lia].
  rewrite Nat2N.inj_add, N.pow_add_r. lia.
Qed.

Lemma digit_char d : d < 10 → N_of_ascii (pretty_N_char d) = 48 + d.
Proof.
  intros Hd. destruct d as [|p]; [done|].
  do 4 (destruct p as [p|p|]; try done); cbn in Hd; lia.
Qed.

Lemma js_String c s : js (String c s) = N_of_ascii c :: js s.
Proof. done. Qed.

Lemma pretty_go_digits x s : ∃ ds, js (pretty_N_go x s) = ds ++ js s ∧ digits_of x ds ∧ (x ≠ 0 → ds ≠ []).
Proof.
  revert s. induction (N.lt_wf_0 x) as [x _ IH]; intros s.
  assert (x = 0 ∨ 0 < x) as [->|Hx] by lia.
  { exists []. rewrite pretty_N_go_0. split_and!; [done|apply digits_nil|done]. }
  rewrite pretty_N_go_step by done.
  destruct (IH (x / 10) ltac:(apply N.div_lt; lia) (String (pretty_N_char (x mod 10)) s))
    as (ds & Heq & Hds & _).
  exists (ds ++ [48 + x mod 10]). rewrite Heq, js_String, digit_char by (apply N.mod_lt; lia).
  split_and!; [by rewrite <-app_assoc| |].
  - pose proof (N.mod_lt x 10 ltac:(lia)) as Hm. pose proof (N.Div0.div_mod x 10) as Hdm.
    rewrite Hdm at 1. rewrite N.mul_comm. by apply digits_snoc.
  - intros _ Hnil. by apply app_nil in Hnil as [_ ?].
Qed.

(** A non-negative integer is written with at least one digit, and read back. *)
Lemma show_N_digits (x : N) : digits_of x (js (pretty x)) ∧ js (pretty x) ≠ [].
Proof.
  unfold pretty, pretty_N. case_decide as Hx.
  - subst x. split; [|done]. apply (digits_snoc 0 [] 0); [lia|apply digits_nil].
  - destruct (pretty_go_digits x EmptyString) as (ds & -> & Hds & Hne).
    change (js EmptyString) with ([] : jsstring). rewrite app_nil_r. auto.
Qed.

Lemma show_nat_N n : show_nat n = js (pretty (N.of_nat n)).
Proof. done. Qed.

Lemma show_Z_N z : (0 <= z)%Z → show_Z z = js (pretty (Z.to_N z)).
Proof. destruct z; [done|done|lia]. Qed.

Lemma show_Z_digits z : (0 <= z)%Z → digits_of (Z.to_N z) (show_Z z) ∧ show_Z z ≠ [].
Proof. intros Hz. rewrite show_Z_N by done. apply show_N_digits. Qed.

Lemma show_nat_digits n : digits_of (N.of_nat n) (show_nat n) ∧ show_nat n ≠ [].
Proof. rewrite show_nat_N. apply show_N_digits. Qed.

(** ** Reading stops at the first character that is not a digit *)

Lemma digit_of_digit c d : digit_of c = Some d → d < 10 → is_digit c = true.
Proof. unfold digit_of, is_digit. repeat case_match; intros; simplify_eq; lia. Qed.

Definition starts_no_digit (t : jsstring) : Prop :=
  match t with c :: _ => is_digit c = false | [] => True end.

Lemma read_digits_stop acc len t : starts_no_digit t → read_digits 10 acc len t = (acc, len, t).
Proof.
  destruct t as [|c t]; [done|]. cbn [starts_no_digit read_digits]. intros Hc.
  destruct (digit_of c) as [d|] eqn:E; [|done].
  destruct (N.ltb_spec d 10) as [Hd|]; [|done].
  apply digit_of_digit in E; [|done]. congruence.
Qed.

Lemma read_digits_all x ds rest acc len :
  digits_of x ds → starts_no_digit rest →
  read_digits 10 acc len (ds ++ rest) = (acc * 10 ^ N.of_nat (length ds) + x, (len + length ds)%nat, rest).
Proof. intros [_ Hread] Hrest. by rewrite Hread, read_digits_stop. Qed.

(** ** Numbers as the last part of a text *)

Lemma digits_suffix_inj (a b : jsstring) c m n :
  is_digit c = false → a ++ c :: show_nat m = b ++ c :: show_nat n → m = n.
Proof.
  intros Hc Heq. apply (inj show_nat).
  pose proof (proj1 (proj1 (show_nat_digits m))) as Hm.
  pose proof (proj1 (proj1 (show_nat_digits n))) as Hn.
  revert Hm Hn Heq. generalize (show_nat m), (show_nat n). clear m n. intros u v Hu Hv Heq.
  apply (f_equal (@reverse N)) in Heq. rewrite !reverse_app, !reverse_cons, <-!app_assoc in Heq.
  cut (reverse u = reverse v); [intros He; by apply (inj reverse)|].
  apply Forall_reverse in Hu. apply Forall_reverse in Hv.
  revert Hu Hv Heq. generalize (reverse u), (reverse v), (reverse a), (reverse b). clear u v a b.
  intros u v a b Hu. revert v. induction Hu as [|d u Hd _ IH]; intros v Hv Heq.
  - destruct v as [|e v]; [done|]. apply Forall_cons in Hv as [He _]. simplify_eq/=. congruence.
  - destruct v as [|e v]; simplify_eq/=; [congruence|]. apply Forall_cons in Hv as [He Hv].
    f_equal. by apply IH.
Qed.

(** ** [Number(String(n))] for a non-negative integer *)

Lemma digit_not_space c : is_digit c = true → is_space c = false.
Proof. unfold is_digit, is_space. lia. Qed.

Lemma trim_start_digits ds : Forall (λ c, is_digit c = true) ds → trim_start ds = ds.
Proof. destruct 1 as [|c ds Hc _]; [done|]. cbn [trim_start]. by rewrite digit_not_space. Qed.

Lemma trim_digits ds : Forall (λ c, is_digit c = true) ds → trim ds = ds.
Proof.
  intros Hds. unfold trim, trim_end. rewrite (trim_start_digits ds) by done.
  rewrite trim_start_digits, rev_involutive by (by apply Forall_rev). done.
Qed.

Lemma digit_cases c :
  is_digit c = true →
  c = 48 ∨ c = 49 ∨ c = 50 ∨ c = 51 ∨ c = 52 ∨ c = 53 ∨ c = 54 ∨ c = 55 ∨ c = 56 ∨ c = 57.
Proof. unfold is_digit. lia. Qed.

(** What a text of digits reads as. *)
Definition decimal_value (x : N) : number :=
  match x with N0 => S754_zero false | Npos p => n_of_Z (Zpos p) end.

Lemma read_decimal_digits x ds :
  digits_of x ds → ds ≠ [] → read_decimal ds = decimal_value x.
Proof.
  intros Hds Hne. pose proof (read_digits_all x ds [] 0 0 Hds I) as Hread. rewrite app_nil_r in Hread.
  destruct ds as [|c ds]; [done|]. pose proof (proj1 Hds) as Hd. apply Forall_cons in Hd as [Hc _].
  assert (∀ t, read_digits 10 0 0 (c :: ds) = t →
    read_decimal (c :: ds) =
    let '(x, len, rest) := t in
    let '(y, frac, rest') := match rest with 46 :: r => read_digits 10 x 0 r | _ => (x, O, rest) end in
    match (0 <? len + frac)%nat, read_exponent rest' with
    | true, Some ex =>
        match y with
        | N0 => S754_zero false
        | Npos p => of_decimal p (ex - Z.of_nat frac)
        end
    | _, _ => S754_nan
    end) as Hstart.
  { intros t <-. unfold read_decimal, jeqb.
    destruct (digit_cases c Hc) as [->|[->|[->|[->|[->|[->|[->|[->|[->| ->]]]]]]]]];
      (rewrite bool_decide_false by discriminate); reflexivity. }
  rewrite (Hstart _ Hread). cbn [length Nat.add Nat.ltb Nat.leb read_exponent].
  unfold decimal_value. rewrite N.mul_0_l, N.add_0_l. destruct x as [|p]; [done|].
  change (n_of_Z (Zpos p * 1) = n_of_Z (Zpos p)). by rewrite Z.mul_1_r.
Qed.

Lemma string_to_number_digits x ds :
  digits_of x ds → ds ≠ [] → string_to_number ds = decimal_value x.
Proof.
  intros Hds Hne. rewrite <-(read_decimal_digits x ds) by done.
  unfold string_to_number. rewrite trim_digits by apply Hds.
  destruct ds as [|c [|d ds]]; [done| |];
    pose proof (proj1 Hds) as Hd; apply Forall_cons in Hd as [Hc Hd].
  - by destruct (digit_cases c Hc) as [->|[->|[->|[->|[->|[->|[->|[->|[->| ->]]]]]]]]].
  - apply Forall_cons in Hd as [Hd _].
    destruct (digit_cases c Hc) as [->|[->|[->|[->|[->|[->|[->|[->|[->| ->]]]]]]]]]; try done.
    by destruct (digit_cases d Hd) as [->|[->|[->|[->|[->|[->|[->|[->|[->| ->]]]]]]]]].
Qed.

(** A non-negative integer survives printing and [Number]. *)
Lemma string_to_number_show z : (0 <= z)%Z → string_to_number (show_Z z) = n_of_Z z.
Proof.
  intros Hz. destruct (show_Z_digits z Hz) as [Hd Hne].
  rewrite (string_to_number_digits _ _ Hd Hne). by destruct z.
Qed.

(** ** Digits in a URL *)

Lemma digit_unreserved c : is_digit c = true → unreserved c = true.
Proof. intros Hc%digit_cases. by destruct Hc as [->|[->|[->|[->|[->|[->|[->|[->|[->| ->]]]]]]]]]. Qed.

Lemma digits_encoded ds : Forall (λ c, is_digit c = true) ds → encodeURIComponent ds = Some ds ∧ units_ok ds.
Proof.
  induction 1 as [|c ds Hc _ [IH Hu]]; [by split; [|constructor]|].
  assert (c < 128) by (unfold is_digit in Hc; lia). split; [|constructor; [lia|done]].
  unfold encodeURIComponent in *. cbn [code_points]. rewrite (proj2 (N.ltb_lt c 55296)) by lia. cbn [orb].
  destruct (code_points ds) as [cps|]; [|done]. cbn in *. simplify_eq.
  unfold encode_code_point at 1. by rewrite digit_unreserved.
Qed.

Lemma show_Z_encoded z : (0 <= z)%Z → encodeURIComponent (show_Z z) = Some (show_Z z) ∧ units_ok (show_Z z).
Proof. intros Hz. apply digits_encoded. apply (show_Z_digits z Hz). Qed.
