(* ===== verification/JsonParse.v ===== *)
(** * JSON.parse

    A parser for JSON text (ECMA-404, as [JSON.parse] accepts it), with fuel; the
    fuel [JSON.parse] is given is enough for every text, and parsing the text of
    [JSON.stringify] gives the value back. *)

From Stdlib Require Import SpecFloat.
From S2P Require Import Prelude JsNumber JsString Json Text Digits.

Local Open Scope N_scope.
Local Open Scope list_scope.

(** ** Tokens *)

Definition is_blank (c : N) : bool := (c =? 32) || (c =? 9) || (c =? 10) || (c =? 13).

Fixpoint skip (t : jsstring) : jsstring :=
  match t with
  | c :: t' => if is_blank c then skip t' else t
  | [] => []
  end.

(** Removes a prefix. *)
Fixpoint strip (p t : jsstring) : option jsstring :=
  match p, t with
  | [], _ => Some t
  | c :: p', d :: t' => if c =? d then strip p' t' else None
  | _ :: _, [] => None
  end.

(** The optional fraction: the digits read so far followed by those after the
    point, and how many there are. *)
Definition read_fraction (x : N) (t : jsstring) : option (N * nat * jsstring) :=
  match t with
  | c :: u =>
      if c =? 46 then
        let '(y, len, rest) := read_digits 10 x 0 u in
        if (0 <? len)%nat then Some (y, len, rest) else None
      else Some (x, O, t)
  | [] => Some (x, O, t)
  end.

(** The optional exponent. *)
Definition read_power (t : jsstring) : option (Z * jsstring) :=
  match t with
  | c :: u =>
      if (c =? 101) || (c =? 69) then
        let '(neg, u') := match u with
          | d :: v => if d =? 43 then (false, v) else if d =? 45 then (true, v) else (false, u)
          | [] => (false, u)
          end in
        let '(x, len, rest) := read_digits 10 0 0 u' in
        if (0 <? len)%nat then Some (if neg then (- Z.of_N x)%Z else Z.of_N x, rest) else None
      else Some (0%Z, t)
  | [] => Some (0%Z, t)
  end.

(** A number: no leading zeros, at least one digit in each part. *)
Definition read_number (t : jsstring) : option (number * jsstring) :=
  let '(neg, u) := match t with
    | c :: v => if c =? 45 then (true, v) else (false, t)
    | [] => (false, t)
    end in
  let '(x, len, r) := read_digits 10 0 0 u in
  let zero_led := match u with c :: _ => c =? 48 | [] => false end in
  if (len =? 0)%nat || (zero_led && (1 <? len)%nat) then None
  else
    '(y, frac, r1) ← read_fraction x r;
    '(ex, r2) ← read_power r1;
    Some (match y with
          | N0 => S754_zero neg
          | Npos p => let v := of_decimal p (ex - Z.of_nat frac) in if neg then SFopp v else v
          end, r2).

(** ** Values *)

Fixpoint parse_value (fuel : nat) (t : jsstring) {struct fuel} : option (json * jsstring) :=
  match fuel with
  | O => None
  | S f =>
      match skip t with
      | [] => None
      | c :: u =>
          if c =? 34 then '(s, r) ← read_units u; Some (JStr s, r)
          else if c =? 91 then
            match skip u with
            | d :: r => if d =? 93 then Some (JArr [], r) else '(l, r') ← parse_elements f u; Some (JArr l, r')
            | [] => None
            end
          else if c =? 123 then
            match skip u with
            | d :: r => if d =? 125 then Some (JObj [], r) else '(l, r') ← parse_members f u; Some (JObj l, r')
            | [] => None
            end
          else
            match strip «"null"» (c :: u), strip «"true"» (c :: u), strip «"false"» (c :: u) with
            | Some r, _, _ => Some (JNull, r)
            | _, Some r, _ => Some (JBool true, r)
            | _, _, Some r => Some (JBool false, r)
            | None, None, None => '(n, r) ← read_number (c :: u); Some (JNum n, r)
            end
      end
  end
with parse_elements (fuel : nat) (t : jsstring) {struct fuel} : option (list json * jsstring) :=
  match fuel with
  | O => None
  | S f =>
      '(v, r) ← parse_value f t;
      match skip r with
      | [] => None
      | c :: r' =>
          if c =? 44 then '(l, r'') ← parse_elements f r'; Some (v :: l, r'')
          else if c =? 93 then Some ([v], r') else None
      end
  end
with parse_members (fuel : nat) (t : jsstring) {struct fuel} : option (list (jsstring * json) * jsstring) :=
  match fuel with
  | O => None
  | S f =>
      match skip t with
      | [] => None
      | q :: t1 =>
          if q =? 34 then
            '(k, t2) ← read_units t1;
            match skip t2 with
            | [] => None
            | c :: t3 =>
                if c =? 58 then
                  '(v, t4) ← parse_value f t3;
                  match skip t4 with
                  | [] => None
                  | d :: t5 =>
                      if d =? 44 then '(l, t6) ← parse_members f t5; Some ((k, v) :: l, t6)
                      else if d =? 125 then Some ([(k, v)], t5) else None
                  end
                else None
            end
          else None
      end
  end.

(** [JSON.parse(t)]; [None] is a SyntaxError. *)
Definition json_parse (t : jsstring) : option json :=
  match parse_value (2 * length t) t with
  | Some (v, r) => match skip r with [] => Some v | _ => None end
  | None => None
  end.

Example parse_samples :
  json_parse <$> [«" [1, -2.5e1 ,true] "»; «"{}"»; «"01"»; «"[1,]"»; «"nul"»]
  = [Some (JArr [JNum (n_of_Z 1); JNum (n_of_Z (-25)); JBool true]); Some (JObj []); None; None; None].
Proof. vm_compute. reflexivity. Qed.

(** ** Every token consumes text *)

Local Open Scope nat_scope.

Lemma skip_length t : length (skip t) ≤ length t.
Proof. induction t as [|c t IH]; cbn; [done|]. destruct (is_blank c); cbn; lia. Qed.

Lemma skip_cons t c u : skip t = c :: u → length u < length t.
Proof. intros Hs. pose proof (skip_length t) as Hl. rewrite Hs in Hl. cbn in Hl. lia. Qed.

Lemma strip_length p t r : strip p t = Some r → length t = length p + length r.
Proof.
  revert t. induction p as [|c p IH]; intros [|d t] Hs; simplify_eq/=; [done..|].
  destruct (c =? d)%N; [|done]. rewrite (IH t Hs). lia.
Qed.

Lemma read_digits_length b acc len t :
  length (snd (read_digits b acc len t)) ≤ length t ∧
  length t = length (snd (read_digits b acc len t)) + (snd (fst (read_digits b acc len t)) - len) ∧
  len ≤ snd (fst (read_digits b acc len t)).
Proof.
  revert acc len. induction t as [|c t IH]; intros acc len; cbn [read_digits]; [cbn; lia|].
  destruct (digit_of c) as [d|]; [|cbn; lia]. destruct (d <? b)%N; [|cbn; lia].
  specialize (IH (acc * b + d)%N (S len)). cbn [length]. lia.
Qed.

Lemma read_units_length t s r : read_units t = Some (s, r) → length r < length t.
Proof.
  assert (∀ n t s r, length t ≤ n → read_units t = Some (s, r) → length r < length t) as Hn; [|by eapply Hn].
  clear t s r. induction n as [|n IH]; intros t s r Hlen; [by destruct t; cbn in *; [|lia]|].
  assert (∀ x u, length u ≤ n → with_unit x (read_units u) = Some (s, r) → length r < length u) as Hw.
  { intros x u Hu. unfold with_unit. destruct (read_units u) as [[s' r']|] eqn:Eu; [|done].
    cbn. intros [= _ <-]. by eapply IH. }
  destruct t as [|c t]; [done|]. cbn [length] in Hlen.
  destruct (decide (c = 34%N)) as [->|H34]; [intros [= _ <-]; cbn; lia|].
  destruct (decide (c = 92%N)) as [->|H92].
  - destruct t as [|d t]; [done|]. cbn [length] in *.
    destruct (decide (d = 117%N)) as [->|H117].
    + destruct t as [|x1 [|x2 [|x3 [|x4 t]]]]; cbn [read_units simple_escape] in *; try done.
      destruct (hex_value x1), (hex_value x2), (hex_value x3), (hex_value x4); try done.
      cbn [mbind option_bind length] in *. intros Hr. apply (Hw _ t) in Hr; lia.
    + assert (read_units (92%N :: d :: t) = (x ← simple_escape d; with_unit x (read_units t))) as ->.
      { destruct d as [|p]; [done|]. do 7 (destruct p as [p|p|]; try done). }
      destruct (simple_escape d) as [x|]; [|done]. cbn [mbind option_bind]. intros Hr. apply Hw in Hr; lia.
  - assert (read_units (c :: t) = if (c <? 32)%N then None else with_unit c (read_units t)) as ->.
    { destruct c as [|p]; [done|]. do 7 (destruct p as [p|p|]; try done). }
    destruct (c <? 32)%N; [done|]. intros Hr. apply Hw in Hr; cbn; lia.
Qed.

Lemma read_fraction_length x t y k r : read_fraction x t = Some (y, k, r) → length r ≤ length t.
Proof.
  unfold read_fraction. destruct t as [|c u]; [by intros [= _ _ <-]|].
  destruct (c =? 46)%N; [|by intros [= _ _ <-]].
  pose proof (read_digits_length 10 x 0 u) as Hl. destruct (read_digits 10 x 0 u) as [[y' len] rest].
  destruct (0 <? len); [|done]. intros [= _ _ <-]. cbn in *. lia.
Qed.

Lemma read_power_length t z r : read_power t = Some (z, r) → length r ≤ length t.
Proof.
  unfold read_power. destruct t as [|c u]; [by intros [= _ <-]|].
  destruct (_ || _); [|by intros [= _ <-]].
  set (p := match u with [] => _ | _ => _ end).
  assert (length (snd p) ≤ length u) as Hp.
  { subst p. destruct u as [|d v]; [done|]. destruct (d =? 43)%N; [cbn; lia|]. destruct (d =? 45)%N; cbn; lia. }
  destruct p as [neg u']. pose proof (read_digits_length 10 0 0 u') as Hl.
  destruct (read_digits 10 0 0 u') as [[x len] rest]. destruct (0 <? len); [|done].
  intros [= _ <-]. cbn in *. lia.
Qed.

Lemma read_number_length t n r : read_number t = Some (n, r) → length r < length t.
Proof.
  unfold read_number. set (p := match t with [] => _ | _ => _ end).
  assert (length (snd p) ≤ length t) as Hp.
  { subst p. destruct t as [|c v]; [done|]. destruct (c =? 45)%N; cbn; lia. }
  destruct p as [neg u]. pose proof (read_digits_length 10 0 0 u) as Hl.
  destruct (read_digits 10 0 0 u) as [[x len] r0]. cbn [fst snd] in *.
  destruct (Nat.eqb_spec len 0); [done|]. cbn [orb]. destruct (_ && _); [done|].
  destruct (read_fraction x r0) as [[[y k] r1]|] eqn:E1; [|done]. cbn [mbind option_bind].
  apply read_fraction_length in E1.
  destruct (read_power r1) as [[z r2]|] eqn:E2; [|done]. apply read_power_length in E2.
  cbn [mbind option_bind]. intros [= _ <-]. lia.
Qed.

(** ** The fuel is enough *)

(** A successful parse consumes text, and succeeds alike with any fuel of at least
    twice the text it consumes. *)
Definition stable {A} (extra : nat) (p : nat → jsstring → option (A * jsstring)) (f : nat) : Prop :=
  ∀ t v r, p f t = Some (v, r) →
    length r < length t ∧ ∀ f', 2 * (length t - length r) + extra ≤ f' → p f' t = Some (v, r).

Lemma stable_zero {A} extra (p : nat → jsstring → option (A * jsstring)) :
  (∀ t, p 0 t = None) → stable extra p 0.
Proof. intros Hp t v r Ht. by rewrite Hp in Ht. Qed.

Lemma parse_value_stable f :
  stable 1 parse_elements f → stable 1 parse_members f → stable 0 parse_value (S f).
Proof.
  intros HE HM t v r. cbn [parse_value]. destruct (skip t) as [|c u] eqn:Et; [done|].
  pose proof (skip_cons t c u Et) as Hu.
  assert (∀ f', 2 * (length t - length r) + 0 ≤ f' → length r < length t → ∃ g, f' = S g) as Hfuel.
  { intros [|g] ? ?; [lia|eauto]. }
  destruct (c =? 34)%N eqn:E34.
  { destruct (read_units u) as [[s r']|] eqn:Er; [|done]. intros [= <- <-].
    apply read_units_length in Er as Hr. split; [lia|]. intros f' Hf'.
    destruct (Hfuel f' Hf' ltac:(lia)) as [g ->]. cbn [parse_value]. rewrite Et, E34, Er. done. }
  destruct (c =? 91)%N eqn:E91.
  { destruct (skip u) as [|d u'] eqn:Eu; [done|]. pose proof (skip_cons u d u' Eu). destruct (d =? 93)%N eqn:E93.
    - intros [= <- <-]. split; [lia|]. intros f' Hf'. destruct (Hfuel f' Hf' ltac:(lia)) as [g ->].
      cbn [parse_value]. by rewrite Et, E34, E91, Eu, E93.
    - destruct (parse_elements f u) as [[l r']|] eqn:El; [|done]. intros [= <- <-].
      destruct (HE u l r' El) as [Hr Hst]. split; [lia|]. intros f' Hf'.
      destruct (Hfuel f' Hf' ltac:(lia)) as [g ->].
      cbn [parse_value]. rewrite Et, E34, E91, Eu, E93, Hst by lia. done. }
  destruct (c =? 123)%N eqn:E123.
  { destruct (skip u) as [|d u'] eqn:Eu; [done|]. pose proof (skip_cons u d u' Eu). destruct (d =? 125)%N eqn:E125.
    - intros [= <- <-]. split; [lia|]. intros f' Hf'. destruct (Hfuel f' Hf' ltac:(lia)) as [g ->].
      cbn [parse_value]. by rewrite Et, E34, E91, E123, Eu, E125.
    - destruct (parse_members f u) as [[l r']|] eqn:El; [|done]. intros [= <- <-].
      destruct (HM u l r' El) as [Hr Hst]. split; [lia|]. intros f' Hf'.
      destruct (Hfuel f' Hf' ltac:(lia)) as [g ->].
      cbn [parse_value]. rewrite Et, E34, E91, E123, Eu, E125, Hst by lia. done. }
  intros Hv.
  assert (length r < length (c :: u)) as Hr.
  { destruct (strip «"null"» (c :: u)) as [r1|] eqn:E1; [apply strip_length in E1|
      destruct (strip «"true"» (c :: u)) as [r2|] eqn:E2; [apply strip_length in E2|
        destruct (strip «"false"» (c :: u)) as [r3|] eqn:E3; [apply strip_length in E3|
          destruct (read_number (c :: u)) as [[x r4]|] eqn:E4; [apply read_number_length in E4|done]]]];
      simplify_eq/=; lia. }
  split; [cbn in Hr; lia|]. intros f' Hf'. destruct (Hfuel f' Hf' ltac:(cbn in Hr; lia)) as [g ->].
  cbn [parse_value]. rewrite Et, E34, E91, E123. exact Hv.
Qed.

Lemma parse_elements_stable f :
  stable 0 parse_value f → stable 1 parse_elements f → stable 1 parse_elements (S f).
Proof.
  intros HV HE t l r. cbn [parse_elements].
  destruct (parse_value f t) as [[v r1]|] eqn:Ev; [|done]. cbn [mbind option_bind].
  destruct (HV t v r1 Ev) as [Hr1 HVs].
  destruct (skip r1) as [|c r2] eqn:Es; [done|]. pose proof (skip_cons r1 c r2 Es) as Hr2.
  destruct (c =? 44)%N eqn:E44.
  - destruct (parse_elements f r2) as [[l' r3]|] eqn:El; [|done]. intros [= <- <-].
    destruct (HE r2 l' r3 El) as [Hr3 HEs]. split; [lia|].
    intros [|g] Hg; [lia|]. cbn [parse_elements]. rewrite HVs by lia. cbn [mbind option_bind].
    rewrite Es, E44, HEs by lia. done.
  - destruct (c =? 93)%N eqn:E93; [|done]. intros [= <- <-]. split; [lia|].
    intros [|g] Hg; [lia|]. cbn [parse_elements]. rewrite HVs by lia. cbn [mbind option_bind].
    by rewrite Es, E44, E93.
Qed.

Lemma parse_members_stable f :
  stable 0 parse_value f → stable 1 parse_members f → stable 1 parse_members (S f).
Proof.
  intros HV HM t l r. cbn [parse_members].
  destruct (skip t) as [|q t1] eqn:Et; [done|]. pose proof (skip_cons t q t1 Et) as Ht1.
  destruct (q =? 34)%N eqn:Eq; [|done].
  destruct (read_units t1) as [[k t2]|] eqn:Ek; [|done]. apply read_units_length in Ek as Ht2.
  cbn [mbind option_bind]. destruct (skip t2) as [|c t3] eqn:Ec; [done|].
  pose proof (skip_cons t2 c t3 Ec) as Ht3. destruct (c =? 58)%N eqn:E58; [|done].
  destruct (parse_value f t3) as [[v t4]|] eqn:Ev; [|done]. cbn [mbind option_bind].
  destruct (HV t3 v t4 Ev) as [Ht4 HVs].
  destruct (skip t4) as [|d t5] eqn:Ed; [done|]. pose proof (skip_cons t4 d t5 Ed) as Ht5.
  destruct (d =? 44)%N eqn:E44.
  - destruct (parse_members f t5) as [[l' t6]|] eqn:El; [|done]. intros [= <- <-].
    destruct (HM t5 l' t6 El) as [Ht6 HMs]. split; [lia|].
    intros [|g] Hg; [lia|]. cbn [parse_members]. rewrite Et, Eq, Ek. cbn [mbind option_bind].
    rewrite Ec, E58, HVs by lia. cbn [mbind option_bind]. rewrite Ed, E44, HMs by lia. done.
  - destruct (d =? 125)%N eqn:E125; [|done]. intros [= <- <-]. split; [lia|].
    intros [|g] Hg; [lia|]. cbn [parse_members]. rewrite Et, Eq, Ek. cbn [mbind option_bind].
    rewrite Ec, E58, HVs by lia. cbn [mbind option_bind]. by rewrite Ed, E44, E125.
Qed.

Lemma parse_stable f : stable 0 parse_value f ∧ stable 1 parse_elements f ∧ stable 1 parse_members f.
Proof.
  induction f as [|f (HV & HE & HM)]; [by split_and!; apply stable_zero|].
  split_and!; auto using parse_value_stable, parse_elements_stable, parse_members_stable.
Qed.

(** What [json_parse] returns does not depend on its fuel: if any fuel lets the
    parser read the text, so does its own. *)
Lemma json_parse_fuel f t v r :
  parse_value f t = Some (v, r) → parse_value (2 * length t) t = Some (v, r).
Proof. intros Hf. destruct (parse_stable f) as [HV _]. apply (HV t v r Hf). lia. Qed.

(** ** Printing and parsing *)

(** Values whose text determines them: strings of 16-bit units, and finite numbers
    whose shortest decimal is read back as the same number (all but -0). *)
Inductive printable : json → Prop :=
  | printable_null : printable JNull
  | printable_bool b : printable (JBool b)
  | printable_num n :
      is_finite n = true → read_number (n_toString n) = Some (n, []) → printable (JNum n)
  | printable_str s : units_ok s → printable (JStr s)
  | printable_arr l : Forall printable l → printable (JArr l)
  | printable_obj fs : Forall (λ f, units_ok f.1 ∧ printable f.2) fs → printable (JObj fs).

Section JsonInd.

Context (P : json → Prop).
Context (P_null : P JNull) (P_bool : ∀ b, P (JBool b)) (P_num : ∀ n, P (JNum n)) (P_str : ∀ s, P (JStr s)).
Context (P_arr : ∀ l, Forall P l → P (JArr l)).
Context (P_obj : ∀ fs, Forall (λ f, P f.2) fs → P (JObj fs)).

(** Induction with the hypothesis for all elements and fields. *)
Fixpoint json_nested_ind (v : json) : P v :=
  match v with
  | JNull => P_null
  | JBool b => P_bool b
  | JNum n => P_num n
  | JStr s => P_str s
  | JArr l => P_arr l ((fix all (l : list json) : Forall P l :=
      match l with
      | [] => Forall_nil_2 P
      | x :: l' => Forall_cons_2 P x l' (json_nested_ind x) (all l')
      end) l)
  | JObj fs => P_obj fs ((fix all (l : list (jsstring * json)) : Forall (λ f, P f.2) l :=
      match l with
      | [] => Forall_nil_2 _
      | x :: l' => Forall_cons_2 (λ f, P f.2) x l' (json_nested_ind x.2) (all l')
      end) fs)
  end.

End JsonInd.

(** What can follow a value inside a text: its end, or the end of an element. *)
Definition ends (rest : jsstring) : Prop :=
  match rest with [] => True | c :: _ => c = 44%N ∨ c = 93%N ∨ c = 125%N end.

Lemma ends_no_digit rest : ends rest → starts_no_digit rest.
Proof. destruct rest; [done|]. by intros [->|[->| ->]]. Qed.

Lemma read_digits_app acc len t rest :
  starts_no_digit rest →
  read_digits 10 acc len (t ++ rest) =
  (fst (read_digits 10 acc len t), snd (read_digits 10 acc len t) ++ rest).
Proof.
  intros Hr. revert acc len. induction t as [|c t IH]; intros acc len.
  { cbn [app]. rewrite read_digits_stop by done. done. }
  cbn [app read_digits]. destruct (digit_of c) as [d|]; [|done]. destruct (d <? 10)%N; [|done]. apply IH.
Qed.

Lemma read_fraction_app x t y k r rest :
  ends rest → read_fraction x t = Some (y, k, r) → read_fraction x (t ++ rest) = Some (y, k, r ++ rest).
Proof.
  intros Hr. unfold read_fraction. destruct t as [|c u]; cbn [app].
  - intros [= <- <- <-]. destruct rest as [|c rest]; [done|]. by destruct Hr as [->|[->| ->]].
  - destruct (c =? 46)%N; [|by intros [= <- <- <-]]. rewrite read_digits_app by by apply ends_no_digit.
    destruct (read_digits 10 x 0 u) as [[y' len] r']. cbn [fst snd]. destruct (0 <? len); [|done].
    by intros [= <- <- <-].
Qed.

Lemma read_power_app t z r rest :
  ends rest → read_power t = Some (z, r) → read_power (t ++ rest) = Some (z, r ++ rest).
Proof.
  intros Hr. unfold read_power. destruct t as [|c u]; cbn [app].
  - intros [= <- <-]. destruct rest as [|c rest]; [done|]. by destruct Hr as [->|[->| ->]].
  - destruct (_ || _); [|by intros [= <- <-]].
    destruct u as [|d v]; [done|]. cbn [app].
    destruct (d =? 43)%N; [|destruct (d =? 45)%N]; rewrite ?app_comm_cons;
      (rewrite read_digits_app by by apply ends_no_digit);
      destruct (read_digits 10 0 0 _) as [[x len] r']; cbn [fst snd]; (destruct (0 <? len); [|done]);
      by intros [= <- <-].
Qed.

(** Reading a number stops at what follows it. *)
Lemma read_number_app t n rest :
  ends rest → read_number t = Some (n, []) → read_number (t ++ rest) = Some (n, rest).
Proof.
  intros Hr. unfold read_number. destruct t as [|c v]; [done|]. cbn [app].
  set (p := if (c =? 45)%N then (true, v) else (false, c :: v)).
  assert ((if (c =? 45)%N then (true, v ++ rest) else (false, c :: v ++ rest)) = (fst p, snd p ++ rest)) as ->
    by (subst p; by destruct (c =? 45)%N).
  destruct p as [neg u]. cbn [fst snd]. rewrite read_digits_app by by apply ends_no_digit.
  destruct (read_digits 10 0 0 u) as [[x len] r0] eqn:Ed. cbn [fst snd].
  destruct (Nat.eqb_spec len 0) as [|Hlen]; [done|]. cbn [orb].
  assert (match u ++ rest with c :: _ => (c =? 48)%N | [] => false end =
          match u with c :: _ => (c =? 48)%N | [] => false end) as ->.
  { destruct u; [|done]. cbn in Ed. by simplify_eq. }
  destruct (_ && _); [done|].
  destruct (read_fraction x r0) as [[[y k] r1]|] eqn:E1; [|done]. rewrite (read_fraction_app _ _ _ _ _ _ Hr E1).
  cbn [mbind option_bind]. destruct (read_power r1) as [[z r2]|] eqn:E2; [|done].
  rewrite (read_power_app _ _ _ _ Hr E2). cbn [mbind option_bind]. intros [= <- ->]. done.
Qed.

Lemma number_start t n r : read_number t = Some (n, r) → ∃ c u, t = c :: u ∧ (c = 45%N ∨ is_digit c = true).
Proof.
  unfold read_number. destruct t as [|c v]; [done|]. intros Hn. exists c, v. split; [done|].
  destruct (N.eqb_spec c 45) as [|Hne]; [by left|]. right. revert Hn.
  cbn [read_digits]. destruct (digit_of c) as [d|] eqn:Ed; [|done].
  destruct (N.ltb_spec d 10); [|done]. intros _. by eapply digit_of_digit.
Qed.

(** ** The round trip *)

(** Enough fuel for a text is enough for every parse that succeeds on it. *)
Lemma parse_value_at f F t v r :
  parse_value f t = Some (v, r) → 2 * length t ≤ F → parse_value F t = Some (v, r).
Proof. intros Hf HF. destruct (parse_stable f) as (HV & _ & _). apply (HV t v r Hf). lia. Qed.

Lemma parse_elements_at f F t l r :
  parse_elements f t = Some (l, r) → 2 * length t < F → parse_elements F t = Some (l, r).
Proof. intros Hf HF. destruct (parse_stable f) as (_ & HE & _). apply (HE t l r Hf). lia. Qed.

Lemma parse_members_at f F t l r :
  parse_members f t = Some (l, r) → 2 * length t < F → parse_members F t = Some (l, r).
Proof. intros Hf HF. destruct (parse_stable f) as (_ & _ & HM). apply (HM t l r Hf). lia. Qed.

(** The parser reads the text of [v] back, whatever ends it. *)
Definition parses (v : json) : Prop :=
  ∀ rest, ends rest → ∃ f, parse_value f (json_stringify v ++ rest) = Some (v, rest).

Lemma stringify_arr x l :
  json_stringify (JArr (x :: l)) = 91%N :: join «","» (json_stringify <$> x :: l) ++ [93%N].
Proof. done. Qed.

(** A member as it is written. *)
Definition member_text (m : jsstring * json) : jsstring := quote m.1 ++ 58%N :: json_stringify m.2.

Lemma stringify_obj m l :
  json_stringify (JObj (m :: l)) = 123%N :: join «","» (member_text <$> m :: l) ++ [125%N].
Proof.
  unfold json_stringify at 1. cbn [stringify app map]. change (jeqb [] []) with true. cbv iota.
  assert (∀ n : jsstring * json,
    (let '(k, w) := n in quote k ++ «":"» ++ stringify [] [] w) = member_text n) as Hm by by intros [k w].
  rewrite Hm, fmap_cons. do 4 f_equal. apply map_ext. exact Hm.
Qed.

Lemma join_cons (x y : jsstring) l : join «","» (x :: y :: l) = x ++ 44%N :: join «","» (y :: l).
Proof. unfold join. by rewrite fmap_cons. Qed.

(** The text of a value starts with a character that is neither blank nor the end
    of an array. *)
Lemma value_head v :
  printable v → ∃ c u, json_stringify v = c :: u ∧ is_blank c = false ∧ c ≠ 93%N.
Proof.
  destruct 1 as [|[]|n Hf Hn|s Hs|[|x l] Hl|[|m l] Hl]; try by do 2 eexists.
  apply number_start in Hn as (c & u & Hc & Hd). exists c, u.
  unfold json_stringify. cbn [stringify]. rewrite Hf. split; [done|].
  destruct Hd as [->|Hd]; [done|]. unfold is_digit, is_blank in *. lia.
Qed.

Lemma skip_stringify v t : printable v → skip (json_stringify v ++ t) = json_stringify v ++ t.
Proof. intros (c & u & -> & Hc & _)%value_head. cbn. by rewrite Hc. Qed.

Lemma parse_elements_join l x rest :
  Forall (λ v, printable v ∧ parses v) (x :: l) →
  ∃ f, parse_elements f (join «","» (json_stringify <$> x :: l) ++ 93%N :: rest) = Some (x :: l, rest).
Proof.
  revert x. induction l as [|y l IH]; intros x [[Hpx Hx] Hl]%Forall_cons.
  - destruct (Hx (93%N :: rest)) as [f Hf]; [cbn; auto|]. exists (S f).
    cbn [fmap list_fmap join concat parse_elements]. rewrite app_nil_r, Hf. done.
  - destruct (IH y Hl) as [g Hg]. rewrite !fmap_cons, join_cons, <-app_assoc in *. cbn [app] in *.
    set (t := join «","» _ ++ 93%N :: rest) in *.
    destruct (Hx (44%N :: t)) as [f Hf]; [cbn; auto|].
    set (w := json_stringify x ++ 44%N :: t) in *. exists (S (2 * length w)).
    assert (length t < length w) by (subst w; rewrite length_app; cbn; lia).
    cbn [parse_elements]. rewrite (parse_value_at _ _ _ _ _ Hf) by lia. cbn [mbind option_bind].
    change (skip (44%N :: t)) with (44%N :: t). cbv iota.
    change (44 =? 44)%N with true. cbv iota. rewrite (parse_elements_at _ _ _ _ _ Hg) by lia. done.
Qed.

Lemma read_key k rest : units_ok k → read_units (quote_units k ++ 34%N :: rest) = Some (k, rest).
Proof. by apply (read_quote_units (length k)). Qed.

Lemma quote_app k rest : quote k ++ rest = 34%N :: quote_units k ++ 34%N :: rest.
Proof. unfold quote. cbn [app]. by rewrite <-app_assoc. Qed.

(** One member, followed by a comma or by the end of the object. *)
Lemma parse_member m t f :
  units_ok m.1 → parse_value f (json_stringify m.2 ++ t) = Some (m.2, t) →
  parse_members (S f) (member_text m ++ t) =
  match skip t with
  | [] => None
  | d :: t5 =>
      if (d =? 44)%N then '(l, t6) ← parse_members f t5; Some (m :: l, t6)
      else if (d =? 125)%N then Some ([m], t5) else None
  end.
Proof.
  intros Hk Hv. destruct m as [k v]. unfold member_text. cbn [fst snd] in *.
  rewrite <-app_assoc, quote_app. cbn [parse_members app].
  change (skip (34%N :: ?u)) with (34%N :: u). cbv iota. change (34 =? 34)%N with true. cbv iota.
  rewrite read_key by done. cbn [mbind option_bind].
  change (skip (58%N :: ?u)) with (58%N :: u). cbv iota. change (58 =? 58)%N with true. cbv iota.
  by rewrite Hv.
Qed.

Lemma parse_members_join l m rest :
  Forall (λ m, units_ok m.1 ∧ parses m.2) (m :: l) →
  ∃ f, parse_members f (join «","» (member_text <$> m :: l) ++ 125%N :: rest) = Some (m :: l, rest).
Proof.
  revert m. induction l as [|n l IH]; intros m [[Hk Hm] Hl]%Forall_cons.
  - destruct (Hm (125%N :: rest)) as [f Hf]; [cbn; auto|]. exists (S f).
    cbn [fmap list_fmap join concat]. rewrite app_nil_r, parse_member by done. done.
  - destruct (IH n Hl) as [g Hg]. rewrite !fmap_cons, join_cons, <-app_assoc in *. cbn [app] in *.
    set (t := join «","» _ ++ 125%N :: rest) in *.
    destruct (Hm (44%N :: t)) as [f Hf]; [cbn; auto|].
    set (w := json_stringify m.2 ++ 44%N :: t) in *. exists (S (2 * length w)).
    assert (length t < length w) by (subst w; rewrite length_app; cbn; lia).
    rewrite parse_member; [|done|by apply (parse_value_at _ _ _ _ _ Hf)].
    change (skip (44%N :: t)) with (44%N :: t). cbv iota.
    change (44 =? 44)%N with true. cbv iota. rewrite (parse_members_at _ _ _ _ _ Hg) by lia. done.
Qed.

Lemma parses_leaf v :
  printable v →
  match v with JArr _ | JObj _ => False | _ => True end → parses v.
Proof.
  destruct 1 as [|[]|n Hf Hn|s Hs|l Hl|l Hl]; try done; intros _ rest Hrest; exists 1; try done.
  - apply number_start in Hn as Hstart. destruct Hstart as (c & u & Hc & Hd).
    assert (json_stringify (JNum n) = n_toString n) as -> by (unfold json_stringify; cbn; by rewrite Hf).
    apply (read_number_app _ _ rest) in Hn; [|done]. rewrite Hc in *. cbn [app] in *.
    cbn [parse_value skip].
    assert (is_blank c = false ∧ (c =? 34)%N = false ∧ (c =? 91)%N = false ∧ (c =? 123)%N = false ∧
      (110 =? c)%N = false ∧ (116 =? c)%N = false ∧ (102 =? c)%N = false)
      as (-> & -> & -> & -> & Hnull & Htrue & Hfalse)
      by (destruct Hd as [->|Hd]; [done|]; unfold is_digit, is_blank in *; lia).
    assert (strip «"null"» (c :: u ++ rest) = None) as ->
      by (change (strip «"null"» (c :: ?t)) with (if (110 =? c)%N then strip «"ull"» t else None); by rewrite Hnull).
    assert (strip «"true"» (c :: u ++ rest) = None) as ->
      by (change (strip «"true"» (c :: ?t)) with (if (116 =? c)%N then strip «"rue"» t else None); by rewrite Htrue).
    assert (strip «"false"» (c :: u ++ rest) = None) as ->
      by (change (strip «"false"» (c :: ?t)) with (if (102 =? c)%N then strip «"alse"» t else None); by rewrite Hfalse).
    by rewrite Hn.
  - unfold json_stringify. cbn [stringify]. rewrite quote_app. cbn [parse_value].
    change (skip (34%N :: ?u)) with (34%N :: u). cbv iota. change (34 =? 34)%N with true. cbv iota.
    by rewrite read_key.
Qed.

Lemma printable_parses v : printable v → parses v.
Proof.
  induction v as [|b|n|s|l IH|fs IH] using json_nested_ind; intros Hv; try by apply parses_leaf.
  - inversion_clear Hv as [| | | |? Hl|]. destruct l as [|x l]; [by intros rest _; exists 1|].
    assert (Forall (λ v, printable v ∧ parses v) (x :: l)) as Hall.
    { apply Forall_forall. intros v Hv. rewrite Forall_forall in IH, Hl. auto. }
    intros rest _. destruct (parse_elements_join l x rest Hall) as [f Hf]. exists (S f).
    rewrite stringify_arr. cbn [app]. rewrite <-app_assoc. cbn [app]. set (t := join _ _ ++ _) in *.
    assert (skip t = t ∧ match t with d :: _ => d ≠ 93%N | [] => False end) as [Hskip Hhead].
    { apply Forall_cons in Hall as [[Hx _] _]. destruct (value_head x Hx) as (c & u & Hc & Hb & H93).
      subst t. rewrite fmap_cons. cbn [join]. rewrite Hc. cbn [app skip]. by rewrite Hb. }
    cbn [parse_value]. change (skip (91%N :: t)) with (91%N :: t). cbv iota.
    change (91 =? 34)%N with false. change (91 =? 91)%N with true. cbv iota. rewrite Hskip.
    destruct t as [|d t]; [done|]. apply N.eqb_neq in Hhead. by rewrite Hhead, Hf.
  - inversion_clear Hv as [| | | | |? Hl]. destruct fs as [|m fs]; [by intros rest _; exists 1|].
    assert (Forall (λ m, units_ok m.1 ∧ parses m.2) (m :: fs)) as Hall.
    { apply Forall_forall. intros n Hn. rewrite Forall_forall in IH, Hl. naive_solver. }
    intros rest _. destruct (parse_members_join fs m rest Hall) as [f Hf]. exists (S f).
    rewrite stringify_obj. cbn [app]. rewrite <-app_assoc. cbn [app]. set (t := join _ _ ++ _) in *.
    assert (∃ u, t = 34%N :: u) as [u Hu] by by eexists.
    cbn [parse_value]. change (skip (123%N :: t)) with (123%N :: t). cbv iota.
    change (123 =? 34)%N with false. change (123 =? 91)%N with false. change (123 =? 123)%N with true.
    cbv iota. rewrite Hu in *. change (skip (34%N :: u)) with (34%N :: u). cbv iota.
    change (34 =? 125)%N with false. cbv iota. by rewrite Hf.
Qed.

(** [JSON.parse(JSON.stringify(v))] is [v]. *)
Lemma json_parse_stringify v : printable v → json_parse (json_stringify v) = Some v.
Proof.
  intros Hv. destruct (printable_parses v Hv [] I) as [f Hf]. rewrite app_nil_r in Hf.
  unfold json_parse. by rewrite (parse_value_at _ _ _ _ _ Hf).
Qed.
