(* ===== verification/Uri.v ===== *)
(** * Keys in request paths

    [encodeURIComponent] as the console uses it to put a key into a path or a
    query string: its output alphabet, and that percent-decoding followed by
    UTF-8 decoding, as the gateway's server does, gives the key back. *)

From S2P Require Import Prelude JsString Text.

Local Open Scope N_scope.
Local Open Scope list_scope.

(** ** Decoding *)

Definition upper_hex_value (c : N) : option N :=
  if (48 <=? c) && (c <=? 57) then Some (c - 48)
  else if (65 <=? c) && (c <=? 70) then Some (c - 55)
  else None.

(** The bytes of a percent-encoded ASCII string. *)
Fixpoint percent_decode (t : jsstring) : option (list N) :=
  match t with
  | [] => Some []
  | c :: t' =>
      if c =? percent then
        match t' with
        | a :: b :: t'' =>
            x ← upper_hex_value a; y ← upper_hex_value b; cons (x * 16 + y) <$> percent_decode t''
        | _ => None
        end
      else cons c <$> percent_decode t'
  end.

Definition continuation (b : N) : bool := (128 <=? b) && (b <? 192).

Fixpoint utf8_decode (bs : list N) : option (list N) :=
  match bs with
  | [] => Some []
  | b :: r =>
      if b <? 128 then cons b <$> utf8_decode r
      else if b <? 192 then None
      else if b <? 224 then
        match r with
        | c :: r' =>
            if continuation c then cons ((b - 192) * 64 + (c - 128)) <$> utf8_decode r' else None
        | _ => None
        end
      else if b <? 240 then
        match r with
        | c :: d :: r' =>
            if continuation c && continuation d
            then cons (((b - 224) * 64 + (c - 128)) * 64 + (d - 128)) <$> utf8_decode r' else None
        | _ => None
        end
      else
        match r with
        | c :: d :: f :: r' =>
            if continuation c && continuation d && continuation f
            then cons ((((b - 240) * 64 + (c - 128)) * 64 + (d - 128)) * 64 + (f - 128))
                   <$> utf8_decode r' else None
        | _ => None
        end
  end.

(** The UTF-16 code units of a code point. *)
Definition utf16 (cp : N) : jsstring :=
  if cp <? 65536 then [cp]
  else [55296 + (cp - 65536) / 1024; 56320 + (cp - 65536) mod 1024].

Definition decodeURIComponent (t : jsstring) : option jsstring :=
  bs ← percent_decode t; cps ← utf8_decode bs; Some (concat (utf16 <$> cps)).

(** Characters that separate the parts of a URL never occur in a component. *)
Definition component_unit (c : N) : bool := unreserved c || (c =? percent).

(** ** Code points *)

Definition scalar (cp : N) : Prop := cp < 1114112.

Lemma code_points_sound n s cps :
  (length s <= n)%nat → units_ok s → code_points s = Some cps →
  concat (utf16 <$> cps) = s ∧ Forall scalar cps.
Proof.
  revert s cps. induction n as [|n IH]; intros s cps Hn Hs Hcp.
  { destruct s; [|simpl in Hn; lia]. by simplify_eq/=. }
  destruct s as [|c s]; [by simplify_eq/=|]. apply Forall_cons in Hs as [Hc Hs]. simpl in Hn.
  cbn [code_points] in Hcp. destruct ((c <? 55296) || (57343 <? c)) eqn:Hbmp.
  - destruct (code_points s) as [l|] eqn:E; simplify_eq/=.
    destruct (IH s l) as [<- Hl]; [lia|done..|].
    split; [|constructor; [unfold scalar; lia|done]].
    unfold utf16. by rewrite (proj2 (N.ltb_lt c 65536)).
  - destruct (56320 <=? c) eqn:Htr; [done|].
    destruct s as [|d s]; [done|]. apply Forall_cons in Hs as [Hd Hs]. simpl in Hn.
    destruct ((56320 <=? d) && (d <=? 57343)) eqn:Hlow; [|done].
    destruct (code_points s) as [l|] eqn:E; simplify_eq/=.
    destruct (IH s l) as [<- Hl]; [lia|done..|].
    set (x := 65536 + (c - 55296) * 1024 + (d - 56320)).
    split; [|constructor; [unfold scalar; lia|done]].
    unfold utf16. rewrite (proj2 (N.ltb_ge x 65536)) by lia.
    replace (x - 65536) with ((d - 56320) + (c - 55296) * 1024) by lia.
    rewrite N.div_add, N.Div0.mod_add, N.div_small, N.mod_small by lia.
    simpl. do 2 f_equal; [lia|]. f_equal. lia.
Qed.

(** ** UTF-8 *)

Lemma utf8_bytes cp : scalar cp → Forall (λ b, b < 256) (utf8 cp).
Proof.
  unfold scalar, utf8. intros Hcp.
  pose proof (N.mod_lt cp 64). pose proof (N.mod_lt (cp / 64) 64). pose proof (N.mod_lt (cp / 4096) 64).
  assert (cp / 262144 < 8) by (apply N.Div0.div_lt_upper_bound; lia).
  repeat case_match; repeat constructor; try lia;
    (apply N.lt_le_trans with (m := 192 + 32) || apply N.lt_le_trans with (m := 224 + 16)); try lia;
    apply N.add_lt_mono_l, N.Div0.div_lt_upper_bound; lia.
Qed.

Lemma continuation_128 x : x < 64 → continuation (128 + x) = true.
Proof. unfold continuation. lia. Qed.

Lemma utf8_decode_cons cp t : scalar cp → utf8_decode (utf8 cp ++ t) = cons cp <$> utf8_decode t.
Proof.
  unfold scalar, utf8. intros Hcp.
  destruct (N.ltb_spec cp 128) as [G1|G1].
  { cbn [app utf8_decode]. by rewrite (proj2 (N.ltb_lt cp 128)). }
  assert (cp = 64 * (cp / 64) + cp mod 64) as E1 by apply N.Div0.div_mod.
  assert (cp / 64 = 64 * (cp / 4096) + (cp / 64) mod 64) as E2.
  { change 4096 with (64 * 64). rewrite <-N.Div0.div_div. apply N.Div0.div_mod. }
  assert (cp / 4096 = 64 * (cp / 262144) + (cp / 4096) mod 64) as E3.
  { change 262144 with (4096 * 64). rewrite <-N.Div0.div_div. apply N.Div0.div_mod. }
  assert (cp mod 64 < 64 ∧ (cp / 64) mod 64 < 64 ∧ (cp / 4096) mod 64 < 64) as (? & ? & ?)
    by (split_and!; apply N.mod_lt; lia).
  destruct (N.ltb_spec cp 2048) as [G2|G2]; [|destruct (N.ltb_spec cp 65536) as [G3|G3]];
    cbn [app utf8_decode];
    repeat (match goal with
      |- context [if ?b then _ else _] =>
        first [assert (b = true) as -> by lia | assert (b = false) as -> by lia] end);
    rewrite ?continuation_128 by done; cbn [andb]; do 2 f_equal; lia.
Qed.

Lemma utf8_decode_all cps : Forall scalar cps → utf8_decode (concat (utf8 <$> cps)) = Some cps.
Proof.
  induction 1 as [|cp cps Hcp _ IH]; [done|]. cbn [fmap list_fmap concat].
  by rewrite utf8_decode_cons, IH.
Qed.

(** ** Percent encoding *)

Lemma hex_digit_value d : d < 16 → upper_hex_value (hex_digit d) = Some d.
Proof. intros Hd. unfold upper_hex_value, hex_digit. repeat case_match; f_equal; lia. Qed.

Lemma percent_decode_byte b t :
  b < 256 → percent_decode (percent_byte b ++ t) = cons b <$> percent_decode t.
Proof.
  intros Hb. unfold percent_byte. cbn [app percent_decode]. rewrite N.eqb_refl.
  rewrite !hex_digit_value by (try apply N.mod_lt; try apply N.Div0.div_lt_upper_bound; lia).
  cbn [mbind option_bind]. do 2 f_equal. pose proof (N.Div0.div_mod b 16). lia.
Qed.

Lemma percent_decode_bytes bs t :
  Forall (λ b, b < 256) bs →
  percent_decode (concat (percent_byte <$> bs) ++ t) = app bs <$> percent_decode t.
Proof.
  induction 1 as [|b bs Hb _ IH]; cbn [fmap list_fmap concat].
  { cbn [app]. by destruct (percent_decode t). }
  rewrite <-app_assoc, percent_decode_byte, IH by done. by destruct (percent_decode t).
Qed.

Lemma unreserved_ascii c : unreserved c = true → c < 128 ∧ c ≠ percent.
Proof.
  unfold unreserved, percent. rewrite !orb_true_iff, bool_decide_eq_true.
  intros [[[?|?]|?]|Hin]; [lia..|].
  repeat (apply elem_of_cons in Hin as [->|Hin]; [done|]). by apply not_elem_of_nil in Hin.
Qed.

Lemma percent_decode_code_point cp t :
  scalar cp → percent_decode (encode_code_point cp ++ t) = app (utf8 cp) <$> percent_decode t.
Proof.
  intros Hcp. unfold encode_code_point. destruct (unreserved cp) eqn:Hu.
  - apply unreserved_ascii in Hu as [Hlt Hne]. cbn [app percent_decode].
    rewrite (proj2 (N.eqb_neq _ _) Hne). unfold utf8. by rewrite (proj2 (N.ltb_lt cp 128)).
  - by apply percent_decode_bytes, utf8_bytes.
Qed.

Lemma percent_decode_all cps :
  Forall scalar cps →
  percent_decode (concat (encode_code_point <$> cps)) = Some (concat (utf8 <$> cps)).
Proof.
  induction 1 as [|cp cps Hcp _ IH]; [done|]. cbn [fmap list_fmap concat].
  by rewrite percent_decode_code_point, IH.
Qed.

(** Decoding gives the component back. *)
Lemma decode_encode s t :
  units_ok s → encodeURIComponent s = Some t → decodeURIComponent t = Some s.
Proof.
  unfold encodeURIComponent, decodeURIComponent. intros Hs Ht.
  destruct (code_points s) as [cps|] eqn:E; simplify_eq/=.
  destruct (code_points_sound (length s) s cps) as [<- Hsc]; [done..|].
  rewrite percent_decode_all by done. cbn [mbind option_bind].
  by rewrite utf8_decode_all.
Qed.

(** ** The output alphabet *)

Lemma hex_digit_unreserved d : d < 16 → unreserved (hex_digit d) = true.
Proof. intros Hd. unfold unreserved, hex_digit. repeat case_match; rewrite !orb_true_iff; lia. Qed.

Lemma percent_byte_units b : b < 256 → Forall (λ c, component_unit c = true) (percent_byte b).
Proof.
  intros Hb. unfold percent_byte, component_unit.
  apply Forall_cons; split; [done|]. apply Forall_cons; split; [|apply Forall_singleton].
  - rewrite hex_digit_unreserved; [done|]. apply N.Div0.div_lt_upper_bound. lia.
  - rewrite hex_digit_unreserved; [done|]. apply N.mod_lt. lia.
Qed.

Lemma encode_code_point_units cp :
  scalar cp → Forall (λ c, component_unit c = true) (encode_code_point cp).
Proof.
  intros Hcp. unfold encode_code_point. destruct (unreserved cp) eqn:Hu.
  - repeat constructor. unfold component_unit. by rewrite Hu.
  - apply Forall_concat, Forall_fmap. eapply Forall_impl; [by apply utf8_bytes|].
    apply percent_byte_units.
Qed.

(** An encoded component consists of unreserved characters and percent signs. *)
Lemma encode_units s t :
  units_ok s → encodeURIComponent s = Some t → Forall (λ c, component_unit c = true) t.
Proof.
  unfold encodeURIComponent. intros Hs Ht.
  destruct (code_points s) as [cps|] eqn:E; simplify_eq/=.
  destruct (code_points_sound (length s) s cps) as [_ Hsc]; [done..|].
  apply Forall_concat, Forall_fmap. eapply Forall_impl; [done|]. apply encode_code_point_units.
Qed.
