(* ===== verification/BoundedLog.v ===== *)
(** * Bounded, newest-first logs

    The two explorers and the two consensus views keep a list in which a new entry
    goes to the front and the oldest ones fall off the end.
    The interface states what one event does to such a list; the theorem gives
    the list after any sequence of events. *)

From S2P Require Import Prelude.

Local Open Scope list_scope.

Class BoundedLog (St Ev R : Type) := {
  bl_limit : nat;
  bl_step : Ev → St → St;
  bl_rows : St → list R;
  bl_produces : Ev → St → list R;
}.

(** An event puts what it produces in front, the last product first, and keeps
    the newest [bl_limit] entries. *)
Class BoundedLogLaws St Ev R `{BoundedLog St Ev R} :=
  bl_step_rows e (s : St) :
    length (bl_rows s) ≤ bl_limit →
    bl_rows (bl_step e s) = slice_first bl_limit (rev (bl_produces e s) ++ bl_rows s).

Section Log.

Context `{BoundedLogLaws St Ev R}.

Definition bl_run (es : list Ev) (s : St) : St := foldl (λ s e, bl_step e s) s es.

(** Everything a run produces, in order. *)
Fixpoint bl_log (es : list Ev) (s : St) : list R :=
  match es with
  | [] => []
  | e :: es' => bl_produces e s ++ bl_log es' (bl_step e s)
  end.

Lemma bl_run_rows es s :
  length (bl_rows s) ≤ bl_limit →
  bl_rows (bl_run es s) = slice_first bl_limit (rev (bl_log es s) ++ bl_rows s).
Proof.
  revert s. induction es as [|e es IH]; intros s Hs; cbn [bl_run bl_log foldl].
  { unfold slice_first. simpl. by rewrite take_ge. }
  change (foldl _ _ es) with (bl_run es (bl_step e s)).
  rewrite IH, bl_step_rows by (rewrite ?bl_step_rows, ?slice_first_length by done; lia).
  unfold slice_first. by rewrite take_app_take, rev_app_distr, app_assoc.
Qed.

Lemma bl_run_bounded es s :
  length (bl_rows s) ≤ bl_limit → length (bl_rows (bl_run es s)) ≤ bl_limit.
Proof. intros Hs. rewrite bl_run_rows, slice_first_length by done. lia. Qed.

End Log.

(** The list with the new entry cut to [k + 1], and the new entry on the list
    cut to [k], are the same. *)
Lemma push_slice {A} k (x : A) l : x :: slice_first k l = slice_first (S k) ([x] ++ l).
Proof. done. Qed.
