(* ===== verification/RuntimeConfig.v ===== *)
(** * Runtime configuration (lib/runtimeConfig.ts)

    The API and WebSocket base URLs come from build-time environment variables;
    [apiUrl] and [wsUrl] prefix request paths with them. *)

From S2P Require Import Prelude JsString.

Local Open Scope list_scope.

(** A host environment for the witnesses: the page at https://console.test, and
    a parser that knows one URL. *)
Definition sample_platform : Platform := {|
  unicode_lower := id;
  location_protocol := «"https:"»;
  location_host := «"console.test"»;
  url_parse := λ s, if jeqb s «"https://gw.test"»
                    then Some («"https:"», «"gw.test"») else None;
  type_error_message := «"Cannot read properties of null"»;
  uri_error_message := «"URI malformed"»;
  syntax_error_message := «"Unexpected end of JSON input"»;
|}.

Section RuntimeConfig.

Context `{Platform}.

(** ** Definitions *)

(** [import.meta.env]: the two variables the module reads. *)
Record Env := {
  VITE_API_BASE_URL : option jsstring;
  VITE_WS_BASE_URL : option jsstring;
}.

(** The match of [/\/+$/] starting at the current position: one or more slashes
    up to the end of the input. *)
Definition slashes_to_end (s : jsstring) : bool :=
  match s with [] => false | _ => forallb (λ c, N.eqb c slash) s end.

(** [value.replace(/\/+$/, "")]: the leftmost match is removed. *)
Fixpoint trimTrailingSlash (value : jsstring) : jsstring :=
  if slashes_to_end value then []
  else match value with [] => [] | c :: s => c :: trimTrailingSlash s end.

Definition ensureLeadingSlash (path : jsstring) : jsstring :=
  if startsWith path «"/"» then path else «"/"» ++ path.

Definition rawApiBase (env : Env) : jsstring :=
  nullish (trim <$> VITE_API_BASE_URL env) [].
Definition rawWsBase (env : Env) : jsstring :=
  nullish (trim <$> VITE_WS_BASE_URL env) [].

Definition apiBase (env : Env) : jsstring :=
  if jeqb (rawApiBase env) [] then [] else trimTrailingSlash (rawApiBase env).
Definition wsBase (env : Env) : jsstring :=
  if jeqb (rawWsBase env) [] then [] else trimTrailingSlash (rawWsBase env).

Definition apiUrl (env : Env) (path : jsstring) : jsstring :=
  let normalizedPath := ensureLeadingSlash path in
  if jeqb (apiBase env) [] then normalizedPath
  else apiBase env ++ normalizedPath.

(** The last two lines of [wsUrl]: the page's own origin. *)
Definition wsUrl_same_origin (normalizedPath : jsstring) : jsstring :=
  let proto := if jeqb location_protocol «"https:"» then «"wss"» else «"ws"» in
  proto ++ «"://"» ++ location_host ++ normalizedPath.

Definition wsUrl (env : Env) (path : jsstring) : jsstring :=
  let normalizedPath := ensureLeadingSlash path in
  if negb (jeqb (wsBase env) []) then wsBase env ++ normalizedPath
  else if negb (jeqb (apiBase env) []) then
    match url_parse (apiBase env) with
    | Some (protocol, host) =>
        let wsProto := if jeqb protocol «"https:"» then «"wss:"» else «"ws:"» in
        wsProto ++ «"//"» ++ host ++ normalizedPath
    | None => wsUrl_same_origin normalizedPath
    end
  else wsUrl_same_origin normalizedPath.

(** The origin a WebSocket is opened on when no WebSocket base is configured:
    that of the API base when it parses, the page's otherwise. *)
Definition ws_origin (env : Env) : jsstring * jsstring :=
  match (if jeqb (apiBase env) [] then None else url_parse (apiBase env)) with
  | Some o => o
  | None => (location_protocol, location_host)
  end.

(** ** Lemmas on the regular expression *)

Lemma slashes_to_end_spec s :
  slashes_to_end s = true ↔ ∃ k, s = replicate (S k) slash.
Proof.
  assert (∀ s, forallb (λ c, N.eqb c slash) s = true ↔ ∃ k, s = replicate k slash) as Hall.
  { clear s. induction s as [|c s IH]; simpl.
    - split; [exists 0; done|done].
    - rewrite andb_true_iff, N.eqb_eq, IH. split.
      + intros [-> [k ->]]. by exists (S k).
      + intros [[|k] ?]; simplify_eq/=. eauto. }
  destruct s as [|c s].
  - split; [done|]. intros [k Hk]. discriminate Hk.
  - unfold slashes_to_end. rewrite Hall. split; intros [k Hk].
    + destruct k as [|k]; [done|]. by exists k.
    + by exists (S k).
Qed.

Lemma trimTrailingSlash_split s :
  ∃ k, s = trimTrailingSlash s ++ replicate k slash ∧ last (trimTrailingSlash s) ≠ Some slash.
Proof.
  induction s as [|c s (k & Hk & Hl)]; [by exists 0|].
  cbn [trimTrailingSlash].
  destruct (slashes_to_end (c :: s)) eqn:E.
  { apply slashes_to_end_spec in E as [j Hj]. exists (S j). split; [done|]. done. }
  exists k. split; [simpl; congruence|].
  destruct (trimTrailingSlash s) as [|d t] eqn:Et; [|done].
  intros Hc. apply not_true_iff_false in E. apply E, slashes_to_end_spec.
  exists k. simpl in *. congruence.
Qed.

Lemma trimTrailingSlash_unique t k :
  last t ≠ Some slash → trimTrailingSlash (t ++ replicate k slash) = t.
Proof.
  intros Ht. destruct (trimTrailingSlash_split (t ++ replicate k slash)) as (j & Hj & Hl).
  set (u := trimTrailingSlash _) in *. clearbody u.
  assert (∀ (a b : jsstring) i j, a ++ replicate i slash = b ++ replicate j slash →
    last a ≠ Some slash → last b ≠ Some slash → a = b) as Huniq; [|by eapply Huniq].
  clear. intros a b i. induction i as [|i IH]; intros [|j] Heq Ha Hb.
  - by rewrite !app_nil_r in Heq.
  - exfalso. apply Ha. rewrite app_nil_r in Heq. subst a.
    by rewrite replicate_S_end, app_assoc, last_snoc.
  - exfalso. apply Hb. rewrite app_nil_r in Heq. subst b.
    by rewrite replicate_S_end, app_assoc, last_snoc.
  - rewrite !replicate_S_end, !app_assoc in Heq. apply app_inj_tail in Heq as [Heq _].
    by eapply IH.
Qed.

Lemma ensureLeadingSlash_head path : ∃ t, ensureLeadingSlash path = slash :: t.
Proof.
  unfold ensureLeadingSlash. case_match eqn:E; [|by eexists].
  apply startsWith_spec in E as [t ->]. by exists t.
Qed.

Lemma base_no_trailing_slash raw :
  last (if jeqb raw [] then [] else trimTrailingSlash raw) ≠ Some slash.
Proof.
  case_match; [done|]. by destruct (trimTrailingSlash_split raw) as (k & _ & ?).
Qed.

(** ** Lemmas on trimming configured values *)

Lemma trim_start_spaces ws s :
  forallb is_space ws = true → trim_start (ws ++ s) = trim_start s.
Proof.
  induction ws as [|c ws IH]; simpl; [done|]. intros [-> Hws]%andb_true_iff. auto.
Qed.

Lemma trim_end_spaces ws s :
  forallb is_space ws = true → trim_end (s ++ ws) = trim_end s.
Proof.
  intros Hws. unfold trim_end. rewrite rev_app_distr, trim_start_spaces; [done|].
  apply forallb_forall. intros c Hc%in_rev. by eapply forallb_forall in Hws.
Qed.

Lemma trim_end_slash s k : trim_end s = s → trim_end (s ++ replicate k slash) = s ++ replicate k slash.
Proof.
  intros Hs. destruct k as [|k]; [by rewrite app_nil_r|].
  unfold trim_end. rewrite replicate_S_end, app_assoc, rev_app_distr. simpl.
  by rewrite rev_involutive.
Qed.

Lemma trim_slashes b k ws :
  trim b = b → forallb is_space ws = true →
  trim (b ++ replicate k slash ++ ws) = b ++ replicate k slash.
Proof.
  intros Hb Hws. unfold trim in *.
  destruct b as [|c b].
  - destruct k as [|k]; simpl.
    + rewrite <-(app_nil_r ws), trim_start_spaces by done. done.
    + change (slash :: replicate k slash ++ ws) with (replicate (S k) slash ++ ws).
      rewrite trim_end_spaces by done. by apply (trim_end_slash [] (S k)).
  - assert (is_space c = false) as Hc.
    { destruct (is_space c) eqn:Hc; [|done].
      assert (length (trim_end (trim_start (c :: b))) ≤ length b) as Hlen.
      { unfold trim_end. rewrite length_rev.
        assert (∀ s, length (trim_start s) ≤ length s) as Hle
          by (intros; apply suffix_length, trim_start_suffix).
        simpl. rewrite Hc. etrans; [apply Hle|]. rewrite length_rev. apply Hle. }
      rewrite Hb in Hlen. simpl in Hlen. lia. }
    simpl in *. rewrite Hc in *. rewrite app_comm_cons, app_assoc, trim_end_spaces by done.
    by apply trim_end_slash.
Qed.

Lemma base_slashes b k ws :
  trim b = b → forallb is_space ws = true →
  (if jeqb (trim (b ++ replicate k slash ++ ws)) [] then []
   else trimTrailingSlash (trim (b ++ replicate k slash ++ ws))) =
  (if jeqb (trim b) [] then [] else trimTrailingSlash (trim b)).
Proof.
  intros Hb Hws. rewrite trim_slashes, Hb by done.
  destruct (trimTrailingSlash_split b) as (j & Hj & Hl).
  set (t := trimTrailingSlash b) in *. clearbody t. subst b.
  rewrite <-app_assoc, <-replicate_add, !trimTrailingSlash_unique by done.
  assert (∀ i, (if jeqb (t ++ replicate i slash) [] then [] else t) = t) as Hif; [|by rewrite !Hif].
  intros i. unfold jeqb. case_bool_decide as Hnil; [|done].
  by apply app_nil in Hnil as [-> _].
Qed.

(** What a configured variable means. *)
Definition base_of (v : option jsstring) : jsstring :=
  if jeqb (nullish (trim <$> v) []) [] then [] else trimTrailingSlash (nullish (trim <$> v) []).

(** Another way to write a variable: white space around it and slashes after it,
    and for an unset variable nothing else. *)
Inductive padded : option jsstring → option jsstring → Prop :=
  | padded_same v : padded v v
  | padded_set b pre k post :
      trim b = b → forallb is_space pre = true → forallb is_space post = true →
      padded (Some b) (Some (pre ++ b ++ replicate k slash ++ post))
  | padded_blank pre k post :
      forallb is_space pre = true → forallb is_space post = true →
      padded None (Some (pre ++ replicate k slash ++ post)).

Lemma padded_base v v' : padded v v' → base_of v' = base_of v.
Proof.
  assert (∀ b pre k post, trim b = b → forallb is_space pre = true → forallb is_space post = true →
    base_of (Some (pre ++ b ++ replicate k slash ++ post)) = base_of (Some b)) as Hset.
  { intros b pre k post Hb Hpre Hpost. unfold base_of. cbn [fmap option_fmap option_map nullish].
    assert (∀ s, trim (pre ++ s) = trim s) as -> by (intros s; unfold trim; by rewrite trim_start_spaces).
    by apply base_slashes. }
  destruct 1 as [v|b pre k post|pre k post Hpre Hpost]; [done|by apply Hset|].
  by apply (Hset [] pre k post).
Qed.

(** ** Properties *)

(** Every API URL is the configured base followed by the path with its
    leading slash, the base never ends in a slash, and the path part starts with
    one: base and path are joined by the slash of the path alone. *)
Theorem apiUrl_joins_once env path :
  apiUrl env path = apiBase env ++ ensureLeadingSlash path ∧
  last (apiBase env) ≠ Some slash ∧
  head (ensureLeadingSlash path) = Some slash.
Proof.
  split_and!.
  - unfold apiUrl, jeqb. case_bool_decide as Hb; [by rewrite Hb|done].
  - apply base_no_trailing_slash.
  - by destruct (ensureLeadingSlash_head path) as [t ->].
Qed.

(** C38: white space around a configured base and slashes after it change no URL,
    for the API base and the WebSocket base alike, and a variable of nothing else
    counts as unset. *)
Theorem base_url_normalised a a' w w' path :
  padded a a' → padded w w' →
  let env := Build_Env a w in
  let env' := Build_Env a' w' in
  apiUrl env' path = apiUrl env path ∧ wsUrl env' path = wsUrl env path.
Proof.
  intros Ha%padded_base Hw%padded_base env env'.
  assert (apiBase env' = apiBase env) as Ea by exact Ha.
  assert (wsBase env' = wsBase env) as Ew by exact Hw.
  unfold apiUrl, wsUrl. by rewrite Ea, Ew.
Qed.

(** Without a WebSocket base, the socket URL is the effective origin with
    the WebSocket scheme, encrypted exactly when that origin is https. *)
Theorem wsUrl_scheme env path :
  wsBase env = [] →
  wsUrl env path =
    (if jeqb (fst (ws_origin env)) «"https:"» then «"wss://"» else «"ws://"»)
    ++ snd (ws_origin env) ++ ensureLeadingSlash path.
Proof.
  intros Hw. unfold wsUrl, ws_origin, wsUrl_same_origin. rewrite Hw. simpl.
  destruct (jeqb (apiBase env) []); simpl; [by destruct (jeqb location_protocol _)|].
  destruct (url_parse (apiBase env)) as [[p h]|]; simpl; by destruct (jeqb _ _).
Qed.

End RuntimeConfig.

Lemma base_url_normalised_witness :
  @wsUrl sample_platform (Build_Env (Some «" / "») (Some «" wss://gw.test// "»)) «"ws/metrics"»
  = «"wss://gw.test/ws/metrics"».
Proof.
  etrans; [apply (@base_url_normalised sample_platform None (Some «" / "»)
    (Some «"wss://gw.test"») (Some «" wss://gw.test// "») «"ws/metrics"»)|].
  - apply (padded_blank «" "» 1 «" "»); reflexivity.
  - apply (padded_set «"wss://gw.test"» «" "» 2 «" "»); reflexivity.
  - vm_compute. reflexivity.
Defined.

Lemma wsUrl_scheme_witness :
  @wsUrl sample_platform (Build_Env (Some «"https://gw.test/"») None) «"/ws/metrics"»
  = «"wss://gw.test/ws/metrics"».
Proof.
  rewrite (@wsUrl_scheme sample_platform (Build_Env (Some «"https://gw.test/"») None)
    «"/ws/metrics"» ltac:(vm_compute; reflexivity)).
  vm_compute. reflexivity.
Defined.
