(* ===== verification/Api.v ===== *)
(** * Requests on the key API

    The requests the console sends to [/api/keys] from its explorers and from
    the trace runner: the URL that carries an encoded key and the JSON body of a
    write.  The path of a URL is resolved as by the URL Standard, so that the
    theorems speak of the path the gateway receives. *)

From S2P Require Import Prelude JsNumber JsString Json Text Uri RuntimeConfig.

Local Open Scope list_scope.

(** ** Requests *)

Inductive HttpMethod := HGet | HPost | HDelete.

(** The arguments of [fetch]; the JSON content type goes with the body. *)
Record Request := {
  req_method : HttpMethod;
  req_url : jsstring;
  req_body : option jsstring;
}.

Inductive Op := GET | SET | DEL | SCAN.

#[export] Instance Op_eq_dec : EqDecision Op.
Proof. solve_decision. Defined.

(** The value of [err.message] for a thrown value: [None] is [undefined]. *)
Definition message_of (e : thrown) : option jsstring :=
  match e with ThrownError m => Some m | ThrownOther => None end.

(** [JSON.stringify({ key, value })] *)
Definition set_body (key value : jsstring) : jsstring :=
  json_stringify (JObj [(«"key"», JStr key); («"value"», JStr value)]).

Section Api.

Context `{Platform} (env : Env).

Definition set_request (key value : jsstring) : Request := {|
  req_method := HPost; req_url := apiUrl env «"/api/keys"»; req_body := Some (set_body key value) |}.

(** A request on one key, with a query string after it; [encodeURIComponent]
    throws on a lone surrogate. *)
Definition key_request (m : HttpMethod) (key qs : jsstring) : completion Request :=
  match encodeURIComponent key with
  | Some t => Normal {| req_method := m; req_url := apiUrl env («"/api/keys/"» ++ t ++ qs);
                        req_body := None |}
  | None => Throw (ThrownError uri_error_message)
  end.

Definition scan_request (prefix : jsstring) : completion Request :=
  match encodeURIComponent prefix with
  | Some t => Normal {| req_method := HGet;
                        req_url := apiUrl env («"/api/keys?prefix="» ++ t ++ «"&limit=50"»);
                        req_body := None |}
  | None => Throw (ThrownError uri_error_message)
  end.

End Api.

(** ** Paths as the URL Standard resolves them *)

Definition query_mark : N := 63.
Definition ampersand : N := 38.
Definition equals : N := 61.

(** The text before the first occurrence of a separator, and the text after it. *)
Fixpoint split_at (sep : N) (t : jsstring) : jsstring * option jsstring :=
  match t with
  | [] => ([], None)
  | c :: t' =>
      if (c =? sep)%N then ([], Some t')
      else let '(p, q) := split_at sep t' in (c :: p, q)
  end.

(** The segments between slashes. *)
Fixpoint segments (t : jsstring) : list jsstring :=
  match t with
  | [] => [[]]
  | c :: t' =>
      if (c =? slash)%N then [] :: segments t'
      else match segments t' with
           | s :: l => (c :: s) :: l
           | [] => [[c]]
           end
  end.

Definition single_dot (s : jsstring) : bool := bool_decide (s ∈ [«"."»; «"%2e"»; «"%2E"»]).

Definition double_dot (s : jsstring) : bool :=
  bool_decide (s ∈ [«".."»; «".%2e"»; «".%2E"»; «"%2e."»; «"%2E."»;
                    «"%2e%2e"»; «"%2e%2E"»; «"%2E%2e"»; «"%2E%2E"»]).

(** [acc] holds the resolved segments, the last one first. *)
Fixpoint resolve (acc segs : list jsstring) : list jsstring :=
  match segs with
  | [] => rev acc
  | [s] =>
      if double_dot s then rev ([] :: tail acc)
      else if single_dot s then rev ([] :: acc)
      else rev (s :: acc)
  | s :: rest =>
      if double_dot s then resolve (tail acc) rest
      else if single_dot s then resolve acc rest
      else resolve (s :: acc) rest
  end.

(** The segments of an absolute path once resolved. *)
Definition resolved_path (p : jsstring) : list jsstring := resolve [] (tail (segments p)).

(** The path of the request line: the resolved segments, each after a slash. *)
Definition url_path (p : jsstring) : jsstring := concat ((λ s, slash :: s) <$> resolved_path p).

(** A string without lone surrogates, which [encodeURIComponent] accepts. *)
Definition well_formed (s : jsstring) : Prop := units_ok s ∧ encodeURIComponent s ≠ None.

(** ** Lemmas on paths *)

Lemma component_unit_plain c : component_unit c = true → c ≠ slash ∧ c ≠ query_mark ∧ c ≠ ampersand.
Proof.
  unfold component_unit. rewrite orb_true_iff, N.eqb_eq.
  intros [Hu| ->]; [|done]. by repeat split; intros ->.
Qed.

Lemma segments_plain t : Forall (λ c, c ≠ slash) t → segments t = [t].
Proof.
  induction 1 as [|c t Hc _ IH]; [done|]. cbn [segments].
  rewrite (proj2 (N.eqb_neq _ _) Hc). by rewrite IH.
Qed.

Lemma segments_app_slash a t :
  Forall (λ c, c ≠ slash) a → segments (a ++ slash :: t) = a :: segments t.
Proof.
  induction 1 as [|c a Hc _ IH]; [done|]. cbn [app segments].
  rewrite (proj2 (N.eqb_neq _ _) Hc). by rewrite IH.
Qed.

Lemma split_at_first sep t q :
  Forall (λ c, c ≠ sep) t → split_at sep (t ++ sep :: q) = (t, Some q).
Proof.
  induction 1 as [|c t Hc _ IH]; cbn [app split_at]; [by rewrite N.eqb_refl|].
  by rewrite (proj2 (N.eqb_neq _ _) Hc), IH.
Qed.

Lemma split_at_none sep t : Forall (λ c, c ≠ sep) t → split_at sep t = (t, None).
Proof.
  induction 1 as [|c t Hc _ IH]; [done|]. cbn [split_at].
  by rewrite (proj2 (N.eqb_neq _ _) Hc), IH.
Qed.

(** The encoding of a key is a dot segment only for the keys [.] and [..]. *)
Lemma encoded_not_dot key t :
  units_ok key → encodeURIComponent key = Some t → key ≠ «"."» → key ≠ «".."» →
  single_dot t = false ∧ double_dot t = false.
Proof.
  intros Hk Ht H1 H2. pose proof (decode_encode key t Hk Ht) as Hd.
  split; apply bool_decide_eq_false; intros Hin;
    repeat (apply elem_of_cons in Hin as [->|Hin]; [vm_compute in Hd; simplify_eq; done|]);
    by apply not_elem_of_nil in Hin.
Qed.

Lemma encoded_plain key t sep :
  units_ok key → encodeURIComponent key = Some t → component_unit sep = false →
  Forall (λ c, c ≠ sep) t.
Proof.
  intros Hk Ht Hsep. eapply Forall_impl; [by eapply encode_units|].
  intros c Hc ->. by rewrite Hsep in Hc.
Qed.

(** The path of a request on a key is sent as it is written. *)
Lemma url_path_encoded key t :
  units_ok key → encodeURIComponent key = Some t → key ≠ «"."» → key ≠ «".."» →
  url_path («"/api/keys/"» ++ t) = «"/api/keys/"» ++ t.
Proof.
  intros Hk Ht H1 H2. unfold url_path, resolved_path.
  change («"/api/keys/"» ++ t) with (slash :: «"api"» ++ slash :: «"keys"» ++ slash :: t).
  cbn [segments]. change (slash =? slash)%N with true. cbn match. cbn [tail].
  rewrite !segments_app_slash by (apply (bool_decide_unpack _); vm_compute; exact I).
  rewrite segments_plain by by eapply encoded_plain.
  destruct (encoded_not_dot key t) as [Hs Hdd]; [done..|].
  cbn [resolve]. rewrite Hs, Hdd.
  change (concat ((λ s, slash :: s) <$> [«"api"»; «"keys"»; t]) = «"/api/keys/"» ++ t).
  cbn [fmap list_fmap concat]. by rewrite app_nil_r.
Qed.

Lemma literal_units_ok s : forallb (λ c, c <? 65536)%N s = true → units_ok s.
Proof.
  intros Hs. apply Forall_forall. intros c Hc. rewrite forallb_forall in Hs.
  apply N.ltb_lt, Hs. by apply list_elem_of_In.
Qed.

Lemma key_path_split key t :
  units_ok key → encodeURIComponent key = Some t →
  split_at query_mark («"/api/keys/"» ++ t) = («"/api/keys/"» ++ t, None) ∧
  ∀ q, split_at query_mark («"/api/keys/"» ++ t ++ query_mark :: q) = («"/api/keys/"» ++ t, Some q).
Proof.
  intros Hk Ht.
  assert (Forall (λ c, c ≠ query_mark) («"/api/keys/"» ++ t)) as Hp.
  { apply Forall_app. split; [|by eapply encoded_plain].
    apply (bool_decide_unpack _). vm_compute. exact I. }
  split; [by apply split_at_none|]. intros q. rewrite app_assoc. by apply split_at_first.
Qed.

Section Requests.

Context `{Platform} (env : Env).

(** A request that cannot be built names a key with a lone surrogate. *)
Lemma key_request_throws m key qs e :
  key_request env m key qs = Throw e → encodeURIComponent key = None.
Proof. unfold key_request. by destruct (encodeURIComponent key). Qed.

Lemma scan_request_throws prefix e :
  scan_request env prefix = Throw e → encodeURIComponent prefix = None.
Proof. unfold scan_request. by destruct (encodeURIComponent prefix). Qed.

End Requests.
