(* ===== verification/Gateway.v ===== *)
(** * The key API of the gateway (src/gateway/main.py)

    Which handler of the gateway a request of the console reaches, and with which
    arguments: the routes and parameters main.py declares for [/api/keys], on the
    path and query the server hands to the application.  The server and the web
    framework are a class with what their documentation promises. *)

From S2P Require Import Prelude JsNumber JsString Json Text Digits JsonParse Uri RuntimeConfig Api.

Local Open Scope list_scope.

(** ** The web framework *)

(** The query string with these parameters, as [encodeURIComponent] writes it. *)
Definition query_text (ps : list (jsstring * jsstring)) : option jsstring :=
  join «"&"» <$> mapM (λ p, n ← encodeURIComponent p.1; v ← encodeURIComponent p.2; Some (n ++ equals :: v)) ps.

Definition string_object (fs : list (jsstring * jsstring)) : json := JObj ((λ f, (f.1, JStr f.2)) <$> fs).

(** What the gateway relies on.  ASGI hands the application a path with percent
    sequences and UTF-8 decoded; query strings are form-encoded; a JSON body is
    parsed; parameters and fields are validated against their annotations, where
    [str] accepts well-formed strings and [int] accepts decimal texts. *)
Class Framework := {
  asgi_path : jsstring → jsstring;
  query_params : jsstring → list (jsstring * jsstring);
  json_loads : jsstring → option json;
  validate_str : json → option jsstring;
  validate_int : json → option Z;
  asgi_path_decodes raw p : decodeURIComponent raw = Some p → asgi_path raw = p;
  query_params_decode ps t :
    Forall (λ p, units_ok p.1 ∧ units_ok p.2) ps → query_text ps = Some t → query_params t = ps;
  json_loads_strings fs :
    Forall (λ f, units_ok f.1 ∧ units_ok f.2) fs →
    json_loads (json_stringify (string_object fs)) = Some (string_object fs);
  validate_str_well_formed s : well_formed s → validate_str (JStr s) = Some s;
  validate_int_decimal z : (0 <= z)%Z → validate_int (JStr (show_Z z)) = Some z;
}.

(** ** Routes *)

(** The handlers of the key API with their arguments. *)
Inductive Call :=
  | SetKey (key value : jsstring) (ttl_seconds : Z)
  | GetKey (key : jsstring) (node : option Z)
  | DelKey (key : jsstring)
  | ScanKeys (prefix : jsstring) (limit : Z).

Section Gateway.

Context `{Framework}.

(** A path parameter [{key}] after a fixed prefix: one or more characters other
    than a slash. *)
Definition path_param (prefix path : jsstring) : option jsstring :=
  k ← strip prefix path;
  if jeqb k [] || existsb (N.eqb slash) k then None else validate_str (JStr k).

(** The last query parameter of a name. *)
Definition param (name : jsstring) (ps : list (jsstring * jsstring)) : option jsstring :=
  snd <$> last (array_filter (λ p, jeqb p.1 name) ps).

(** A parameter with a default. *)
Definition param_or {A} (validate : json → option A) (default : A) (p : option jsstring) : option A :=
  match p with Some t => validate (JStr t) | None => Some default end.

(** The body of a write, [SetRequest]. *)
Definition SetRequest (body : json) : option (jsstring * jsstring * Z) :=
  match body with
  | JObj fs =>
      key ← field fs «"key"» ≫= validate_str;
      value ← field fs «"value"» ≫= validate_str;
      ttl ← match field fs «"ttl_seconds"» with Some v => validate_int v | None => Some 0%Z end;
      if jeqb key [] then None else Some (key, value, ttl)
  | _ => None
  end.

(** The handler that is called; [None] when no route of the key API matches or a
    parameter does not validate.  The redirect the framework answers with when a
    path matches only without its final slash is not modelled. *)
Definition dispatch (m : HttpMethod) (path query : jsstring) (body : option jsstring) : option Call :=
  let p := asgi_path path in
  let ps := query_params query in
  match m with
  | HPost =>
      if jeqb p «"/api/keys"» then
        b ← body; req ← json_loads b; '(k, v, ttl) ← SetRequest req; Some (SetKey k v ttl)
      else None
  | HDelete => k ← path_param «"/api/keys/"» p; Some (DelKey k)
  | HGet =>
      match path_param «"/api/keys/"» p with
      | Some k =>
          n ← param_or (λ v, Some <$> validate_int v) None (param «"node"» ps); Some (GetKey k n)
      | None =>
          if jeqb p «"/api/keys"» then
            prefix ← param_or validate_str [] (param «"prefix"» ps);
            limit ← param_or validate_int 100%Z (param «"limit"» ps);
            Some (ScanKeys prefix (Z.max 1 (Z.min limit 1000)))
          else None
      end
  end.

(** What a request to a path below the configured base becomes: the URL parser
    resolves the path, and the query is split off. *)
Definition receive (m : HttpMethod) (p : jsstring) (body : option jsstring) : option Call :=
  let '(path, query) := split_at query_mark p in
  dispatch m (url_path path) (nullish query []) body.

(** The gateway of [env] handles [r] as [c] ([None]: not at all). *)
Definition handled `{Platform} (env : Env) (r : Request) (c : option Call) : Prop :=
  ∃ p, req_url r = apiUrl env (slash :: p) ∧ receive (req_method r) (slash :: p) (req_body r) = c.

(** Keys that can be named in a path: not empty, no slash, neither [.] nor [..]. *)
Definition routable (key : jsstring) : Prop :=
  well_formed key ∧ key ≠ [] ∧ (slash ∉ key) ∧ key ≠ «"."» ∧ key ≠ «".."».

(** ** Lemmas *)

Lemma jeqb_ne (a b : jsstring) : a ≠ b → jeqb a b = false.
Proof. apply bool_decide_eq_false_2. Qed.

Lemma slash_test k : existsb (N.eqb slash) k = bool_decide (slash ∈ k).
Proof.
  symmetry. case_bool_decide as Hk.
  - symmetry. apply existsb_exists. exists slash. split; [by apply list_elem_of_In|apply N.eqb_refl].
  - symmetry. apply not_true_iff_false. intros (c & Hc & <-%N.eqb_eq)%existsb_exists.
    by apply Hk, list_elem_of_In.
Qed.

Lemma strip_app p t : strip p (p ++ t) = Some t.
Proof. induction p as [|c p IH]; cbn [strip app]; [done|]. by rewrite N.eqb_refl. Qed.

(** Plain ASCII text in front of a component is decoded to itself. *)
Lemma decode_plain_app a t :
  Forall (λ c, (c < 128)%N ∧ c ≠ percent) a →
  decodeURIComponent (a ++ t) = app a <$> decodeURIComponent t.
Proof.
  induction 1 as [|c a [Hc Hp] _ IH]; [cbn [app]; by destruct (decodeURIComponent t)|].
  assert (∀ u, decodeURIComponent (c :: u) = cons c <$> decodeURIComponent u) as Hcons.
  { intros u. unfold decodeURIComponent. cbn [percent_decode]. rewrite (proj2 (N.eqb_neq _ _) Hp).
    destruct (percent_decode u) as [bs|]; [|done]. cbn [fmap option_fmap option_map mbind option_bind utf8_decode].
    rewrite (proj2 (N.ltb_lt c 128) Hc). destruct (utf8_decode bs) as [cps|]; [|done].
    assert (utf16 c = [c]) as Hutf by (unfold utf16; by rewrite (proj2 (N.ltb_lt c 65536)) by lia).
    cbn [fmap option_fmap option_map mbind option_bind list_fmap concat]. by rewrite Hutf. }
  cbn [app]. rewrite Hcons, IH. by destruct (decodeURIComponent t).
Qed.

(** The path the application sees for a request on a key. *)
Lemma key_path key t :
  units_ok key → encodeURIComponent key = Some t → key ≠ «"."» → key ≠ «".."» →
  asgi_path (url_path («"/api/keys/"» ++ t)) = «"/api/keys/"» ++ key.
Proof.
  intros Hk Ht H1 H2. rewrite (url_path_encoded key) by done.
  apply asgi_path_decodes. rewrite decode_plain_app by (apply (bool_decide_unpack _); vm_compute; exact I).
  by rewrite (decode_encode key t).
Qed.

Lemma path_param_key key :
  routable key → path_param «"/api/keys/"» («"/api/keys/"» ++ key) = Some key.
Proof.
  intros (Hw & Hne & Hs & _). unfold path_param. rewrite strip_app. cbn [mbind option_bind].
  rewrite jeqb_ne, slash_test, bool_decide_eq_false_2 by done. by apply validate_str_well_formed.
Qed.

Lemma path_param_slash key :
  slash ∈ key → path_param «"/api/keys/"» («"/api/keys/"» ++ key) = None.
Proof.
  intros Hs. unfold path_param. rewrite strip_app. cbn [mbind option_bind].
  by rewrite slash_test, bool_decide_eq_true_2, orb_true_r.
Qed.

Section Requests.

Context `{Platform} (env : Env).

Lemma set_request_handled key value :
  well_formed key → well_formed value → key ≠ [] →
  handled env (set_request env key value) (Some (SetKey key value 0)).
Proof.
  intros Hk Hv Hne. exists «"api/keys"». split; [done|]. unfold receive.
  change (slash :: «"api/keys"») with «"/api/keys"».
  change (split_at query_mark «"/api/keys"») with («"/api/keys"», @None jsstring). cbv iota.
  unfold dispatch. cbn [req_method req_body set_request].
  rewrite (asgi_path_decodes _ «"/api/keys"») by (vm_compute; reflexivity).
  change (jeqb «"/api/keys"» «"/api/keys"») with true. cbv iota.
  change (set_body key value) with (json_stringify (string_object [(«"key"», key); («"value"», value)])).
  cbn [mbind option_bind]. rewrite json_loads_strings.
  2: { apply Forall_cons_2; [|apply Forall_singleton];
       (split; [by apply literal_units_ok|apply Hk || apply Hv]). }
  cbn [mbind option_bind]. unfold SetRequest, string_object. cbn [fmap list_fmap fst snd].
  change (field [(«"key"», JStr key); («"value"», JStr value)] «"key"») with (Some (JStr key)).
  change (field [(«"key"», JStr key); («"value"», JStr value)] «"value"») with (Some (JStr value)).
  change (field [(«"key"», JStr key); («"value"», JStr value)] «"ttl_seconds"») with (@None json).
  cbn [mbind option_bind]. rewrite !validate_str_well_formed by done. cbn [mbind option_bind].
  by rewrite jeqb_ne.
Qed.

(** A request on a key: what the handler sees is decided by the path alone. *)
Lemma key_request_received m key q r :
  well_formed key → key ≠ «"."» → key ≠ «".."» →
  key_request env m key (match q with Some q => query_mark :: q | None => [] end) = Normal r →
  ∃ p path, req_url r = apiUrl env (slash :: p) ∧ req_method r = m ∧
    receive m (slash :: p) (req_body r) = dispatch m path (nullish q []) None ∧
    asgi_path path = «"/api/keys/"» ++ key.
Proof.
  intros [Hk _] H1 H2. unfold key_request.
  destruct (encodeURIComponent key) as [t|] eqn:Ht; [|done]. intros [= <-].
  destruct (key_path_split key t Hk Ht) as [Hnone Hsome].
  exists («"api/keys/"» ++ t ++ match q with Some q => query_mark :: q | None => [] end),
    (url_path («"/api/keys/"» ++ t)).
  split_and!; [done|done| |by apply key_path]. unfold receive.
  change (slash :: «"api/keys/"» ++ ?x) with («"/api/keys/"» ++ x).
  destruct q as [q|]; [by rewrite Hsome|]. by rewrite app_nil_r, Hnone.
Qed.

Lemma delete_request_handled key r :
  routable key → key_request env HDelete key [] = Normal r → handled env r (Some (DelKey key)).
Proof.
  intros Hk Hr. pose proof Hk as (Hw & _ & _ & H1 & H2).
  destruct (key_request_received HDelete key None r Hw H1 H2 Hr) as (p & path & Hu & Hm & Hrec & Hp).
  exists p. split; [done|]. rewrite Hm, Hrec. unfold dispatch. by rewrite Hp, path_param_key.
Qed.

(** A read, directed at a node or not. *)
Lemma read_request_handled key node r :
  routable key → (∀ z, node = Some z → (0 <= z)%Z) →
  key_request env HGet key
    (match node with Some z => query_mark :: «"node="» ++ show_Z z | None => [] end) = Normal r →
  handled env r (Some (GetKey key node)).
Proof.
  intros Hk Hn Hr. pose proof Hk as (Hw & _ & _ & H1 & H2).
  destruct (key_request_received HGet key ((λ z, «"node="» ++ show_Z z) <$> node) r Hw H1 H2)
    as (p & path & Hu & Hm & Hrec & Hp); [by destruct node|].
  exists p. split; [done|]. rewrite Hm, Hrec. unfold dispatch. rewrite Hp, path_param_key by done.
  destruct node as [z|]; cbn [fmap option_fmap option_map nullish].
  - specialize (Hn z eq_refl). destruct (show_Z_encoded z Hn) as [Henc Hunits].
    rewrite (query_params_decode [(«"node"», show_Z z)]).
    + change (param «"node"» [(«"node"», show_Z z)]) with (Some (show_Z z)). cbn [param_or].
      by rewrite validate_int_decimal.
    + apply Forall_singleton. split; [by apply literal_units_ok|done].
    + unfold query_text. cbn [mapM fst snd]. change (encodeURIComponent «"node"») with (Some «"node"»).
      rewrite Henc. cbn. by rewrite app_nil_r.
  - rewrite (query_params_decode []) by done. done.
Qed.

Lemma scan_request_handled prefix r :
  well_formed prefix → scan_request env prefix = Normal r → handled env r (Some (ScanKeys prefix 50)).
Proof.
  intros Hp. unfold scan_request. destruct (encodeURIComponent prefix) as [t|] eqn:Ht; [|done].
  intros [= <-]. exists («"api/keys?prefix="» ++ t ++ «"&limit=50"»). split; [done|].
  set (q := «"prefix="» ++ t ++ «"&limit=50"»).
  change (slash :: «"api/keys?prefix="» ++ t ++ «"&limit=50"») with («"/api/keys"» ++ query_mark :: q).
  unfold receive. rewrite split_at_first by (apply (bool_decide_unpack _); vm_compute; exact I).
  cbn [req_method req_body nullish]. unfold dispatch.
  rewrite (asgi_path_decodes _ «"/api/keys"») by (vm_compute; reflexivity).
  change (path_param «"/api/keys/"» «"/api/keys"») with (@None jsstring). cbv iota.
  change (jeqb «"/api/keys"» «"/api/keys"») with true. cbv iota.
  rewrite (query_params_decode [(«"prefix"», prefix); («"limit"», «"50"»)]).
  - change (param «"prefix"» [(«"prefix"», prefix); («"limit"», «"50"»)]) with (Some prefix).
    change (param «"limit"» [(«"prefix"», prefix); («"limit"», «"50"»)]) with (Some (show_Z 50)).
    cbn [param_or]. by rewrite validate_str_well_formed, validate_int_decimal.
  - apply Forall_cons_2; [split; [by apply literal_units_ok|apply Hp]|].
    apply Forall_singleton. split; by apply literal_units_ok.
  - unfold query_text. cbn [mapM fst snd]. change (encodeURIComponent «"prefix"») with (Some «"prefix"»).
    change (encodeURIComponent «"limit"») with (Some «"limit"»).
    change (encodeURIComponent «"50"») with (Some «"50"»). rewrite Ht.
    cbn. by rewrite <-app_assoc.
Qed.

(** No handler is called for a key with a slash in it. *)
Lemma slash_request_refused m key r :
  m ≠ HPost → well_formed key → slash ∈ key → key_request env m key [] = Normal r → handled env r None.
Proof.
  intros Hm Hw Hs Hr.
  destruct (key_request_received m key None r Hw) as (p & path & Hu & Hrm & Hrec & Hp); [..|exact Hr|].
  - intros ->. revert Hs. apply (bool_decide_unpack (slash ∉ _)). exact I.
  - intros ->. revert Hs. apply (bool_decide_unpack (slash ∉ _)). exact I.
  - exists p. split; [done|]. rewrite Hrm, Hrec. unfold dispatch. rewrite Hp, path_param_slash by done.
    destruct m; [|done|done]. by rewrite jeqb_ne.
Qed.

End Requests.

End Gateway.

(** ** Commands of the console *)

(** The handler that should be called for a form. *)
Definition call (o : Op) (k v : jsstring) (node : option Z) : Call :=
  match o with
  | GET => GetKey k node
  | SET => SetKey k v 0
  | DEL => DelKey k
  | SCAN => ScanKeys k 50
  end.

(** What the gateway accepts: well-formed text without lone surrogates; a key that
    is not empty, and, where it is part of the path, has no slash and is neither
    [.] nor [..]. *)
Definition deliverable (o : Op) (k v : jsstring) : Prop :=
  match o with
  | GET | DEL => routable k
  | SET => well_formed k ∧ well_formed v ∧ k ≠ []
  | SCAN => well_formed k
  end.

(** ** A framework as documented *)

(** Shows that the class can be implemented. *)

Fixpoint split_all (sep : N) (t : jsstring) : list jsstring :=
  match t with
  | [] => [[]]
  | c :: t' =>
      if (c =? sep)%N then [] :: split_all sep t'
      else match split_all sep t' with
           | s :: l => (c :: s) :: l
           | [] => [[c]]
           end
  end.

(** [name=value], with [+] for a space. *)
Definition read_pair (t : jsstring) : option (jsstring * jsstring) :=
  let '(n, v) := split_at equals ((λ c, if (c =? 43)%N then 32%N else c) <$> t) in
  n' ← decodeURIComponent n; v' ← decodeURIComponent (nullish v []); Some (n', v').

Definition read_query (t : jsstring) : list (jsstring * jsstring) :=
  if jeqb t [] then [] else omap read_pair (split_all ampersand t).

Definition read_int (v : json) : option Z :=
  match v with
  | JStr s =>
      let '(x, len, rest) := read_digits 10 0 0 s in
      if (0 <? len)%nat && jeqb rest [] then Some (Z.of_N x) else None
  | _ => None
  end.

Definition read_str (v : json) : option jsstring :=
  match v with JStr s => _ ← encodeURIComponent s; Some s | _ => None end.

Lemma split_all_plain sep t : Forall (λ c, c ≠ sep) t → split_all sep t = [t].
Proof.
  induction 1 as [|c t Hc _ IH]; [done|]. cbn [split_all].
  rewrite (proj2 (N.eqb_neq _ _) Hc). by rewrite IH.
Qed.

Lemma split_all_app sep a t :
  Forall (λ c, c ≠ sep) a → split_all sep (a ++ sep :: t) = a :: split_all sep t.
Proof.
  induction 1 as [|c a Hc _ IH]; cbn [app split_all]; [by rewrite N.eqb_refl|].
  rewrite (proj2 (N.eqb_neq _ _) Hc). by rewrite IH.
Qed.

Lemma split_all_join x l :
  Forall (Forall (λ c, c ≠ ampersand)) (x :: l) → split_all ampersand (join «"&"» (x :: l)) = x :: l.
Proof.
  revert x. induction l as [|y l IH]; intros x [Hx Hl]%Forall_cons.
  - cbn [join fmap list_fmap concat]. rewrite app_nil_r. by apply split_all_plain.
  - change (join «"&"» (x :: y :: l)) with (x ++ ampersand :: join «"&"» (y :: l)).
    by rewrite split_all_app, IH.
Qed.

(** A pair as [encodeURIComponent] writes it is read back. *)
Lemma read_pair_encoded n v tn tv :
  units_ok n → units_ok v → encodeURIComponent n = Some tn → encodeURIComponent v = Some tv →
  Forall (λ c, c ≠ ampersand) (tn ++ equals :: tv) ∧ read_pair (tn ++ equals :: tv) = Some (n, v).
Proof.
  intros Hn Hv En Ev. split.
  { apply Forall_app. split; [by apply (encoded_plain n)|].
    constructor; [done|]. by apply (encoded_plain v). }
  assert (∀ t, Forall (λ c, c ≠ 43%N) t → (λ c, if (c =? 43)%N then 32%N else c) <$> t = t) as Hplus.
  { induction 1 as [|c t Hc _ IH]; [done|]. rewrite fmap_cons, IH. by rewrite (proj2 (N.eqb_neq _ _) Hc). }
  unfold read_pair. rewrite Hplus.
  - rewrite split_at_first by by apply (encoded_plain n). cbv iota. cbn [nullish].
    by rewrite (decode_encode n tn), (decode_encode v tv).
  - apply Forall_app. split; [by apply (encoded_plain n)|].
    constructor; [done|]. by apply (encoded_plain v).
Qed.

Lemma read_query_encoded ps t :
  Forall (λ p, units_ok p.1 ∧ units_ok p.2) ps → query_text ps = Some t → read_query t = ps.
Proof.
  intros Hps. unfold query_text. destruct (mapM _ ps) as [l|] eqn:El; [|done]. intros [= <-].
  apply mapM_Some in El.
  assert (Forall (Forall (λ c, c ≠ ampersand)) l ∧ omap read_pair l = ps ∧ Forall (λ x, x ≠ []) l) as (Hl & Hr & Hne).
  { induction El as [|[n v] x ps l Hx _ IH]; [done|]. apply Forall_cons in Hps as [[Hn Hv] Hps].
    destruct (IH Hps) as (IH1 & IH2 & IH3). cbn [fst snd] in *.
    destruct (encodeURIComponent n) as [tn|] eqn:En; [|done].
    destruct (encodeURIComponent v) as [tv|] eqn:Ev; [|done]. cbn in Hx. simplify_eq.
    destruct (read_pair_encoded n v tn tv Hn Hv En Ev) as [Ha Hp].
    split_and!; [by constructor| |constructor; [by destruct tn|done]]. cbn [omap list_omap]. by rewrite Hp. }
  unfold read_query. destruct l as [|x l]; [by rewrite <-Hr|].
  rewrite jeqb_ne, split_all_join by (done || apply Forall_cons in Hne as [Hx _]; by destruct x).
  exact Hr.
Qed.

Definition sample_framework : Framework.
Proof.
  refine {| asgi_path := λ raw, nullish (decodeURIComponent raw) raw; query_params := read_query;
            json_loads := json_parse; validate_str := read_str; validate_int := read_int |}.
  - by intros raw p ->.
  - apply read_query_encoded.
  - intros fs Hfs. apply json_parse_stringify. constructor. apply Forall_fmap.
    eapply Forall_impl; [exact Hfs|]. intros f [H1 H2]. split; [done|]. by constructor.
  - intros s [_ Hs]. unfold read_str. by destruct (encodeURIComponent s).
  - intros z Hz. destruct (show_Z_digits z Hz) as [Hd Hne]. unfold read_int.
    pose proof (read_digits_all _ _ [] 0 0 Hd I) as Hread. rewrite app_nil_r in Hread. rewrite Hread.
    destruct (show_Z z) as [|c ds]; [done|]. cbn [length Nat.add Nat.ltb Nat.leb andb].
    change (jeqb [] []) with true. cbv iota. rewrite N.mul_0_l, N.add_0_l, Z2N.id by done. done.
Defined.
