(* ===== verification/Store.v ===== *)
(** * The cluster store (frontend/src/store.ts)

    The console's single source of truth: the node list of the last snapshot
    masked by the nodes the operator took down, the metrics history, and the
    stream status.  [killNode] and [restartNode] update it optimistically, await
    the gateway, and roll back to the state captured at their start when the
    gateway refuses.  Other actions run between the two halves; [sys_step] makes
    that interleaving explicit. *)

From S2P Require Import Prelude JsNumber JsString Json RuntimeConfig.

Local Open Scope list_scope.

(** ** Data *)

Record NodeMeta := {
  node_id : Z;
  host : jsstring;
  port : Z;
  healthy : bool;
  is_leader : bool;
  ops_set : number;
  ops_get : number;
  lag_ms : number;
  latency_us : number;
  key_count : number;
}.

Record MetricsPoint := {
  ts : number;
  set_ops_per_sec : number;
  get_ops_per_sec : number;
  set_p50_ms : number;
  set_p99_ms : number;
  get_p50_ms : number;
  get_p99_ms : number;
}.

(** The [detail] of a result is a string in every well-formed reply; a reply
    whose detail is another JSON value passes it through. *)
Record NodeActionResult := {
  ok : bool;
  detail : json;
  simulated : option bool;
}.

Inductive WsStatus := connecting | open | closed.

Record ClusterState := {
  nodes : list NodeMeta;
  history : list MetricsPoint;
  forcedDownNodeIds : list Z;
  wsStatus : WsStatus;
}.

#[export] Instance WsStatus_eq_dec : EqDecision WsStatus.
Proof. solve_decision. Defined.

(** ** Object spreads *)

(** [{ ...node, healthy: h, is_leader: l }] *)
Definition with_health (h l : bool) (n : NodeMeta) : NodeMeta := {|
  node_id := node_id n; host := host n; port := port n; healthy := h; is_leader := l;
  ops_set := ops_set n; ops_get := ops_get n; lag_ms := lag_ms n;
  latency_us := latency_us n; key_count := key_count n |}.

(** [{ ...node, healthy: false, is_leader: false }] *)
Definition mark_down (n : NodeMeta) : NodeMeta := with_health false false n.

(** [{ ...node, healthy: true }] *)
Definition mark_up (n : NodeMeta) : NodeMeta := with_health true (is_leader n) n.

(** ** Helpers of the module *)

Definition applyForcedDown (ns : list NodeMeta) (forced : list Z) : list NodeMeta :=
  if (length forced =? 0)%nat then ns
  else (λ n, if bool_decide (node_id n ∈ forced) then mark_down n else n) <$> ns.

Definition shouldUseClientSimulation `{Platform} (d : jsstring) : bool :=
  let normalized := toLowerCase d in
  includes normalized «"container not found"»
  || includes normalized «"docker"»
  || includes normalized «"permission denied"»
  || includes normalized «"network error"»
  || includes normalized «"connection refused"».

(** ** Initial state *)

Definition initial_node (i : Z) (h : jsstring) (p : Z) (leader : bool) (lat : Z) : NodeMeta := {|
  node_id := i; host := h; port := p; healthy := true; is_leader := leader;
  ops_set := n_zero; ops_get := n_zero; lag_ms := n_zero;
  latency_us := n_of_Z lat; key_count := n_zero |}.

Definition initial_state : ClusterState := {|
  nodes := [ initial_node 1 «"vaultkv-node1"» 7379 true 120;
             initial_node 2 «"vaultkv-node2"» 7380 false 145;
             initial_node 3 «"vaultkv-node3"» 7381 false 160 ];
  history := [];
  forcedDownNodeIds := [];
  wsStatus := connecting |}.

(** ** Synchronous actions *)

Definition setNodes (ns : list NodeMeta) (s : ClusterState) : ClusterState := {|
  nodes := applyForcedDown ns (forcedDownNodeIds s);
  history := history s; forcedDownNodeIds := forcedDownNodeIds s; wsStatus := wsStatus s |}.

Definition pushMetrics (pt : MetricsPoint) (s : ClusterState) : ClusterState := {|
  nodes := nodes s; history := slice_last 119 (history s) ++ [pt];
  forcedDownNodeIds := forcedDownNodeIds s; wsStatus := wsStatus s |}.

Definition setStatus (w : WsStatus) (s : ClusterState) : ClusterState := {|
  nodes := nodes s; history := history s;
  forcedDownNodeIds := forcedDownNodeIds s; wsStatus := w |}.

(** [set({ nodes, forcedDownNodeIds })] *)
Definition set_nodes_forced (ns : list NodeMeta) (f : list Z) (s : ClusterState) : ClusterState := {|
  nodes := ns; history := history s; forcedDownNodeIds := f; wsStatus := wsStatus s |}.

(** ** [killNode] and [restartNode] *)

Inductive action_kind := Kill | Restart.

(** The optimistic update of [killNode]. *)
Definition kill_forced (id : Z) (f : list Z) : list Z :=
  if bool_decide (id ∈ f) then f else f ++ [id].
Definition kill_nodes (id : Z) (ns : list NodeMeta) : list NodeMeta :=
  (λ n, if (node_id n =? id)%Z then mark_down n else n) <$> ns.
Definition killNode_optimistic (id : Z) (s : ClusterState) : ClusterState :=
  set_nodes_forced (kill_nodes id (nodes s)) (kill_forced id (forcedDownNodeIds s)) s.

(** The optimistic update of [restartNode]. *)
Definition restart_forced (id : Z) (f : list Z) : list Z :=
  array_filter (λ i, negb (i =? id)%Z) f.
Definition restart_nodes (id : Z) (ns : list NodeMeta) : list NodeMeta :=
  (λ n, if (node_id n =? id)%Z then mark_up n else n) <$> ns.
Definition restartNode_optimistic (id : Z) (s : ClusterState) : ClusterState :=
  set_nodes_forced (restart_nodes id (nodes s)) (restart_forced id (forcedDownNodeIds s)) s.

Definition action_optimistic (k : action_kind) : Z → ClusterState → ClusterState :=
  match k with Kill => killNode_optimistic | Restart => restartNode_optimistic end.

(** The POST each action sends. *)
Definition action_url (env : Env) (k : action_kind) (id : Z) : jsstring :=
  apiUrl env («"/api/nodes/"» ++ show_Z id ++
              match k with Kill => «"/kill"» | Restart => «"/restart"» end).

(** The messages in which the two actions differ. *)
Definition applied_message (k : action_kind) : jsstring :=
  match k with Kill => «"node kill applied"» | Restart => «"node restart applied"» end.
Definition failed_message (k : action_kind) (status : Z) : jsstring :=
  match k with Kill => «"kill failed (HTTP "» | Restart => «"restart failed (HTTP "» end
  ++ show_Z status ++ «")"».
Definition simulated_suffix (k : action_kind) : jsstring :=
  match k with
  | Kill => «"; using client simulated node-down mode"»
  | Restart => «"; using client simulated node-recover mode"»
  end.
Definition network_message (k : action_kind) : jsstring :=
  match k with
  | Kill => «"network error during kill"»
  | Restart => «"network error during restart"»
  end.

(** [x || undefined] *)
Definition or_undefined (b : bool) : option bool := if b then Some true else None.

(** The [try] block after the reply has arrived: the three property reads, the
    detail, and whether the client falls back to simulating the action.  Reading
    a property of a [null] body and calling [toLowerCase] on a detail that is
    not a string throw. *)
Definition action_reply `{Platform} (k : action_kind) (status : Z) (body : json)
    : completion (bool * bool * json * bool) :=
  match get_prop body «"ok"», get_prop body «"simulated"», get_prop body «"detail"» with
  | Normal bok, Normal bsim, Normal bdetail =>
      let backendOk := truthy bok in
      let backendSimulated := truthy bsim in
      let d := json_nullish bdetail
        (JStr (if backendOk then applied_message k else failed_message k status)) in
      if negb backendOk && negb backendSimulated then
        match d with
        | JStr s => Normal (backendOk, backendSimulated, d, shouldUseClientSimulation s)
        | _ => Throw (ThrownError type_error_message)
        end
      else Normal (backendOk, backendSimulated, d, false)
  | Throw e, _, _ | _, Throw e, _ | _, _, Throw e => Throw e
  end.

(** [await fetch(...)] and [await res.json().catch(() => ({}))], then the reply. *)
Definition action_await `{Platform} (k : action_kind) (o : fetch_outcome)
    : completion (bool * bool * json * bool) :=
  match o with
  | Responded status body => action_reply k status (nullish body (JObj []))
  | Rejected e => Throw e
  end.

(** [`${detail}; using client simulated ... mode`], on string details. *)
Definition describe (k : action_kind) (clientSimulated : bool) (d : json) : json :=
  match d with
  | JStr s => if clientSimulated then JStr (s ++ simulated_suffix k) else d
  | _ => d
  end.

(** The rest of the action once the request has settled: commit or roll back to
    the state captured at the start, and the result the caller receives. *)
Definition action_settle `{Platform} (k : action_kind) (previous : ClusterState)
    (o : fetch_outcome) (s : ClusterState) : ClusterState * NodeActionResult :=
  match action_await k o with
  | Normal (backendOk, backendSimulated, d, clientSimulated) =>
      let okay := backendOk || backendSimulated || clientSimulated in
      (if okay then s
       else set_nodes_forced (nodes previous) (forcedDownNodeIds previous) s,
       {| ok := okay; detail := describe k clientSimulated d;
          simulated := or_undefined (backendSimulated || clientSimulated) |})
  | Throw e =>
      let d := match e with ThrownError m => m | ThrownOther => network_message k end in
      let clientSimulated := shouldUseClientSimulation d in
      (if clientSimulated then s
       else set_nodes_forced (nodes previous) (forcedDownNodeIds previous) s,
       {| ok := clientSimulated; detail := describe k clientSimulated (JStr d);
          simulated := or_undefined clientSimulated |})
  end.

Definition killNode_settle `{Platform} := action_settle Kill.
Definition restartNode_settle `{Platform} := action_settle Restart.

(** ** Interleaved executions *)

(** An action whose request is in flight, with the state it captured. *)
Record Pending := {
  p_kind : action_kind;
  p_id : Z;
  p_previous : ClusterState;
}.

Record Sys := {
  store : ClusterState;
  pending : list Pending;
}.

(** What can happen to the store between two turns of the event loop.
    [ESettle i o]: the [i]-th request in flight settles with outcome [o]. *)
Inductive event :=
  | ESetNodes (ns : list NodeMeta)
  | EPushMetrics (pt : MetricsPoint)
  | ESetStatus (w : WsStatus)
  | EStart (k : action_kind) (id : Z)
  | ESettle (i : nat) (o : fetch_outcome).

Definition sys_init : Sys := {| store := initial_state; pending := [] |}.

Definition sys_step `{Platform} (e : event) (σ : Sys) : Sys :=
  match e with
  | ESetNodes ns => {| store := setNodes ns (store σ); pending := pending σ |}
  | EPushMetrics pt => {| store := pushMetrics pt (store σ); pending := pending σ |}
  | ESetStatus w => {| store := setStatus w (store σ); pending := pending σ |}
  | EStart k id =>
      {| store := action_optimistic k id (store σ);
         pending := pending σ ++ [ {| p_kind := k; p_id := id; p_previous := store σ |} ] |}
  | ESettle i o =>
      match pending σ !! i with
      | Some p =>
          {| store := fst (action_settle (p_kind p) (p_previous p) o (store σ));
             pending := delete i (pending σ) |}
      | None => σ
      end
  end.

Definition sys_run `{Platform} (es : list event) (σ : Sys) : Sys :=
  foldl (λ σ e, sys_step e σ) σ es.

(** States reachable when every snapshot handed to [setNodes] satisfies [Q]. *)
Inductive reachable `{Platform} (Q : list NodeMeta → Prop) : Sys → Prop :=
  | reachable_init : reachable Q sys_init
  | reachable_step e σ :
      reachable Q σ → (∀ ns, e = ESetNodes ns → Q ns) → reachable Q (sys_step e σ).

(** ** Predicates used by the invariants *)

(** Every node the operator took down is shown down and not leading. *)
Definition masked (ns : list NodeMeta) (f : list Z) : Prop :=
  ∀ n, n ∈ ns → node_id n ∈ f → healthy n = false ∧ is_leader n = false.

(** What the gateway's election guarantees of a snapshot: at most one leader,
    and it is healthy. *)
Definition one_healthy_leader (ns : list NodeMeta) : Prop :=
  (∀ n, n ∈ ns → is_leader n = true → healthy n = true) ∧
  length (array_filter is_leader ns) ≤ 1.

(** The metrics points an execution pushes, in order. *)
Definition pushed (es : list event) : list MetricsPoint :=
  omap (λ e, match e with EPushMetrics pt => Some pt | _ => None end) es.

(** Everything of a node but its health and role. *)
Definition same_identity (m n : NodeMeta) : Prop :=
  node_id m = node_id n ∧ host m = host n ∧ port m = port n.

(** An event that neither settles a request nor restarts node [id]. *)
Definition leaves_down (id : Z) (e : event) : Prop :=
  match e with
  | ESettle _ _ => False
  | EStart Restart i => i ≠ id
  | _ => True
  end.

(** An event that settles no request at index [n] or below. *)
Definition settles_above (n : nat) (e : event) : Prop :=
  match e with ESettle i _ => n < i | _ => True end.

(** [f] keeps a node that is down in place of [n] when [n] is node [id]. *)
Definition back_up (id : Z) (n : NodeMeta) : NodeMeta :=
  if (node_id n =? id)%Z then with_health true false n else n.

(** ** Sample data *)

(** Kill node 2, then a snapshot that still reports it healthy. *)
Definition sample_events : list event := [EStart Kill 2; ESetNodes (nodes initial_state)].
Definition sample_sys : Sys := @sys_run sample_platform sample_events sys_init.

(** The gateway's answer to a kill of an unknown node. *)
Definition sample_refusal : fetch_outcome :=
  Responded 404 (Some (JObj [(«"detail"», JStr «"unknown node: 1"»)])).
Definition sample_accept : fetch_outcome :=
  Responded 200 (Some (JObj [(«"ok"», JBool true); («"detail"», JStr «""»)])).

Section StoreProofs.

Context `{Platform}.

(** ** The settle step touches only the node list and the mask *)

Lemma action_settle_cases k prev o s :
  (ok (snd (action_settle k prev o s)) = true ∧ fst (action_settle k prev o s) = s) ∨
  (ok (snd (action_settle k prev o s)) = false ∧
   fst (action_settle k prev o s) = set_nodes_forced (nodes prev) (forcedDownNodeIds prev) s).
Proof.
  unfold action_settle.
  destruct (action_await k o) as [[[[bo bs] d] cs]|e]; simpl.
  - destruct (bo || bs || cs); auto.
  - destruct (shouldUseClientSimulation _); auto.
Qed.

(** ** Lifting an invariant of the (nodes, mask) pair to every interleaving *)

Section Invariant.

Context (P : list NodeMeta → list Z → Prop) (Q : list NodeMeta → Prop).
Context (P_init : P (nodes initial_state) []).
Context (P_set : ∀ ns old f, Q ns → P old f → P (applyForcedDown ns f) f).
Context (P_kill : ∀ id ns f, P ns f → P (kill_nodes id ns) (kill_forced id f)).
Context (P_restart : ∀ id ns f, P ns f → P (restart_nodes id ns) (restart_forced id f)).

Definition P_state (s : ClusterState) : Prop := P (nodes s) (forcedDownNodeIds s).

Lemma optimistic_inv k id s : P_state s → P_state (action_optimistic k id s).
Proof. destruct k; unfold P_state; simpl; auto. Qed.

Lemma settle_inv k prev o s :
  P_state prev → P_state s → P_state (fst (action_settle k prev o s)).
Proof. intros Hp Hs. by destruct (action_settle_cases k prev o s) as [[_ ->]|[_ ->]]. Qed.

Lemma reachable_inv σ :
  reachable Q σ → P_state (store σ) ∧ Forall (λ p, P_state (p_previous p)) (pending σ).
Proof.
  induction 1 as [|e σ _ [IHs IHp] HQ]; [by split|].
  destruct e as [ns|pt|w|k id|i o]; simpl; try (split; done).
  - split; [|done]. unfold P_state; simpl. eauto.
  - split; [by apply optimistic_inv|]. apply Forall_app; auto.
  - destruct (pending σ !! i) as [p|] eqn:Hi; [|by split]. simpl. split.
    + apply settle_inv; [|done]. by apply (Forall_lookup_1 _ _ _ _ IHp Hi).
    + by apply Forall_delete.
Qed.

End Invariant.

(** ** The three invariants' local steps *)

Lemma masked_set ns f : masked (applyForcedDown ns f) f.
Proof.
  unfold applyForcedDown. intros n Hn Hf.
  destruct f as [|i f]; [set_solver|]. simpl in Hn.
  apply list_elem_of_fmap in Hn as (m & -> & Hm).
  case_bool_decide as Hd; [done|by destruct Hd].
Qed.

Lemma masked_kill id ns f : masked ns f → masked (kill_nodes id ns) (kill_forced id f).
Proof.
  intros HP n (m & -> & Hm)%list_elem_of_fmap Hf.
  destruct (Z.eqb_spec (node_id m) id) as [Heq|Hne]; [done|].
  apply HP; [done|]. unfold kill_forced in Hf. case_bool_decide; set_solver.
Qed.

Lemma masked_restart id ns f : masked ns f → masked (restart_nodes id ns) (restart_forced id f).
Proof.
  intros HP n (m & -> & Hm)%list_elem_of_fmap [Hne Hf]%array_filter_In.
  destruct (Z.eqb_spec (node_id m) id) as [Heq|_]; [|by apply HP].
  simpl in Hne. by rewrite Heq, Z.eqb_refl in Hne.
Qed.

Lemma kill_forced_NoDup id f : NoDup f → NoDup (kill_forced id f).
Proof.
  intros Hf. unfold kill_forced. case_bool_decide; [done|].
  apply NoDup_app. split_and!; [done|set_solver|apply NoDup_singleton].
Qed.

Lemma leaders_map_le (g : NodeMeta → NodeMeta) ns :
  (∀ n, is_leader (g n) = true → is_leader n = true) →
  length (array_filter is_leader (g <$> ns)) ≤ length (array_filter is_leader ns).
Proof.
  intros Hg. induction ns as [|n ns IH]; [done|].
  rewrite fmap_cons. cbn [array_filter].
  destruct (is_leader (g n)) eqn:E; [rewrite (Hg n E)|destruct (is_leader n)]; cbn [length]; lia.
Qed.

Lemma one_healthy_leader_map g ns :
  (∀ n, is_leader (g n) = true → is_leader n = true) →
  (∀ n, is_leader (g n) = true → healthy n = true → healthy (g n) = true) →
  one_healthy_leader ns → one_healthy_leader (g <$> ns).
Proof.
  intros Hl Hh [H1 H2]. split.
  - intros n (m & -> & Hm)%list_elem_of_fmap Hn. eauto.
  - etrans; [by apply leaders_map_le|done].
Qed.

Lemma one_healthy_leader_forced ns f :
  one_healthy_leader ns → one_healthy_leader (applyForcedDown ns f).
Proof.
  unfold applyForcedDown. case_match; [done|].
  apply one_healthy_leader_map; intros n; by case_bool_decide.
Qed.

Lemma one_healthy_leader_kill id ns :
  one_healthy_leader ns → one_healthy_leader (kill_nodes id ns).
Proof. apply one_healthy_leader_map; intros n; by destruct (_ =? _)%Z. Qed.

Lemma one_healthy_leader_restart id ns :
  one_healthy_leader ns → one_healthy_leader (restart_nodes id ns).
Proof. apply one_healthy_leader_map; intros n; by destruct (_ =? _)%Z. Qed.

(** ** Runs *)

Lemma sys_run_app es es' σ : sys_run (es ++ es') σ = sys_run es' (sys_run es σ).
Proof. apply foldl_app. Qed.

Lemma reachable_run es σ : reachable (λ _, True) σ → reachable (λ _, True) (sys_run es σ).
Proof.
  revert σ. induction es as [|e es IH]; intros σ Hσ; [done|].
  apply IH. by apply reachable_step.
Qed.

Lemma settle_history k prev o s : history (fst (action_settle k prev o s)) = history s.
Proof. by destruct (action_settle_cases k prev o s) as [[_ ->]|[_ ->]]. Qed.

Lemma step_history e σ :
  history (store (sys_step e σ)) =
  match e with
  | EPushMetrics pt => slice_last 119 (history (store σ)) ++ [pt]
  | _ => history (store σ)
  end.
Proof.
  destruct e as [| | |[]|i o]; simpl; try done.
  destruct (pending σ !! i); simpl; [apply settle_history|done].
Qed.

Lemma forced_grows id es σ :
  Forall (leaves_down id) es → id ∈ forcedDownNodeIds (store σ) →
  id ∈ forcedDownNodeIds (store (sys_run es σ)).
Proof.
  revert σ. induction es as [|e es IH]; intros σ Hes Hid; [done|].
  apply Forall_cons in Hes as [He Hes]. apply IH; [done|].
  destruct e as [| | |[] i|]; simpl in *; try done.
  - unfold kill_forced. case_bool_decide; set_solver.
  - apply array_filter_In. split; [|done]. by apply negb_true_iff, Z.eqb_neq.
Qed.

Lemma pending_kept n p es σ :
  Forall (settles_above n) es → pending σ !! n = Some p →
  pending (sys_run es σ) !! n = Some p.
Proof.
  revert σ. induction es as [|e es IH]; intros σ Hes Hn; [done|].
  apply Forall_cons in Hes as [He Hes]. apply IH; [done|].
  destruct e as [| | | |i o]; simpl in *; try done.
  - by apply lookup_app_l_Some.
  - destruct (pending σ !! i); simpl; [|done]. by rewrite list_lookup_delete_lt by lia.
Qed.

(** The verdict of a settled request does not depend on the store. *)
Lemma action_settle_verdict k prev prev' o s s' :
  snd (action_settle k prev o s) = snd (action_settle k prev' o s').
Proof.
  unfold action_settle. by destruct (action_await k o) as [[[[bo bs] d] cs]|e].
Qed.

Lemma reachable_masked σ :
  reachable (λ _, True) σ → masked (nodes (store σ)) (forcedDownNodeIds (store σ)).
Proof.
  apply reachable_inv; auto using masked_kill, masked_restart, masked_set.
  intros n _ Hn. set_solver.
Qed.

Lemma reachable_weaken (Q Q' : list NodeMeta → Prop) σ :
  (∀ ns, Q ns → Q' ns) → reachable Q σ → reachable Q' σ.
Proof. intros HQ. induction 1; [apply reachable_init|]. apply reachable_step; eauto. Qed.

Lemma map_ids (g : NodeMeta → NodeMeta) (ns : list NodeMeta) :
  (∀ n, node_id (g n) = node_id n) → node_id <$> (g <$> ns) = node_id <$> ns.
Proof. intros Hg. rewrite <-list_fmap_compose. apply list_fmap_ext. intros; apply Hg. Qed.

(** When snapshots list every node once, so does the store. *)
Lemma reachable_distinct_ids σ :
  reachable (λ ns, NoDup (node_id <$> ns)) σ → NoDup (node_id <$> nodes (store σ)).
Proof.
  apply (reachable_inv (λ ns _, NoDup (node_id <$> ns))).
  - apply (bool_decide_unpack _). vm_compute. exact I.
  - intros ns _ f Hns _. unfold applyForcedDown. destruct (length f =? 0); [done|].
    rewrite map_ids; [done|]. intros n. by case_bool_decide.
  - intros id ns f Hns. unfold kill_nodes. rewrite map_ids; [done|]. intros n. by case_match.
  - intros id ns f Hns. unfold restart_nodes. rewrite map_ids; [done|]. intros n. by case_match.
Qed.


(** ** Properties *)

(** C1: in every reachable interleaving of snapshots, metrics, status changes,
    kills, restarts and settled requests, a node the operator took down is shown
    unhealthy and not leading, whatever the snapshots say. *)
Theorem forced_nodes_stay_masked σ :
  reachable (λ _, True) σ → masked (nodes (store σ)) (forcedDownNodeIds (store σ)).
Proof. apply reachable_masked. Qed.

(** The mask never lists a node twice, also after roll-backs. *)
Theorem forced_ids_unique σ :
  reachable (λ _, True) σ → NoDup (forcedDownNodeIds (store σ)).
Proof.
  apply (reachable_inv (λ _, NoDup)); auto using kill_forced_NoDup.
  - constructor.
  - intros id _ f. apply array_filter_NoDup.
Qed.

(** C12: when every snapshot has at most one leader and that leader is healthy,
    so has the store, in every reachable interleaving. *)
Theorem store_one_healthy_leader σ :
  reachable one_healthy_leader σ → one_healthy_leader (nodes (store σ)).
Proof.
  apply (reachable_inv (λ ns _, one_healthy_leader ns));
    auto using one_healthy_leader_forced, one_healthy_leader_kill, one_healthy_leader_restart.
  split; [|by apply le_n].
  intros n Hn. repeat (apply elem_of_cons in Hn as [->|Hn]; [done|]). set_solver.
Qed.

(** C11: the history is exactly the last 120 pushed points, in order, whatever
    else happens in between, roll-backs included. *)
Theorem history_is_last_120 es :
  history (store (sys_run es sys_init)) = slice_last 120 (pushed es).
Proof.
  induction es as [|e es IH] using rev_ind; [done|].
  rewrite sys_run_app. change (sys_run [e] ?σ) with (sys_step e σ).
  unfold pushed in *. rewrite step_history, omap_app, IH. simpl.
  destruct e; simpl; rewrite ?app_nil_r; try done.
  by rewrite slice_last_slice_last, slice_last_snoc by lia.
Qed.

(** An action whose request settles with nothing in between leaves the
    optimistic state when it reports success and the state before the action
    when it reports failure, and is no longer pending. *)
Theorem action_commits_or_rolls_back k id o σ :
  let σ' := sys_step (ESettle (length (pending σ)) o) (sys_step (EStart k id) σ) in
  let verdict := snd (action_settle k (store σ) o (store σ)) in
  pending σ' = pending σ ∧
  store σ' = if ok verdict then action_optimistic k id (store σ) else store σ.
Proof.
  simpl. rewrite list_lookup_middle by done. simpl.
  rewrite delete_middle, app_nil_r. split; [done|].
  destruct (action_settle_cases k (store σ) o (action_optimistic k id (store σ)))
    as [[Hok ->]|[Hok ->]];
    rewrite (action_settle_verdict k (store σ) (store σ) o (store σ)
      (action_optimistic k id (store σ))), Hok; [done|].
  destruct σ as [[] ps], k; done.
Qed.

(** A kill holds against any later snapshots, metrics, status changes, kills
    and restarts of other nodes: the node is shown down until it is restarted or
    a request settles. *)
Theorem killed_node_stays_down id es σ :
  reachable (λ _, True) σ → Forall (leaves_down id) es →
  ∀ n, n ∈ nodes (store (sys_run (EStart Kill id :: es) σ)) → node_id n = id →
  healthy n = false ∧ is_leader n = false.
Proof.
  intros Hσ Hes n Hn Hid.
  apply (reachable_masked (sys_run (EStart Kill id :: es) σ)); [by apply reachable_run|done|].
  rewrite Hid. apply (forced_grows id es (sys_step (EStart Kill id) σ)); [done|].
  simpl. unfold kill_forced. case_bool_decide; set_solver.
Qed.

(** C25: a refused action discards every change to the node list and the mask
    made since it started, including kills the gateway has accepted meanwhile. *)
Theorem refused_action_discards_later_updates k id es o σ :
  Forall (settles_above (length (pending σ))) es →
  ok (snd (action_settle k (store σ) o (store σ))) = false →
  let σ' := sys_run (EStart k id :: es ++ [ESettle (length (pending σ)) o]) σ in
  nodes (store σ') = nodes (store σ) ∧
  forcedDownNodeIds (store σ') = forcedDownNodeIds (store σ).
Proof.
  intros Hes Hok σ'. subst σ'.
  change (EStart k id :: ?l) with ([EStart k id] ++ l). rewrite !sys_run_app.
  set (σ1 := sys_run [EStart k id] σ).
  assert (pending σ1 !! length (pending σ) =
    Some {| p_kind := k; p_id := id; p_previous := store σ |}) as Hp
    by (by apply list_lookup_middle).
  eapply pending_kept in Hp; [|done]. set (σ2 := sys_run es σ1) in *. simpl. rewrite Hp. simpl.
  destruct (action_settle_cases k (store σ) o (store σ2)) as [[Hok' _]|[_ ->]]; [|done].
  by rewrite (action_settle_verdict _ _ (store σ) _ _ (store σ)), Hok in Hok'.
Qed.

(** Killing and restarting a node that was not forced down restores the
    mask, and leaves the node healthy but without its leader role. *)
Theorem kill_restart_roundtrip id s :
  id ∉ forcedDownNodeIds s →
  restartNode_optimistic id (killNode_optimistic id s) =
  set_nodes_forced (back_up id <$> nodes s) (forcedDownNodeIds s) s.
Proof.
  intros Hid. unfold restartNode_optimistic, killNode_optimistic, set_nodes_forced; simpl. f_equal.
  - unfold restart_nodes, kill_nodes. rewrite <-list_fmap_compose.
    apply list_fmap_ext. intros i n _. unfold back_up; simpl.
    destruct (node_id n =? id)%Z eqn:E; simpl; by rewrite E.
  - unfold kill_forced, restart_forced. case_bool_decide; [done|].
    assert (∀ f, id ∉ f → array_filter (λ i, negb (i =? id)%Z) (f ++ [id]) = f) as Hf; [|auto].
    clear. induction f as [|i f IH]; intros Hf; simpl; [by rewrite Z.eqb_refl|].
    destruct (Z.eqb_spec i id) as [->|]; simpl; [set_solver|]. rewrite IH; set_solver.
Qed.

(** None of the messages with which browsers reject an unreachable fetch
    (Chromium, Firefox, Safari) is recognised as a network error: the action is
    refused and rolled back instead of being simulated. *)
Theorem unreachable_gateway_not_simulated k prev s m :
  m ∈ [«"Failed to fetch"»; «"NetworkError when attempting to fetch resource."»;
       «"Load failed"»] →
  action_settle k prev (Rejected (ThrownError m)) s =
  (set_nodes_forced (nodes prev) (forcedDownNodeIds prev) s,
   {| ok := false; detail := JStr m; simulated := None |}).
Proof.
  intros Hm. repeat (apply elem_of_cons in Hm as [->|Hm]; [done|]). set_solver.
Qed.

End StoreProofs.

(** ** Witnesses *)

Lemma forced_nodes_stay_masked_witness :
  forcedDownNodeIds (store sample_sys) = [2%Z] ∧ masked (nodes (store sample_sys)) [2%Z].
Proof.
  split; [vm_compute; reflexivity|].
  apply (@forced_nodes_stay_masked sample_platform sample_sys).
  apply reachable_run, reachable_init.
Defined.

Lemma forced_ids_unique_witness : NoDup (forcedDownNodeIds (store sample_sys)).
Proof.
  apply (@forced_ids_unique sample_platform sample_sys).
  apply reachable_run, reachable_init.
Defined.

Lemma store_one_healthy_leader_witness :
  one_healthy_leader (nodes (store (@sys_step sample_platform (EStart Kill 1) sys_init))) ∧
  (is_leader <$> nodes (store (@sys_step sample_platform (EStart Kill 1) sys_init)))
  = [false; false; false].
Proof.
  split; [|vm_compute; reflexivity].
  apply (@store_one_healthy_leader sample_platform).
  apply reachable_step; [apply reachable_init|]. intros ns Hns. discriminate Hns.
Defined.

Lemma killed_node_stays_down_witness :
  ∃ n, nodes (store (@sys_run sample_platform
         (EStart Kill 2 :: [ESetNodes (nodes initial_state); EStart Restart 3]) sys_init)) !! 1
       = Some n ∧ healthy n = false ∧ is_leader n = false.
Proof.
  eexists. split; [reflexivity|].
  eapply (@killed_node_stays_down sample_platform 2
    [ESetNodes (nodes initial_state); EStart Restart 3] sys_init).
  - apply reachable_init.
  - repeat constructor; simpl; lia.
  - eapply (list_elem_of_lookup_2 _ 1). reflexivity.
  - reflexivity.
Defined.

(** Kill 1 is refused after kill 2 has been accepted: node 2 is shown healthy
    and unmasked again. *)
Lemma refused_action_discards_later_updates_witness :
  let es := [EStart Kill 2; ESettle 1 sample_accept] in
  let σ' := @sys_run sample_platform (EStart Kill 1 :: es ++ [ESettle 0 sample_refusal]) sys_init in
  ok (snd (@action_settle sample_platform Kill initial_state sample_accept initial_state)) = true ∧
  nodes (store σ') = nodes initial_state ∧ forcedDownNodeIds (store σ') = [].
Proof.
  intros es σ'. split; [vm_compute; reflexivity|].
  apply (@refused_action_discards_later_updates sample_platform Kill 1 es sample_refusal sys_init).
  - repeat constructor.
  - vm_compute; reflexivity.
Defined.

Lemma kill_restart_roundtrip_witness :
  forcedDownNodeIds (restartNode_optimistic 1 (killNode_optimistic 1 initial_state)) = [] ∧
  is_leader <$> nodes (restartNode_optimistic 1 (killNode_optimistic 1 initial_state))
  = [false; false; false].
Proof.
  rewrite (kill_restart_roundtrip 1 initial_state) by (apply not_elem_of_nil).
  split; vm_compute; reflexivity.
Defined.

Lemma unreachable_gateway_not_simulated_witness :
  ok (snd (@action_settle sample_platform Kill initial_state
    (Rejected (ThrownError «"Failed to fetch"»)) initial_state)) = false.
Proof.
  rewrite (@unreachable_gateway_not_simulated sample_platform Kill initial_state initial_state
    «"Failed to fetch"» ltac:(apply elem_of_cons; left; reflexivity)).
  reflexivity.
Defined.
