(* ===== verification/Metrics.v ===== *)
(** * Snapshot ingestion (hooks.ts and hooks/useClusterWS.ts)

    Both hooks turn a gateway message into a node list for the cluster store and
    at most one point for the metrics history.  A message that carries the six
    throughput and latency numbers is recorded as it is; otherwise the point is
    derived from the operation counters of two successive node lists.
    [consumeSnapshot] and [ingest] are the two copies of that code; they clamp
    negative rates at different places. *)

From Stdlib Require Import SpecFloat.
From S2P Require Import Prelude JsNumber Rounding JsString Json RuntimeConfig Store.

Local Open Scope list_scope.

(** ** The message *)

(** A field of type [unknown], as far as the hooks look at it: an array is cast
    to a list of nodes, a number is used, anything else fails both tests. *)
Inductive unknown (N : Type) :=
  | UNumber (n : number)
  | UNodes (l : list N)
  | UOther.
Arguments UNumber {N} n.
Arguments UNodes {N} l.
Arguments UOther {N}.

(** [data : Record<string, unknown>], the eight fields that are read. *)
Record SnapshotData (N : Type) := {
  d_nodes : unknown N;
  d_ts : unknown N;
  d_set_ops_per_sec : unknown N;
  d_get_ops_per_sec : unknown N;
  d_set_p50_ms : unknown N;
  d_set_p99_ms : unknown N;
  d_get_p50_ms : unknown N;
  d_get_p99_ms : unknown N;
}.
Arguments d_nodes {N} _.
Arguments d_ts {N} _.
Arguments d_set_ops_per_sec {N} _.
Arguments d_get_ops_per_sec {N} _.
Arguments d_set_p50_ms {N} _.
Arguments d_set_p99_ms {N} _.
Arguments d_get_p50_ms {N} _.
Arguments d_get_p99_ms {N} _.

(** [typeof v === "number"] with the number. *)
Definition as_number {N} (v : unknown N) : option number :=
  match v with UNumber n => Some n | _ => None end.

(** [Array.isArray(v) ? (v as NodeMeta[]) : null].  The elements of an array are
    assumed to have the type the cast asserts: the source does not check them, and
    messages with malformed elements are outside the model. *)
Definition as_nodes {N} (v : unknown N) : option (list N) :=
  match v with UNodes l => Some l | _ => None end.

(** [typeof data.ts === "number" ? data.ts : Date.now() / 1000], where [now] is
    the clock in milliseconds. *)
Definition snapshot_ts {N} (now : number) (d : SnapshotData N) : number :=
  nullish (as_number (d_ts d)) (n_div now (n_of_Z 1000)).

(** The point of a message that carries all six numbers ([hasOps],
    [hasDirectMetrics]); [None] when one is missing. *)
Definition direct_point {N} (t : number) (d : SnapshotData N) : option MetricsPoint :=
  a ← as_number (d_set_ops_per_sec d);
  b ← as_number (d_get_ops_per_sec d);
  c ← as_number (d_set_p50_ms d);
  e ← as_number (d_set_p99_ms d);
  f ← as_number (d_get_p50_ms d);
  g ← as_number (d_get_p99_ms d);
  Some {| ts := t; set_ops_per_sec := a; get_ops_per_sec := b; set_p50_ms := c;
          set_p99_ms := e; get_p50_ms := f; get_p99_ms := g |}.

(** ** Derived points *)

(** The counters summed over healthy nodes, with their time stamp. *)
Record Totals := { t_ts : number; t_set : number; t_get : number }.

Definition add_ops (acc : number * number) (n : NodeMeta) : number * number :=
  if healthy n then (n_add (fst acc) (ops_set n), n_add (snd acc) (ops_get n)) else acc.

Definition totals (t : number) (ns : list NodeMeta) : Totals :=
  let acc := foldl add_ops (n_zero, n_zero) ns in
  {| t_ts := t; t_set := fst acc; t_get := snd acc |}.

(** [Math.max(0.001, ts - prev.ts)] *)
Definition interval (t : number) (prev : Totals) : number :=
  math_max (n_dec 1 3) (n_sub t (t_ts prev)).

(** hooks.ts: [Math.max(0, Math.round(delta / dt))] *)
Definition rate_clamp_last (delta dt : number) : number :=
  math_max n_zero (math_round (n_div delta dt)).

(** useClusterWS.ts: [Math.round(Math.max(0, delta) / dt)] *)
Definition rate_clamp_first (delta dt : number) : number :=
  math_round (n_div (math_max n_zero delta) dt).

(** Mean latency of the healthy nodes, in milliseconds. *)
Definition base_ms (ns : list NodeMeta) : number :=
  let healthyNodes := array_filter healthy ns in
  let sum := foldl (λ a n, n_add a (latency_us n)) n_zero healthyNodes in
  let avgLatencyUs :=
    n_div sum (math_max (n_of_Z 1) (n_of_Z (Z.of_nat (length healthyNodes)))) in
  n_div avgLatencyUs (n_of_Z 1000).

Definition derived_point (rate : number → number → number) (t : number)
    (prev cur : Totals) (ns : list NodeMeta) : MetricsPoint :=
  let dt := interval t prev in
  let baseMs := base_ms ns in
  {| ts := t;
     set_ops_per_sec := rate (n_sub (t_set cur) (t_set prev)) dt;
     get_ops_per_sec := rate (n_sub (t_get cur) (t_get prev)) dt;
     set_p50_ms := math_max (n_dec 1 2) (n_mul baseMs (n_dec 95 2));
     set_p99_ms := math_max (n_dec 2 2) (n_mul baseMs (n_dec 175 2));
     get_p50_ms := math_max (n_dec 1 2) (n_mul baseMs (n_dec 7 1));
     get_p99_ms := math_max (n_dec 2 2) (n_mul baseMs (n_dec 135 2)) |}.

(** ** The two hooks *)

(** What one message does: the node list handed to [setNodes], the point
    pushed, and the new value of [previousRef] / [prevTotals]. *)
Record Effects (N : Type) := {
  fx_nodes : option (list N);
  fx_push : option MetricsPoint;
  fx_prev : option Totals;
}.
Arguments fx_nodes {N} _.
Arguments fx_push {N} _.
Arguments fx_prev {N} _.

(** [consumeSnapshot] of hooks.ts. *)
Definition consumeSnapshot (now : number) (d : SnapshotData NodeMeta)
    (prev : option Totals) : Effects NodeMeta :=
  let ns := as_nodes (d_nodes d) in
  let t := snapshot_ts now d in
  match direct_point t d with
  | Some pt => {| fx_nodes := ns; fx_push := Some pt; fx_prev := prev |}
  | None =>
      match ns with
      | None => {| fx_nodes := None; fx_push := None; fx_prev := prev |}
      | Some l =>
          let cur := totals t l in
          match prev with
          | None => {| fx_nodes := ns; fx_push := None; fx_prev := Some cur |}
          | Some p =>
              {| fx_nodes := ns; fx_push := Some (derived_point rate_clamp_last t p cur l);
                 fx_prev := Some cur |}
          end
      end
  end.

(** [NodeMeta] of store/clusterStore.ts has two optional fields more. *)
Record NodeMetaExt := {
  meta : NodeMeta;
  last_seen : option number;
  wal_seq : option number;
}.

(** [ingest] of useClusterWS.ts. *)
Definition ingest (now : number) (d : SnapshotData NodeMetaExt)
    (prev : option Totals) : Effects NodeMetaExt :=
  let ns := as_nodes (d_nodes d) in
  let t := snapshot_ts now d in
  match direct_point t d with
  | Some pt => {| fx_nodes := ns; fx_push := Some pt; fx_prev := prev |}
  | None =>
      match ns with
      | None => {| fx_nodes := None; fx_push := None; fx_prev := prev |}
      | Some l =>
          let cur := totals t (meta <$> l) in
          match prev with
          | None => {| fx_nodes := ns; fx_push := None; fx_prev := Some cur |}
          | Some p =>
              {| fx_nodes := ns;
                 fx_push := Some (derived_point rate_clamp_first t p cur (meta <$> l));
                 fx_prev := Some cur |}
          end
      end
  end.

(** ** Applying the effects to the stores *)

(** store.ts together with [previousRef]. *)
Record HookState := { h_store : ClusterState; h_prev : option Totals }.

Definition consume (now : number) (d : SnapshotData NodeMeta) (h : HookState) : HookState :=
  let fx := consumeSnapshot now d (h_prev h) in
  let s := match fx_nodes fx with Some l => setNodes l (h_store h) | None => h_store h end in
  let s' := match fx_push fx with Some pt => pushMetrics pt s | None => s end in
  {| h_store := s'; h_prev := fx_prev fx |}.

(** store/clusterStore.ts *)
Record WsClusterState := {
  ws_nodes : list NodeMetaExt;
  ws_status : WsStatus;
  lastUpdated : option number;
}.
Definition ws_cluster_init : WsClusterState :=
  {| ws_nodes := []; ws_status := connecting; lastUpdated := None |}.
Definition ws_setNodes (now : number) (l : list NodeMetaExt) (s : WsClusterState) : WsClusterState :=
  {| ws_nodes := l; ws_status := ws_status s; lastUpdated := Some now |}.
Definition ws_setStatus (w : WsStatus) (s : WsClusterState) : WsClusterState :=
  {| ws_nodes := ws_nodes s; ws_status := w; lastUpdated := lastUpdated s |}.

(** store/metricsStore.ts *)
Record MetricsState := { m_history : list MetricsPoint }.
Definition metrics_init : MetricsState := {| m_history := [] |}.
Definition metrics_push (pt : MetricsPoint) (s : MetricsState) : MetricsState :=
  {| m_history := slice_last 119 (m_history s) ++ [pt] |}.

(** Both stores of useClusterWS.ts together with [prevTotals]. *)
Record WsHookState := {
  w_cluster : WsClusterState;
  w_metrics : MetricsState;
  w_prev : option Totals;
}.
Definition ws_ingest (now : number) (d : SnapshotData NodeMetaExt) (h : WsHookState) : WsHookState :=
  let fx := ingest now d (w_prev h) in
  {| w_cluster := match fx_nodes fx with
                  | Some l => ws_setNodes now l (w_cluster h) | None => w_cluster h end;
     w_metrics := match fx_push fx with
                  | Some pt => metrics_push pt (w_metrics h) | None => w_metrics h end;
     w_prev := fx_prev fx |}.

(** ** Auxiliary definitions of the statements *)

(** A message without metrics: a node list and a time stamp. *)
Definition nodes_only {N} (t : number) (l : list N) : SnapshotData N := {|
  d_nodes := UNodes l; d_ts := UNumber t;
  d_set_ops_per_sec := UOther; d_get_ops_per_sec := UOther;
  d_set_p50_ms := UOther; d_set_p99_ms := UOther;
  d_get_p50_ms := UOther; d_get_p99_ms := UOther |}.

(** The same message as the other hook sees it. *)
Definition erase_field (v : unknown NodeMetaExt) : unknown NodeMeta :=
  match v with
  | UNumber n => UNumber n
  | UNodes l => UNodes (meta <$> l)
  | UOther => UOther
  end.
Definition erase_data (d : SnapshotData NodeMetaExt) : SnapshotData NodeMeta := {|
  d_nodes := erase_field (d_nodes d); d_ts := erase_field (d_ts d);
  d_set_ops_per_sec := erase_field (d_set_ops_per_sec d);
  d_get_ops_per_sec := erase_field (d_get_ops_per_sec d);
  d_set_p50_ms := erase_field (d_set_p50_ms d);
  d_set_p99_ms := erase_field (d_set_p99_ms d);
  d_get_p50_ms := erase_field (d_get_p50_ms d);
  d_get_p99_ms := erase_field (d_get_p99_ms d) |}.
Definition erase_effects (fx : Effects NodeMetaExt) : Effects NodeMeta := {|
  fx_nodes := fmap (M:=list) meta <$> fx_nodes fx;
  fx_push := fx_push fx; fx_prev := fx_prev fx |}.

(** Neither +∞ nor -∞. *)
Definition not_infinite (x : number) : bool := is_finite x || is_nan x.

(** ** Sample data *)

(** A node with both counters at [c] and a latency of 120 microseconds. *)
Definition sample_node (i : Z) (h : bool) (c : Z) : NodeMeta := {|
  node_id := i; host := «"vaultkv-node"» ++ show_Z i; port := (7378 + i)%Z;
  healthy := h; is_leader := (i =? 1)%Z; ops_set := n_of_Z c; ops_get := n_of_Z c;
  lag_ms := n_zero; latency_us := n_of_Z 120; key_count := n_zero |}.

Definition sample_ext (n : NodeMeta) : NodeMetaExt :=
  {| meta := n; last_seen := None; wal_seq := None |}.

Definition sample_direct : SnapshotData NodeMeta := {|
  d_nodes := UOther; d_ts := UNumber (n_of_Z 5);
  d_set_ops_per_sec := UNumber (n_of_Z 100); d_get_ops_per_sec := UNumber (n_of_Z 200);
  d_set_p50_ms := UNumber (n_of_Z 1); d_set_p99_ms := UNumber (n_of_Z 2);
  d_get_p50_ms := UNumber (n_of_Z 1); d_get_p99_ms := UNumber (n_of_Z 2) |}.
Definition sample_point : MetricsPoint := {|
  ts := n_of_Z 5; set_ops_per_sec := n_of_Z 100; get_ops_per_sec := n_of_Z 200;
  set_p50_ms := n_of_Z 1; set_p99_ms := n_of_Z 2;
  get_p50_ms := n_of_Z 1; get_p99_ms := n_of_Z 2 |}.

(** ** Lemmas *)

Lemma as_number_erase v : as_number (erase_field v) = as_number v.
Proof. by destruct v. Qed.

Lemma as_nodes_erase v : as_nodes (erase_field v) = fmap (M:=list) meta <$> as_nodes v.
Proof. by destruct v. Qed.

Lemma direct_point_erase t d : direct_point t (erase_data d) = direct_point t d.
Proof. unfold direct_point, erase_data; simpl. by rewrite !as_number_erase. Qed.

Lemma snapshot_ts_erase now d : snapshot_ts now (erase_data d) = snapshot_ts now d.
Proof. unfold snapshot_ts; simpl. by rewrite as_number_erase. Qed.

Lemma literal_001_pos : is_pos (n_dec 1 3) = true.
Proof. vm_compute. reflexivity. Qed.

Lemma max_step_finite c x :
  is_finite c = true → is_finite x = true → is_finite (math_max c x) = true.
Proof.
  destruct c as [[]|[]| |[]]; try done; intros _; destruct x as [[]|[]| |[]]; try done; intros _;
    unfold math_max, max_step; simpl; by try case_match.
Qed.

(** The interval is positive, or NaN when a time stamp is. *)
Lemma interval_pos t p : is_pos (interval t p) = true ∨ is_nan (interval t p) = true.
Proof.
  unfold interval. destruct (is_nan (n_sub t (t_ts p))) eqn:E.
  - right. by destruct (n_sub t (t_ts p)).
  - left. apply math_max_pos_l; [apply literal_001_pos|done].
Qed.

Lemma interval_finite t p :
  not_infinite (n_sub t (t_ts p)) = true →
  is_finite (interval t p) = true ∨ is_nan (interval t p) = true.
Proof.
  unfold interval, not_infinite. intros [Hf|Hn]%orb_true_iff.
  - left. by apply max_step_finite; [vm_compute|].
  - right. by destruct (n_sub t (t_ts p)).
Qed.

Lemma rates_agree delta t p :
  not_infinite (n_sub t (t_ts p)) = true →
  rate_clamp_last delta (interval t p) = rate_clamp_first delta (interval t p).
Proof.
  intros Hi. apply rate_clamp_commutes; [apply interval_pos|].
  destruct (interval_finite t p Hi) as [Hf|Hn]; [left|by right].
  rewrite Hf. by rewrite andb_false_r.
Qed.

Lemma derived_points_agree t p cur ns :
  not_infinite (n_sub t (t_ts p)) = true →
  derived_point rate_clamp_last t p cur ns = derived_point rate_clamp_first t p cur ns.
Proof. intros Hi. unfold derived_point. by rewrite !rates_agree. Qed.

(** A clamped rate is +0, positive or NaN; it is a number when the difference is
    finite and the interval is not NaN. *)
Lemma rate_clamp_last_sign delta dt :
  is_nan (rate_clamp_last delta dt) = false → has_sign false (rate_clamp_last delta dt) = true.
Proof.
  unfold rate_clamp_last. intros Hn. apply math_max_zero_sign.
  destruct (math_round _); try done.
Qed.

Lemma rate_clamp_last_number delta t p :
  is_finite delta = true → is_nan (n_sub t (t_ts p)) = false →
  is_nan (rate_clamp_last delta (interval t p)) = false.
Proof.
  intros Hd Ht. unfold rate_clamp_last.
  assert (is_nan delta = false) as Hn by by destruct delta.
  destruct (not_nan_has_sign delta Hn) as [s Hs].
  eapply has_sign_not_nan, math_max_zero_sign, has_sign_not_nan, math_round_sign, n_div_sign; [done| |].
  - apply math_max_pos_l; [apply literal_001_pos|done].
  - by rewrite Hd.
Qed.

Lemma consume_nodes_only now t l p s :
  consume now (nodes_only t l) {| h_store := s; h_prev := Some p |} =
  {| h_store := pushMetrics (derived_point rate_clamp_last t p (totals t l) l) (setNodes l s);
     h_prev := Some (totals t l) |}.
Proof. done. Qed.

Lemma consume_list_prev now msgs : ∀ h p,
  h_prev h = Some p →
  length (history (h_store (foldl (λ h m, consume now (nodes_only (fst m) (snd m)) h) h msgs))) =
  match msgs with
  | [] => length (history (h_store h))
  | _ => min 120 (length (history (h_store h)) + length msgs)
  end.
Proof.
  induction msgs as [|[t l] msgs IH]; intros [s pr] p Hp; simpl in Hp; subst pr; [done|].
  cbn [foldl fst snd]. rewrite consume_nodes_only. erewrite IH; [|done].
  assert (length (history (pushMetrics (derived_point rate_clamp_last t p (totals t l) l)
    (setNodes l s))) = min 120 (length (history s) + 1)) as Hlen.
  { cbn [history pushMetrics setNodes]. rewrite length_app, slice_last_length. cbn [length]. lia. }
  cbn [h_store]. rewrite Hlen. destruct msgs; cbn [length]; lia.
Qed.

(** ** Properties *)

(** C9: the two hooks extract the same node list, push the same point and keep
    the same baseline from any message, although one clamps the rate before
    dividing and the other after rounding, unless the time between the two
    snapshots overflows to infinity. *)
Theorem hooks_agree now d prev :
  (∀ p, prev = Some p → not_infinite (n_sub (snapshot_ts now d) (t_ts p)) = true) →
  consumeSnapshot now (erase_data d) prev = erase_effects (ingest now d prev).
Proof.
  intros Hprev. unfold consumeSnapshot, ingest.
  rewrite direct_point_erase, snapshot_ts_erase.
  change (d_nodes (erase_data d)) with (erase_field (d_nodes d)). rewrite as_nodes_erase.
  destruct (direct_point _ d); [done|].
  destruct (as_nodes (d_nodes d)) as [l|]; [|done]. destruct prev as [p|]; [|done].
  simpl. by rewrite derived_points_agree by eauto.
Qed.

(** A message with all six numbers is recorded unchanged and leaves the
    baseline of the derived rates alone. *)
Theorem direct_metrics_recorded now d prev pt :
  direct_point (snapshot_ts now d) d = Some pt →
  fx_push (consumeSnapshot now d prev) = Some pt ∧
  fx_prev (consumeSnapshot now d prev) = prev ∧
  d_set_ops_per_sec d = UNumber (set_ops_per_sec pt) ∧
  d_get_ops_per_sec d = UNumber (get_ops_per_sec pt) ∧
  d_set_p50_ms d = UNumber (set_p50_ms pt) ∧ d_set_p99_ms d = UNumber (set_p99_ms pt) ∧
  d_get_p50_ms d = UNumber (get_p50_ms pt) ∧ d_get_p99_ms d = UNumber (get_p99_ms pt).
Proof.
  intros Hd. unfold consumeSnapshot. rewrite Hd. split; [done|]. split; [done|]. clear -Hd.
  unfold direct_point in Hd.
  destruct (d_set_ops_per_sec d); try done. destruct (d_get_ops_per_sec d); try done.
  destruct (d_set_p50_ms d); try done. destruct (d_set_p99_ms d); try done.
  destruct (d_get_p50_ms d); try done. destruct (d_get_p99_ms d); try done. by simplify_eq/=.
Qed.


(** C17: the percentiles of a derived point are ordered: the median of each
    operation is at most its 99th percentile, and reads are at most as slow as
    writes, whenever the mean latency is a number (rounding included). *)
Theorem derived_percentiles_ordered rate t p cur ns :
  is_nan (base_ms ns) = false →
  let pt := derived_point rate t p cur ns in
  n_le (set_p50_ms pt) (set_p99_ms pt) = true ∧ n_le (get_p50_ms pt) (get_p99_ms pt) = true ∧
  n_le (get_p50_ms pt) (set_p50_ms pt) = true ∧ n_le (get_p99_ms pt) (set_p99_ms pt) = true.
Proof.
  intros Hb. cbn [set_p50_ms set_p99_ms get_p50_ms get_p99_ms derived_point].
  split_and!; apply scaled_max_mono; try exact Hb; vm_compute; reflexivity.
Qed.

(** A run of [k] messages without metrics produces exactly [k - 1] points,
    as far as the 120-point window holds them: the first message only sets the
    baseline. *)
Theorem derived_points_count now msgs :
  let run := foldl (λ h m, consume now (nodes_only (fst m) (snd m)) h)
               {| h_store := initial_state; h_prev := None |} msgs in
  length (history (h_store run)) = min 120 (length msgs - 1).
Proof.
  destruct msgs as [|[t l] msgs]; [done|]. cbn [foldl fst snd].
  erewrite consume_list_prev; [|done]. destruct msgs as [|m msgs]; [done|].
  change (length (history (h_store (consume now (nodes_only t l)
    {| h_store := initial_state; h_prev := None |})))) with 0.
  cbn [length]. lia.
Qed.

(** Two snapshots half a second apart with the same counters on every node
    are reported as two million operations per second when a node that has served
    a million operations turns healthy in between: the totals sum healthy nodes
    only, so its lifetime counter enters the difference. *)
Theorem recovery_reported_as_traffic :
  let before := [sample_node 1 true 10; sample_node 2 false 1000000] in
  let after := [sample_node 1 true 10; sample_node 2 true 1000000] in
  ops_set <$> before = ops_set <$> after ∧
  set_ops_per_sec <$> fx_push (consumeSnapshot n_zero (nodes_only (n_dec 105 1) after)
    (Some (totals (n_of_Z 10) before))) = Some (n_of_Z 2000000).
Proof. vm_compute. split; reflexivity. Qed.

(** ** Witnesses *)

Lemma hooks_agree_witness :
  let l := [sample_node 1 true 40; sample_node 2 true 7] in
  let p := totals (n_of_Z 10) [sample_node 1 true 10; sample_node 2 true 9] in
  consumeSnapshot n_zero (erase_data (nodes_only (n_of_Z 12) (sample_ext <$> l))) (Some p) =
  erase_effects (ingest n_zero (nodes_only (n_of_Z 12) (sample_ext <$> l)) (Some p)).
Proof.
  intros l p.
  apply (hooks_agree n_zero (nodes_only (n_of_Z 12) (sample_ext <$> l)) (Some p)).
  intros q Hq. injection Hq as <-. vm_compute. reflexivity.
Defined.

Lemma direct_metrics_recorded_witness :
  fx_push (consumeSnapshot n_zero sample_direct None) = Some sample_point.
Proof.
  apply (direct_metrics_recorded n_zero sample_direct None sample_point).
  vm_compute. reflexivity.
Defined.


Lemma derived_percentiles_ordered_witness :
  let l := [sample_node 1 true 4] in
  let p := totals (n_of_Z 10) [sample_node 1 true 10] in
  let pt := derived_point rate_clamp_last (n_of_Z 12) p (totals (n_of_Z 12) l) l in
  n_le (set_p50_ms pt) (set_p99_ms pt) = true.
Proof.
  intros l p. apply (derived_percentiles_ordered rate_clamp_last (n_of_Z 12) p (totals (n_of_Z 12) l) l).
  vm_compute. reflexivity.
Defined.
