(* ===== verification/Stream.v ===== *)
(** * The metrics stream (useSimulatedMetrics in hooks.ts, useClusterWS.ts)

    Each hook owns an effect that keeps one WebSocket open, reconnects after it
    closes, and polls the gateway while no socket is open.  The machine below
    runs the effect's handlers against the events a browser can deliver: sockets
    opening, delivering messages, failing and closing, timers firing, replies to
    polls, and React mounting and unmounting the effect.  React's strict mode
    mounts, unmounts and mounts again, so several effect instances share the same
    ref while their sockets are still closing.

    The two hooks differ in small ways, which are the fields of [SocketHook]; the
    theorems hold for every instance whose store keeps the status it is given. *)

From S2P Require Import Prelude JsNumber JsString Json RuntimeConfig Store Metrics.

Local Open Scope list_scope.

(** ** What a hook supplies *)

Class SocketHook := {
  HState : Type;
  HData : Type;
  hook_setStatus : WsStatus → HState → HState;
  hook_status : HState → WsStatus;
  hook_ingest : number → HData → HState → HState;
  (** [if (disposed) return;] at the start of [onopen] *)
  onopen_guarded : bool;
  (** [onopen] sends a greeting *)
  onopen_sends : bool;
  (** the poll timer reads [wsOpenRef] instead of the socket's [readyState] *)
  poll_reads_flag : bool;
}.

Class SocketHookLaws (K : SocketHook) := {
  status_set w s : hook_status (hook_setStatus w s) = w;
  status_ingest now d s : hook_status (hook_ingest now d s) = hook_status s;
}.

(** ** State *)

Inductive ReadyState := CONNECTING | OPEN | CLOSING | CLOSED.

#[export] Instance ReadyState_eq_dec : EqDecision ReadyState.
Proof. solve_decision. Defined.

(** A socket, the effect instance whose closures are its handlers, and its
    [readyState]. *)
Record Socket := { sk_owner : nat; sk_state : ReadyState }.

(** The local variables of one run of the effect. *)
Record Inst := { reconnectTimer : option nat; polling : bool; disposed : bool }.

(** [timeouts] holds the armed reconnect timers with the instance they belong
    to, [inflight] counts unanswered polls, [greeted] lists the sockets a
    greeting was sent on, [send_error] records a [send] on a socket that is
    still connecting, which throws. *)
Record World `{SocketHook} := {
  app : HState;
  insts : list Inst;
  sockets : list Socket;
  timeouts : list (nat * nat);
  next_timer : nat;
  wsRef : option nat;
  wsOpen : bool;
  inflight : nat;
  greeted : list nat;
  send_error : bool;
}.

Section Machine.

Context `{K : SocketHook}.

Definition world_init (s : HState) : World := {|
  app := s; insts := []; sockets := []; timeouts := []; next_timer := 1;
  wsRef := None; wsOpen := false; inflight := 0; greeted := []; send_error := false |}.

Definition set_app (s : HState) (w : World) : World := {|
  app := s; insts := insts w; sockets := sockets w; timeouts := timeouts w;
  next_timer := next_timer w; wsRef := wsRef w; wsOpen := wsOpen w; inflight := inflight w;
  greeted := greeted w; send_error := send_error w |}.
Definition set_sockets (l : list Socket) (w : World) : World := {|
  app := app w; insts := insts w; sockets := l; timeouts := timeouts w;
  next_timer := next_timer w; wsRef := wsRef w; wsOpen := wsOpen w; inflight := inflight w;
  greeted := greeted w; send_error := send_error w |}.
Definition set_wsOpen (b : bool) (w : World) : World := {|
  app := app w; insts := insts w; sockets := sockets w; timeouts := timeouts w;
  next_timer := next_timer w; wsRef := wsRef w; wsOpen := b; inflight := inflight w;
  greeted := greeted w; send_error := send_error w |}.
Definition set_inflight (n : nat) (w : World) : World := {|
  app := app w; insts := insts w; sockets := sockets w; timeouts := timeouts w;
  next_timer := next_timer w; wsRef := wsRef w; wsOpen := wsOpen w; inflight := n;
  greeted := greeted w; send_error := send_error w |}.
Definition set_insts (l : list Inst) (w : World) : World := {|
  app := app w; insts := l; sockets := sockets w; timeouts := timeouts w;
  next_timer := next_timer w; wsRef := wsRef w; wsOpen := wsOpen w; inflight := inflight w;
  greeted := greeted w; send_error := send_error w |}.
Definition set_timeouts (l : list (nat * nat)) (w : World) : World := {|
  app := app w; insts := insts w; sockets := sockets w; timeouts := l;
  next_timer := next_timer w; wsRef := wsRef w; wsOpen := wsOpen w; inflight := inflight w;
  greeted := greeted w; send_error := send_error w |}.

Definition put_status (st : WsStatus) (w : World) : World := set_app (hook_setStatus st (app w)) w.

(** The [disposed] variable of instance [i]. *)
Definition is_disposed (i : nat) (w : World) : bool :=
  match insts w !! i with Some x => disposed x | None => true end.

(** ** The WebSocket object *)

Definition set_state (st : ReadyState) (k : Socket) : Socket :=
  {| sk_owner := sk_owner k; sk_state := st |}.

(** [close()]: starts the closing handshake unless it has started already. *)
Definition close_socket (k : Socket) : Socket :=
  match sk_state k with
  | CONNECTING | OPEN => set_state CLOSING k
  | CLOSING | CLOSED => k
  end.

(** [wsRef.current?.close()] *)
Definition close_ref (w : World) : World :=
  match wsRef w with
  | Some s => set_sockets (alter close_socket s (sockets w)) w
  | None => w
  end.

(** [ws.current?.send("hello")] *)
Definition send_ref (w : World) : World :=
  match wsRef w with
  | Some s =>
      match sk_state <$> sockets w !! s with
      | Some CONNECTING => {|
          app := app w; insts := insts w; sockets := sockets w; timeouts := timeouts w;
          next_timer := next_timer w; wsRef := wsRef w; wsOpen := wsOpen w;
          inflight := inflight w; greeted := greeted w; send_error := true |}
      | Some OPEN => {|
          app := app w; insts := insts w; sockets := sockets w; timeouts := timeouts w;
          next_timer := next_timer w; wsRef := wsRef w; wsOpen := wsOpen w;
          inflight := inflight w; greeted := greeted w ++ [s]; send_error := send_error w |}
      | _ => w
      end
  | None => w
  end.

(** ** The effect's functions and handlers, for instance [i] *)

(** [connect]: a new socket with this instance's handlers. *)
Definition connect (i : nat) (w : World) : World :=
  if is_disposed i w then w
  else
    let w1 := put_status connecting w in {|
      app := app w1; insts := insts w1;
      sockets := sockets w1 ++ [ {| sk_owner := i; sk_state := CONNECTING |} ];
      timeouts := timeouts w1; next_timer := next_timer w1;
      wsRef := Some (length (sockets w1)); wsOpen := false; inflight := inflight w1;
      greeted := greeted w1; send_error := send_error w1 |}.

Definition on_open (i : nat) (w : World) : World :=
  if onopen_guarded && is_disposed i w then w
  else
    let w1 := put_status open (set_wsOpen true w) in
    if onopen_sends then send_ref w1 else w1.

Definition on_message (now : number) (data : option HData) (w : World) : World :=
  match data with
  | Some d => set_app (hook_ingest now d (app w)) w
  | None => w
  end.

Definition on_error (w : World) : World := close_ref w.

Definition arm_timer (i : nat) (w : World) : World := {|
  app := app w;
  insts := alter (λ x, {| reconnectTimer := Some (next_timer w); polling := polling x;
                          disposed := disposed x |}) i (insts w);
  sockets := sockets w; timeouts := timeouts w ++ [(next_timer w, i)];
  next_timer := S (next_timer w); wsRef := wsRef w; wsOpen := wsOpen w;
  inflight := inflight w; greeted := greeted w; send_error := send_error w |}.

Definition on_close (i : nat) (w : World) : World :=
  let w1 := set_wsOpen false w in
  if is_disposed i w1 then w1 else arm_timer i (put_status closed w1).

(** [pollCluster] up to its first [await]. *)
Definition pollCluster (w : World) : World := set_inflight (S (inflight w)) w.

(** The test of the poll timer. *)
Definition poll_due (w : World) : bool :=
  if poll_reads_flag then negb (wsOpen w)
  else bool_decide ((s ← wsRef w; sk_state <$> sockets w !! s) ≠ Some OPEN).

(** The body of the effect. *)
Definition run_effect (w : World) : World :=
  let i := length (insts w) in
  let w1 := set_insts (insts w ++ [ {| reconnectTimer := None; polling := true;
                                       disposed := false |} ]) w in
  connect i (pollCluster w1).

(** The cleanup function the effect returns. *)
Definition cleanup (i : nat) (w : World) : World :=
  match insts w !! i with
  | None => w
  | Some x =>
      let w1 := set_insts (<[i := {| reconnectTimer := reconnectTimer x; polling := false;
                                     disposed := true |}]> (insts w)) w in
      let w2 := match reconnectTimer x with
                | Some t => set_timeouts (array_filter (λ p, negb (fst p =? t)%nat) (timeouts w1)) w1
                | None => w1
                end in
      close_ref w2
  end.

(** ** Events *)

(** [SocketClosed s failed]: the connection of socket [s] is gone; the browser
    sets its state to CLOSED, fires [error] when it failed, then [close]. *)
Inductive ws_event :=
  | Mount
  | Unmount
  | Opened (s : nat)
  | Message (s : nat) (now : number) (data : option HData)
  | SocketClosed (s : nat) (failed : bool)
  | TimerFires (t : nat)
  | PollTick (i : nat)
  | PollReply (now : number) (data : option HData).

(** [None]: the event cannot occur in this state. *)
Definition ws_step (e : ws_event) (w : World) : option World :=
  match e with
  | Mount => if forallb disposed (insts w) then Some (run_effect w) else None
  | Unmount =>
      match last (insts w) with
      | Some x => if disposed x then None else Some (cleanup (pred (length (insts w))) w)
      | None => None
      end
  | Opened s =>
      match sockets w !! s with
      | Some k =>
          if decide (sk_state k = CONNECTING)
          then Some (on_open (sk_owner k) (set_sockets (<[s := set_state OPEN k]> (sockets w)) w))
          else None
      | None => None
      end
  | Message s now data =>
      match sockets w !! s with
      | Some k => if decide (sk_state k = OPEN) then Some (on_message now data w) else None
      | None => None
      end
  | SocketClosed s failed =>
      match sockets w !! s with
      | Some k =>
          if decide (sk_state k = CLOSED) then None
          else
            let w1 := set_sockets (<[s := set_state CLOSED k]> (sockets w)) w in
            let w2 := if failed then on_error w1 else w1 in
            Some (on_close (sk_owner k) w2)
      | None => None
      end
  | TimerFires t =>
      match array_find (λ p, (fst p =? t)%nat) (timeouts w) with
      | Some (_, i) =>
          Some (connect i (set_timeouts (array_filter (λ p, negb (fst p =? t)%nat) (timeouts w)) w))
      | None => None
      end
  | PollTick i =>
      match insts w !! i with
      | Some x => if polling x then Some (if poll_due w then pollCluster w else w) else None
      | None => None
      end
  | PollReply now data =>
      if (inflight w =? 0)%nat then None
      else Some (on_message now data (set_inflight (pred (inflight w)) w))
  end.

Inductive ws_reachable : World → Prop :=
  | ws_start s : ws_reachable (world_init s)
  | ws_next e w w' : ws_reachable w → ws_step e w = Some w' → ws_reachable w'.

Fixpoint ws_run (es : list ws_event) (w : World) : option World :=
  match es with
  | [] => Some w
  | e :: es' => w' ← ws_step e w; ws_run es' w'
  end.

(** ** Predicates of the statements *)

Definition connected (k : Socket) : bool :=
  match sk_state k with CONNECTING | OPEN => true | _ => false end.

(** Some instance is mounted. *)
Definition mounted (w : World) : bool := negb (forallb disposed (insts w)).

(** A remount in which the old socket closes after the new one has opened. *)
Definition stale_close_events : list ws_event :=
  [Mount; Opened 0; Unmount; Mount; Opened 1; SocketClosed 0 false].

(** The state of socket 1 and the poll timer's test after a run. *)
Definition observe_poll (w : World) (es : list ws_event) : option (option ReadyState * bool) :=
  (λ w', (sk_state <$> sockets w' !! 1, poll_due w')) <$> ws_run es w.

(** The event can occur. *)
Definition enabled (e : ws_event) (w : World) : bool :=
  match ws_step e w with Some _ => true | None => false end.

(** The state after a run, the start if the run is impossible. *)
Definition run_from (w : World) (es : list ws_event) : World := default w (ws_run es w).

(** Neither CONNECTING nor OPEN. *)
Definition over (k : Socket) : Prop := connected k = false.

(** The store's status and the armed timers agree with the state of the newest
    socket of the mounted instance [i], whose variables are [x]. *)
Definition phase (i : nat) (x : Inst) (st : ReadyState) (status : WsStatus)
    (tms : list (nat * nat)) : Prop :=
  match st with
  | CONNECTING => tms = [] ∧ status = connecting
  | OPEN => tms = [] ∧ status = open
  | CLOSING => tms = [] ∧ status ≠ closed
  | CLOSED => status = closed ∧ ∃ t, tms = [(t, i)] ∧ reconnectTimer x = Some t
  end.

(** The invariant of the machine: either nothing is mounted, every socket is
    closing or closed and no timer is armed; or exactly the newest instance is
    mounted, it owns the newest socket, which is the one in the ref, and every
    older socket is closing or closed (closed, if the mounted instance owns it). *)
Inductive Inv (w : World) : Prop :=
  | Inv_idle
      (Hdisp : Forall (λ x, disposed x = true) (insts w))
      (Hown : Forall (λ k, sk_owner k < length (insts w)) (sockets w))
      (Hover : Forall over (sockets w))
      (Htms : timeouts w = [])
  | Inv_live ipre x kpre k
      (Hinsts : insts w = ipre ++ [x])
      (Hdisp : Forall (λ x, disposed x = true) ipre)
      (Hx : disposed x = false)
      (Hsocks : sockets w = kpre ++ [k])
      (Hown : Forall (λ k, sk_owner k < length (insts w)) kpre)
      (Hover : Forall over kpre)
      (Hmine : Forall (λ k, sk_owner k = length ipre → sk_state k = CLOSED) kpre)
      (Hk : sk_owner k = length ipre)
      (Href : wsRef w = Some (length kpre))
      (Hphase : phase (length ipre) x (sk_state k) (hook_status (app w)) (timeouts w)).

End Machine.

(** ** The two hooks *)

(** hooks.ts over store.ts *)
Definition simulated_metrics : SocketHook := {|
  HState := HookState;
  HData := SnapshotData NodeMeta;
  hook_setStatus w h := {| h_store := setStatus w (h_store h); h_prev := h_prev h |};
  hook_status h := wsStatus (h_store h);
  hook_ingest := consume;
  onopen_guarded := false;
  onopen_sends := false;
  poll_reads_flag := false |}.

(** useClusterWS.ts over store/clusterStore.ts and store/metricsStore.ts *)
Definition cluster_ws : SocketHook := {|
  HState := WsHookState;
  HData := SnapshotData NodeMetaExt;
  hook_setStatus w h := {| w_cluster := ws_setStatus w (w_cluster h);
                           w_metrics := w_metrics h; w_prev := w_prev h |};
  hook_status h := ws_status (w_cluster h);
  hook_ingest := ws_ingest;
  onopen_guarded := true;
  onopen_sends := true;
  poll_reads_flag := true |}.

(** ** Sample states *)

Definition sample_start : @World simulated_metrics :=
  @world_init simulated_metrics {| h_store := initial_state; h_prev := None |}.

Definition sample_connecting := run_from sample_start [Mount].

(** The first socket has failed: a reconnect timer is armed. *)
Definition sample_closed := run_from sample_start [Mount; SocketClosed 0 true].

Definition sample_unmounted := run_from sample_start [Mount; Unmount].

#[export] Instance simulated_metrics_laws : SocketHookLaws simulated_metrics.
Proof.
  split; [done|]. intros now d h. simpl. unfold consume.
  destruct (fx_nodes _), (fx_push _); done.
Qed.

#[export] Instance cluster_ws_laws : SocketHookLaws cluster_ws.
Proof.
  split; [done|]. intros now d h. simpl. unfold ws_ingest. simpl.
  destruct (fx_nodes _); done.
Qed.

(** ** The invariant holds in every reachable state *)

Section Invariant.

Context `{K : SocketHook} `{!SocketHookLaws K}.
Implicit Types w : World.

Lemma forallb_disposed l : forallb disposed l = true ↔ Forall (λ x, disposed x = true) l.
Proof. rewrite forallb_forall, Forall_forall. by setoid_rewrite list_elem_of_In. Qed.

Lemma over_close k : over (close_socket k).
Proof. unfold over, connected, close_socket. by destruct (sk_state k) eqn:E; rewrite ?E. Qed.

Lemma close_over k : over k → close_socket k = k.
Proof. unfold over, connected, close_socket. by destruct (sk_state k). Qed.

Lemma owner_close k : sk_owner (close_socket k) = sk_owner k.
Proof. unfold close_socket. by destruct (sk_state k). Qed.

Lemma phase_close i x st status tms :
  phase i x st status tms →
  phase i x (sk_state (close_socket {| sk_owner := i; sk_state := st |})) status tms.
Proof. destruct st; simpl; naive_solver. Qed.

(** A handler of a disposed instance changes only the flag of [useClusterWS]. *)
Lemma on_close_disposed i w : is_disposed i w = true → on_close i w = set_wsOpen false w.
Proof. intros H. unfold on_close. by change (is_disposed i (set_wsOpen false w)) with (is_disposed i w); rewrite H. Qed.

Lemma is_disposed_pre ipre x i w :
  insts w = ipre ++ [x] → Forall (λ x, disposed x = true) ipre → i < length ipre →
  is_disposed i w = true.
Proof.
  intros Hi Hd Hlt. unfold is_disposed. rewrite Hi, lookup_app_l by done.
  destruct (lookup_lt_is_Some_2 ipre i Hlt) as [y Hy]. rewrite Hy.
  by apply (Forall_lookup_1 _ _ _ _ Hd Hy).
Qed.

Lemma is_disposed_last ipre x w :
  insts w = ipre ++ [x] → is_disposed (length ipre) w = disposed x.
Proof. intros Hi. unfold is_disposed. by rewrite Hi, list_lookup_middle. Qed.

Lemma is_disposed_all i w :
  Forall (λ x, disposed x = true) (insts w) → is_disposed i w = true.
Proof.
  intros Hd. unfold is_disposed. destruct (insts w !! i) as [y|] eqn:Hy; [|done].
  by apply (Forall_lookup_1 _ _ _ _ Hd Hy).
Qed.

Lemma Inv_init s : Inv (world_init s).
Proof. apply Inv_idle; by repeat constructor. Qed.

(** Changes to the store that keep the status, to the flag and to the counters
    do not affect the invariant. *)
Lemma Inv_ext w w' :
  insts w' = insts w → sockets w' = sockets w → timeouts w' = timeouts w →
  wsRef w' = wsRef w → hook_status (app w') = hook_status (app w) → Inv w → Inv w'.
Proof.
  intros H1 H2 H3 H4 H5 [|ipre x kpre k].
  - apply Inv_idle; by rewrite ?H1, ?H2, ?H3.
  - apply (Inv_live w' ipre x kpre k); rewrite ?H1, ?H2, ?H3, ?H4, ?H5; done.
Qed.

Lemma Inv_message now data w : Inv w → Inv (on_message now data w).
Proof.
  intros H. destruct data; simpl; [|done].
  apply (Inv_ext w); simpl; rewrite ?status_ingest; done.
Qed.

Lemma Inv_connect i w :
  is_disposed i w = false → Forall over (sockets w) → timeouts w = [] →
  Forall (λ k, sk_owner k < length (insts w)) (sockets w) →
  Forall (λ k, sk_owner k = i → sk_state k = CLOSED) (sockets w) →
  (∃ ipre x, insts w = ipre ++ [x] ∧ length ipre = i ∧ Forall (λ x, disposed x = true) ipre) →
  Inv (connect i w).
Proof.
  intros Hd Hover Htms Hown Hmine (ipre & x & Hi & <- & Hpre).
  unfold connect. rewrite Hd. rewrite (is_disposed_last ipre x w Hi) in Hd.
  eapply (Inv_live _ ipre x (sockets w)); simpl; try done.
  by rewrite status_set.
Qed.

Lemma Inv_mount w : Inv w → forallb disposed (insts w) = true → Inv (run_effect w).
Proof.
  intros HI Hd%forallb_disposed. unfold run_effect.
  destruct HI as [_ Hown Hover Htms|ipre x kpre k Hi _ Hx].
  2: { rewrite Hi in Hd. apply Forall_app in Hd as [_ Hd]. inv Hd. congruence. }
  apply Inv_connect; simpl; try done.
  - unfold is_disposed. simpl. by rewrite list_lookup_middle.
  - eapply Forall_impl; [exact Hown|]. intros k Hk; simpl in *. rewrite length_app; simpl; lia.
  - eapply Forall_impl; [exact Hown|]. intros k Hk; simpl in *. lia.
  - eauto.
Qed.

Lemma alter_last {A} (f : A → A) l x : alter f (length l) (l ++ [x]) = l ++ [f x].
Proof. rewrite alter_app_r_alt by lia. by rewrite Nat.sub_diag. Qed.

Lemma insert_last {A} l (x y : A) : <[length l := y]> (l ++ [x]) = l ++ [y].
Proof. rewrite insert_app_r_alt by lia. by rewrite Nat.sub_diag. Qed.

Lemma Inv_unmount w x :
  Inv w → last (insts w) = Some x → disposed x = false →
  Inv (cleanup (pred (length (insts w))) w).
Proof.
  intros [Hd|ipre y kpre k Hi Hd Hy Hs Hown Hover Hmine Hk Href Hph] Hl Hx.
  { apply last_Some in Hl as [l Hl]. rewrite Hl in Hd.
    apply Forall_app in Hd as [_ Hd]. inv Hd. congruence. }
  rewrite Hi, last_snoc in Hl. simplify_eq. rewrite Hi, length_app. simpl.
  rewrite Nat.add_1_r. simpl. unfold cleanup. rewrite Hi, list_lookup_middle by done.
  set (x' := {| reconnectTimer := _; polling := false; disposed := true |}).
  set (tms := match reconnectTimer x with
    | Some t => array_filter (λ p, negb (fst p =? t)%nat) (timeouts w) | None => timeouts w end).
  assert (tms = []) as Htms.
  { subst tms. destruct (sk_state k); simpl in Hph.
    1,2,3: by destruct Hph as [-> _], (reconnectTimer x).
    destruct Hph as [_ (t & -> & ->)]. simpl. by rewrite Nat.eqb_refl. }
  apply Inv_idle; unfold close_ref; destruct (reconnectTimer x); simpl;
    rewrite Href; simpl; rewrite ?insert_last, ?Hs, ?alter_last; try done.
  all: try (apply Forall_app; split; [done|by constructor]).
  all: try (apply Forall_app; split; [by rewrite Hi in Hown; rewrite length_app in *|];
            constructor; [rewrite owner_close, Hk, length_app; simpl; lia|done]).
  all: apply Forall_app; split; [done|]; constructor; [apply over_close|done].
Qed.

Lemma over_state k : over k ↔ sk_state k = CLOSING ∨ sk_state k = CLOSED.
Proof. unfold over, connected. destruct (sk_state k); naive_solver. Qed.

Lemma phase_no_timer i x st status tms : phase i x st status tms → st ≠ CLOSED → tms = [].
Proof. destruct st; simpl; naive_solver. Qed.

(** Looking up a socket in the live case: an older one, or the newest. *)
Lemma lookup_snoc_cases {A} (l : list A) x i y :
  (l ++ [x]) !! i = Some y → (i < length l ∧ l !! i = Some y) ∨ (i = length l ∧ y = x).
Proof.
  intros [Hl|[Hlen Hl]]%lookup_app_Some.
  - left. split; [by eapply lookup_lt_Some|done].
  - right. apply list_lookup_singleton_Some in Hl as [? ->]. split; [lia|done].
Qed.

Lemma Inv_send w : Inv w → Inv (send_ref w).
Proof.
  intros HI. unfold send_ref. destruct (wsRef w) as [s|] eqn:E; [|done].
  destruct (sk_state <$> sockets w !! s) as [[]|]; try done; by apply (Inv_ext w).
Qed.

Lemma Inv_opened s k w :
  Inv w → sockets w !! s = Some k → sk_state k = CONNECTING →
  Inv (on_open (sk_owner k) (set_sockets (<[s := set_state OPEN k]> (sockets w)) w)).
Proof.
  intros HI Hs Hk. destruct HI as [_ _ Hover _|ipre x kpre k' Hi Hd Hx Hks Hown Hover Hmine Hk' Href Hph].
  { apply (Forall_lookup_1 _ _ _ _ Hover) in Hs. apply over_state in Hs. destruct Hs; congruence. }
  rewrite Hks in Hs. apply lookup_snoc_cases in Hs as [[Hlt Hs]|[-> ->]].
  { apply (Forall_lookup_1 _ _ _ _ Hover) in Hs. apply over_state in Hs. destruct Hs; congruence. }
  rewrite Hks, insert_last. set (w1 := set_sockets _ w).
  assert (is_disposed (sk_owner k') w1 = false) as Hnd.
  { rewrite Hk'. by rewrite (is_disposed_last ipre x w1). }
  assert (Inv (put_status open (set_wsOpen true w1))) as HI.
  { eapply (Inv_live _ ipre x kpre (set_state OPEN k')); simpl; try done.
    rewrite status_set. by rewrite Hk in Hph; destruct Hph. }
  unfold on_open. rewrite Hnd, andb_false_r. destruct onopen_sends; [by apply Inv_send|done].
Qed.

Lemma Inv_closed_stale s k (failed : bool) w :
  Inv w → sockets w !! s = Some k → sk_state k ≠ CLOSED → is_disposed (sk_owner k) w = true →
  let w1 := set_sockets (<[s := set_state CLOSED k]> (sockets w)) w in
  Inv (on_close (sk_owner k) (if failed then on_error w1 else w1)).
Proof.
  intros HI Hs Hk Hdis w1.
  rewrite on_close_disposed.
  2: { unfold on_error, close_ref. by destruct failed, (wsRef w1). }
  enough (Inv (if failed then on_error w1 else w1)) as HI2
    by (by apply (Inv_ext (if failed then on_error w1 else w1))).
  destruct HI as [Hd Hown Hover Htms|ipre x kpre k' Hi Hd Hx Hks Hown Hover Hmine Hk' Href Hph].
  - assert (Inv w1) as HI1.
    { apply Inv_idle; simpl; try done; apply Forall_insert; try done.
      by apply (Forall_lookup_1 _ _ _ _ Hown Hs). }
    destruct failed; [|done]. unfold on_error, close_ref. destruct (wsRef w1) as [r|]; [|done].
    destruct HI1 as [_ Hown1 Hover1 _|ipre x kpre k' Hi _ Hx].
    2: { simpl in Hi. rewrite Hi in Hd. apply Forall_app in Hd as [_ Hd]. inv Hd. congruence. }
    apply Inv_idle; simpl; try done; apply Forall_alter; try done;
      intros; rewrite ?owner_close; auto using over_close.
  - rewrite Hks in Hs. apply lookup_snoc_cases in Hs as [[Hlt Hs]|[-> ->]].
    2: { rewrite Hk', (is_disposed_last ipre x w) in Hdis by done. congruence. }
    assert (∀ k'', sk_owner k'' = sk_owner k' →
      phase (length ipre) x (sk_state k'') (hook_status (app w)) (timeouts w) →
      Inv (set_sockets (<[s := set_state CLOSED k]> kpre ++ [k'']) w)) as HIk.
    { intros k'' Ho Hp. eapply (Inv_live _ ipre x (<[s := set_state CLOSED k]> kpre) k''); simpl;
        rewrite ?length_insert; try done; try (by apply Forall_insert).
      - apply Forall_insert; [done|]. by apply (Forall_lookup_1 _ _ _ _ Hown Hs).
      - congruence. }
    subst w1. rewrite Hks, insert_app_l by done.
    destruct failed; [|by apply HIk].
    unfold on_error, close_ref. simpl. rewrite Href. simpl.
    rewrite <-(length_insert kpre s (set_state CLOSED k)), alter_last.
    apply HIk; [apply owner_close|].
    destruct k' as [o st]; simpl in *. apply phase_close in Hph. destruct st; exact Hph.
Qed.

Lemma Inv_closed_current ipre x kpre k (failed : bool) w :
  insts w = ipre ++ [x] → Forall (λ x, disposed x = true) ipre → disposed x = false →
  Forall (λ k, sk_owner k < length (insts w)) kpre → Forall over kpre →
  Forall (λ k, sk_owner k = length ipre → sk_state k = CLOSED) kpre →
  sk_owner k = length ipre → wsRef w = Some (length kpre) → timeouts w = [] →
  let w1 := set_sockets (kpre ++ [set_state CLOSED k]) w in
  Inv (on_close (sk_owner k) (if failed then on_error w1 else w1)).
Proof.
  intros Hi Hd Hx Hown Hover Hmine Hk Href Htms w1.
  assert ((if failed then on_error w1 else w1) = w1) as ->.
  { destruct failed; [|done]. unfold on_error, close_ref, w1. simpl. rewrite Href. simpl.
    by rewrite alter_last. }
  unfold on_close. change (is_disposed (sk_owner k) (set_wsOpen false w1))
    with (is_disposed (sk_owner k) w). rewrite Hk, (is_disposed_last ipre x w), Hx by done.
  eapply (Inv_live _ ipre {| reconnectTimer := Some (next_timer w); polling := polling x;
    disposed := disposed x |} kpre (set_state CLOSED k)); simpl; try done.
  - by rewrite Hi, alter_last.
  - rewrite length_alter. done.
  - rewrite status_set, Htms. eauto.
Qed.

Lemma Inv_closed s k (failed : bool) w :
  Inv w → sockets w !! s = Some k → sk_state k ≠ CLOSED →
  let w1 := set_sockets (<[s := set_state CLOSED k]> (sockets w)) w in
  Inv (on_close (sk_owner k) (if failed then on_error w1 else w1)).
Proof.
  intros HI Hs Hk. pose proof HI as HI'.
  destruct HI as [Hd _ _ _|ipre x kpre k' Hi Hd Hx Hks Hown Hover Hmine Hk' Href Hph].
  { apply Inv_closed_stale; auto using is_disposed_all. }
  pose proof Hs as Hs'. rewrite Hks in Hs'.
  apply lookup_snoc_cases in Hs' as [[Hlt Hs']|[-> ->]].
  - apply Inv_closed_stale; [done..|].
    apply (is_disposed_pre ipre x); [done..|].
    pose proof (Forall_lookup_1 _ _ _ _ Hown Hs') as Ho.
    pose proof (Forall_lookup_1 _ _ _ _ Hmine Hs') as Hm.
    rewrite Hi, length_app in Ho. simpl in *.
    destruct (decide (sk_owner k = length ipre)); [by destruct Hk; auto|lia].
  - rewrite Hks, insert_last. eapply Inv_closed_current; eauto using phase_no_timer.
Qed.

Lemma Inv_timer t t' i w :
  Inv w → array_find (λ p, (fst p =? t)%nat) (timeouts w) = Some (t', i) →
  Inv (connect i (set_timeouts (array_filter (λ p, negb (fst p =? t)%nat) (timeouts w)) w)).
Proof.
  intros [_ _ _ Htms|ipre x kpre k Hi Hd Hx Hks Hown Hover Hmine Hk Href Hph] Ht.
  { by rewrite Htms in Ht. }
  assert (sk_state k = CLOSED) as Hst.
  { destruct (decide (sk_state k = CLOSED)); [done|].
    by rewrite (phase_no_timer _ _ _ _ _ Hph) in Ht. }
  rewrite Hst in Hph. destruct Hph as [_ (t0 & Htms & _)]. rewrite Htms in *. simpl in *.
  destruct (t0 =? t)%nat eqn:E; simplify_eq. simpl.
  apply Inv_connect; simpl; rewrite ?Hks; try done.
  - by erewrite is_disposed_last.
  - apply Forall_app; split; [done|]. constructor; [|done]. unfold over, connected. by rewrite Hst.
  - apply Forall_app; split; [done|]. constructor; [|done]. rewrite Hi, length_app, Hk; simpl; lia.
  - apply Forall_app; split; [done|]. by constructor.
  - eauto.
Qed.

Lemma Inv_step e w w' : Inv w → ws_step e w = Some w' → Inv w'.
Proof.
  intros HI. destruct e as [| |s|s now d|s failed|t|i|now d]; simpl.
  - case_match eqn:E; intros; simplify_eq. by apply Inv_mount.
  - case_match eqn:E; [|done]. case_match eqn:E'; intros; simplify_eq. by eapply Inv_unmount.
  - case_match eqn:E; [|done]. case_decide; intros; simplify_eq. by apply Inv_opened.
  - case_match eqn:E; [|done]. case_decide; intros; simplify_eq. by apply Inv_message.
  - case_match eqn:E; [|done]. case_decide; intros; simplify_eq. by apply Inv_closed.
  - case_match eqn:E; [|done]. case_match; intros; simplify_eq. by eapply Inv_timer.
  - case_match eqn:E; [|done]. case_match eqn:E'; intros; simplify_eq.
    case_match; [by apply (Inv_ext w)|done].
  - case_match eqn:E; intros; simplify_eq. apply Inv_message. by apply (Inv_ext w).
Qed.

Lemma reachable_Inv w : ws_reachable w → Inv w.
Proof. induction 1; eauto using Inv_init, Inv_step. Qed.

(** ** The greeting *)

Lemma close_ref_send_error w : send_error (close_ref w) = send_error w.
Proof. unfold close_ref. by destruct (wsRef w). Qed.

Lemma connect_send_error i w : send_error (connect i w) = send_error w.
Proof. unfold connect. by case_match. Qed.

Lemma on_close_send_error i w : send_error (on_close i w) = send_error w.
Proof. unfold on_close. by case_match. Qed.

Lemma opened_send_error s k w :
  Inv w → sockets w !! s = Some k → sk_state k = CONNECTING →
  send_error (on_open (sk_owner k) (set_sockets (<[s := set_state OPEN k]> (sockets w)) w))
  = send_error w.
Proof.
  intros HI Hs Hk. destruct HI as [_ _ Hover _|ipre x kpre k' Hi Hd Hx Hks Hown Hover Hmine Hk' Href Hph].
  { apply (Forall_lookup_1 _ _ _ _ Hover) in Hs. apply over_state in Hs. destruct Hs; congruence. }
  rewrite Hks in Hs. apply lookup_snoc_cases in Hs as [[Hlt Hs]|[-> ->]].
  { apply (Forall_lookup_1 _ _ _ _ Hover) in Hs. apply over_state in Hs. destruct Hs; congruence. }
  rewrite Hks, insert_last. unfold on_open. case_match; [done|].
  destruct onopen_sends; [|done].
  unfold send_ref. simpl. by rewrite Href, list_lookup_middle by done.
Qed.

Lemma step_send_error e w w' : Inv w → ws_step e w = Some w' → send_error w' = send_error w.
Proof.
  intros HI. destruct e as [| |s|s now d|s failed|t|i|now d]; simpl.
  - case_match; intros; simplify_eq. unfold run_effect. by rewrite connect_send_error.
  - case_match; [|done]. case_match; intros; simplify_eq. unfold cleanup.
    case_match; [|done]. rewrite close_ref_send_error. by case_match.
  - case_match; [|done]. case_decide; intros; simplify_eq. by apply opened_send_error.
  - case_match; [|done]. case_decide; intros; simplify_eq. by destruct d.
  - case_match; [|done]. case_decide; intros; simplify_eq. rewrite on_close_send_error.
    destruct failed; [unfold on_error; by rewrite close_ref_send_error|done].
  - case_match; [|done]. case_match; intros; simplify_eq. by rewrite connect_send_error.
  - case_match; [|done]. case_match; intros; simplify_eq. by case_match.
  - case_match; intros; simplify_eq. by destruct d.
Qed.

(** What the invariant says when nothing, or something, is mounted. *)
Lemma Inv_unmounted w :
  Inv w → mounted w = false →
  Forall (λ x, disposed x = true) (insts w) ∧ Forall over (sockets w) ∧ timeouts w = [].
Proof.
  unfold mounted. intros HI Hm%negb_false_iff%forallb_disposed.
  destruct HI as [_ _ Hover Htms|ipre x kpre k Hi _ Hx]; [done|].
  rewrite Hi in Hm. apply Forall_app in Hm as [_ Hm]. inv Hm. congruence.
Qed.

Lemma Inv_mounted w :
  Inv w → mounted w = true →
  ∃ ipre x kpre k, insts w = ipre ++ [x] ∧ disposed x = false ∧ sockets w = kpre ++ [k] ∧
    sk_owner k = length ipre ∧ wsRef w = Some (length kpre) ∧
    phase (length ipre) x (sk_state k) (hook_status (app w)) (timeouts w).
Proof.
  unfold mounted. intros HI Hm%negb_true_iff.
  destruct HI as [Hd _ _ _|ipre x kpre k Hi _ Hx Hks _ _ _ Hk Href Hph]; [|by eauto 20].
  apply forallb_disposed in Hd. congruence.
Qed.

(** ** Properties *)

(** C2: in every reachable state at most one socket is connecting or open: it is
    the one in the ref, and the instance that created it is still mounted.  No
    connection leaks through reconnects or remounts. *)
Theorem at_most_one_connection w s k :
  ws_reachable w → sockets w !! s = Some k → connected k = true →
  wsRef w = Some s ∧ is_disposed (sk_owner k) w = false.
Proof.
  intros HI%reachable_Inv Hs Hc.
  assert (∀ l, Forall over l → l !! s = Some k → False) as Hno.
  { intros l Hl Hk. apply (Forall_lookup_1 _ _ _ _ Hl) in Hk. unfold over in Hk. congruence. }
  destruct HI as [_ _ Hover _|ipre x kpre k' Hi Hd Hx Hks Hown Hover Hmine Hk' Href Hph].
  { by destruct (Hno (sockets w)). }
  rewrite Hks in Hs. apply lookup_snoc_cases in Hs as [[_ Hs]|[-> ->]]; [by destruct (Hno kpre)|].
  split; [done|]. by rewrite Hk', (is_disposed_last ipre x w).
Qed.

(** C10: while an instance is mounted the stream never gets stuck: either its
    socket is not closed yet, or a reconnect timer is armed whose firing opens a
    fresh socket for it, and never both. *)
Theorem stream_never_stuck w :
  ws_reachable w → mounted w = true →
  (∃ s k, wsRef w = Some s ∧ sockets w !! s = Some k ∧ sk_state k ≠ CLOSED ∧ timeouts w = []) ∨
  (∃ t i w', timeouts w = [(t, i)] ∧ is_disposed i w = false ∧
     ws_step (TimerFires t) w = Some w' ∧
     sockets w' = sockets w ++ [ {| sk_owner := i; sk_state := CONNECTING |} ] ∧
     timeouts w' = []).
Proof.
  intros HI%reachable_Inv Hm. apply Inv_mounted in Hm as (ipre & x & kpre & k & Hi & Hx & Hks & Hk & Href & Hph);
    [|done].
  destruct (decide (sk_state k = CLOSED)) as [Hst|Hst].
  - right. rewrite Hst in Hph. destruct Hph as (_ & t & Htms & _).
    exists t, (length ipre). eexists.
    assert (is_disposed (length ipre) w = false) as Hnd by by rewrite (is_disposed_last ipre x w).
    split_and!; [done|done| | |].
    + simpl. rewrite Htms. simpl. rewrite Nat.eqb_refl. simpl. reflexivity.
    + unfold connect. change (is_disposed (length ipre) (set_timeouts [] w))
        with (is_disposed (length ipre) w). by rewrite Hnd.
    + unfold connect. change (is_disposed (length ipre) (set_timeouts [] w))
        with (is_disposed (length ipre) w). by rewrite Hnd.
  - left. exists (length kpre), k. split_and!; try done.
    + by rewrite Hks, list_lookup_middle.
    + by eapply phase_no_timer.
Qed.

(** C28: once unmounted, no reconnect timer is armed, every socket is closing or
    closed, and until the next mount no event opens a socket, arms a timer or
    changes the status. *)
Theorem unmounted_stream_is_quiet w e w' :
  ws_reachable w → mounted w = false → e ≠ Mount → ws_step e w = Some w' →
  Forall over (sockets w) ∧ timeouts w' = [] ∧
  length (sockets w') = length (sockets w) ∧ hook_status (app w') = hook_status (app w).
Proof.
  intros HI%reachable_Inv Hm He Hstep.
  destruct (Inv_unmounted w HI Hm) as (Hd & Hover & Htms). split; [done|].
  destruct e as [| |s|s now d|s failed|t|i|now d]; simpl in Hstep; [done| | | | | | |].
  - case_match eqn:Hl; [|done]. apply last_Some in Hl as [l Hl]. rewrite Hl in Hd.
    apply Forall_app in Hd as [_ Hd]. inv Hd. case_match; [done|congruence].
  - case_match eqn:Hs; [|done]. apply (Forall_lookup_1 _ _ _ _ Hover) in Hs.
    apply over_state in Hs. case_decide; [|done]. destruct Hs; congruence.
  - case_match eqn:Hs; [|done]. case_decide; simplify_eq. destruct d; simpl; by rewrite ?status_ingest.
  - case_match eqn:Hs; [|done]. case_decide; simplify_eq.
    assert (∀ w1 i, insts w1 = insts w → is_disposed i w1 = true) as Hdis
      by (intros w1 i Hi; apply is_disposed_all; by rewrite Hi).
    rewrite on_close_disposed; [|apply Hdis; destruct failed; [|done]; unfold on_error, close_ref; by case_match].
    destruct failed; simpl; [|by rewrite length_insert].
    unfold on_error, close_ref. case_match; simpl; by rewrite ?length_alter, ?length_insert.
  - by rewrite Htms in Hstep.
  - case_match; [|done]. case_match; simplify_eq. by case_match.
  - case_match; simplify_eq. destruct d; simpl; by rewrite ?status_ingest.
Qed.

(** C29: while mounted, the status in the store is the one of the newest socket:
    "connecting" or "open" while it is, "closed" exactly once it is closed. *)
Theorem status_tracks_socket w :
  ws_reachable w → mounted w = true →
  ∃ s k, wsRef w = Some s ∧ sockets w !! s = Some k ∧
    match sk_state k with
    | CONNECTING => hook_status (app w) = connecting
    | OPEN => hook_status (app w) = open
    | CLOSING => hook_status (app w) ≠ closed
    | CLOSED => hook_status (app w) = closed
    end.
Proof.
  intros HI%reachable_Inv Hm. apply Inv_mounted in Hm as (ipre & x & kpre & k & Hi & Hx & Hks & Hk & Href & Hph);
    [|done].
  exists (length kpre), k. split_and!; [done|by rewrite Hks, list_lookup_middle|].
  destruct (sk_state k); naive_solver.
Qed.

(** The greeting of [useClusterWS] never goes to a socket that is still
    connecting: [send] does not throw, also when instances overlap. *)
Theorem greeting_never_throws w : ws_reachable w → send_error w = false.
Proof.
  induction 1 as [|e w w' Hr IH Hs]; [done|].
  erewrite step_send_error; eauto using reachable_Inv.
Qed.

(** When an effect is unmounted while its socket is connecting and mounted
    again, the late failure of the old socket closes the new one: its [onerror]
    closes whatever socket is in the ref. *)
Theorem stale_error_closes_new_socket (s : HState) :
  ∃ w, ws_run [Mount; Unmount; Mount; SocketClosed 0 true] (world_init s) = Some w ∧
    mounted w = true ∧
    sockets w = [ {| sk_owner := 0; sk_state := CLOSED |}; {| sk_owner := 1; sk_state := CLOSING |} ].
Proof. eexists. split; [vm_compute; reflexivity|]. split; vm_compute; reflexivity. Qed.

End Invariant.

(** In [useClusterWS] the late close of an old socket clears the shared
    [wsOpenRef], so the poll timer keeps polling although the new socket is open;
    [useSimulatedMetrics], which asks the socket, does not. *)
Theorem stale_close_keeps_polling :
  observe_poll (@world_init cluster_ws {| w_cluster := ws_cluster_init;
    w_metrics := metrics_init; w_prev := None |}) stale_close_events = Some (Some OPEN, true) ∧
  observe_poll (@world_init simulated_metrics {| h_store := initial_state; h_prev := None |})
    stale_close_events = Some (Some OPEN, false).
Proof. split; vm_compute; reflexivity. Qed.

(** ** Witnesses *)

Lemma ws_run_reachable `{SocketHook} es w w' :
  ws_reachable w → ws_run es w = Some w' → ws_reachable w'.
Proof.
  revert w. induction es as [|e es IH]; intros w Hw Hr; simplify_eq/=; [done|].
  destruct (ws_step e w) as [w1|] eqn:E; simplify_eq/=. eauto using ws_next.
Qed.

Lemma run_from_reachable `{SocketHook} es s : ws_reachable (run_from (world_init s) es).
Proof.
  unfold run_from. destruct (ws_run es _) eqn:E; simpl; [|apply ws_start].
  eauto using ws_run_reachable, ws_start.
Qed.

Lemma enabled_step `{SocketHook} e w :
  enabled e w = true → ws_step e w = Some (default w (ws_step e w)).
Proof. unfold enabled. by destruct (ws_step e w). Qed.

Lemma at_most_one_connection_witness : wsRef sample_connecting = Some 0.
Proof.
  apply (at_most_one_connection sample_connecting 0 {| sk_owner := 0; sk_state := CONNECTING |}).
  - apply run_from_reachable.
  - vm_compute; reflexivity.
  - reflexivity.
Defined.

Lemma stream_never_stuck_witness :
  mounted sample_closed = true ∧
  ((∃ s k, wsRef sample_closed = Some s ∧ sockets sample_closed !! s = Some k ∧
      sk_state k ≠ CLOSED ∧ timeouts sample_closed = []) ∨
   (∃ t i w', timeouts sample_closed = [(t, i)] ∧ is_disposed i sample_closed = false ∧
     ws_step (TimerFires t) sample_closed = Some w' ∧
     sockets w' = sockets sample_closed ++ [ {| sk_owner := i; sk_state := CONNECTING |} ] ∧
     timeouts w' = [])).
Proof.
  split; [vm_compute; reflexivity|].
  apply (stream_never_stuck sample_closed); [apply run_from_reachable|vm_compute; reflexivity].
Defined.

Lemma unmounted_stream_is_quiet_witness :
  timeouts (default sample_unmounted (ws_step (SocketClosed 0 true) sample_unmounted)) = [].
Proof.
  apply (unmounted_stream_is_quiet sample_unmounted (SocketClosed 0 true)).
  - apply run_from_reachable.
  - vm_compute; reflexivity.
  - discriminate.
  - apply enabled_step. vm_compute; reflexivity.
Defined.

Lemma status_tracks_socket_witness :
  ∃ s k, wsRef sample_closed = Some s ∧ sockets sample_closed !! s = Some k ∧
    match sk_state k with
    | CONNECTING => hook_status (app sample_closed) = connecting
    | OPEN => hook_status (app sample_closed) = open
    | CLOSING => hook_status (app sample_closed) ≠ closed
    | CLOSED => hook_status (app sample_closed) = closed
    end.
Proof.
  apply (status_tracks_socket sample_closed); [apply run_from_reachable|vm_compute; reflexivity].
Defined.

Lemma greeting_never_throws_witness : send_error sample_closed = false.
Proof. apply (greeting_never_throws sample_closed). apply run_from_reachable. Defined.
