(* ===== verification/Notifications.v ===== *)
(** * The notification center (App in App.tsx)

    The application watches the stream status and the node list of the store and
    turns their changes into notifications: nodes going down and recovering, the
    leader changing, the quorum being lost and restored. *)

From S2P Require Import Prelude JsNumber JsString Json RuntimeConfig Store.

Local Open Scope list_scope.

(** ** Data *)

Inductive NotificationLevel := info | success | warn | error.

Record NotificationItem := {
  ni_id : jsstring;
  ni_title : jsstring;
  ni_detail : jsstring;
  ni_ts : number;
  ni_level : NotificationLevel;
  ni_read : bool;
}.

(** The arguments of a call to [pushNotification]. *)
Record Notice := { title : jsstring; text : jsstring; level : NotificationLevel }.

(** The component's notification state and refs.  [calls] counts the calls to
    [pushNotification], each of which reads the clock and the random source. *)
Record NotifState := {
  notifications : list NotificationItem;
  notificationsOpen : bool;
  nodesInitialized : bool;
  prevWsStatus : WsStatus;
  prevNodes : list NodeMeta;
  calls : nat;
}.

(** ** Notices *)

Definition online_notice : Notice := {|
  title := «"Notification Center Online"»;
  text := «"Watching connection state, node health, and quorum readiness."»;
  level := info |}.

Definition status_notice (w : WsStatus) : Notice :=
  match w with
  | open => {| title := «"Gateway Connection Restored"»;
               text := «"Live event stream is active."»; level := success |}
  | connecting => {| title := «"Gateway Reconnecting"»;
                     text := «"Attempting to restore stream from backend."»; level := warn |}
  | closed => {| title := «"Gateway Connection Closed"»;
                 text := «"Live stream is offline. Metrics will use fallback behavior."»;
                 level := error |}
  end.

(** [new Map(prevNodes.map((node) => [node.node_id, node])).get(id)]: the last
    entry of a key wins. *)
Definition prevById (prev : list NodeMeta) (id : Z) : option NodeMeta :=
  array_find (λ n, (node_id n =? id)%Z) (rev prev).

Definition address (n : NodeMeta) : jsstring := host n ++ «":"» ++ show_Z (port n).

Definition recovered_notice (n : NodeMeta) : Notice := {|
  title := «"Node "» ++ show_Z (node_id n) ++ «" Recovered"»;
  text := address n ++ «" is healthy again."»; level := success |}.
Definition unreachable_notice (n : NodeMeta) : Notice := {|
  title := «"Node "» ++ show_Z (node_id n) ++ «" Unreachable"»;
  text := address n ++ «" stopped responding."»; level := error |}.

(** One iteration of [nodes.forEach]. *)
Definition node_notice (prev : list NodeMeta) (n : NodeMeta) : option Notice :=
  match prevById prev (node_id n) with
  | None => None
  | Some old =>
      if Bool.eqb (healthy old) (healthy n) then None
      else if healthy n then Some (recovered_notice n) else Some (unreachable_notice n)
  end.

(** [nodes.find((node) => node.is_leader && node.healthy)?.node_id] *)
Definition leader_id (ns : list NodeMeta) : option Z :=
  node_id <$> array_find (λ n, is_leader n && healthy n) ns.

Definition leader_updated (id : Z) : Notice := {|
  title := «"Leader Updated"»;
  text := «"Node "» ++ show_Z id ++ «" is now the active leader."»; level := info |}.
Definition leader_unavailable : Notice := {|
  title := «"Leader Unavailable"»; text := «"No healthy leader currently detected."»;
  level := warn |}.

(** [if (currentLeader)] is a truthiness test: id 0 takes the else branch. *)
Definition leader_notice (prev cur : list NodeMeta) : option Notice :=
  let previousLeader := leader_id prev in
  let currentLeader := leader_id cur in
  if decide (previousLeader = currentLeader) then None
  else match currentLeader with
       | Some id => if (id =? 0)%Z then Some leader_unavailable else Some (leader_updated id)
       | None => Some leader_unavailable
       end.

(** [Math.floor(n / 2) + 1] *)
Definition quorum (n : nat) : nat := n / 2 + 1.

Definition healthy_count (ns : list NodeMeta) : nat := length (array_filter healthy ns).

Definition ratio (ns : list NodeMeta) : jsstring :=
  show_nat (healthy_count ns) ++ «"/"» ++ show_nat (length ns).

Definition quorum_restored (cur : list NodeMeta) : Notice := {|
  title := «"Quorum Restored"»;
  text := «"Cluster has "» ++ ratio cur ++ «" healthy replicas."»; level := success |}.
Definition quorum_lost (cur : list NodeMeta) : Notice := {|
  title := «"Quorum Lost"»;
  text := «"Only "» ++ ratio cur ++ «" replicas are healthy. Writes may stall."»;
  level := error |}.

Definition quorum_notice (prev cur : list NodeMeta) : option Notice :=
  let q := quorum (length cur) in
  let previousQuorum := (q <=? healthy_count prev)%nat in
  let currentQuorum := (q <=? healthy_count cur)%nat in
  if Bool.eqb previousQuorum currentQuorum then None
  else if currentQuorum then Some (quorum_restored cur) else Some (quorum_lost cur).

(** The notices of a change of the node list, in the order they are pushed. *)
Definition node_change_notices (prev cur : list NodeMeta) : list Notice :=
  omap (node_notice prev) cur ++ option_list (leader_notice prev cur)
  ++ option_list (quorum_notice prev cur).

(** ** The component's functions and effects *)

Section Center.

(** The id and the time stamp the [i]-th call obtains from
    [Date.now()] and [Math.random()]. *)
Context (stamp : nat → jsstring * number).

Definition set_notifications (l : list NotificationItem) (s : NotifState) : NotifState := {|
  notifications := l; notificationsOpen := notificationsOpen s;
  nodesInitialized := nodesInitialized s; prevWsStatus := prevWsStatus s;
  prevNodes := prevNodes s; calls := calls s |}.

Definition pushNotification (n : Notice) (s : NotifState) : NotifState :=
  let item := {| ni_id := fst (stamp (calls s)); ni_title := title n; ni_detail := text n;
                 ni_ts := snd (stamp (calls s)); ni_level := level n; ni_read := false |} in
  {| notifications := slice_first 60 (item :: notifications s);
     notificationsOpen := notificationsOpen s; nodesInitialized := nodesInitialized s;
     prevWsStatus := prevWsStatus s; prevNodes := prevNodes s; calls := S (calls s) |}.

Definition push_all (l : list Notice) (s : NotifState) : NotifState :=
  foldl (λ s n, pushNotification n s) s l.

Definition unreadCount (s : NotifState) : nat :=
  foldl (λ count item, if ni_read item then count else S count) 0 (notifications s).

(** [unreadCount > 9 ? "9+" : unreadCount], shown when positive. *)
Definition badge (s : NotifState) : option jsstring :=
  let n := unreadCount s in
  if (n =? 0)%nat then None else if (9 <? n)%nat then Some «"9+"» else Some (show_nat n).

Definition mount_effect (s : NotifState) : NotifState := pushNotification online_notice s.

Definition status_effect (w : WsStatus) (s : NotifState) : NotifState :=
  let s1 := if decide (prevWsStatus s = w) then s else pushNotification (status_notice w) s in
  {| notifications := notifications s1; notificationsOpen := notificationsOpen s1;
     nodesInitialized := nodesInitialized s1; prevWsStatus := w;
     prevNodes := prevNodes s1; calls := calls s1 |}.

Definition nodes_effect (ns : list NodeMeta) (s : NotifState) : NotifState :=
  let s1 := if nodesInitialized s then push_all (node_change_notices (prevNodes s) ns) s else s in
  {| notifications := notifications s1; notificationsOpen := notificationsOpen s1;
     nodesInitialized := true; prevWsStatus := prevWsStatus s1;
     prevNodes := ns; calls := calls s1 |}.

Definition mark_read (i : NotificationItem) : NotificationItem :=
  if ni_read i then i
  else {| ni_id := ni_id i; ni_title := ni_title i; ni_detail := ni_detail i;
          ni_ts := ni_ts i; ni_level := ni_level i; ni_read := true |}.

(** [setNotificationsOpen(b)] and, when the value changes, the effect that marks
    everything read. *)
Definition set_open (b : bool) (s : NotifState) : NotifState :=
  let s1 := {| notifications := notifications s; notificationsOpen := b;
               nodesInitialized := nodesInitialized s; prevWsStatus := prevWsStatus s;
               prevNodes := prevNodes s; calls := calls s |} in
  if Bool.eqb (notificationsOpen s) b then s1
  else if b then set_notifications (mark_read <$> notifications s) s1 else s1.

(** The bell button. *)
Definition toggle_open (s : NotifState) : NotifState := set_open (negb (notificationsOpen s)) s.

(** The clear button. *)
Definition clear_all (s : NotifState) : NotifState := set_notifications [] s.

Definition notif_init (w : WsStatus) (ns : list NodeMeta) : NotifState := {|
  notifications := []; notificationsOpen := false; nodesInitialized := false;
  prevWsStatus := w; prevNodes := ns; calls := 0 |}.

Inductive notif_event :=
  | NMount
  | NStatus (w : WsStatus)
  | NNodes (ns : list NodeMeta)
  | NToggle
  | NClose
  | NClear.

Definition notif_step (e : notif_event) (s : NotifState) : NotifState :=
  match e with
  | NMount => mount_effect s
  | NStatus w => status_effect w s
  | NNodes ns => nodes_effect ns s
  | NToggle => toggle_open s
  | NClose => set_open false s
  | NClear => clear_all s
  end.

Definition notif_run (es : list notif_event) (s : NotifState) : NotifState :=
  foldl (λ s e, notif_step e s) s es.

(** What a reader of the feed sees of an item. *)
Definition as_notice (i : NotificationItem) : Notice :=
  {| title := ni_title i; text := ni_detail i; level := ni_level i |}.

End Center.

(** ** Lemmas *)

(** The map built from a list without repeated ids returns its only entry. *)
Lemma prevById_spec prev id o :
  NoDup (node_id <$> prev) → o ∈ prev → node_id o = id → prevById prev id = Some o.
Proof.
  intros Hnd Ho <-. unfold prevById.
  destruct (array_find _ (rev prev)) as [o'|] eqn:E.
  - apply array_find_Some in E as [Hin Heq%Z.eqb_eq].
    apply list_elem_of_In, in_rev, list_elem_of_In in Hin. f_equal.
    apply list_elem_of_lookup in Ho as [i Hi]. apply list_elem_of_lookup in Hin as [j Hj].
    assert (j = i) as ->; [|congruence].
    eapply (NoDup_lookup (node_id <$> prev)); [done| |];
      rewrite list_lookup_fmap; [by rewrite Hj|by rewrite Hi; simpl; rewrite Heq].
  - eapply array_find_None in E; [by rewrite Z.eqb_refl in E|].
    by apply list_elem_of_In, in_rev, list_elem_of_In; rewrite rev_involutive.
Qed.

Lemma prevById_None prev id :
  prevById prev id = None ↔ ∀ o, o ∈ prev → node_id o ≠ id.
Proof.
  unfold prevById. rewrite array_find_None. setoid_rewrite Z.eqb_neq.
  split; intros H o Ho; apply H.
  - by apply list_elem_of_In, in_rev; rewrite rev_involutive; apply list_elem_of_In.
  - by apply list_elem_of_In, in_rev, list_elem_of_In.
Qed.

(** [floor(n / 2) + 1 <= h] says that [h] is a strict majority of [n]. *)
Lemma quorum_majority n h : (quorum n <=? h)%nat = (n <? 2 * h)%nat.
Proof.
  unfold quorum. pose proof (Nat.div_mod_eq n 2). pose proof (Nat.mod_upper_bound n 2). lia.
Qed.

Lemma unread_fold l c :
  foldl (λ count item, if ni_read item then count else S count) c l =
  c + length (array_filter (λ i, negb (ni_read i)) l).
Proof.
  revert c. induction l as [|i l IH]; intros c; simpl; [lia|].
  destruct (ni_read i); simpl; rewrite IH; simpl; lia.
Qed.

Lemma unreadCount_spec s :
  unreadCount s = length (array_filter (λ i, negb (ni_read i)) (notifications s)).
Proof. unfold unreadCount. by rewrite unread_fold. Qed.

Lemma mark_read_all l : array_filter (λ i, negb (ni_read i)) (mark_read <$> l) = [].
Proof.
  induction l as [|i l IH]; [done|]. rewrite fmap_cons. cbn [array_filter].
  unfold mark_read at 1. destruct (ni_read i) eqn:E; simpl; by rewrite ?E.
Qed.


Section Lemmas.

Context (stamp : nat → jsstring * number).
Implicit Types s : NotifState.

Lemma pushNotification_feed n s :
  as_notice <$> notifications (pushNotification stamp n s) =
  take 60 (n :: (as_notice <$> notifications s)).
Proof. cbn [notifications pushNotification]. unfold slice_first. rewrite fmap_take. by destruct n. Qed.

Lemma pushNotification_length n s : length (notifications (pushNotification stamp n s)) ≤ 60.
Proof. cbn [notifications pushNotification]. rewrite slice_first_length. lia. Qed.

Lemma push_all_length l s :
  length (notifications s) ≤ 60 → length (notifications (push_all stamp l s)) ≤ 60.
Proof.
  revert s. induction l as [|n l IH]; intros s Hs; [done|].
  apply IH, pushNotification_length.
Qed.

Lemma push_all_feed l s :
  length (notifications s) ≤ 60 →
  as_notice <$> notifications (push_all stamp l s) =
  take 60 (rev l ++ (as_notice <$> notifications s)).
Proof.
  revert s. induction l as [|n l IH]; intros s Hs.
  { simpl. by rewrite take_ge by (by rewrite length_fmap). }
  change (push_all stamp (n :: l) s) with (push_all stamp l (pushNotification stamp n s)).
  rewrite IH, pushNotification_feed, take_app_take by apply pushNotification_length.
  cbn [rev]. by rewrite <-app_assoc.
Qed.

Lemma notif_step_length e s :
  length (notifications s) ≤ 60 → length (notifications (notif_step stamp e s)) ≤ 60.
Proof.
  intros Hs. destruct e as [|w|ns| | |]; cbn [notif_step].
  - apply pushNotification_length.
  - unfold status_effect. case_decide; [done|]. apply pushNotification_length.
  - unfold nodes_effect. destruct (nodesInitialized s); [by apply push_all_length|done].
  - unfold toggle_open, set_open. repeat case_match; cbn; by rewrite ?length_fmap.
  - unfold set_open. repeat case_match; done.
  - cbn. lia.
Qed.

(** ** Properties *)

(** The feed never exceeds 60 entries, whatever happens. *)
Theorem feed_bounded es w ns :
  length (notifications (notif_run stamp es (notif_init w ns))) ≤ 60.
Proof.
  assert (length (notifications (notif_init w ns)) ≤ 60) as H by (cbn; lia).
  revert H. generalize (notif_init w ns). induction es as [|e es IH]; intros s Hs; [done|].
  apply IH. by apply notif_step_length.
Qed.

(** Opening the panel marks every entry read and clears the badge without
    changing the feed; an entry that arrives while it is open counts as unread. *)
Theorem opening_clears_badge s n :
  notificationsOpen s = false →
  unreadCount (toggle_open s) = 0 ∧ badge (toggle_open s) = None ∧
  as_notice <$> notifications (toggle_open s) = as_notice <$> notifications s ∧
  unreadCount (pushNotification stamp n (toggle_open s)) = 1.
Proof.
  intros Hc. unfold toggle_open, set_open. rewrite Hc. cbn [negb Bool.eqb].
  assert (∀ s', notifications s' = mark_read <$> notifications s → unreadCount s' = 0) as Hz.
  { intros s' Hs'. by rewrite unreadCount_spec, Hs', mark_read_all. }
  split_and!.
  - by apply Hz.
  - unfold badge. by rewrite Hz.
  - cbn. rewrite <-list_fmap_compose. apply list_fmap_ext. intros i x _. simpl.
    unfold mark_read. by destruct (ni_read x).
  - rewrite unreadCount_spec. cbn [notifications pushNotification set_notifications].
    unfold slice_first. cbn [take array_filter ni_read negb length]. f_equal.
    rewrite <-fmap_take. by rewrite mark_read_all.
Qed.

End Lemmas.

(** An unchanged node list (with distinct ids) raises no notification. *)
Lemma unchanged_nodes_are_silent ns :
  NoDup (node_id <$> ns) → node_change_notices ns ns = [].
Proof.
  intros Hnd. unfold node_change_notices, leader_notice, quorum_notice.
  rewrite decide_True, Bool.eqb_reflx by done. rewrite !app_nil_r.
  assert (∀ l, (∀ n, n ∈ l → n ∈ ns) → omap (node_notice ns) l = []) as H; [|by apply H].
  induction l as [|n l IH]; intros Hl; [done|]. simpl. unfold node_notice at 1.
  erewrite prevById_spec by (done || (apply Hl; left)). rewrite Bool.eqb_reflx.
  apply IH. intros m Hm. apply Hl. by right.
Qed.

(** C26: a node is reported exactly when the previous list, in which no id appears
    twice, knew it with the other health: as recovered when it is healthy now, as
    unreachable when it is not; new nodes are not reported. *)
Theorem node_notice_exact prev n :
  NoDup (node_id <$> prev) →
  (node_notice prev n = Some (recovered_notice n) ↔
     healthy n = true ∧ ∃ o, o ∈ prev ∧ node_id o = node_id n ∧ healthy o = false) ∧
  (node_notice prev n = Some (unreachable_notice n) ↔
     healthy n = false ∧ ∃ o, o ∈ prev ∧ node_id o = node_id n ∧ healthy o = true).
Proof.
  intros Hnd.
  assert (recovered_notice n ≠ unreachable_notice n) as Hne by (intros [=]; done).
  assert (∀ b, (∃ o, o ∈ prev ∧ node_id o = node_id n ∧ healthy o = b) →
    healthy <$> prevById prev (node_id n) = Some b) as Hfind.
  { intros b (o & Ho & Hid & <-). by erewrite prevById_spec. }
  unfold node_notice. destruct (prevById prev (node_id n)) as [o|] eqn:E.
  - assert (o ∈ prev ∧ node_id o = node_id n) as [Ho Hid].
    { unfold prevById in E. apply array_find_Some in E as [Hin Heq%Z.eqb_eq].
      split; [by apply list_elem_of_In, in_rev, list_elem_of_In|done]. }
    simpl in Hfind.
    destruct (healthy o) eqn:Eo, (healthy n) eqn:En; simpl; split; split; intros Hx;
      try (destruct Hx as [? Hex]; apply Hfind in Hex); naive_solver.
  - assert (∀ b, ¬ ∃ o, o ∈ prev ∧ node_id o = node_id n ∧ healthy o = b) as Hno.
    { intros b Hb. by apply Hfind in Hb. }
    naive_solver.
Qed.

(** C27: for a cluster of fixed size, the quorum notices report exactly the
    crossings of the strict majority. *)
Theorem quorum_notice_is_majority prev cur :
  length prev = length cur →
  (quorum_notice prev cur = Some (quorum_lost cur) ↔
     length prev < 2 * healthy_count prev ∧ 2 * healthy_count cur ≤ length cur) ∧
  (quorum_notice prev cur = Some (quorum_restored cur) ↔
     2 * healthy_count prev ≤ length prev ∧ length cur < 2 * healthy_count cur).
Proof.
  intros Hlen.
  assert (quorum_lost cur ≠ quorum_restored cur) as Hne by (intros [=]; done).
  unfold quorum_notice. rewrite !quorum_majority, Hlen.
  destruct (Nat.ltb_spec (length cur) (2 * healthy_count prev)),
    (Nat.ltb_spec (length cur) (2 * healthy_count cur)); simpl;
    split; split; intros Hx; try lia; naive_solver.
Qed.

(** A leader with id 0 is announced as no leader at all: the id is tested
    for truthiness. *)
Theorem leader_zero_reported_unavailable prev cur :
  leader_id cur = Some 0%Z → leader_id prev ≠ Some 0%Z →
  leader_notice prev cur = Some leader_unavailable.
Proof.
  intros Hc Hp. unfold leader_notice. rewrite Hc. by rewrite decide_False.
Qed.


(** Killing the leader of the initial cluster reports the node and the lost
    leader; killing a second node reports that node and the lost quorum. *)
Theorem kills_are_reported :
  let s1 := killNode_optimistic 1 initial_state in
  let s2 := killNode_optimistic 2 s1 in
  node_change_notices (nodes initial_state) (nodes s1) =
    [unreachable_notice (initial_node 1 «"vaultkv-node1"» 7379 true 120); leader_unavailable] ∧
  node_change_notices (nodes s1) (nodes s2) =
    [unreachable_notice (initial_node 2 «"vaultkv-node2"» 7380 false 145); quorum_lost (nodes s2)].
Proof. split; vm_compute; reflexivity. Qed.

(** ** Witnesses *)

Definition sample_stamp (i : nat) : jsstring * number := (show_nat i, n_of_Z (Z.of_nat i)).
Definition sample_notif : NotifState :=
  nodes_effect sample_stamp (nodes initial_state) (notif_init connecting (nodes initial_state)).

Lemma node_notice_exact_witness :
  node_notice (nodes initial_state) (mark_down (initial_node 2 [] 0 false 0)) =
  Some (unreachable_notice (mark_down (initial_node 2 [] 0 false 0))).
Proof.
  apply (node_notice_exact (nodes initial_state) (mark_down (initial_node 2 [] 0 false 0))).
  - apply (bool_decide_unpack _). vm_compute. exact I.
  - split; [reflexivity|]. eexists. split; [right; left|split; reflexivity].
Defined.

Lemma quorum_notice_is_majority_witness :
  let s2 := killNode_optimistic 2 (killNode_optimistic 1 initial_state) in
  quorum_notice (nodes initial_state) (nodes s2) = Some (quorum_lost (nodes s2)).
Proof.
  intros s2. apply (quorum_notice_is_majority (nodes initial_state) (nodes s2));
    [reflexivity|vm_compute; lia].
Defined.

Lemma opening_clears_badge_witness :
  unreadCount (toggle_open (pushNotification sample_stamp online_notice sample_notif)) = 0.
Proof.
  apply (opening_clears_badge sample_stamp
    (pushNotification sample_stamp online_notice sample_notif) online_notice).
  reflexivity.
Defined.

Lemma leader_zero_reported_unavailable_witness :
  leader_notice (nodes initial_state) [initial_node 0 [] 7379 true 120] = Some leader_unavailable.
Proof.
  apply (leader_zero_reported_unavailable (nodes initial_state) [initial_node 0 [] 7379 true 120]);
    [reflexivity|discriminate].
Defined.
