(* ===== verification/Palette.v ===== *)
(** * Navigation and the command palette (App in App.tsx)

    The tab bar, the search overlay with its keyboard navigation, the recent
    searches kept in the browser's local storage, and the global shortcuts. *)

From S2P Require Import Prelude JsNumber JsString Json RuntimeConfig Store Notifications.

Local Open Scope list_scope.

(** ** Data *)

Inductive TabId := dashboard | explorer | raft | architecture.

#[export] Instance TabId_eq_dec : EqDecision TabId.
Proof. solve_decision. Defined.

(** An entry of the tab bar and of the recent searches. *)
Record Entry := { e_id : TabId; e_label : jsstring }.

Record SearchItem := { si_id : TabId; si_label : jsstring; si_subtitle : jsstring;
                       si_category : jsstring }.

#[export] Instance SearchItem_eq_dec : EqDecision SearchItem.
Proof. solve_decision. Defined.

(** The local-storage key [observe_recent_searches]: absent (or empty), a text
    [JSON.parse] rejects, JSON that is not an array, or an array of entries. *)
Inductive stored := NotStored | StoredGarbage | StoredOther | StoredEntries (l : list Entry).

Record PaletteState := {
  isLanding : bool;
  tab : TabId;
  sidebarOpen : bool;
  searchOpen : bool;
  searchQuery : jsstring;
  searchActiveIndex : nat;
  recentSearches : list Entry;
  storage : stored;
}.

Record KeyEvent := { metaKey : bool; ctrlKey : bool; key : jsstring }.

(** ** Constants of the component *)

Definition tabs : list Entry := [
  {| e_id := dashboard; e_label := «"Overview"» |};
  {| e_id := explorer; e_label := «"Explorer"» |};
  {| e_id := raft; e_label := «"Consensus"» |};
  {| e_id := architecture; e_label := «"Architecture"» |} ].

Definition subtitle (t : TabId) : jsstring :=
  match t with
  | dashboard => «"Live cluster telemetry and throughput"»
  | explorer => «"Run GET / SET / DEL / SCAN commands"»
  | raft => «"Node failover and leader elections"»
  | architecture => «"Visual architecture and trace runner"»
  end.

Definition searchItems : list SearchItem :=
  (λ e, {| si_id := e_id e; si_label := e_label e; si_subtitle := subtitle (e_id e);
           si_category := «"Navigation"» |}) <$> tabs.

(** The initialiser of [recentSearches]. *)
Definition initial_recent (s : stored) : list Entry :=
  match s with
  | NotStored => [ {| e_id := dashboard; e_label := «"Overview"» |};
                   {| e_id := explorer; e_label := «"Explorer"» |};
                   {| e_id := raft; e_label := «"Consensus"» |} ]
  | StoredGarbage => []
  | StoredOther => []
  | StoredEntries l => slice_first 6 l
  end.

Definition palette_init (s : stored) : PaletteState := {|
  isLanding := true; tab := dashboard; sidebarOpen := true; searchOpen := false;
  searchQuery := []; searchActiveIndex := 0; recentSearches := initial_recent s; storage := s |}.

Section Palette.

Context `{Platform}.

Definition filteredSearchItems (query : jsstring) : list SearchItem :=
  let q := toLowerCase (trim query) in
  if jeqb q [] then []
  else array_filter (λ item, includes (toLowerCase (si_label item)) q
                             || includes (toLowerCase (si_subtitle item)) q) searchItems.

(** ** Functions of the component *)

Definition set_search (o : bool) (q : jsstring) (i : nat) (s : PaletteState) : PaletteState := {|
  isLanding := isLanding s; tab := tab s; sidebarOpen := sidebarOpen s; searchOpen := o;
  searchQuery := q; searchActiveIndex := i; recentSearches := recentSearches s;
  storage := storage s |}.

Definition closeSearch (s : PaletteState) : PaletteState := set_search false [] 0 s.

Definition selectSearchItem (id : TabId) (label : jsstring) (s : PaletteState) : PaletteState :=
  let updated := slice_first 6 ({| e_id := id; e_label := label |}
    :: array_filter (λ x, negb (bool_decide (e_id x = id))) (recentSearches s)) in
  closeSearch {| isLanding := isLanding s; tab := id; sidebarOpen := sidebarOpen s;
    searchOpen := searchOpen s; searchQuery := searchQuery s;
    searchActiveIndex := searchActiveIndex s; recentSearches := updated;
    storage := StoredEntries updated |}.

(** [onChange] of the search field. *)
Definition search_change (q : jsstring) (s : PaletteState) : PaletteState :=
  set_search (searchOpen s) q 0 s.

Definition set_index (i : nat) (s : PaletteState) : PaletteState :=
  set_search (searchOpen s) (searchQuery s) i s.

(** [onKeyDown] of the search field. *)
Definition search_keydown (k : jsstring) (s : PaletteState) : PaletteState :=
  let items := filteredSearchItems (searchQuery s) in
  let n := length items in
  if jeqb k «"ArrowDown"» then
    if (0 <? n)%nat then set_index (S (searchActiveIndex s) mod n) s else s
  else if jeqb k «"ArrowUp"» then
    if (0 <? n)%nat then set_index ((searchActiveIndex s + n - 1) mod n) s else s
  else if jeqb k «"Enter"» then
    match items, jeqb (trim (searchQuery s)) [], recentSearches s with
    | first :: _, false, _ =>
        let target := nullish (items !! searchActiveIndex s) first in
        selectSearchItem (si_id target) (si_label target) s
    | _, true, e :: _ => selectSearchItem (e_id e) (e_label e) s
    | _, _, _ => s
    end
  else if jeqb k «"Escape"» then closeSearch s
  else s.

(** The document-level shortcut handler, on the palette and the notification
    panel. *)
Definition handle (e : KeyEvent) (s : PaletteState) (n : NotifState) : PaletteState * NotifState :=
  let '(s1, n1) :=
    if (metaKey e || ctrlKey e) && jeqb (toLowerCase (key e)) «"k"» then
      let next := negb (searchOpen s) in
      (if next then set_search true (searchQuery s) (searchActiveIndex s) s
       else set_search false [] 0 s, set_open false n)
    else (s, n) in
  if jeqb (key e) «"Escape"» then (closeSearch s1, set_open false n1) else (s1, n1).

Definition set_tab (t : TabId) (s : PaletteState) : PaletteState := {|
  isLanding := isLanding s; tab := t; sidebarOpen := sidebarOpen s; searchOpen := searchOpen s;
  searchQuery := searchQuery s; searchActiveIndex := searchActiveIndex s;
  recentSearches := recentSearches s; storage := storage s |}.

Definition toggle_sidebar (s : PaletteState) : PaletteState := {|
  isLanding := isLanding s; tab := tab s; sidebarOpen := negb (sidebarOpen s);
  searchOpen := searchOpen s; searchQuery := searchQuery s;
  searchActiveIndex := searchActiveIndex s; recentSearches := recentSearches s;
  storage := storage s |}.

Definition leave_landing (s : PaletteState) : PaletteState := {|
  isLanding := false; tab := tab s; sidebarOpen := sidebarOpen s; searchOpen := searchOpen s;
  searchQuery := searchQuery s; searchActiveIndex := searchActiveIndex s;
  recentSearches := recentSearches s; storage := storage s |}.

(** ** Events *)

Inductive palette_event :=
  | PLeaveLanding
  | PSetTab (t : TabId)
  | PToggleSidebar
  | POpenSearch
  | PBackdrop
  | PChange (q : jsstring)
  | PKey (k : jsstring)
  | PHover (i : nat)
  | PPickResult (i : nat)
  | PPickRecent (i : nat)
  | PJump (i : nat)
  | PShortcut (e : KeyEvent) (n : NotifState).

(** Hovering and clicking act on entries that are on the screen: [None] for an
    entry that is not there. *)
Definition palette_step (e : palette_event) (s : PaletteState) : option PaletteState :=
  match e with
  | PLeaveLanding => Some (leave_landing s)
  | PSetTab t => Some (set_tab t s)
  | PToggleSidebar => Some (toggle_sidebar s)
  | POpenSearch => Some (set_search true (searchQuery s) (searchActiveIndex s) s)
  | PBackdrop => Some (closeSearch s)
  | PChange q => Some (search_change q s)
  | PKey k => Some (search_keydown k s)
  | PHover i =>
      if (i <? length (filteredSearchItems (searchQuery s)))%nat then Some (set_index i s) else None
  | PPickResult i =>
      it ← filteredSearchItems (searchQuery s) !! i;
      Some (selectSearchItem (si_id it) (si_label it) s)
  | PPickRecent i => it ← recentSearches s !! i; Some (selectSearchItem (e_id it) (e_label it) s)
  | PJump i => it ← searchItems !! i; Some (selectSearchItem (si_id it) (si_label it) s)
  | PShortcut k n => Some (fst (handle k s n))
  end.

Inductive palette_reachable (s0 : stored) : PaletteState → Prop :=
  | palette_start : palette_reachable s0 (palette_init s0)
  | palette_next e s s' :
      palette_reachable s0 s → palette_step e s = Some s' → palette_reachable s0 s'.

(** The highlighted result exists whenever there are results. *)
Definition index_ok (s : PaletteState) : Prop :=
  searchActiveIndex s < max 1 (length (filteredSearchItems (searchQuery s))).

(** A reload would show the same recent searches, and there are at most six. *)
Definition recents_saved (s : PaletteState) : Prop :=
  initial_recent (storage s) = recentSearches s ∧ length (recentSearches s) ≤ 6.

Definition recents_distinct (s : PaletteState) : Prop := NoDup (e_id <$> recentSearches s).

(** Invariants that only a selection can affect. *)
Definition select_invariant (P : list Entry → stored → Prop) : Prop :=
  ∀ id label s, P (recentSearches s) (storage s) →
    P (recentSearches (selectSearchItem id label s)) (storage (selectSearchItem id label s)).

(** ** Lemmas *)

Lemma filtered_empty : filteredSearchItems [] = [].
Proof. done. Qed.

Lemma filtered_nonempty_query q it l :
  filteredSearchItems q = it :: l → jeqb (trim q) [] = false.
Proof.
  unfold filteredSearchItems, jeqb. intros Hf. apply bool_decide_eq_false. intros Ht.
  by rewrite Ht in Hf.
Qed.

(** A step that leaves query and index alone, resets both, or moves the index
    within the results keeps the highlight valid. *)
Lemma index_ok_reset o s : index_ok (set_search o [] 0 s).
Proof. unfold index_ok. cbn [searchActiveIndex searchQuery set_search]. rewrite filtered_empty. simpl. lia. Qed.

Lemma index_ok_select id label s : index_ok (selectSearchItem id label s).
Proof. apply index_ok_reset. Qed.

Lemma index_ok_zero q s : index_ok (search_change q s).
Proof. unfold index_ok. cbn [searchActiveIndex searchQuery set_search search_change set_index]. lia. Qed.

Lemma index_ok_set i s :
  i < length (filteredSearchItems (searchQuery s)) → index_ok (set_index i s).
Proof. unfold index_ok. cbn [searchActiveIndex searchQuery set_search search_change set_index]. lia. Qed.

Lemma search_keydown_index k s : index_ok s → index_ok (search_keydown k s).
Proof.
  intros Hs. unfold search_keydown.
  set (items := filteredSearchItems (searchQuery s)).
  destruct (jeqb k _).
  { destruct (Nat.ltb_spec 0 (length items)); [|done].
    apply index_ok_set. subst items. apply Nat.mod_upper_bound. lia. }
  destruct (jeqb k _).
  { destruct (Nat.ltb_spec 0 (length items)); [|done].
    apply index_ok_set. subst items. apply Nat.mod_upper_bound. lia. }
  destruct (jeqb k _).
  { repeat case_match; auto using index_ok_select. }
  destruct (jeqb k _); [apply index_ok_reset|done].
Qed.

Lemma handle_index e s n : index_ok s → index_ok (fst (handle e s n)).
Proof.
  intros Hs. unfold handle. repeat case_match; simplify_eq/=; try apply index_ok_reset; done.
Qed.

Lemma palette_step_index e s s' : index_ok s → palette_step e s = Some s' → index_ok s'.
Proof.
  intros Hs. destruct e; simpl; intros Hstep; simplify_eq; try done;
    auto using index_ok_reset, index_ok_zero, search_keydown_index, handle_index.
  - apply index_ok_reset.
  - case_match eqn:E; simplify_eq. apply index_ok_set. by apply Nat.ltb_lt.
  - destruct (filteredSearchItems _ !! i); simplify_eq/=. apply index_ok_select.
  - destruct (recentSearches _ !! i); simplify_eq/=. apply index_ok_select.
  - destruct (searchItems !! i); simplify_eq/=. apply index_ok_select.
Qed.

Lemma reachable_index s0 s : palette_reachable s0 s → index_ok s.
Proof.
  induction 1 as [|e s s' _ IH Hs]; [apply index_ok_zero with (s := palette_init s0) (q := [])|].
  by eapply palette_step_index.
Qed.

(** ** Recent searches *)

Lemma search_keydown_recents P k s :
  select_invariant P → P (recentSearches s) (storage s) →
  P (recentSearches (search_keydown k s)) (storage (search_keydown k s)).
Proof.
  intros HP Hs. unfold search_keydown. repeat case_match;
    first [exact Hs | apply HP; congruence | congruence].
Qed.

Lemma handle_recents (P : list Entry → stored → Prop) e s n :
  P (recentSearches s) (storage s) →
  P (recentSearches (fst (handle e s n))) (storage (fst (handle e s n))).
Proof. intros Hs. unfold handle. repeat case_match; simplify_eq/=; exact Hs. Qed.

Lemma palette_step_recents P e s s' :
  select_invariant P → P (recentSearches s) (storage s) → palette_step e s = Some s' →
  P (recentSearches s') (storage s').
Proof.
  intros HP Hs Hstep. destruct e; cbn [palette_step] in Hstep; repeat case_match; simplify_option_eq;
    first [exact Hs | by apply HP | by apply search_keydown_recents | by apply handle_recents].
Qed.

Lemma reachable_recents P s0 s :
  select_invariant P → P (initial_recent s0) s0 → palette_reachable s0 s →
  P (recentSearches s) (storage s).
Proof. intros HP H0. induction 1; [done|]. by eapply palette_step_recents. Qed.

Lemma select_saved :
  select_invariant (λ r st, initial_recent st = r ∧ length r ≤ 6).
Proof.
  intros id label s _. cbn [recentSearches storage selectSearchItem closeSearch set_search].
  cbn [initial_recent]. split; [|rewrite slice_first_length; lia].
  unfold slice_first. by rewrite take_take.
Qed.

Lemma filter_ids_NoDup id l :
  NoDup (e_id <$> l) →
  NoDup (e_id <$> array_filter (λ x, negb (bool_decide (e_id x = id))) l).
Proof.
  induction l as [|e l IH]; [done|]. rewrite fmap_cons. intros [Hn Hl]%NoDup_cons.
  cbn [array_filter]. destruct (negb _); [|auto]. rewrite fmap_cons. constructor; [|auto].
  intros (x & Hx & [_ Hin]%array_filter_In)%list_elem_of_fmap.
  apply Hn. apply list_elem_of_fmap. eauto.
Qed.

Lemma select_distinct : select_invariant (λ r _, NoDup (e_id <$> r)).
Proof.
  intros id label s Hs. cbn [recentSearches selectSearchItem closeSearch set_search].
  unfold slice_first. rewrite fmap_take. eapply sublist_NoDup; [|apply sublist_take].
  rewrite fmap_cons. constructor.
  - intros (x & Hx & [Hne _]%array_filter_In)%list_elem_of_fmap.
    simpl in Hx. by rewrite bool_decide_eq_true_2 in Hne.
  - by apply filter_ids_NoDup.
Qed.

Lemma set_open_closes m : notificationsOpen (set_open false m) = false.
Proof. unfold set_open. by destruct (notificationsOpen m). Qed.

Lemma set_open_keeps m : notifications (set_open false m) = notifications m.
Proof. unfold set_open. by destruct (notificationsOpen m). Qed.

(** ** Properties *)

(** C31: whenever the palette shows results, the highlighted index points at one
    of them, and Enter opens exactly that entry: the fall-back to the first
    result is never needed. *)
Theorem enter_opens_highlighted s0 s :
  palette_reachable s0 s → filteredSearchItems (searchQuery s) ≠ [] →
  ∃ it, filteredSearchItems (searchQuery s) !! searchActiveIndex s = Some it ∧
    search_keydown «"Enter"» s = selectSearchItem (si_id it) (si_label it) s.
Proof.
  intros Hr Hne. apply reachable_index in Hr. unfold index_ok in Hr.
  destruct (filteredSearchItems (searchQuery s)) as [|first l] eqn:E; [done|].
  destruct (lookup_lt_is_Some_2 (first :: l) (searchActiveIndex s)) as [it Hit]; [simpl in *; lia|].
  exists it. split; [done|]. unfold search_keydown. rewrite E.
  rewrite (filtered_nonempty_query _ _ _ E), Hit. done.
Qed.

(** The recent searches are always the ones a reload would restore from
    local storage, and never more than six. *)
Theorem recents_survive_reload s0 s :
  palette_reachable s0 s → length (initial_recent s0) ≤ 6 → recents_saved s.
Proof.
  intros Hr Hlen. by apply (reachable_recents (λ r st, initial_recent st = r ∧ length r ≤ 6) s0 s select_saved).
Qed.

(** From distinct entries, the recent searches never list a page twice. *)
Theorem recents_stay_distinct s0 s :
  palette_reachable s0 s → NoDup (e_id <$> initial_recent s0) → recents_distinct s.
Proof. intros Hr Hnd. by apply (reachable_recents (λ r _, NoDup (e_id <$> r)) s0 s select_distinct). Qed.

(** The arrow keys are inverse to each other on every reachable state that
    shows results. *)
Theorem arrows_are_inverse s0 s :
  palette_reachable s0 s → filteredSearchItems (searchQuery s) ≠ [] →
  search_keydown «"ArrowUp"» (search_keydown «"ArrowDown"» s) = s.
Proof.
  intros Hr Hne. apply reachable_index in Hr. unfold index_ok in Hr.
  unfold search_keydown at 2. cbn [jeqb]. change (jeqb «"ArrowDown"» «"ArrowDown"») with true.
  cbn match. set (n := length (filteredSearchItems (searchQuery s))) in *.
  assert (0 < n) as Hn by (subst n; destruct (filteredSearchItems _); simpl; [done|lia]).
  rewrite (proj2 (Nat.ltb_lt 0 n)) by done.
  unfold search_keydown. change (jeqb «"ArrowUp"» «"ArrowDown"») with false.
  change (jeqb «"ArrowUp"» «"ArrowUp"») with true. cbn match.
  cbn [searchQuery searchActiveIndex set_index set_search]. fold n.
  rewrite (proj2 (Nat.ltb_lt 0 n)) by done.
  destruct s as [la t sb so q i r st]; unfold set_index, set_search; simpl in *. f_equal.
  destruct (decide (S i = n)) as [Hlast|Hlt].
  - rewrite Hlast, Nat.Div0.mod_same. simpl. rewrite Nat.mod_small; lia.
  - rewrite (Nat.mod_small (S i)) by lia.
    replace (S i + n - 1) with (i + 1 * n) by lia. rewrite Nat.Div0.mod_add, Nat.mod_small; lia.
Qed.

(** Every page is found by its label and by its subtitle, in any letter
    case of ASCII letters. *)
Theorem every_page_is_found it :
  it ∈ searchItems →
  it ∈ filteredSearchItems (si_label it) ∧ it ∈ filteredSearchItems (si_subtitle it) ∧
  filteredSearchItems (toLowerCase (si_label it)) = filteredSearchItems (si_label it).
Proof.
  intros Hit. unfold searchItems, tabs in Hit. rewrite !fmap_cons, fmap_nil in Hit.
  repeat (apply elem_of_cons in Hit as [->|Hit];
    [split_and!; [apply (bool_decide_unpack _); vm_compute; exact I
                 |apply (bool_decide_unpack _); vm_compute; exact I|vm_compute; reflexivity]|]).
  by apply not_elem_of_nil in Hit.
Qed.

(** Escape closes the palette and the notification panel and clears the
    query, from any state. *)
Theorem escape_closes_everything e s n :
  key e = «"Escape"» →
  let '(s', n') := handle e s n in
  searchOpen s' = false ∧ searchQuery s' = [] ∧ searchActiveIndex s' = 0 ∧
  notificationsOpen n' = false ∧ notifications n' = notifications n.
Proof.
  intros He. unfold handle. rewrite He.
  change (jeqb «"Escape"» «"Escape"») with true. cbn match.
  destruct (_ && _); cbv beta iota; rewrite !set_open_closes, !set_open_keeps; done.
Qed.

End Palette.


(** ** Witnesses *)

(** The palette after typing [o] and selecting the second result. *)
Definition sample_typed : PaletteState := search_change «"o"» (palette_init NotStored).

Definition sample_selected : PaletteState :=
  selectSearchItem raft «"Consensus"» sample_typed.

Lemma sample_typed_reachable : @palette_reachable sample_platform NotStored sample_typed.
Proof.
  eapply (@palette_next sample_platform NotStored (PChange «"o"»)); [constructor|reflexivity].
Defined.

Lemma sample_selected_reachable : @palette_reachable sample_platform NotStored sample_selected.
Proof.
  eapply (@palette_next sample_platform NotStored (PJump 2));
    [apply sample_typed_reachable|reflexivity].
Defined.

Lemma enter_opens_highlighted_witness :
  tab (@search_keydown sample_platform «"Enter"» sample_typed) = dashboard.
Proof.
  destruct (@enter_opens_highlighted sample_platform NotStored sample_typed sample_typed_reachable
    ltac:(vm_compute; discriminate)) as (it & Hit & ->).
  vm_compute in Hit. injection Hit as <-. reflexivity.
Defined.

Lemma recents_survive_reload_witness : recents_saved sample_selected.
Proof.
  apply (@recents_survive_reload sample_platform NotStored);
    [apply sample_selected_reachable|vm_compute; lia].
Defined.

Lemma recents_stay_distinct_witness : recents_distinct sample_selected.
Proof.
  apply (@recents_stay_distinct sample_platform NotStored);
    [apply sample_selected_reachable|].
  apply (bool_decide_unpack _). vm_compute. exact I.
Defined.

Lemma arrows_are_inverse_witness :
  @search_keydown sample_platform «"ArrowUp"»
    (@search_keydown sample_platform «"ArrowDown"» sample_typed) = sample_typed.
Proof.
  apply (@arrows_are_inverse sample_platform NotStored);
    [apply sample_typed_reachable|vm_compute; discriminate].
Defined.

Lemma every_page_is_found_witness :
  let it := {| si_id := raft; si_label := «"Consensus"»;
               si_subtitle := subtitle raft; si_category := «"Navigation"» |} in
  it ∈ @filteredSearchItems sample_platform «"Consensus"».
Proof.
  intros it. apply (@every_page_is_found sample_platform it).
  apply (bool_decide_unpack _). vm_compute. exact I.
Defined.

Lemma escape_closes_everything_witness :
  searchOpen (fst (@handle sample_platform {| metaKey := false; ctrlKey := false; key := «"Escape"» |}
    sample_typed sample_notif)) = false.
Proof.
  apply (@escape_closes_everything sample_platform
    {| metaKey := false; ctrlKey := false; key := «"Escape"» |} sample_typed sample_notif).
  reflexivity.
Defined.
