(* ===== verification/PaletteStorage.v ===== *)
(** * Recent searches as text in local storage (App in App.tsx)

    [Palette] keeps the recent searches as data of the type the source asserts.
    Here they are what the browser keeps: a text, which the initialiser parses
    without validating it, and the parsed values, which a selection filters and
    writes back.  [represents] relates the two levels; [ViewShell] renders the
    values of this one. *)

From S2P Require Import Prelude JsNumber JsString Json Text JsonParse RuntimeConfig Palette.

Local Open Scope list_scope.

(** ** Entries as JSON *)

(** A [TabId] is a string. *)
Definition tab_name (t : TabId) : jsstring :=
  match t with
  | dashboard => «"dashboard"» | explorer => «"explorer"» | raft => «"raft"»
  | architecture => «"architecture"»
  end.

Definition entry_json (e : Entry) : json :=
  JObj [(«"id"», JStr (tab_name (e_id e))); («"label"», JStr (e_label e))].

(** What [JSON.stringify(updated)] writes. *)
Definition recents_text (l : list Entry) : jsstring := json_stringify (JArr (entry_json <$> l)).

(** The initialiser of [recentSearches] on the raw item, which nothing validates. *)
Definition recents_of_text (raw : option jsstring) : list json :=
  match raw with
  | None | Some [] => entry_json <$> initial_recent NotStored
  | Some t =>
      match json_parse t with
      | Some (JArr parsed) => slice_first 6 parsed
      | Some _ => []
      | None => []
      end
  end.

(** ** The meaning of a stored text *)

Definition tab_of_name (s : jsstring) : option TabId :=
  e ← head (array_filter (λ e, jeqb (tab_name (e_id e)) s) tabs); Some (e_id e).

(** A parsed value that has the type the source asserts. *)
Definition entry_of_json (v : json) : option Entry :=
  match v with
  | JObj fs =>
      match field fs «"id"», field fs «"label"» with
      | Some (JStr i), Some (JStr l) => t ← tab_of_name i; Some {| e_id := t; e_label := l |}
      | _, _ => None
      end
  | _ => None
  end.

(** The values have the asserted type and are these entries. *)
Definition represents (recents : list json) (l : list Entry) : Prop :=
  mapM entry_of_json recents = Some l.

(** The item of [Palette] a text stands for; [None] when an element of the array
    does not have the asserted type. *)
Definition stored_of_text (raw : option jsstring) : option stored :=
  match raw with
  | None | Some [] => Some NotStored
  | Some t =>
      match json_parse t with
      | Some (JArr parsed) => l ← mapM entry_of_json parsed; Some (StoredEntries l)
      | Some _ => Some StoredOther
      | None => Some StoredGarbage
      end
  end.

Definition recent_key (e : Entry) : jsstring := tab_name (e_id e) ++ «"-"» ++ e_label e.

Section Storage.

Context `{Platform}.

(** [`${v}`] on the value of a property. *)
Definition template (v : option json) : completion jsstring :=
  match v with None => Normal «"undefined"» | Some w => js_String w end.

(** The key the overlay computes for an element of [recentSearches]. *)
Definition recent_row_key (v : json) : completion jsstring :=
  match get_prop v «"id"», get_prop v «"label"» with
  | Normal i, Normal l =>
      match template i, template l with
      | Normal a, Normal b => Normal (a ++ «"-"» ++ b)
      | Throw e, _ | _, Throw e => Throw e
      end
  | Throw e, _ | _, Throw e => Throw e
  end.

(** [recentSearches.filter((x) => x.id !== id)] on the values. *)
Fixpoint other_entries (id : jsstring) (l : list json) : completion (list json) :=
  match l with
  | [] => Normal []
  | x :: r =>
      match get_prop x «"id"», other_entries id r with
      | Normal i, Normal k =>
          Normal (match i with Some (JStr t) => if jeqb t id then k else x :: k | _ => x :: k end)
      | Throw e, _ | _, Throw e => Throw e
      end
  end.

(** The list a selection leaves in the state. *)
Definition updated_values (id : TabId) (label : jsstring) (recents : list json)
    : completion (list json) :=
  match other_entries (tab_name id) recents with
  | Normal k => Normal (slice_first 6 (entry_json {| e_id := id; e_label := label |} :: k))
  | Throw e => Throw e
  end.

(** ** Lemmas *)

Lemma tab_of_tab_name t : tab_of_name (tab_name t) = Some t.
Proof. by destruct t. Qed.

Lemma tab_of_name_inv s t : tab_of_name s = Some t → s = tab_name t.
Proof.
  unfold tab_of_name. destruct (head _) as [e|] eqn:E; [|done]. intros [= <-].
  apply head_Some_elem_of, array_filter_In in E as [E _]. symmetry. by apply bool_decide_eq_true in E.
Qed.

Lemma entry_of_entry_json e : entry_of_json (entry_json e) = Some e.
Proof. destruct e as [t l]. by destruct t. Qed.

Lemma tab_name_units t : units_ok (tab_name t).
Proof. destruct t; apply (bool_decide_unpack _); vm_compute; exact I. Qed.

Lemma entry_json_printable e : units_ok (e_label e) → printable (entry_json e).
Proof.
  intros Hl. constructor. repeat constructor; cbn; auto using tab_name_units;
    apply (bool_decide_unpack _); vm_compute; exact I.
Qed.

Lemma mapM_take {A B} (f : A → option B) n l k :
  mapM f l = Some k → mapM f (take n l) = Some (take n k).
Proof.
  intros Hl%mapM_Some. apply mapM_Some. by apply Forall2_take.
Qed.

(** The fields of a value that has the asserted type. *)
Lemma entry_of_json_inv v e :
  entry_of_json v = Some e →
  get_prop v «"id"» = Normal (Some (JStr (tab_name (e_id e)))) ∧
  get_prop v «"label"» = Normal (Some (JStr (e_label e))).
Proof.
  destruct v as [| | | | |fs]; try done. unfold entry_of_json, get_prop.
  destruct (field fs «"id"») as [[]|]; try done. destruct (field fs «"label"») as [[]|]; try done.
  destruct (tab_of_name s) as [t|] eqn:Et; [|done]. apply tab_of_name_inv in Et as ->.
  intros [= <-]. done.
Qed.

(** The overlay's key for a value that has the asserted type. *)
Lemma recent_row_key_typed v e : entry_of_json v = Some e → recent_row_key v = Normal (recent_key e).
Proof. intros [Hi Hl]%entry_of_json_inv. unfold recent_row_key. by rewrite Hi, Hl. Qed.

(** The initialiser implements the stored item of the palette's model on every
    text whose elements have the asserted type, malformed texts included. *)
Lemma initial_represents raw st :
  stored_of_text raw = Some st → represents (recents_of_text raw) (initial_recent st).
Proof.
  unfold represents, stored_of_text, recents_of_text. intros Hst.
  destruct raw as [[|c t]|]; [simplify_eq; vm_compute; reflexivity| |simplify_eq; vm_compute; reflexivity].
  destruct (json_parse (c :: t)) as [[]|]; simplify_eq; try done.
  destruct (mapM entry_of_json l) as [k|] eqn:Ek; [|done].
  apply (inj Some) in Hst as <-. by apply (mapM_take _ 6).
Qed.

Lemma tab_name_eqb t u : jeqb (tab_name t) (tab_name u) = bool_decide (t = u).
Proof. by destruct t, u. Qed.

Lemma other_entries_represents id recents l :
  represents recents l →
  ∃ k, other_entries (tab_name id) recents = Normal k ∧
    represents k (array_filter (λ x, negb (bool_decide (e_id x = id))) l).
Proof.
  unfold represents. intros Hl%mapM_Some. induction Hl as [|v e vs es Hv _ (k & Hk & Hr)]; [by exists []|].
  destruct (entry_of_json_inv v e Hv) as [Hi _]. cbn [other_entries array_filter].
  rewrite Hi, Hk, tab_name_eqb. destruct (bool_decide _); cbn [negb]; [by exists k|].
  exists (v :: k). split; [done|]. cbn. by rewrite Hv, Hr.
Qed.

(** A selection does not throw on values of the asserted type, and what it leaves
    is what the palette's model leaves. *)
Lemma updated_represents id label recents s :
  represents recents (recentSearches s) →
  ∃ k, updated_values id label recents = Normal k ∧
    represents k (recentSearches (selectSearchItem id label s)).
Proof.
  intros (k & Hk & Hr)%(other_entries_represents id). unfold updated_values. rewrite Hk.
  eexists. split; [done|]. unfold represents.
  cbn [recentSearches selectSearchItem closeSearch set_search]. apply (mapM_take _ 6).
  apply mapM_Some. constructor; [apply entry_of_entry_json|]. by apply mapM_Some.
Qed.

(** The text of a list of entries is parsed as the same entries. *)
Lemma parse_recents_text l :
  Forall (λ e, units_ok (e_label e)) l →
  json_parse (recents_text l) = Some (JArr (entry_json <$> l)).
Proof.
  intros Hl. apply json_parse_stringify. constructor. apply Forall_fmap.
  eapply Forall_impl; [exact Hl|]. apply entry_json_printable.
Qed.

Lemma recents_text_nonempty l : recents_text l ≠ [].
Proof. by destruct l. Qed.

(** ** Properties *)

(** C19: the text a selection writes is read back, on the next load, as exactly the
    recent searches the selection left on the screen. *)
Theorem selection_text_roundtrip id label s :
  units_ok label → Forall (λ e, units_ok (e_label e)) (recentSearches s) →
  let s' := selectSearchItem id label s in
  stored_of_text (Some (recents_text (recentSearches s'))) = Some (storage s') ∧
  recents_of_text (Some (recents_text (recentSearches s'))) = entry_json <$> recentSearches s'.
Proof.
  intros Hlabel Hl s'.
  assert (Forall (λ e, units_ok (e_label e)) (recentSearches s')) as Hl'.
  { subst s'. cbn [recentSearches selectSearchItem closeSearch set_search]. apply Forall_take.
    constructor; [done|]. apply Forall_forall. intros e [_ He]%array_filter_In.
    rewrite Forall_forall in Hl. by apply Hl. }
  assert (storage s' = StoredEntries (recentSearches s')) as Hst by done.
  assert (length (recentSearches s') ≤ 6) as Hlen.
  { subst s'. cbn [recentSearches selectSearchItem closeSearch set_search]. rewrite slice_first_length. lia. }
  pose proof (parse_recents_text _ Hl') as Hp. pose proof (recents_text_nonempty (recentSearches s')) as Hne.
  unfold stored_of_text, recents_of_text. destruct (recents_text (recentSearches s')) as [|c t]; [done|].
  rewrite Hp, Hst. split.
  - assert (mapM entry_of_json (entry_json <$> recentSearches s') = Some (recentSearches s')) as ->; [|done].
    apply mapM_Some, Forall2_fmap_l, Forall_Forall2_diag, Forall_forall. intros e _. apply entry_of_entry_json.
  - unfold slice_first. rewrite take_ge; [done|]. by rewrite length_fmap.
Qed.

End Storage.

(** ** Witnesses *)

Lemma selection_text_roundtrip_witness :
  recents_of_text (Some (recents_text (recentSearches sample_selected))) =
  entry_json <$> recentSearches sample_selected.
Proof.
  apply (selection_text_roundtrip raft «"Consensus"» sample_typed);
    repeat constructor; apply (bool_decide_unpack _); vm_compute; exact I.
Defined.
