(* ===== verification/Explorer.v ===== *)
(** * The key explorers (ExplorerView in App.tsx, pages/Explorer.tsx)

    Both views turn an operation, a key and a value into one request and its
    outcome into one row of a bounded table.  Commands run asynchronously: a
    request stays in flight while the operator edits the form or starts another
    one.  The table component of the second view is in this file too. *)

From S2P Require Import Prelude JsNumber JsString Json Text Uri RuntimeConfig Api Gateway BoundedLog.

Local Open Scope list_scope.

Definition op_name (o : Op) : jsstring :=
  match o with GET => «"GET"» | SET => «"SET"» | DEL => «"DEL"» | SCAN => «"SCAN"» end.

Definition is_scan (o : Op) : bool := match o with SCAN => true | _ => false end.

(** [a ?? b] on property values. *)
Definition or_else (a b : option json) : option json :=
  match a with None | Some JNull => b | _ => a end.

(** ** ExplorerView *)

Module View.

(** A row; [row_result] is [None] when [undefined] would be rendered. *)
Record Row := {
  row_op : Op;
  row_key : jsstring;
  row_result : option jsstring;
  row_latency : jsstring;
  row_ok : bool;
}.

(** A command in flight: what its closure captured. *)
Record Flight := { f_op : Op; f_key : jsstring; f_start : number; f_request : Request }.

Record State := {
  op : Op;
  key : jsstring;
  value : jsstring;
  rows : list Row;
  flights : list Flight;
}.

Definition init : State := {| op := GET; key := []; value := []; rows := []; flights := [] |}.

Record Example := { ex_label : jsstring; ex_op : Op; ex_key : jsstring; ex_value : option jsstring }.

(** The value of the first example, a JSON text with double quotes. *)
Definition profile : jsstring :=
  json_stringify (JObj [(«"name"», JStr «"Ava"»); («"tier"», JStr «"pro"»)]).

Definition quickExamples : list Example := [
  {| ex_label := «"Create profile"»; ex_op := SET; ex_key := «"user:1001"»; ex_value := Some profile |};
  {| ex_label := «"Read profile"»; ex_op := GET; ex_key := «"user:1001"»; ex_value := None |};
  {| ex_label := «"List users"»; ex_op := SCAN; ex_key := «"user:"»; ex_value := None |};
  {| ex_label := «"Delete profile"»; ex_op := DEL; ex_key := «"user:1001"»; ex_value := None |} ].

Definition set_form (o : Op) (k v : jsstring) (s : State) : State :=
  {| op := o; key := k; value := v; rows := rows s; flights := flights s |}.

Definition applyExample (e : Example) (s : State) : State :=
  set_form (ex_op e) (ex_key e) (nullish (ex_value e) []) s.

(** [setRows((prev) => [row, ...prev].slice(0, 50))] *)
Definition push_row (r : Row) (s : State) : State :=
  {| op := op s; key := key s; value := value s; rows := slice_first 50 (r :: rows s);
     flights := flights s |}.

Section View.

Context `{Platform} (env : Env).

(** The guard of [execute]. *)
Definition blocked (o : Op) (k : jsstring) : bool := jeqb k [] && negb (is_scan o).

(** The request [execute] sends. *)
Definition execute_request (o : Op) (k v : jsstring) : completion Request :=
  match o with
  | SET => Normal (set_request env k v)
  | GET => key_request env HGet k []
  | DEL => key_request env HDelete k []
  | SCAN => scan_request env k
  end.

(** [`${(performance.now() - start).toFixed(2)}ms`] *)
Definition show_ms (n : number) : jsstring := toFixed 2 n ++ «"ms"».

(** The [catch] clause. *)
Definition error_row (o : Op) (k : jsstring) (e : thrown) (elapsed : number) : Row :=
  {| row_op := o; row_key := k; row_result := message_of e; row_latency := show_ms elapsed;
     row_ok := false |}.

(** The [try] clause after [res.json()]. *)
Definition reply_row (o : Op) (k : jsstring) (status : Z) (body : json) (elapsed : number)
    : completion Row :=
  let result : completion jsstring :=
    if is_scan o then
      match get_prop body «"items"» with
      | Normal items => Normal (json_stringify (json_nullish items (JArr [])))
      | Throw e => Throw e
      end
    else
      match get_prop body «"value"», get_prop body «"detail"» with
      | Normal v, Normal d => js_String (json_nullish (or_else v d) (JStr «"ok"»))
      | Throw e, _ | _, Throw e => Throw e
      end in
  match result, get_prop body «"latency_ms"» with
  | Normal r, Normal l =>
      match js_Number (json_nullish l (JNum elapsed)) with
      | Normal ms =>
          Normal {| row_op := o; row_key := if jeqb k [] then «"(prefix)"» else k;
                    row_result := Some r; row_latency := show_ms ms; row_ok := status_ok status |}
      | Throw e => Throw e
      end
  | Throw e, _ | _, Throw e => Throw e
  end.

(** The row a settled command adds. *)
Definition settled_row (o : Op) (k : jsstring) (out : fetch_outcome) (elapsed : number) : Row :=
  let attempt : completion Row :=
    match out with
    | Rejected e => Throw e
    | Responded status None => Throw (ThrownError syntax_error_message)
    | Responded status (Some body) => reply_row o k status body elapsed
    end in
  match attempt with
  | Normal r => r
  | Throw e => error_row o k e elapsed
  end.

(** [execute] up to its first suspension: a command in flight, or at once an
    error row when the key cannot be encoded. *)
Definition execute (start now : number) (s : State) : State :=
  if blocked (op s) (key s) then s
  else match execute_request (op s) (key s) (value s) with
       | Normal req =>
           {| op := op s; key := key s; value := value s; rows := rows s;
              flights := flights s ++ [ {| f_op := op s; f_key := key s; f_start := start;
                                           f_request := req |} ] |}
       | Throw e => push_row (error_row (op s) (key s) e (n_sub now start)) s
       end.

(** The rest of [execute] when the request of command [i] has settled. *)
Definition settle (i : nat) (out : fetch_outcome) (now : number) (s : State) : State :=
  match flights s !! i with
  | None => s
  | Some f =>
      push_row (settled_row (f_op f) (f_key f) out (n_sub now (f_start f)))
        {| op := op s; key := key s; value := value s; rows := rows s;
           flights := delete i (flights s) |}
  end.

Inductive event :=
  | XSetOp (o : Op)
  | XSetKey (k : jsstring)
  | XSetValue (v : jsstring)
  | XExample (i : nat)
  | XExecute (start now : number)
  | XSettle (i : nat) (out : fetch_outcome) (now : number).

Definition step (e : event) (s : State) : State :=
  match e with
  | XSetOp o => set_form o (key s) (value s) s
  | XSetKey k => set_form (op s) k (value s) s
  | XSetValue v => set_form (op s) (key s) v s
  | XExample i => match quickExamples !! i with Some ex => applyExample ex s | None => s end
  | XExecute start now => execute start now s
  | XSettle i out now => settle i out now s
  end.

Definition run (es : list event) (s : State) : State := foldl (λ s e, step e s) s es.

End View.

End View.

(** ** pages/Explorer.tsx *)

Module Page.

Record ResultRow := {
  rr_op : Op;
  rr_key : jsstring;
  rr_value : option jsstring;
  rr_latency_ms : number;
  rr_ok : bool;
  rr_error : option jsstring;
  rr_ts : number;
}.

Record Flight := { f_op : Op; f_key : jsstring; f_t0 : number; f_request : Request }.

(** [node] is [None] for the default, the leader. *)
Record State := {
  op : Op;
  key : jsstring;
  val : jsstring;
  node : option Z;
  loading : bool;
  history : list ResultRow;
  flights : list Flight;
}.

Definition init : State := {|
  op := GET; key := []; val := []; node := None; loading := false; history := []; flights := [] |}.

Definition canRun (o : Op) (k : jsstring) : bool :=
  if is_scan o then true else (0 <? length (trim k))%nat.

Section Page.

Context `{Platform} (env : Env).

(** [node ? `?node=${node}` : ""] *)
Definition node_query (n : option Z) : jsstring :=
  match n with
  | Some z => if (z =? 0)%Z then [] else «"?node="» ++ show_Z z
  | None => []
  end.

Definition execute_request (o : Op) (k v : jsstring) (n : option Z) : completion Request :=
  match o with
  | SET => Normal (set_request env k v)
  | GET => key_request env HGet k (node_query n)
  | DEL => key_request env HDelete k []
  | SCAN => scan_request env k
  end.

Definition row_key (k : jsstring) : jsstring := if jeqb k [] then «"(empty-prefix)"» else k.

(** [setHistory((h) => [row, ...h.slice(0, 99)])] *)
Definition push_history (r : ResultRow) (s : State) : State := {|
  op := op s; key := key s; val := val s; node := node s; loading := loading s;
  history := r :: slice_first 99 (history s); flights := flights s |}.

Definition set_loading (b : bool) (s : State) : State := {|
  op := op s; key := key s; val := val s; node := node s; loading := b;
  history := history s; flights := flights s |}.

(** The text of the value cell. *)
Definition reply_value (o : Op) (data : json) : completion jsstring :=
  if is_scan o then
    match get_prop data «"items"» with
    | Normal items => Normal (json_stringify (json_nullish items (JArr [])))
    | Throw e => Throw e
    end
  else
    match get_prop data «"value"», get_prop data «"error"» with
    | Normal (Some (JStr v)), _ => Normal v
    | Normal _, Normal err =>
        match err, truthy err with
        | Some e, true => js_String e
        | _, _ => Normal (json_stringify data)
        end
    | Throw e, _ | _, Throw e => Throw e
    end.

(** [String(data.error ?? data.detail ?? "request failed")] *)
Definition errorText (data : json) : completion jsstring :=
  match get_prop data «"error"», get_prop data «"detail"» with
  | Normal e, Normal d => js_String (json_nullish (or_else e d) (JStr «"request failed"»))
  | Throw e, _ | _, Throw e => Throw e
  end.

(** The [try] clause after [res.json()]; the latency is converted first. *)
Definition reply_row (o : Op) (k : jsstring) (status : Z) (data : json) (elapsed ts : number)
    : completion ResultRow :=
  match get_prop data «"latency_ms"» with
  | Throw e => Throw e
  | Normal l =>
      match js_Number (json_nullish l (JNum elapsed)), reply_value o data, errorText data with
      | Normal ms, Normal v, Normal err =>
          Normal {| rr_op := o; rr_key := row_key k; rr_value := Some v; rr_latency_ms := ms;
                    rr_ok := status_ok status;
                    rr_error := if status_ok status then None else Some err; rr_ts := ts |}
      | Throw e, _, _ | _, Throw e, _ | _, _, Throw e => Throw e
      end
  end.

Definition error_row (o : Op) (k : jsstring) (e : thrown) (elapsed ts : number) : ResultRow := {|
  rr_op := o; rr_key := row_key k; rr_value := None; rr_latency_ms := elapsed; rr_ok := false;
  rr_error := message_of e; rr_ts := ts |}.

Definition settled_row (o : Op) (k : jsstring) (out : fetch_outcome) (elapsed ts : number) : ResultRow :=
  let attempt : completion ResultRow :=
    match out with
    | Rejected e => Throw e
    | Responded status None => Throw (ThrownError syntax_error_message)
    | Responded status (Some data) => reply_row o k status data elapsed ts
    end in
  match attempt with
  | Normal r => r
  | Throw e => error_row o k e elapsed ts
  end.

(** [execute] up to its first suspension. *)
Definition execute (t0 now ts : number) (s : State) : State :=
  if negb (canRun (op s) (key s)) then s
  else
    let s1 := set_loading true s in
    let requestedKey := trim (key s) in
    match execute_request (op s) requestedKey (val s) (node s) with
    | Normal req => {|
        op := op s; key := key s; val := val s; node := node s; loading := true;
        history := history s;
        flights := flights s ++ [ {| f_op := op s; f_key := requestedKey; f_t0 := t0;
                                     f_request := req |} ] |}
    | Throw e =>
        set_loading false (push_history (error_row (op s) requestedKey e (n_sub now t0) ts) s1)
    end.

(** The rest of [execute], with its [finally] clause. *)
Definition settle (i : nat) (out : fetch_outcome) (now ts : number) (s : State) : State :=
  match flights s !! i with
  | None => s
  | Some f =>
      set_loading false (push_history (settled_row (f_op f) (f_key f) out (n_sub now (f_t0 f)) ts)
        {| op := op s; key := key s; val := val s; node := node s; loading := loading s;
           history := history s; flights := delete i (flights s) |})
  end.

Inductive event :=
  | PSetOp (o : Op)
  | PSetKey (k : jsstring)
  | PSetVal (v : jsstring)
  | PSetNode (n : option Z)
  | PSampleSet
  | PSampleGet
  | PEnter (t0 now ts : number)
  | PClick (t0 now ts : number)
  | PSettle (i : nat) (out : fetch_outcome) (now ts : number).

Definition set_form (o : Op) (k v : jsstring) (n : option Z) (s : State) : State := {|
  op := o; key := k; val := v; node := n; loading := loading s; history := history s;
  flights := flights s |}.

(** The button is disabled while a command is loading or cannot run; the Enter
    key is not. *)
Definition step (e : event) (s : State) : State :=
  match e with
  | PSetOp o => set_form o (key s) (val s) (node s) s
  | PSetKey k => set_form (op s) k (val s) (node s) s
  | PSetVal v => set_form (op s) (key s) v (node s) s
  | PSetNode n => set_form (op s) (key s) (val s) n s
  | PSampleSet => set_form SET «"hello"» «"world"» (node s) s
  | PSampleGet => set_form GET «"hello"» (val s) (node s) s
  | PEnter t0 now ts => execute t0 now ts s
  | PClick t0 now ts =>
      if loading s || negb (canRun (op s) (key s)) then s else execute t0 now ts s
  | PSettle i out now ts => settle i out now ts s
  end.

Definition run (es : list event) (s : State) : State := foldl (λ s e, step e s) s es.

End Page.

(** The result cell of KeyTable: [r.value ?? r.error ?? "-"]. *)
Definition result_cell (r : ResultRow) : jsstring :=
  match rr_value r, rr_error r with
  | Some v, _ => v
  | None, Some e => e
  | None, None => «"-"»
  end.

Definition latency_cell (r : ResultRow) : jsstring := toFixed 1 (rr_latency_ms r) ++ «"ms"».

Definition status_cell (r : ResultRow) : jsstring := if rr_ok r then «"OK"» else «"ERR"».

End Page.

(** ** Accounting *)

Section Explorer.

Context `{Platform} (env : Env).

(** The row an event adds to the table of the view, if any. *)
Definition view_produces (e : View.event) (s : View.State) : list View.Row :=
  match e with
  | View.XExecute start now =>
      if View.blocked (View.op s) (View.key s) then []
      else match View.execute_request env (View.op s) (View.key s) (View.value s) with
           | Normal _ => []
           | Throw e => [View.error_row (View.op s) (View.key s) e (n_sub now start)]
           end
  | View.XSettle i out now =>
      match View.flights s !! i with
      | Some f => [View.settled_row (View.f_op f) (View.f_key f) out (n_sub now (View.f_start f))]
      | None => []
      end
  | _ => []
  end.

(** The command an event lets through the guard of [execute]. *)
Definition view_accepts (e : View.event) (s : View.State) : bool :=
  match e with
  | View.XExecute _ _ => negb (View.blocked (View.op s) (View.key s))
  | _ => false
  end.

Fixpoint view_accepted (es : list View.event) (s : View.State) : nat :=
  match es with
  | [] => 0
  | e :: es' => (if view_accepts e s then 1 else 0) + view_accepted es' (View.step env e s)
  end.

Definition page_execute_produces (t0 now ts : number) (s : Page.State) : list Page.ResultRow :=
  if negb (Page.canRun (Page.op s) (Page.key s)) then []
  else match Page.execute_request env (Page.op s) (trim (Page.key s)) (Page.val s) (Page.node s) with
       | Normal _ => []
       | Throw e => [Page.error_row (Page.op s) (trim (Page.key s)) e (n_sub now t0) ts]
       end.

Definition page_produces (e : Page.event) (s : Page.State) : list Page.ResultRow :=
  match e with
  | Page.PEnter t0 now ts => page_execute_produces t0 now ts s
  | Page.PClick t0 now ts => if Page.loading s then [] else page_execute_produces t0 now ts s
  | Page.PSettle i out now ts =>
      match Page.flights s !! i with
      | Some f => [Page.settled_row (Page.f_op f) (Page.f_key f) out (n_sub now (Page.f_t0 f)) ts]
      | None => []
      end
  | _ => []
  end.

#[local] Instance view_table : BoundedLog View.State View.event View.Row := {|
  bl_limit := 50; bl_step := View.step env; bl_rows := View.rows; bl_produces := view_produces |}.

#[local] Instance page_history : BoundedLog Page.State Page.event Page.ResultRow := {|
  bl_limit := 100; bl_step := Page.step env; bl_rows := Page.history; bl_produces := page_produces |}.

(** ** Lemmas *)

#[local] Instance view_table_laws : BoundedLogLaws View.State View.event View.Row.
Proof.
  intros e s Hs. cbn [bl_rows bl_step bl_produces bl_limit view_table] in *.
  destruct e; cbn [View.step view_produces rev app];
    try (symmetry; unfold slice_first; by apply take_ge).
  - unfold slice_first. rewrite take_ge by done. by destruct (View.quickExamples !! i).
  - unfold View.execute. destruct (View.blocked _ _); cbn [rev app];
      [by unfold slice_first; rewrite take_ge|].
    destruct (View.execute_request _ _ _ _); [|done]. unfold slice_first. by rewrite take_ge.
  - unfold View.settle. destruct (View.flights s !! i); [done|].
    unfold slice_first. by rewrite take_ge.
Qed.

Lemma page_execute_rows t0 now ts s :
  length (Page.history s) ≤ 100 →
  Page.history (Page.execute env t0 now ts s) =
  slice_first 100 (rev (page_execute_produces t0 now ts s) ++ Page.history s).
Proof.
  intros Hs. unfold Page.execute, page_execute_produces.
  destruct (negb _); [by unfold slice_first; rewrite take_ge|].
  destruct (Page.execute_request _ _ _ _ _); [by unfold slice_first; rewrite take_ge|done].
Qed.

#[local] Instance page_history_laws : BoundedLogLaws Page.State Page.event Page.ResultRow.
Proof.
  intros e s Hs. cbn [bl_rows bl_step bl_produces bl_limit page_history] in *.
  destruct e; cbn [Page.step page_produces rev app];
    try (symmetry; unfold slice_first; by apply take_ge).
  - by apply page_execute_rows.
  - destruct (Page.loading s); cbn [orb]; [by unfold slice_first; rewrite take_ge|].
    rewrite <-page_execute_rows by done. destruct (negb _) eqn:E; [|done].
    unfold Page.execute. by rewrite E.
  - unfold Page.settle. destruct (Page.flights s !! i); [done|].
    unfold slice_first. by rewrite take_ge.
Qed.

(** What is in flight and what has a row: every accepted command is one of them. *)
Lemma view_step_flights e s :
  length (View.flights (View.step env e s)) + length (view_produces e s)
  = length (View.flights s) + (if view_accepts e s then 1 else 0).
Proof.
  destruct e; cbn; try lia.
  - destruct (View.quickExamples !! i); cbn; lia.
  - unfold View.execute. destruct (View.blocked _ _); cbn; [lia|].
    destruct (View.execute_request _ _ _ _); cbn; rewrite ?length_app; cbn; lia.
  - unfold View.settle. destruct (View.flights s !! i) eqn:E; cbn; [|lia].
    pose proof (lookup_lt_Some _ _ _ E). rewrite length_delete by eauto. lia.
Qed.

Lemma view_accounting es s :
  length (View.flights (bl_run es s)) + length (bl_log es s)
  = length (View.flights s) + view_accepted es s.
Proof.
  revert s. induction es as [|e es IH]; intros s; [cbn; lia|].
  cbn [bl_log view_accepted]. rewrite length_app.
  change (bl_run (e :: es) s) with (bl_run es (View.step env e s)).
  pose proof (view_step_flights e s). specialize (IH (View.step env e s)).
  cbn [bl_step bl_produces view_table] in *. lia.
Qed.

(** Commands started with the button only: at most one is in flight, exactly
    while the view is loading. *)
Definition page_quiet (s : Page.State) : Prop :=
  if Page.loading s then ∃ f, Page.flights s = [f] else Page.flights s = [].

Definition not_enter (e : Page.event) : bool :=
  match e with Page.PEnter _ _ _ => false | _ => true end.

Lemma page_step_quiet e s :
  not_enter e = true → page_quiet s → page_quiet (Page.step env e s).
Proof.
  unfold page_quiet. destruct e; cbn; try done; intros _ Hs.
  - destruct (Page.loading s) eqn:Hl; cbn [orb]; [by rewrite Hl|].
    destruct (negb (Page.canRun _ _)) eqn:Hc; [by rewrite Hl|].
    unfold Page.execute. rewrite Hc. destruct (Page.execute_request _ _ _ _ _); cbn; [|done].
    rewrite Hs. eauto.
  - unfold Page.settle. destruct (Page.flights s !! i) eqn:E; [|done]. cbn.
    destruct (Page.loading s).
    + destruct Hs as [f' Hs]. rewrite Hs in *. destruct i; [done|]. by simplify_eq/=.
    + by rewrite Hs in E.
Qed.

Lemma page_run_quiet es s :
  Forall (λ e, not_enter e = true) es → page_quiet s → page_quiet (Page.run env es s).
Proof.
  intros He. revert s. induction He as [|e es He _ IH]; intros s Hs; [done|].
  by apply IH, page_step_quiet.
Qed.

(** ** Properties *)

(** A request on a well-formed key can be built. *)
Lemma key_request_built m k q : well_formed k → ∃ r, key_request env m k q = Normal r.
Proof. intros [_ Hk]. unfold key_request. destruct (encodeURIComponent k); [eauto|done]. Qed.

Lemma scan_request_built k : well_formed k → ∃ r, scan_request env k = Normal r.
Proof. intros [_ Hk]. unfold scan_request. destruct (encodeURIComponent k); [eauto|done]. Qed.

(** C5: the request ExplorerView sends reaches the gateway's handler of the chosen
    operation with exactly the key, the prefix or the value of the form, for keys
    and values without lone surrogates; for a read or a delete the key must also
    have no slash and be neither [.] nor [..] (see [slash_keys_only_written] and
    [dot_keys_leave_the_collection] for those). *)
Theorem explorer_requests_decode `{Framework} o k v :
  deliverable o k v →
  ∃ r, View.execute_request env o k v = Normal r ∧ handled env r (Some (call o k v None)).
Proof.
  intros Hd. destruct o; cbn [View.execute_request call deliverable] in *.
  - destruct (key_request_built HGet k [] (proj1 Hd)) as [r Hr]. exists r. split; [done|].
    by apply (read_request_handled env k None).
  - eexists. split; [done|]. destruct Hd as (? & ? & ?). by apply set_request_handled.
  - destruct (key_request_built HDelete k [] (proj1 Hd)) as [r Hr]. exists r. split; [done|].
    by apply delete_request_handled.
  - destruct (scan_request_built k Hd) as [r Hr]. exists r. split; [done|]. by apply scan_request_handled.
Qed.

(** C33: a key with a slash can be written but neither read nor deleted: the write
    reaches its handler with that key, while the requests of a read and of a delete
    match no route, because the server decodes the slash before routing.  Keys that
    end in a slash are left out: for them the framework tries the path without
    it. *)
Theorem slash_keys_only_written `{Framework} o k v :
  o = GET ∨ o = DEL → well_formed k → well_formed v → slash ∈ k → last k ≠ Some slash →
  (∃ r, View.execute_request env SET k v = Normal r ∧ handled env r (Some (SetKey k v 0))) ∧
  (∃ r, View.execute_request env o k v = Normal r ∧ handled env r None).
Proof.
  intros Ho Hk Hv Hs _. split.
  - eexists. split; [done|]. apply set_request_handled; [done..|]. by intros ->; apply not_elem_of_nil in Hs.
  - destruct Ho as [-> | ->]; cbn [View.execute_request].
    + destruct (key_request_built HGet k [] Hk) as [r Hr]. exists r. split; [done|].
      by apply (slash_request_refused env HGet k).
    + destruct (key_request_built HDelete k [] Hk) as [r Hr]. exists r. split; [done|].
      by apply (slash_request_refused env HDelete k).
Qed.

(** The node a read of pages/Explorer.tsx carries. *)
Definition node_sent (n : option Z) : option Z := id ← n; if (id =? 0)%Z then None else Some id.

(** C32: under the same conditions the requests of pages/Explorer.tsx reach the
    handler of the chosen operation with the trimmed key, and a read carries the
    selected node; only for node 0 it carries none, like the default. *)
Theorem page_requests_decode `{Framework} o k v n :
  deliverable o (trim k) v → (∀ z, n = Some z → (0 <= z)%Z) →
  ∃ r, Page.execute_request env o (trim k) v n = Normal r ∧
    handled env r (Some (call o (trim k) v (node_sent n))).
Proof.
  intros Hd Hn. destruct o; cbn [Page.execute_request call deliverable] in *.
  - destruct (key_request_built HGet (trim k) (Page.node_query n) (proj1 Hd)) as [r Hr].
    exists r. split; [done|]. apply read_request_handled; [done| |].
    + intros z. unfold node_sent. destruct n as [id|]; [|done]. cbn [mbind option_bind].
      destruct (id =? 0)%Z; [done|]. intros [= ->]. by apply Hn.
    + rewrite <-Hr. f_equal. unfold Page.node_query, node_sent. destruct n as [id|]; [|done].
      cbn [mbind option_bind]. by destruct (id =? 0)%Z.
  - eexists. split; [done|]. destruct Hd as (? & ? & ?). by apply set_request_handled.
  - destruct (key_request_built HDelete (trim k) [] (proj1 Hd)) as [r Hr]. exists r. split; [done|].
    by apply delete_request_handled.
  - destruct (scan_request_built (trim k) Hd) as [r Hr]. exists r. split; [done|]. by apply scan_request_handled.
Qed.

(** C15: the table of ExplorerView shows the 50 most recently settled commands,
    the latest first, and every command that passed the guard is either still in
    flight or has produced exactly one row: commands run concurrently, none is
    lost and none is counted twice. *)
Theorem explorer_table_accounts es :
  View.rows (View.run env es View.init) = slice_first 50 (rev (bl_log es View.init)) ∧
  length (View.flights (View.run env es View.init)) + length (bl_log es View.init)
  = view_accepted es View.init.
Proof.
  change (View.run env es View.init) with (bl_run es View.init). split.
  - change (View.rows (bl_run es View.init)) with (bl_rows (bl_run es View.init)).
    rewrite bl_run_rows by (cbn; lia). cbn [bl_rows view_table View.rows View.init]. by rewrite app_nil_r.
  - apply (view_accounting es View.init).
Qed.

(** C34: as long as commands of pages/Explorer.tsx are started with the button,
    at most one is in flight, and the view is loading exactly then. *)
Theorem button_serialises_commands es :
  Forall (λ e, not_enter e = true) es →
  let s := Page.run env es Page.init in
  length (Page.flights s) ≤ 1 ∧ (Page.loading s = true ↔ Page.flights s ≠ []).
Proof.
  intros He s. pose proof (page_run_quiet es Page.init He eq_refl) as Hq. fold s in Hq.
  unfold page_quiet in Hq. destruct (Page.loading s).
  - destruct Hq as [f ->]. cbn. split; [lia|done].
  - rewrite Hq. cbn. split; [lia|done].
Qed.

(** The Enter key is not subject to the loading flag: two commands can be in
    flight, and when the first settles the view stops loading although the second
    is still running. *)
Theorem enter_bypasses_loading :
  let go := Page.PEnter n_zero n_zero n_zero in
  let s := Page.run env [Page.PSampleSet; go; go;
    Page.PSettle 0 (Responded 200 (Some (JObj []))) n_zero n_zero] Page.init in
  Page.loading s = false ∧ length (Page.flights s) = 1.
Proof. split; reflexivity. Qed.

(** When the gateway refuses a command with a detail, the history keeps the
    detail but the table never shows it: the cell holds the whole body, and for a
    scan the empty list, as if no key matched. *)
Theorem refusal_detail_not_shown o k d status elapsed ts :
  status_ok status = false →
  let r := Page.settled_row o k (Responded status (Some (JObj [(«"detail"», JStr d)]))) elapsed ts in
  Page.rr_error r = Some d ∧
  Page.result_cell r = (if is_scan o then «"[]"» else «"{"» ++ quote «"detail"» ++ «":"» ++ quote d ++ «"}"»).
Proof.
  intros Hst r. subst r. unfold Page.settled_row, Page.reply_row. cbn [get_prop].
  change (field [(«"detail"», JStr d)] «"latency_ms"») with (@None json). cbn [json_nullish js_Number].
  unfold Page.reply_value, Page.errorText. cbn [get_prop].
  change (field [(«"detail"», JStr d)] «"error"») with (@None json).
  change (field [(«"detail"», JStr d)] «"value"») with (@None json).
  change (field [(«"detail"», JStr d)] «"items"») with (@None json).
  change (field [(«"detail"», JStr d)] «"detail"») with (Some (JStr d)).
  cbn [or_else json_nullish js_String truthy].
  destruct (is_scan o); cbn [Page.rr_error Page.result_cell Page.rr_value]; rewrite Hst;
    (split; [done|]); [done|].
  unfold json_stringify. cbn [stringify map]. change (jeqb [] []) with true. cbn match.
  unfold join. cbn [fmap list_fmap concat]. rewrite app_nil_r, <-!app_assoc. done.
Qed.

(** The keys [.] and [..] cannot be reached: the URL Standard resolves the
    dot segment away, so a delete of [..] is sent to the parent of the key
    collection and a delete of [.] to the collection itself. *)
Theorem dot_keys_leave_the_collection :
  View.execute_request env DEL «".."» [] =
    Normal {| req_method := HDelete; req_url := apiUrl env «"/api/keys/.."»; req_body := None |} ∧
  resolved_path «"/api/keys/.."» = [«"api"»; []] ∧
  View.execute_request env DEL «"."» [] =
    Normal {| req_method := HDelete; req_url := apiUrl env «"/api/keys/."»; req_body := None |} ∧
  resolved_path «"/api/keys/."» = [«"api"»; «"keys"»; []].
Proof.
  assert (encodeURIComponent «".."» = Some «".."») as Hup by (vm_compute; reflexivity).
  assert (encodeURIComponent «"."» = Some «"."») as Hhere by (vm_compute; reflexivity).
  unfold View.execute_request, key_request. rewrite Hup, Hhere.
  split_and!; [done|vm_compute; reflexivity|done|vm_compute; reflexivity].
Qed.

End Explorer.

(** ** Witnesses *)

Definition sample_env : Env := Build_Env (Some «"https://gw.test"») None.

(** A key with reserved characters and a character outside the BMP. *)
Definition sample_key : jsstring := «"user:1&a?b"» ++ [55357; 56832]%N.

Lemma sample_key_routable : routable sample_key.
Proof.
  split_and!; [split; [by apply literal_units_ok|vm_compute; discriminate]|done| |done|done].
  apply (bool_decide_unpack _). vm_compute. exact I.
Defined.

Lemma explorer_requests_decode_witness :
  ∃ r, @View.execute_request sample_platform sample_env GET sample_key [] = Normal r ∧
    handled (H := sample_framework) (H0 := sample_platform) sample_env r (Some (GetKey sample_key None)).
Proof.
  apply (@explorer_requests_decode sample_platform sample_env sample_framework GET sample_key []).
  exact sample_key_routable.
Defined.

Lemma slash_keys_only_written_witness :
  ∃ r, @View.execute_request sample_platform sample_env GET «"a/b"» [] = Normal r ∧
    handled (H := sample_framework) (H0 := sample_platform) sample_env r None.
Proof.
  apply (@slash_keys_only_written sample_platform sample_env sample_framework GET «"a/b"» []).
  - left. reflexivity.
  - split; [by apply literal_units_ok|vm_compute; discriminate].
  - split; [by apply literal_units_ok|vm_compute; discriminate].
  - apply (bool_decide_unpack _). vm_compute. exact I.
  - vm_compute. discriminate.
Defined.

Lemma page_requests_decode_witness :
  ∃ r, @Page.execute_request sample_platform sample_env GET (trim «" user:7 "») [] (Some 2%Z) = Normal r ∧
    handled (H := sample_framework) (H0 := sample_platform) sample_env r (Some (GetKey «"user:7"» (Some 2%Z))).
Proof.
  apply (@page_requests_decode sample_platform sample_env sample_framework GET «" user:7 "» [] (Some 2%Z)).
  - split_and!; [split; [by apply literal_units_ok|vm_compute; discriminate]|done| |done|done].
    apply (bool_decide_unpack _). vm_compute. exact I.
  - intros z [= <-]. lia.
Defined.

Lemma button_serialises_commands_witness :
  let s := @Page.run sample_platform sample_env
    [Page.PSampleSet; Page.PClick n_zero n_zero n_zero; Page.PClick n_zero n_zero n_zero] Page.init in
  length (Page.flights s) ≤ 1 ∧ (Page.loading s = true ↔ Page.flights s ≠ []).
Proof. apply (@button_serialises_commands sample_platform sample_env). repeat constructor. Defined.

Lemma refusal_detail_not_shown_witness :
  Page.result_cell (@Page.settled_row sample_platform SCAN «"user:"»
    (Responded 503 (Some (JObj [(«"detail"», JStr «"no leader"»)]))) n_zero n_zero) = «"[]"».
Proof. apply (@refusal_detail_not_shown sample_platform SCAN «"user:"» «"no leader"» 503). reflexivity. Defined.
