(* ===== verification/Trace.v ===== *)
(** * The request trace runner (ArchitectureView in App.tsx)

    [runTrace] walks a command through five stages, the last of which sends the
    request.  It is asynchronous: between two stages the operator can edit the
    form, press the buttons again, or change the focused module.  The state is
    split in the form, which the operator edits, and the core, which a run
    changes; a run in progress is what its closure captured and the stage it
    awaits. *)

From S2P Require Import Prelude JsNumber JsString Json Text Uri RuntimeConfig Store Api Gateway Notifications.

Local Open Scope list_scope.

(** ** Data *)

Inductive TraceStepStatus := Idle | Running | Success | Error.

Record TraceStepState := {
  title : jsstring;
  detail : jsstring;
  status : TraceStepStatus;
  runtime : jsstring;
}.

Inductive TraceOp := TGet | TSet | TDel.

Record TraceResult := {
  tr_ok : bool;
  tr_message : jsstring;
  tr_latencyMs : number;
  tr_payload : jsstring;
}.

(** What the operator edits. *)
Record Form := {
  traceOp : TraceOp;
  traceKey : jsstring;
  traceValue : jsstring;
  activeModule : nat;
}.

(** A run in progress: the values its closure captured, and the stage it is in. *)
Record Run := {
  r_op : TraceOp;
  r_key : jsstring;
  r_value : jsstring;
  r_leader : option Z;
  r_healthy : nat;
  r_total : nat;
  r_startedAt : number;
  r_index : nat;
  r_t0 : number;
}.

(** [sent] lists the requests handed to [fetch]. *)
Record Core := {
  traceRunning : bool;
  traceResult : option TraceResult;
  traceSteps : list TraceStepState;
  runs : list Run;
  sent : list Request;
}.

Record TraceState := { form : Form; core : Core }.

(** The readings of [performance.now()] within one turn: when a stage ends, when
    the next one starts, when that one fails, and for the total. *)
Record Clock := { c_end : number; c_t0 : number; c_fail : number; c_total : number }.

(** ** Derived values *)

Definition healthyNodes (ns : list NodeMeta) : list NodeMeta := array_filter healthy ns.

Definition leader (ns : list NodeMeta) : option NodeMeta :=
  array_find (λ n, is_leader n && healthy n) ns.

(** [Math.floor(nodes.length / 2) + 1 <= healthyNodes.length] *)
Definition quorumReached (total healthy : nat) : bool := (quorum total <=? healthy)%nat.

Definition waiting : jsstring := «"Waiting to start."».

Definition idle_step (t d : jsstring) : TraceStepState :=
  {| title := t; detail := d; status := Idle; runtime := waiting |}.

Definition createTraceSteps : list TraceStepState := [
  idle_step «"Client Request"» «"Command reaches FastAPI ingress."»;
  idle_step «"TLV Translation"» «"Gateway serializes payload into TLV frame."»;
  idle_step «"Leader WAL Commit"» «"Leader appends encrypted WAL record."»;
  idle_step «"Quorum Replication"» «"Entry replicates to majority of replicas."»;
  idle_step «"Client ACK"» «"Gateway returns commit acknowledgement."» ].

Definition updateStep (index : nat) (st : TraceStepStatus) (rt : jsstring)
    (steps : list TraceStepState) : list TraceStepState :=
  array_mapi (λ i step,
    if (i =? index)%nat
    then {| title := title step; detail := detail step; status := st; runtime := rt |}
    else step) steps.

Definition op_text (o : TraceOp) : jsstring :=
  match o with TGet => «"GET"» | TSet => «"SET"» | TDel => «"DEL"» end.

(** ** Stages *)

Section Trace.

Context `{Platform} (env : Env).

(** [`${healthyNodes.length}/${nodes.length}`] *)
Definition ratio (r : Run) : jsstring := show_nat (r_healthy r) ++ «"/"» ++ show_nat (r_total r).

(** The runtime text of a stage. *)
Definition stage_text (r : Run) (i : nat) : jsstring :=
  match i with
  | 0 => op_text (r_op r) ++ «" "» ++ r_key r ++ «" received at gateway"»
  | 1 => «"Converting JSON payload to TLV frame"»
  | 2 => match r_leader r with
         | Some id => «"Leader node "» ++ show_Z id ++ «" appending WAL"»
         | None => «"No leader available"»
         end
  | 3 => «"Replicating to "» ++ ratio r ++ «" nodes"»
  | _ => «"Sending committed ACK response"»
  end.

(** The request of the last stage. *)
Definition trace_request (r : Run) : completion Request :=
  match r_op r with
  | TSet => Normal (set_request env (r_key r) (r_value r))
  | TGet => key_request env HGet (r_key r) []
  | TDel => key_request env HDelete (r_key r) []
  end.

(** What the body of a stage does before it first suspends: throw, or go on
    having sent some requests. *)
Definition stage_start (r : Run) (i : nat) : completion (list Request) :=
  match i with
  | 2 => match r_leader r with
         | Some _ => Normal []
         | None => Throw (ThrownError «"No healthy leader available for WAL append"»)
         end
  | 3 => if quorumReached (r_total r) (r_healthy r) then Normal []
         else Throw (ThrownError («"Quorum not met ("» ++ ratio r ++ «")"»))
  | 4 => match trace_request r with
         | Normal req => Normal [req]
         | Throw e => Throw e
         end
  | _ => Normal []
  end.

(** The rest of the last stage: the response body, or the error. *)
Definition stage_reply (out : fetch_outcome) : completion json :=
  match out with
  | Rejected e => Throw e
  | Responded st body =>
      let responseBody := nullish body (JObj [(«"detail"», JStr («"HTTP "» ++ show_Z st))]) in
      if status_ok st then Normal responseBody
      else match responseBody with
           | JObj fs =>
               match field fs «"detail"» with
               | Some d =>
                   match js_String d with
                   | Normal t => Throw (ThrownError t)
                   | Throw e => Throw e
                   end
               | None => Throw (ThrownError («"Gateway returned "» ++ show_Z st))
               end
           | _ => Throw (ThrownError («"Gateway returned "» ++ show_Z st))
           end
  end.

(** [`${text} (${Math.round(t1 - t0)}ms)`] *)
Definition timed (text : jsstring) (t0 t1 : number) : jsstring :=
  text ++ «" ("» ++ n_toString (math_round (n_sub t1 t0)) ++ «"ms)"».

Definition failure_text (e : thrown) (otherwise : jsstring) : jsstring :=
  match e with ThrownError m => m | ThrownOther => otherwise end.

(** ** The run *)

Definition at_stage (r : Run) (i : nat) (t0 : number) : Run := {|
  r_op := r_op r; r_key := r_key r; r_value := r_value r; r_leader := r_leader r;
  r_healthy := r_healthy r; r_total := r_total r; r_startedAt := r_startedAt r;
  r_index := i; r_t0 := t0 |}.

(** The stage's [catch], the outer [catch] and the [finally] clause. *)
Definition fail_run (r : Run) (i : nat) (e : thrown) (t0 t1 total : number) (c : Core) : Core := {|
  traceRunning := false;
  traceResult := Some {| tr_ok := false; tr_message := failure_text e «"Trace execution failed"»;
    tr_latencyMs := fixed_value 2 (n_sub total (r_startedAt r)); tr_payload := [] |};
  traceSteps := updateStep i Error (timed (failure_text e «"Unknown failure"») t0 t1) (traceSteps c);
  runs := runs c;
  sent := sent c |}.

(** A stage starts: it is marked running, and its body runs until it suspends. *)
Definition enter_stage (r : Run) (i : nat) (k : Clock) (c : Core) : Core :=
  let steps := updateStep i Running (stage_text r i) (traceSteps c) in
  let c1 := {| traceRunning := traceRunning c; traceResult := traceResult c; traceSteps := steps;
               runs := runs c; sent := sent c |} in
  match stage_start r i with
  | Normal reqs => {| traceRunning := traceRunning c; traceResult := traceResult c;
      traceSteps := steps; runs := runs c ++ [at_stage r i (c_t0 k)]; sent := sent c ++ reqs |}
  | Throw e => fail_run r i e (c_t0 k) (c_fail k) (c_total k) c1
  end.

Definition finish_stage (r : Run) (k : Clock) (c : Core) : Core := {|
  traceRunning := traceRunning c; traceResult := traceResult c;
  traceSteps := updateStep (r_index r) Success
    (timed (stage_text r (r_index r)) (r_t0 r) (c_end k)) (traceSteps c);
  runs := runs c; sent := sent c |}.

Definition without_run (j : nat) (c : Core) : Core := {|
  traceRunning := traceRunning c; traceResult := traceResult c; traceSteps := traceSteps c;
  runs := delete j (runs c); sent := sent c |}.

(** The [sleep] of a stage is over: the stage succeeds and the next one starts. *)
Definition resume (j : nat) (k : Clock) (c : Core) : Core :=
  match runs c !! j with
  | Some r =>
      if (r_index r <? 4)%nat
      then enter_stage r (S (r_index r)) k (finish_stage r k (without_run j c))
      else c
  | None => c
  end.

(** The request of the last stage has settled. *)
Definition reply (j : nat) (out : fetch_outcome) (k : Clock) (c : Core) : Core :=
  match runs c !! j with
  | Some r =>
      if (r_index r =? 4)%nat then
        let c1 := without_run j c in
        match stage_reply out with
        | Normal body => {|
            traceRunning := false;
            traceResult := Some {| tr_ok := true;
              tr_message := op_text (r_op r) ++ «" request committed and acknowledged."»;
              tr_latencyMs := fixed_value 2 (n_sub (c_total k) (r_startedAt r));
              tr_payload := json_pretty body |};
            traceSteps := traceSteps (finish_stage r k c1);
            runs := runs c1; sent := sent c1 |}
        | Throw e => fail_run r 4 e (r_t0 r) (c_end k) (c_total k) c1
        end
      else c
  | None => c
  end.

(** [runTrace] up to its first suspension, for the nodes of the last render. *)
Definition runTrace (ns : list NodeMeta) (k : Clock) (s : TraceState) : TraceState :=
  let f := form s in let c := core s in
  if jeqb (trim (traceKey f)) [] || traceRunning c then s
  else
    let r := {| r_op := traceOp f; r_key := traceKey f; r_value := traceValue f;
                r_leader := node_id <$> leader ns; r_healthy := length (healthyNodes ns);
                r_total := length ns; r_startedAt := c_end k; r_index := 0; r_t0 := c_t0 k |} in
    {| form := f;
       core := enter_stage r 0 k {| traceRunning := true; traceResult := None;
         traceSteps := createTraceSteps; runs := runs c; sent := sent c |} |}.

(** The reset button. *)
Definition reset (s : TraceState) : TraceState :=
  let c := core s in
  if traceRunning c then s
  else {| form := form s; core := {| traceRunning := traceRunning c; traceResult := None;
            traceSteps := createTraceSteps; runs := runs c; sent := sent c |} |}.

Definition set_trace_form (o : TraceOp) (k v : jsstring) (m : nat) (s : TraceState) : TraceState :=
  {| form := {| traceOp := o; traceKey := k; traceValue := v; activeModule := m |}; core := core s |}.

(** [pageModules] has four entries. *)
Definition module_count : nat := 4.

Definition next_module (m : nat) : nat := S m mod module_count.

(** ** Events *)

Inductive event :=
  | TRun (ns : list NodeMeta) (k : Clock)
  | TReset
  | TSetOp (o : TraceOp)
  | TSetKey (v : jsstring)
  | TSetValue (v : jsstring)
  | TTick
  | TFocus (i : nat)
  | TResume (j : nat) (k : Clock)
  | TReply (j : nat) (out : fetch_outcome) (k : Clock).

Definition step (e : event) (s : TraceState) : TraceState :=
  let f := form s in
  match e with
  | TRun ns k => runTrace ns k s
  | TReset => reset s
  | TSetOp o => set_trace_form o (traceKey f) (traceValue f) (activeModule f) s
  | TSetKey v => set_trace_form (traceOp f) v (traceValue f) (activeModule f) s
  | TSetValue v => set_trace_form (traceOp f) (traceKey f) v (activeModule f) s
  | TTick => set_trace_form (traceOp f) (traceKey f) (traceValue f) (next_module (activeModule f)) s
  | TFocus i => set_trace_form (traceOp f) (traceKey f) (traceValue f) i s
  | TResume j k => {| form := f; core := resume j k (core s) |}
  | TReply j out k => {| form := f; core := reply j out k (core s) |}
  end.

Definition trace_run (es : list event) (s : TraceState) : TraceState := foldl (λ s e, step e s) s es.

Definition trace_init : TraceState := {|
  form := {| traceOp := TGet; traceKey := «"user:9421"»;
             traceValue := json_stringify (JObj [(«"tier"», JStr «"pro"»);
                                                 («"region"», JStr «"ap-south-1"»)]);
             activeModule := 0 |};
  core := {| traceRunning := false; traceResult := None; traceSteps := createTraceSteps;
             runs := []; sent := [] |} |}.

(** A module is focused with its button, and there is one for each module. *)
Definition on_screen (e : event) : bool :=
  match e with TFocus i => (i <? module_count)%nat | _ => true end.

Inductive trace_reachable : TraceState → Prop :=
  | trace_start : trace_reachable trace_init
  | trace_next e s : trace_reachable s → on_screen e = true → trace_reachable (step e s).

(** ** Invariant *)

(** The first [i] stages succeeded, stage [i] has status [st], the rest wait. *)
Definition shape (i : nat) (st : TraceStepStatus) : list TraceStepStatus :=
  replicate i Success ++ st :: replicate (4 - i) Idle.

(** A run past the third stage has a leader, past the fourth a quorum. *)
Definition run_ok (r : Run) : Prop :=
  r_index r ≤ 4 ∧ (2 ≤ r_index r → r_leader r ≠ None) ∧
  (3 ≤ r_index r → quorumReached (r_total r) (r_healthy r) = true).

(** The statuses agree with the run in progress or with the last result. *)
Definition core_ok (c : Core) : Prop :=
  title <$> traceSteps c = title <$> createTraceSteps ∧
  match runs c with
  | [] =>
      traceRunning c = false ∧
      match traceResult c with
      | None => status <$> traceSteps c = replicate 5 Idle
      | Some res =>
          if tr_ok res then status <$> traceSteps c = replicate 5 Success
          else ∃ i, i ≤ 4 ∧ status <$> traceSteps c = shape i Error
      end
  | [r] =>
      traceRunning c = true ∧ traceResult c = None ∧ run_ok r ∧
      status <$> traceSteps c = shape (r_index r) Running
  | _ => False
  end.

Definition trace_ok (s : TraceState) : Prop := activeModule (form s) < 4 ∧ core_ok (core s).

Lemma imap_fmap_invariant {A B} (f : nat → A → A) (g : A → B) l :
  (∀ i x, g (f i x) = g x) → g <$> imap f l = g <$> l.
Proof. revert f. induction l as [|x l IH]; intros f Hf; [done|]. cbn. rewrite Hf. f_equal. apply IH. intros. apply Hf. Qed.

Lemma updateStep_title i st rt l : title <$> updateStep i st rt l = title <$> l.
Proof. apply imap_fmap_invariant. intros j x. by destruct (j =? i). Qed.

Lemma updateStep_status i st rt l : status <$> updateStep i st rt l = <[i:=st]> (status <$> l).
Proof.
  unfold updateStep, array_mapi. revert i. induction l as [|x l IH]; intros i; [done|].
  destruct i as [|i]; cbn.
  - f_equal. by apply imap_fmap_invariant.
  - f_equal. apply IH.
Qed.

Lemma shape_update i st st' : i ≤ 4 → <[i:=st']> (shape i st) = shape i st'.
Proof. intros Hi. do 5 (destruct i as [|i]; [reflexivity|]). lia. Qed.

Lemma shape_next i st : i < 4 → <[S i:=st]> (shape i Success) = shape (S i) st.
Proof. intros Hi. do 4 (destruct i as [|i]; [reflexivity|]). lia. Qed.

Lemma shape_done : shape 4 Success = replicate 5 Success.
Proof. done. Qed.

(** ** The invariant is preserved *)

Lemma fail_run_ok r i e t0 t1 total c :
  i ≤ 4 → runs c = [] → title <$> traceSteps c = title <$> createTraceSteps →
  status <$> traceSteps c = shape i Running → core_ok (fail_run r i e t0 t1 total c).
Proof.
  intros Hi Hr Ht Hs. split; cbn; [by rewrite updateStep_title|]. rewrite Hr.
  split; [done|]. exists i. split; [done|]. by rewrite updateStep_status, Hs, shape_update.
Qed.

(** Entering stage [i] from a core whose statuses are [l]. *)
Lemma enter_stage_ok r i k c :
  i ≤ 4 → (3 ≤ i → r_leader r ≠ None) →
  (4 ≤ i → quorumReached (r_total r) (r_healthy r) = true) →
  runs c = [] → traceRunning c = true → traceResult c = None →
  title <$> traceSteps c = title <$> createTraceSteps →
  <[i:=Running]> (status <$> traceSteps c) = shape i Running →
  core_ok (enter_stage r i k c).
Proof.
  intros Hi Hl Hq Hr Hrun Hres Ht Hs. unfold enter_stage.
  destruct (stage_start r i) as [reqs|e] eqn:E.
  - split; cbn; [by rewrite updateStep_title|]. rewrite Hr. cbn.
    rewrite updateStep_status, Hs. unfold run_ok.
    cbn [at_stage r_index r_leader r_total r_healthy]. split_and!; try done.
    + intros H2. destruct (decide (i = 2)) as [->|]; [|apply Hl; lia].
      cbn [stage_start] in E. by destruct (r_leader r).
    + intros H3. destruct (decide (i = 3)) as [->|]; [|apply Hq; lia].
      cbn [stage_start] in E. by destruct (quorumReached _ _).
  - apply fail_run_ok; cbn; [done..|by rewrite updateStep_title|by rewrite updateStep_status].
Qed.

Lemma one_run c j r : core_ok c → runs c !! j = Some r → runs c = [r] ∧ j = 0.
Proof.
  intros [_ Hc] Hj. destruct (runs c) as [|r' [|]]; [done| |done].
  destruct j; by simplify_eq/=.
Qed.

Lemma running_ok c r :
  core_ok c → runs c = [r] →
  traceRunning c = true ∧ traceResult c = None ∧ run_ok r ∧
  title <$> traceSteps c = title <$> createTraceSteps ∧
  status <$> traceSteps c = shape (r_index r) Running.
Proof. intros [Ht Hc] Hr. rewrite Hr in Hc. naive_solver. Qed.

Lemma finish_stage_status r k c :
  r_index r ≤ 4 → status <$> traceSteps c = shape (r_index r) Running →
  status <$> traceSteps (finish_stage r k c) = shape (r_index r) Success.
Proof. intros Hi Hs. cbn. by rewrite updateStep_status, Hs, shape_update. Qed.

Lemma resume_ok j k c : core_ok c → core_ok (resume j k c).
Proof.
  intros Hc. unfold resume. destruct (runs c !! j) as [r|] eqn:Hj; [|done].
  destruct (one_run c j r Hc Hj) as [Hr ->].
  destruct (running_ok c r Hc Hr) as (Hrun & Hres & (Hi & Hl & Hq) & Ht & Hs).
  destruct (Nat.ltb_spec (r_index r) 4) as [Hlt|]; [|done].
  apply enter_stage_ok; cbn [finish_stage without_run runs traceRunning traceResult];
    try done; [intros; apply Hl; lia|intros; apply Hq; lia|by rewrite Hr| |].
  - cbn [traceSteps finish_stage without_run]. by rewrite updateStep_title.
  - change (<[S (r_index r):=Running]> (status <$> traceSteps (finish_stage r k (without_run 0 c)))
            = shape (S (r_index r)) Running).
    rewrite finish_stage_status by (cbn; done). by apply shape_next.
Qed.

Lemma reply_ok j out k c : core_ok c → core_ok (reply j out k c).
Proof.
  intros Hc. unfold reply. destruct (runs c !! j) as [r|] eqn:Hj; [|done].
  destruct (one_run c j r Hc Hj) as [Hr ->].
  destruct (running_ok c r Hc Hr) as (Hrun & Hres & (Hi & Hl & Hq) & Ht & Hs).
  destruct (Nat.eqb_spec (r_index r) 4) as [Heq|]; [|done].
  destruct (stage_reply out) as [body|e].
  - split; [cbn [traceSteps finish_stage without_run]; by rewrite updateStep_title|].
    cbn [runs without_run]. rewrite Hr. cbn [delete list_delete].
    split; [done|]. cbn [traceResult tr_ok traceSteps].
    rewrite finish_stage_status by done. by rewrite Heq.
  - apply fail_run_ok; cbn; [done|by rewrite Hr|done|]. by rewrite Hs, Heq.
Qed.

Lemma runTrace_ok ns k s : core_ok (core s) → core_ok (core (runTrace ns k s)).
Proof.
  intros Hc. unfold runTrace. destruct (jeqb _ _ || traceRunning (core s)) eqn:E; [done|].
  apply orb_false_elim in E as [_ E]. cbn [core].
  apply enter_stage_ok; cbn; try done; try lia.
  destruct Hc as [_ Hc]. destruct (runs (core s)) as [|r []]; [done| |done].
  rewrite E in Hc. by destruct Hc.
Qed.

Lemma step_ok e s : on_screen e = true → trace_ok s → trace_ok (step e s).
Proof.
  intros He [Hm Hc]. destruct e; cbn [step]; try by split.
  - split; [|by apply runTrace_ok]. unfold runTrace. by case_match.
  - unfold reset. destruct (traceRunning (core s)) eqn:E; [by split|]. split; [done|].
    destruct Hc as [_ Hc]. destruct (runs (core s)) as [|r []] eqn:Er; [|by rewrite E in Hc; destruct Hc|done].
    split; cbn; [done|]. by rewrite ?Er.
  - split; [|done]. apply (Nat.mod_upper_bound (S (activeModule (form s))) 4). done.
  - split; [|done]. by apply Nat.ltb_lt in He.
  - split; [done|]. by apply resume_ok.
  - split; [done|]. by apply reply_ok.
Qed.

Lemma reachable_ok s : trace_reachable s → trace_ok s.
Proof. induction 1; [split; [cbn; lia|done]|by apply step_ok]. Qed.

(** ** A whole run *)

(** The events that drive one run from the click to its end; those that come
    after the run has failed do nothing. *)
Definition drive (ns : list NodeMeta) (k0 k1 k2 k3 k4 k5 : Clock) (out : fetch_outcome) : list event :=
  [TRun ns k0; TResume 0 k1; TResume 0 k2; TResume 0 k3; TResume 0 k4; TReply 0 out k5].

(** The run a click starts. *)
Definition run_of (ns : list NodeMeta) (k : Clock) (f : Form) : Run := {|
  r_op := traceOp f; r_key := traceKey f; r_value := traceValue f;
  r_leader := node_id <$> leader ns; r_healthy := length (healthyNodes ns);
  r_total := length ns; r_startedAt := c_end k; r_index := 0; r_t0 := c_t0 k |}.

(** A core whose run [r] awaits stage [i], having sent [reqs]. *)
Definition awaits (r : Run) (i : nat) (reqs : list Request) (c : Core) : Prop :=
  (∃ t0, runs c = [at_stage r i t0]) ∧ sent c = reqs.

(** A core whose run has ended with the given verdict, having sent [reqs]. *)
Definition ended (verdict : bool) (reqs : list Request) (c : Core) : Prop :=
  runs c = [] ∧ sent c = reqs ∧ traceRunning c = false ∧
  ∃ res, traceResult c = Some res ∧ tr_ok res = verdict.

Lemma at_stage_start r i t0 j : stage_start (at_stage r i t0) j = stage_start r j.
Proof. done. Qed.

Lemma enter_stage_cases r i k c reqs :
  runs c = [] → sent c = reqs →
  match stage_start r i with
  | Normal more => awaits r i (reqs ++ more) (enter_stage r i k c)
  | Throw _ => ended false reqs (enter_stage r i k c)
  end.
Proof.
  intros Hr Hs. unfold enter_stage. destruct (stage_start r i) as [more|e].
  - split; cbn; [rewrite Hr; by eexists|by rewrite Hs].
  - split_and!; cbn; try done. eauto.
Qed.

Lemma resume_cases r i k c reqs :
  i < 4 → awaits r i reqs c →
  match stage_start r (S i) with
  | Normal more => awaits r (S i) (reqs ++ more) (resume 0 k c)
  | Throw _ => ended false reqs (resume 0 k c)
  end.
Proof.
  intros Hi [[t0 Hr] Hs]. unfold resume. rewrite Hr. cbn [lookup list_lookup].
  change (r_index (at_stage r i t0)) with i. rewrite (proj2 (Nat.ltb_lt i 4)) by done.
  assert (runs (finish_stage (at_stage r i t0) k (without_run 0 c)) = []) as Hr'
    by (cbn; by rewrite Hr).
  pose proof (enter_stage_cases (at_stage r i t0) (S i) k _ reqs Hr' Hs) as He.
  rewrite at_stage_start in He. by destruct (stage_start r (S i)).
Qed.

Lemma resume_ended v reqs j k c : ended v reqs c → ended v reqs (resume j k c).
Proof. intros He. unfold resume. pose proof He as (-> & _). done. Qed.

Lemma reply_ended v reqs j out k c : ended v reqs c → ended v reqs (reply j out k c).
Proof. intros He. unfold reply. pose proof He as (-> & _). done. Qed.

Lemma reply_cases r k c reqs out :
  awaits r 4 reqs c →
  ended (match stage_reply out with Normal _ => true | Throw _ => false end) reqs (reply 0 out k c).
Proof.
  intros [[t0 Hr] Hs]. unfold reply. rewrite Hr. cbn [lookup list_lookup].
  change (r_index (at_stage r 4 t0) =? 4) with true. cbn match.
  destruct (stage_reply out); split_and!; cbn; try done; try (by rewrite Hr); eauto.
Qed.

Lemma stage_reply_ok out :
  (∃ b, stage_reply out = Normal b) ↔ ∃ st b, out = Responded st b ∧ status_ok st = true.
Proof.
  split.
  - intros [b Hb]. destruct out as [st body|e]; [|done]. exists st, body. split; [done|].
    cbn in Hb. destruct (status_ok st); [done|]. repeat case_match; simplify_eq.
  - intros (st & b & -> & Hst). cbn. rewrite Hst. eauto.
Qed.

(** What a driven run sends, and its verdict. *)
Definition run_sends (r : Run) : list Request :=
  match r_leader r, quorumReached (r_total r) (r_healthy r), trace_request r with
  | Some _, true, Normal req => [req]
  | _, _, _ => []
  end.

Definition run_verdict (r : Run) (out : fetch_outcome) : bool :=
  match run_sends r, stage_reply out with
  | _ :: _, Normal _ => true
  | _, _ => false
  end.

Lemma drive_ends ns k0 k1 k2 k3 k4 k5 out s :
  runs (core s) = [] → traceRunning (core s) = false → trim (traceKey (form s)) ≠ [] →
  let r := run_of ns k0 (form s) in
  ended (run_verdict r out) (sent (core s) ++ run_sends r)
    (core (trace_run (drive ns k0 k1 k2 k3 k4 k5 out) s)).
Proof.
  intros Hr Hrun Hkey r.
  set (c0 := core (runTrace ns k0 s)).
  assert (awaits r 0 (sent (core s)) c0) as H0.
  { subst c0. unfold runTrace. rewrite Hrun.
    assert (jeqb (trim (traceKey (form s))) [] = false) as -> by by apply bool_decide_eq_false.
    pose proof (enter_stage_cases r 0 k0 {| traceRunning := true; traceResult := None;
      traceSteps := createTraceSteps; runs := runs (core s); sent := sent (core s) |}
      (sent (core s)) Hr eq_refl) as He.
    cbn [stage_start] in He. rewrite app_nil_r in He. exact He. }
  change (core (trace_run _ s)) with
    (reply 0 out k5 (resume 0 k4 (resume 0 k3 (resume 0 k2 (resume 0 k1 c0))))).
  pose proof (resume_cases r 0 k1 c0 _ ltac:(lia) H0) as H1. cbn [stage_start] in H1.
  rewrite app_nil_r in H1.
  pose proof (resume_cases r 1 k2 _ _ ltac:(lia) H1) as H2. cbn [stage_start] in H2.
  unfold run_verdict, run_sends.
  destruct (r_leader r) as [id|]; [|rewrite app_nil_r; by apply reply_ended, resume_ended, resume_ended].
  rewrite app_nil_r in H2.
  pose proof (resume_cases r 2 k3 _ _ ltac:(lia) H2) as H3. cbn [stage_start] in H3.
  destruct (quorumReached _ _); [|rewrite app_nil_r; by apply reply_ended, resume_ended].
  rewrite app_nil_r in H3.
  pose proof (resume_cases r 3 k4 _ _ ltac:(lia) H3) as H4. cbn [stage_start] in H4.
  destruct (trace_request r) as [req|e]; [|rewrite app_nil_r; by apply reply_ended].
  pose proof (reply_cases r k5 _ _ out H4) as H5. by destruct (stage_reply out).
Qed.

(** The operation of the explorers a trace stands for. *)
Definition op_of (o : TraceOp) : Op := match o with TGet => GET | TSet => SET | TDel => DEL end.

(** Events of the operator and of the focus timer, as opposed to those of a run. *)
Definition is_ui (e : event) : bool :=
  match e with TResume _ _ | TReply _ _ _ => false | _ => true end.

Lemma ui_step_core e s :
  is_ui e = true → traceRunning (core s) = true → core (step e s) = core s.
Proof.
  intros He Hrun. destruct e; cbn [step]; try done.
  - unfold runTrace. by rewrite Hrun, orb_true_r.
  - unfold reset. by rewrite Hrun.
Qed.

Lemma idle_no_runs s : trace_reachable s → traceRunning (core s) = false → runs (core s) = [].
Proof.
  intros [_ [_ Hc]]%reachable_ok Hrun. destruct (runs (core s)) as [|r []]; [done| |done].
  rewrite Hrun in Hc. by destruct Hc.
Qed.

Lemma trace_request_handled `{Framework} r req :
  deliverable (op_of (r_op r)) (r_key r) (r_value r) → trace_request r = Normal req →
  handled env req (Some (call (op_of (r_op r)) (r_key r) (r_value r) None)).
Proof.
  intros Hd. unfold trace_request. destruct (r_op r); cbn [op_of call deliverable] in *; intros E.
  - by apply (read_request_handled env (r_key r) None).
  - simplify_eq. destruct Hd as (? & ? & ?). by apply set_request_handled.
  - by apply delete_request_handled.
Qed.

Lemma trace_request_sendable r :
  (∃ req, trace_request r = Normal req) ↔ r_op r = TSet ∨ encodeURIComponent (r_key r) ≠ None.
Proof.
  unfold trace_request, key_request. destruct (r_op r); split;
    try (by intros _; left); try (by eexists);
    destruct (encodeURIComponent (r_key r)); naive_solver.
Qed.

Lemma leader_id ns : (node_id <$> leader ns) ≠ None ↔ leader ns ≠ None.
Proof. by destruct (leader ns). Qed.

(** ** Properties *)

(** C14: in every reachable state the five stages read: a number of successes,
    then at most one running or failed stage, then idle ones; a stage is running
    exactly while a run is in progress, at most one run is in progress, and a
    finished run shows five successes or one failure, as its result says.  The
    focused module always exists. *)
Theorem trace_statuses_consistent s : trace_reachable s → trace_ok s.
Proof. apply reachable_ok. Qed.

(** C4: every run ends: after the four pauses and the reply, at the latest, the
    runner is idle again with a result, and the result is a success exactly when
    the nodes had a healthy leader and a healthy majority at the click, the key
    could be sent, and the gateway answered with a success status. *)
Theorem trace_verdict ns k0 k1 k2 k3 k4 k5 out s :
  trace_reachable s → traceRunning (core s) = false → trim (traceKey (form s)) ≠ [] →
  let s' := trace_run (drive ns k0 k1 k2 k3 k4 k5 out) s in
  traceRunning (core s') = false ∧
  ∃ res, traceResult (core s') = Some res ∧
    (tr_ok res = true ↔
      leader ns ≠ None ∧ length ns < 2 * length (healthyNodes ns) ∧
      (traceOp (form s) = TSet ∨ encodeURIComponent (traceKey (form s)) ≠ None) ∧
      ∃ st b, out = Responded st b ∧ status_ok st = true).
Proof.
  intros Hs Hrun Hkey s'.
  destruct (drive_ends ns k0 k1 k2 k3 k4 k5 out s) as (_ & _ & Hend & res & Hres & Hok);
    [by apply idle_no_runs|done..|]. fold s' in Hend, Hres.
  split; [done|]. exists res. split; [done|]. rewrite Hok.
  set (r := run_of ns k0 (form s)). unfold run_verdict, run_sends.
  rewrite <-(leader_id ns), <-stage_reply_ok, <-Nat.ltb_lt, <-quorum_majority.
  pose proof (trace_request_sendable r) as Hreq. cbn [r r_op r_key run_of] in Hreq. rewrite <-Hreq.
  fold r. change (node_id <$> leader ns) with (r_leader r).
  change (quorum (length ns) <=? length (healthyNodes ns)) with (quorumReached (r_total r) (r_healthy r)).
  destruct (r_leader r), (quorumReached _ _), (trace_request r), (stage_reply out);
    (split; [intros [=]; split_and!; eauto|intros (? & ? & [? ?] & [? ?]); congruence]).
Qed.

(** C13: a run sends exactly one request when the nodes had a healthy leader and a
    healthy majority at the click and the key can be encoded (a write needs no
    encoding), and none otherwise.  For a command the gateway accepts (no lone
    surrogates; for a read or a delete no slash in the key and neither [.] nor
    [..]) that request reaches the handler of the command that was in the form at
    the click. *)
Theorem trace_sends_only_with_quorum `{Framework} ns k0 k1 k2 k3 k4 k5 out s :
  trace_reachable s → traceRunning (core s) = false → trim (traceKey (form s)) ≠ [] →
  let o := op_of (traceOp (form s)) in
  let ready := leader ns ≠ None ∧ length ns < 2 * length (healthyNodes ns) ∧
    (o = SET ∨ encodeURIComponent (traceKey (form s)) ≠ None) in
  ∃ reqs, sent (core (trace_run (drive ns k0 k1 k2 k3 k4 k5 out) s)) = sent (core s) ++ reqs ∧
    (ready → ∃ req, reqs = [req] ∧
       (deliverable o (traceKey (form s)) (traceValue (form s)) →
        handled env req (Some (call o (traceKey (form s)) (traceValue (form s)) None)))) ∧
    (¬ ready → reqs = []).
Proof.
  intros Hs Hrun Hkey o ready.
  destruct (drive_ends ns k0 k1 k2 k3 k4 k5 out s) as (_ & Hsent & _);
    [by apply idle_no_runs|done..|].
  eexists. split; [done|]. set (r := run_of ns k0 (form s)).
  assert (ready ↔ r_leader r ≠ None ∧ quorumReached (r_total r) (r_healthy r) = true ∧
    ∃ req, trace_request r = Normal req) as Hready.
  { unfold ready. rewrite (trace_request_sendable r), <-(leader_id ns), <-Nat.ltb_lt, <-quorum_majority.
    change (quorum (length ns) <=? length (healthyNodes ns)) with (quorumReached (r_total r) (r_healthy r)).
    assert (o = SET ↔ r_op r = TSet) as -> by (subst o; cbn; by destruct (traceOp (form s))). done. }
  rewrite Hready. unfold run_sends. split.
  - intros (Hl & -> & req & E). rewrite E. destruct (r_leader r); [|done].
    exists req. split; [done|]. intros Hd. by apply (trace_request_handled r).
  - intros Hn. destruct (r_leader r), (quorumReached _ _), (trace_request r); try done.
    destruct Hn. eauto.
Qed.

(** A run in progress cannot be disturbed: editing the form, pressing Run or
    Reset again and the focus timer leave its stages, its result and its requests
    alone. *)
Theorem running_trace_is_isolated es s :
  Forall (λ e, is_ui e = true) es → traceRunning (core s) = true →
  core (trace_run es s) = core s.
Proof.
  intros He. revert s. induction He as [|e es He _ IH]; intros s Hrun; [done|].
  cbn [trace_run foldl]. change (foldl _ _ es) with (trace_run es (step e s)).
  rewrite IH; rewrite ui_step_core; done.
Qed.

End Trace.

(** ** Witnesses *)

Definition sample_clock : Clock :=
  {| c_end := n_zero; c_t0 := n_zero; c_fail := n_zero; c_total := n_zero |}.

Definition sample_form_env : Env := Build_Env None None.

Lemma trace_statuses_consistent_witness :
  @trace_ok (@step sample_platform sample_form_env (TRun (nodes initial_state) sample_clock) trace_init).
Proof.
  apply (@trace_statuses_consistent sample_platform sample_form_env).
  apply trace_next; [apply trace_start|reflexivity].
Defined.

Lemma trace_verdict_witness :
  let k := sample_clock in
  let s' := @trace_run sample_platform sample_form_env
    (drive (nodes initial_state) k k k k k k (Responded 200 None)) trace_init in
  traceRunning (core s') = false ∧ ∃ res, traceResult (core s') = Some res ∧ tr_ok res = true.
Proof.
  intros k s'.
  destruct (@trace_verdict sample_platform sample_form_env (nodes initial_state) k k k k k k
    (Responded 200 None) trace_init (trace_start _) eq_refl ltac:(vm_compute; discriminate))
    as (Hrun & res & Hres & Hok).
  split; [exact Hrun|]. exists res. split; [exact Hres|]. apply Hok.
  split; [vm_compute; discriminate|]. split; [vm_compute; lia|].
  split; [right; vm_compute; discriminate|]. exists 200%Z, None. split; reflexivity.
Defined.

Lemma trace_sends_only_with_quorum_witness :
  let k := sample_clock in
  let run ns := sent (core (@trace_run sample_platform sample_form_env
    (drive ns k k k k k k (Responded 200 None)) trace_init)) in
  run (nodes (killNode_optimistic 2 (killNode_optimistic 1 initial_state))) = [] ∧
  ∃ req, run (nodes initial_state) = [req] ∧
    handled (H := sample_framework) (H0 := sample_platform) sample_form_env req
      (Some (GetKey «"user:9421"» None)).
Proof.
  intros k run.
  pose proof (λ ns, @trace_sends_only_with_quorum sample_platform sample_form_env sample_framework
    ns k k k k k k (Responded 200 None) trace_init (trace_start _) eq_refl ltac:(vm_compute; discriminate)) as H.
  split.
  - destruct (H (nodes (killNode_optimistic 2 (killNode_optimistic 1 initial_state)))) as (reqs & Hr & _ & Hno).
    unfold run. rewrite Hr, Hno; [reflexivity|]. intros [Hl _]. apply Hl. reflexivity.
  - destruct (H (nodes initial_state)) as (reqs & Hr & Hyes & _). destruct Hyes as (req & -> & Hh).
    + split; [vm_compute; discriminate|]. split; [vm_compute; lia|]. right. vm_compute. discriminate.
    + exists req. split; [exact Hr|]. apply Hh.
      split_and!; [split; [by apply literal_units_ok|vm_compute; discriminate]|done| |done|done].
      apply (bool_decide_unpack _). vm_compute. exact I.
Defined.

Lemma running_trace_is_isolated_witness :
  let s := @step sample_platform sample_form_env (TRun (nodes initial_state) sample_clock) trace_init in
  core (@trace_run sample_platform sample_form_env [TSetKey []; TReset; TTick] s) = core s.
Proof.
  intros s. apply (@running_trace_is_isolated sample_platform sample_form_env);
    [repeat constructor|reflexivity].
Defined.
