(* ===== verification/Consensus.v ===== *)
(** * The consensus views (RaftView in App.tsx, pages/Raft.tsx, NodeCard.tsx)

    RaftView runs the store's kill and restart actions and reports their results.
    pages/Raft.tsx talks to the gateway itself and, after a kill, polls the
    cluster every 200 ms for a new leader.  NodeCard guards its two buttons with
    pending flags.  All of them are asynchronous: replies arrive in any order. *)

From S2P Require Import Prelude JsNumber JsString Json Text RuntimeConfig Store Uri Api BoundedLog.

Local Open Scope list_scope.

(** ** RaftView *)

Module RaftView.

Record State := { sys : Sys; events : list jsstring }.

Definition ready_event : jsstring := «"Cluster initialized. All nodes in FOLLOWER state."».

Definition init : State := {| sys := sys_init; events := [ready_event] |}.

(** [push] *)
Definition push (e : jsstring) (l : list jsstring) : list jsstring := slice_first 30 (e :: l).

Section RaftView.

Context `{Platform}.

Definition done_word (k : action_kind) : jsstring :=
  match k with Kill => «" killed"» | Restart => «" restarted"» end.

Definition failed_word (k : action_kind) : jsstring :=
  match k with Kill => «"Kill failed for node "» | Restart => «"Restart failed for node "» end.

(** The text the click handlers push; the conversion of the detail to text may
    throw, and then nothing is pushed. *)
Definition report (k : action_kind) (id : Z) (r : NodeActionResult) : completion jsstring :=
  if ok r then
    Normal («"Node "» ++ show_Z id ++ done_word k ++
      (if nullish (simulated r) false then «" (simulated)."» else «"."»))
  else match js_String (detail r) with
       | Normal d => Normal (failed_word k ++ show_Z id ++ «": "» ++ d)
       | Throw e => Throw e
       end.

(** The buttons: Kill is enabled for a healthy node, Restart for a down one. *)
Definition enabled (k : action_kind) (n : NodeMeta) : bool :=
  match k with Kill => healthy n | Restart => negb (healthy n) end.

(** A click on the button of the [i]-th node, the settling of a request, or
    something else that changes the store. *)
Inductive event :=
  | RClick (k : action_kind) (i : nat)
  | RSettle (i : nat) (o : fetch_outcome)
  | ROther (e : Store.event).

Definition is_other (e : Store.event) : bool :=
  match e with ESetNodes _ | EPushMetrics _ | ESetStatus _ => true | _ => false end.

(** The store event an event of the view gives rise to. *)
Definition store_event (e : event) (s : State) : option Store.event :=
  match e with
  | RClick k i =>
      n ← nodes (store (sys s)) !! i;
      if enabled k n then Some (EStart k (node_id n)) else None
  | RSettle i o => Some (ESettle i o)
  | ROther e => if is_other e then Some e else None
  end.

(** What the view writes to its log. *)
Definition reports (e : event) (s : State) : list jsstring :=
  match e with
  | RSettle i o =>
      match pending (sys s) !! i with
      | Some p =>
          match report (p_kind p) (p_id p)
                  (snd (action_settle (p_kind p) (p_previous p) o (store (sys s)))) with
          | Normal t => [t]
          | Throw _ => []
          end
      | None => []
      end
  | _ => []
  end.

Definition step (e : event) (s : State) : State := {|
  sys := match store_event e s with Some e' => sys_step e' (sys s) | None => sys s end;
  events := foldl (λ l t, push t l) (events s) (reports e s) |}.

Definition run (es : list event) (s : State) : State := foldl (λ s e, step e s) s es.

#[global] Instance event_log : BoundedLog State event jsstring := {|
  bl_limit := 30; bl_step := step; bl_rows := events; bl_produces := reports |}.

#[global] Instance event_log_laws : BoundedLogLaws State event jsstring.
Proof.
  intros e s Hs. cbn [bl_rows bl_step bl_limit bl_produces event_log events step] in *.
  assert (reports e s = [] ∨ ∃ t, reports e s = [t]) as [->|[t ->]]; [|cbn|done].
  - destruct e as [k i|i o|e]; cbn [reports]; auto.
    destruct (pending (sys s) !! i); auto. destruct (report _ _ _); eauto.
  - unfold slice_first. by rewrite take_ge.
Qed.

End RaftView.

End RaftView.

(** ** NodeCard *)

Module NodeCard.

(** The two flags and the requests in flight. *)
Record State := {
  pendingKill : bool;
  pendingRestart : bool;
  kills : nat;
  restarts : nat;
}.

Definition init : State := {| pendingKill := false; pendingRestart := false; kills := 0; restarts := 0 |}.

(** [kill] and [restart] up to the request, and their [finally] clauses. *)
Definition kill (s : State) : State := {|
  pendingKill := true; pendingRestart := pendingRestart s; kills := S (kills s);
  restarts := restarts s |}.

Definition kill_finally (s : State) : State := {|
  pendingKill := false; pendingRestart := pendingRestart s; kills := pred (kills s);
  restarts := restarts s |}.

Definition restart (s : State) : State := {|
  pendingKill := pendingKill s; pendingRestart := true; kills := kills s;
  restarts := S (restarts s) |}.

Definition restart_finally (s : State) : State := {|
  pendingKill := pendingKill s; pendingRestart := false; kills := kills s;
  restarts := pred (restarts s) |}.

Definition kill_disabled (n : NodeMeta) (s : State) : bool := negb (healthy n) || pendingKill s.
Definition restart_disabled (n : NodeMeta) (s : State) : bool := healthy n || pendingRestart s.

(** Clicks with the node as last rendered; a request settles, whatever its
    outcome, only when one is in flight. *)
Inductive event :=
  | CKill (n : NodeMeta)
  | CRestart (n : NodeMeta)
  | CKillSettled
  | CRestartSettled.

Definition step (e : event) (s : State) : State :=
  match e with
  | CKill n => if kill_disabled n s then s else kill s
  | CRestart n => if restart_disabled n s then s else restart s
  | CKillSettled => if (0 <? kills s)%nat then kill_finally s else s
  | CRestartSettled => if (0 <? restarts s)%nat then restart_finally s else s
  end.

Definition run (es : list event) (s : State) : State := foldl (λ s e, step e s) s es.

(** Each flag says that exactly one request of its kind is in flight. *)
Definition flags_ok (s : State) : Prop :=
  kills s = (if pendingKill s then 1 else 0) ∧ restarts s = (if pendingRestart s then 1 else 0).

Lemma step_flags e s : flags_ok s → flags_ok (step e s).
Proof.
  destruct s as [pk pr k r]. unfold flags_ok. cbn. intros [-> ->].
  destruct e as [n|n| |]; unfold step, kill_disabled, restart_disabled; cbn;
    destruct pk, pr; try destruct (healthy n); done.
Qed.

(** NodeCard never has two kills or two restarts of its node in flight, and
    each pending flag is set exactly while the request of its kind is. *)
Theorem pending_flags_exact es : flags_ok (run es init).
Proof.
  assert (∀ s, flags_ok s → flags_ok (run es s)) as Hrun; [|by apply Hrun].
  induction es as [|e es IH]; intros s Hs; [done|]. by apply IH, step_flags.
Qed.

End NodeCard.

(** ** pages/Raft.tsx *)

Module RaftPage.

Inductive Color := Zinc400 | Zinc300 | Amber | Red300 | Red400 | Teal | Sky.

Record EventRow := { ts : number; msg : jsstring; color : Color }.

(** A kill or restart whose request is in flight, with the leader at the click. *)
Record Flight := { f_kind : action_kind; f_id : Z; f_prevLeader : option Z }.

(** An interval that watches for an election: the leader before the kill, the
    attempts counted so far, whether the interval is still set, and the number of
    its status requests in flight. *)
Record Poll := { prevLeader : option Z; attempts : nat; active : bool; inflight : nat }.

Record State := { events : list EventRow; flights : list Flight; polls : list Poll }.

Definition log (t : number) (m : jsstring) (c : Color) (l : list EventRow) : list EventRow :=
  {| ts := t; msg := m; color := c |} :: slice_first 79 l.

Definition init (t : number) : State := {|
  events := [ {| ts := t; msg := «"Cluster ready. Kill a node to trigger failover."»;
                 color := Zinc400 |} ];
  flights := []; polls := [] |}.

Section RaftPage.

Context `{Platform}.

Definition start_text (k : action_kind) (id : Z) : jsstring :=
  match k with Kill => «"Killing node "» | Restart => «"Restarting node "» end ++ show_Z id ++ «"..."».

Definition start_color (k : action_kind) : Color := match k with Kill => Amber | Restart => Zinc300 end.

Definition done_text (k : action_kind) (id : Z) : jsstring :=
  «"Node "» ++ show_Z id ++
  match k with
  | Kill => «" stopped. Watching for new leader election..."»
  | Restart => «" is back online."»
  end.

Definition done_color (k : action_kind) : Color := match k with Kill => Red300 | Restart => Sky end.

Definition failed_text (k : action_kind) : jsstring :=
  match k with Kill => «"Kill failed: "» | Restart => «"Restart failed: "» end.

Definition error_text (k : action_kind) : jsstring :=
  match k with Kill => «"Kill request error: "» | Restart => «"Restart request error: "» end.

(** [`${v}`] of [err.message], [undefined] included. *)
Definition show_message (e : thrown) : jsstring := nullish (message_of e) «"undefined"».

(** The reply to a kill or restart: accepted, or the reason shown. *)
Definition action_reply (status : Z) (data : json) : completion (option jsstring) :=
  let refused : completion (option jsstring) :=
    match get_prop data «"stderr"», get_prop data «"detail"» with
    | Normal e, Normal d =>
        match js_String (json_nullish e (json_nullish d (JStr «"unknown error"»))) with
        | Normal t => Normal (Some t)
        | Throw x => Throw x
        end
    | Throw x, _ | _, Throw x => Throw x
    end in
  if negb (status_ok status) then refused
  else match get_prop data «"ok"» with
       | Normal o => if truthy o then Normal None else refused
       | Throw x => Throw x
       end.

Definition action_outcome (o : fetch_outcome) : completion (option jsstring) :=
  match o with
  | Rejected e => Throw e
  | Responded _ None => Throw (ThrownError syntax_error_message)
  | Responded status (Some data) => action_reply status data
  end.

(** ** The election watch *)

(** [status.nodes.find((n) => n.is_leader && n.healthy)] *)
Fixpoint find_leader (l : list json) : completion (option json) :=
  match l with
  | [] => Normal None
  | n :: l' =>
      match get_prop n «"is_leader"» with
      | Throw e => Throw e
      | Normal a =>
          if truthy a then
            match get_prop n «"healthy"» with
            | Throw e => Throw e
            | Normal b => if truthy b then Normal (Some n) else find_leader l'
            end
          else find_leader l'
      end
  end.

(** [id !== prevLeader], for a parsed id. *)
Definition differs (id : option json) (prev : option Z) : bool :=
  match id, prev with
  | None, None => false
  | Some (JNum x), Some z => negb (n_eq x (n_of_Z z))
  | _, _ => true
  end.

(** The text for a new leader, if the status shows one. *)
Definition new_leader (prev : option Z) (o : fetch_outcome) : completion (option jsstring) :=
  match o with
  | Rejected e => Throw e
  | Responded _ None => Throw (ThrownError syntax_error_message)
  | Responded _ (Some status) =>
      match get_prop status «"nodes"» with
      | Normal (Some (JArr l)) =>
          match find_leader l with
          | Normal (Some next) =>
              match get_prop next «"node_id"» with
              | Normal id =>
                  if differs id prev then
                    match id with
                    | None => Normal (Some «"New leader elected: Node undefined"»)
                    | Some v =>
                        match js_String v with
                        | Normal t => Normal (Some («"New leader elected: Node "» ++ t))
                        | Throw e => Throw e
                        end
                    end
                  else Normal None
              | Throw e => Throw e
              end
          | Normal None => Normal None
          | Throw e => Throw e
          end
      | Normal _ => Throw (ThrownError type_error_message)
      | Throw e => Throw e
      end
  end.

Definition timeout_text : jsstring := «"Timeout waiting for election"».

(** One reply to a status request: the texts it logs, in order, and the watch
    after it. *)
Definition poll_reply (o : fetch_outcome) (p : Poll) : list (jsstring * Color) * Poll :=
  let found := match new_leader (prevLeader p) o with Normal (Some t) => [(t, Teal)] | _ => [] end in
  let attempts' := S (attempts p) in
  let expired := (20 <? attempts')%nat in
  (found ++ (if expired then [(timeout_text, Red400)] else []),
   {| prevLeader := prevLeader p; attempts := attempts';
      active := active p && bool_decide (found = []) && negb expired;
      inflight := pred (inflight p) |}).

(** The interval fires. *)
Definition poll_tick (p : Poll) : Poll :=
  if active p then {| prevLeader := prevLeader p; attempts := attempts p; active := true;
                      inflight := S (inflight p) |} else p.

(** ** Events *)

(** The nodes of a click are those of the last render. *)
Inductive event :=
  | PClick (k : action_kind) (id : Z) (ns : list NodeMeta) (t : number)
  | PReply (i : nat) (o : fetch_outcome) (t : number)
  | PTick (j : nat)
  | PStatus (j : nat) (o : fetch_outcome) (t : number).

Definition log_all (t : number) (l : list (jsstring * Color)) (es : list EventRow) : list EventRow :=
  foldl (λ es m, log t (fst m) (snd m) es) es l.

(** What an event logs. *)
Definition logs (e : event) (s : State) : list (jsstring * Color) :=
  match e with
  | PClick k id _ _ => [(start_text k id, start_color k)]
  | PReply i o _ =>
      match flights s !! i with
      | None => []
      | Some f =>
          match action_outcome o with
          | Normal None => [(done_text (f_kind f) (f_id f), done_color (f_kind f))]
          | Normal (Some reason) => [(failed_text (f_kind f) ++ reason, Red400)]
          | Throw x => [(error_text (f_kind f) ++ show_message x, Red400)]
          end
      end
  | PTick _ => []
  | PStatus j o _ =>
      match polls s !! j with
      | Some p => if (0 <? inflight p)%nat then fst (poll_reply o p) else []
      | None => []
      end
  end.

Definition event_time (e : event) : number :=
  match e with PClick _ _ _ t | PReply _ _ t | PStatus _ _ t => t | PTick _ => n_zero end.

Definition next_flights (e : event) (s : State) : list Flight :=
  match e with
  | PClick k id ns _ =>
      flights s ++ [ {| f_kind := k; f_id := id; f_prevLeader := node_id <$> array_find is_leader ns |} ]
  | PReply i _ _ => delete i (flights s)
  | _ => flights s
  end.

Definition next_polls (e : event) (s : State) : list Poll :=
  match e with
  | PReply i o _ =>
      match flights s !! i, action_outcome o with
      | Some {| f_kind := Kill; f_prevLeader := prev |}, Normal None =>
          polls s ++ [ {| prevLeader := prev; attempts := 0; active := true; inflight := 0 |} ]
      | _, _ => polls s
      end
  | PTick j => match polls s !! j with Some p => <[j := poll_tick p]> (polls s) | None => polls s end
  | PStatus j o _ =>
      match polls s !! j with
      | Some p => if (0 <? inflight p)%nat then <[j := snd (poll_reply o p)]> (polls s) else polls s
      | None => polls s
      end
  | PClick _ _ _ _ => polls s
  end.

Definition step (e : event) (s : State) : State := {|
  events := log_all (event_time e) (logs e s) (events s);
  flights := next_flights e s;
  polls := next_polls e s |}.

Definition run (es : list event) (s : State) : State := foldl (λ s e, step e s) s es.

(** ** The log and the watches of a run *)

(** The rows an event adds, in order. *)
Definition produces (e : event) (s : State) : list EventRow :=
  (λ m, {| ts := event_time e; msg := fst m; color := snd m |}) <$> logs e s.

#[global] Instance page_log : BoundedLog State event EventRow := {|
  bl_limit := 80; bl_step := step; bl_rows := events; bl_produces := produces |}.

Lemma log_all_rows t l es :
  length es ≤ 80 →
  log_all t l es =
  slice_first 80 (rev ((λ m, {| ts := t; msg := fst m; color := snd m |}) <$> l) ++ es).
Proof.
  revert es. induction l as [|m l IH]; intros es Hes; cbn.
  { unfold slice_first. by rewrite take_ge. }
  change (foldl _ _ l) with (log_all t l (log t (fst m) (snd m) es)).
  rewrite IH by (cbn; rewrite slice_first_length; lia).
  unfold log. rewrite push_slice. unfold slice_first. rewrite take_app_take, <-app_assoc. done.
Qed.

#[global] Instance page_log_laws : BoundedLogLaws State event EventRow.
Proof. intros e s Hs. by apply log_all_rows. Qed.

(** An interval that is still set has not used up its attempts. *)
Definition watch_ok (p : Poll) : Prop := active p = true → attempts p ≤ 20.

Lemma poll_reply_ok o p : watch_ok (snd (poll_reply o p)).
Proof.
  unfold watch_ok, poll_reply. cbn [snd active attempts]. intros Ha.
  apply andb_true_iff in Ha as [_ Ha]. lia.
Qed.

Lemma poll_tick_ok p : watch_ok p → watch_ok (poll_tick p).
Proof. intros Hp. unfold poll_tick. destruct (active p) eqn:E; [|done]. intros _. by apply Hp. Qed.

Lemma step_watches e s : Forall watch_ok (polls s) → Forall watch_ok (polls (step e s)).
Proof.
  intros Hs. destruct e as [k id ns t|i o t|j|j o t]; cbn [step polls next_polls]; [done|..].
  - destruct (flights s !! i) as [[[] id prev]|]; [|done..].
    destruct (action_outcome o) as [[]|]; [done| |done].
    apply Forall_app. split; [done|]. apply Forall_singleton. intros _. cbn. lia.
  - destruct (polls s !! j) as [p|] eqn:E; [|done]. apply Forall_insert; [done|].
    apply poll_tick_ok. by eapply Forall_lookup_1.
  - destruct (polls s !! j) as [p|] eqn:E; [|done]. destruct (0 <? inflight p); [|done].
    apply Forall_insert; [done|]. apply poll_reply_ok.
Qed.

(** ** One watch in a run of the page *)

Definition fresh (prev : option Z) : Poll :=
  {| prevLeader := prev; attempts := 0; active := true; inflight := 0 |}.

(** The status reply an event delivers to watch [j]. *)
Definition status_of (j : nat) (e : event) (s : State) : list fetch_outcome :=
  match e, polls s !! j with
  | PStatus i o _, Some p => if (i =? j)%nat && (0 <? inflight p)%nat then [o] else []
  | _, _ => []
  end.

(** All replies to watch [j] in a run, and what they log. *)
Fixpoint watch_replies (j : nat) (es : list event) (s : State) : list fetch_outcome :=
  match es with
  | [] => []
  | e :: es' => status_of j e s ++ watch_replies j es' (step e s)
  end.

Fixpoint watch_log (j : nat) (es : list event) (s : State) : list (jsstring * Color) :=
  match es with
  | [] => []
  | e :: es' =>
      (match e with PStatus i _ _ => if (i =? j)%nat then logs e s else [] | _ => [] end)
      ++ watch_log j es' (step e s)
  end.

(** The interval of watch [j] only fires when its last request was answered. *)
Fixpoint prompt (j : nat) (es : list event) (s : State) : bool :=
  match es with
  | [] => true
  | e :: es' =>
      (match e, polls s !! j with
       | PTick i, Some p => negb (i =? j)%nat || (inflight p =? 0)%nat
       | _, _ => true
       end) && prompt j es' (step e s)
  end.

(** The first reply that shows a new leader: its position and its text. *)
Fixpoint first_leader (prev : option Z) (os : list fetch_outcome) : option (nat * jsstring) :=
  match os with
  | [] => None
  | o :: os' =>
      match new_leader prev o with
      | Normal (Some t) => Some (0, t)
      | _ => (λ x, (S (fst x), snd x)) <$> first_leader prev os'
      end
  end.

(** What reply number [i] logs: the new leader it shows, and a timeout from the
    21st reply on. *)
Definition reply_texts (prev : option Z) (i : nat) (o : fetch_outcome) : list (jsstring * Color) :=
  match new_leader prev o with Normal (Some t) => [(t, Teal)] | _ => [] end
  ++ (if (20 <=? i)%nat then [(timeout_text, Red400)] else []).

(** A step of the page is a reply to watch [j], a firing of its interval, or leaves
    the watch alone. *)
Lemma step_watch j e s p :
  polls s !! j = Some p →
  (∃ o t, e = PStatus j o t ∧ 0 < inflight p ∧ status_of j e s = [o] ∧
     polls (step e s) !! j = Some (snd (poll_reply o p)) ∧ logs e s = fst (poll_reply o p)) ∨
  (e = PTick j ∧ status_of j e s = [] ∧ polls (step e s) !! j = Some (poll_tick p)) ∨
  (e ≠ PTick j ∧ status_of j e s = [] ∧ polls (step e s) !! j = Some p ∧
     ∀ i o t, e = PStatus i o t → i = j → logs e s = []).
Proof.
  intros Hj. assert (j < length (polls s)) as Hlt by by eapply lookup_lt_Some.
  destruct e as [k id ns t|i o t|i|i o t]; cbn [step polls next_polls status_of]; rewrite ?Hj.
  - right. right. by split_and!.
  - right. right. split_and!; try done.
    destruct (flights s !! i) as [[[] ? ?]|], (action_outcome o) as [[]|]; try done.
    by rewrite lookup_app_l.
  - right. destruct (decide (i = j)) as [->|Hne].
    + left. rewrite Hj. by rewrite list_lookup_insert_eq.
    + right. split_and!; [congruence|done| |done].
      destruct (polls s !! i); [|done]. by rewrite list_lookup_insert_ne.
  - destruct (decide (i = j)) as [->|Hne].
    + rewrite Nat.eqb_refl, Hj. cbn [andb]. destruct (Nat.ltb_spec 0 (inflight p)) as [Hp|Hp].
      * left. exists o, t. rewrite list_lookup_insert_eq by done. split_and!; try done.
        cbn [logs]. rewrite Hj. by rewrite (proj2 (Nat.ltb_lt _ _) Hp).
      * right. right. split_and!; [done|done|done|]. intros ? ? ? [= <- <- <-] _. cbn [logs]. rewrite Hj.
        by rewrite (proj2 (Nat.ltb_ge _ _) Hp).
    + right. right. rewrite (proj2 (Nat.eqb_neq _ _) Hne). split_and!; [done|done| |congruence].
      destruct (polls s !! i) as [q|]; [|done]. destruct (0 <? inflight q); [|done].
      by rewrite list_lookup_insert_ne.
Qed.

Lemma first_leader_cons prev o os :
  first_leader prev (o :: os) = None ↔
  (∀ t, new_leader prev o ≠ Normal (Some t)) ∧ first_leader prev os = None.
Proof.
  cbn [first_leader]. destruct (new_leader prev o) as [[t|]|]; [naive_solver|..];
    destruct (first_leader prev os); naive_solver.
Qed.

(** The replies decide what becomes of a watch, whatever else happens. *)
Lemma watch_run j es s p :
  polls s !! j = Some p → watch_ok p →
  let os := watch_replies j es s in
  (∃ p', polls (run es s) !! j = Some p' ∧
     (active p' = true ↔
      active p = true ∧ attempts p + length os ≤ 20 ∧ first_leader (prevLeader p) os = None)) ∧
  watch_log j es s = concat (imap (λ i, reply_texts (prevLeader p) (attempts p + i)) os).
Proof.
  revert s p. induction es as [|e es IH]; intros s p Hj Hok; cbn zeta.
  { split; [|done]. exists p. split; [done|]. cbn. specialize (Hok).
    split; [intros Ha; split_and!; [done| |done]; specialize (Hok Ha); lia|naive_solver]. }
  cbn [watch_replies watch_log]. change (run (e :: es) s) with (run es (step e s)).
  destruct (step_watch j e s p Hj) as [(o & t & -> & Hin & -> & Hs & Hl)|[(-> & -> & Hs)|(Ht & -> & Hs & Hl)]].
  - destruct (IH (step (PStatus j o t) s) _ Hs (poll_reply_ok o p)) as [(p' & Hp' & Ha) Hlog].
    rewrite Nat.eqb_refl, Hl, Hlog. cbn [app length imap concat]. split.
    + exists p'. split; [done|]. rewrite Ha, first_leader_cons.
      unfold poll_reply. cbn [snd active attempts prevLeader].
      destruct (new_leader (prevLeader p) o) as [[t'|]|]; cbn [app];
        rewrite ?bool_decide_eq_true_2, ?bool_decide_eq_false_2, ?andb_true_r, ?andb_false_r by done;
        [naive_solver|..]; rewrite andb_true_iff, negb_true_iff, Nat.ltb_ge; naive_solver lia.
    + f_equal.
      * unfold poll_reply, reply_texts. cbn [fst]. rewrite Nat.add_0_r.
        destruct (new_leader (prevLeader p) o) as [[t'|]|]; done.
      * f_equal. apply imap_ext. intros i x _. unfold compose, poll_reply. cbn [snd prevLeader attempts].
        f_equal. lia.
  - destruct (IH (step (PTick j) s) (poll_tick p) Hs (poll_tick_ok p Hok)) as [(p' & Hp' & Ha) Hlog].
    cbn [app]. assert (active (poll_tick p) = active p ∧ attempts (poll_tick p) = attempts p ∧
      prevLeader (poll_tick p) = prevLeader p) as (E1 & E2 & E3)
      by (unfold poll_tick; by destruct (active p) eqn:?).
    rewrite E1, E2, E3 in *. eauto.
  - destruct (IH (step e s) p Hs Hok) as [Hp' Hlog]. split; [done|].
    destruct e as [| | |i o t]; try done. destruct (Nat.eqb_spec i j); [|done].
    by rewrite (Hl i o t) by done.
Qed.

(** With prompt replies a request is only in flight while the interval is set, so
    only the last reply can show a new leader or exhaust the attempts. *)
Lemma prompt_replies j es s p :
  polls s !! j = Some p → watch_ok p → inflight p ≤ 1 → (active p = false → inflight p = 0) →
  prompt j es s = true →
  watch_replies j es s = [] ∨
  active p = true ∧ ∃ os o, watch_replies j es s = os ++ [o] ∧
    first_leader (prevLeader p) os = None ∧ attempts p + length os ≤ 20.
Proof.
  revert s p. induction es as [|e es IH]; intros s p Hj Hok H1 H0; [by left|].
  cbn [prompt watch_replies]. rewrite Hj. intros [Hpr Hps]%andb_true_iff.
  destruct (step_watch j e s p Hj) as [(o & t & -> & Hin & -> & Hs & _)|[(-> & -> & Hs)|(Ht & -> & Hs & _)]].
  - right. assert (active p = true) as Ha by (destruct (active p); [done|specialize (H0 eq_refl); lia]).
    split; [done|]. specialize (Hok Ha).
    destruct (IH _ _ Hs (poll_reply_ok o p)) as [->|(Ha' & os & o' & -> & Hf & Hle)]; [..|done| |].
    + unfold poll_reply. cbn. lia.
    + unfold poll_reply. cbn. lia.
    + exists [], o. split_and!; [done|done|cbn; lia].
    + unfold poll_reply in Ha', Hf, Hle. cbn [snd active attempts prevLeader] in *.
      exists (o :: os), o'. split_and!; [done| |cbn; lia]. apply first_leader_cons. split; [|done].
      intros t' E. rewrite E in Ha'. cbn in Ha'. by rewrite andb_false_r in Ha'.
  - cbn [app]. rewrite Nat.eqb_refl in Hpr. cbn [negb orb] in Hpr. apply Nat.eqb_eq in Hpr.
    destruct (IH _ _ Hs (poll_tick_ok p Hok)) as [->|(Ha' & os & o' & -> & Hf & Hle)]; [..|done|by left|].
    + unfold poll_tick. destruct (active p); cbn; lia.
    + unfold poll_tick. destruct (active p) eqn:Ha; [done|auto].
    + right. unfold poll_tick in *. destruct (active p) eqn:Ha; [|congruence]. split; [done|].
      cbn [prevLeader attempts] in *. eauto.
  - cbn [app]. by apply (IH _ p Hs).
Qed.

Lemma first_leader_snoc prev os o :
  first_leader prev os = None →
  first_leader prev (os ++ [o]) =
  match new_leader prev o with Normal (Some t) => Some (length os, t) | _ => None end.
Proof.
  induction os as [|x os IH]; [by cbn; destruct (new_leader prev o) as [[]|]|].
  intros [Hx Hos]%first_leader_cons. cbn [app first_leader]. rewrite (IH Hos).
  destruct (new_leader prev x) as [[t|]|]; [by destruct (Hx t)|..];
    by destruct (new_leader prev o) as [[]|].
Qed.

Lemma reply_texts_silent prev a os :
  first_leader prev os = None → a + length os ≤ 20 →
  concat (imap (λ i, reply_texts prev (a + i)) os) = [].
Proof.
  revert a. induction os as [|x os IH]; intros a; [done|]. intros [Hx Hos]%first_leader_cons Hle.
  cbn [imap concat length] in *. rewrite (imap_ext _ (λ i, reply_texts prev (S a + i)) os).
  - rewrite IH by (done || lia). unfold reply_texts. rewrite (proj2 (Nat.leb_gt _ _)) by lia.
    destruct (new_leader prev x) as [[t|]|]; [by destruct (Hx t)|done..].
  - intros i y _. unfold compose. f_equal. lia.
Qed.

End RaftPage.

End RaftPage.

(** ** Properties of the views *)

Section Views.

Context `{Platform}.

Lemma raft_view_reachable es s :
  reachable (λ _, True) (RaftView.sys s) → reachable (λ _, True) (RaftView.sys (RaftView.run es s)).
Proof.
  revert s. induction es as [|e es IH]; intros s Hs; [done|]. apply IH. cbn.
  destruct (RaftView.store_event e s); [|done]. by apply reachable_step.
Qed.

Lemma settle_detail k prev o s :
  ok (snd (action_settle k prev o s)) = false →
  ∃ d, detail (snd (action_settle k prev o s)) = JStr d.
Proof.
  unfold action_settle. destruct (action_await k o) as [[[[bok bsim] d] csim]|e] eqn:E; cbn.
  - intros [[-> ->]%orb_false_elim ->]%orb_false_elim.
    unfold action_await in E. destruct o as [st body|]; [|done]. unfold action_reply in E.
    set (v := nullish body (JObj [])) in E.
    destruct (get_prop v «"ok"») as [bok|]; [|done].
    destruct (get_prop v «"simulated"») as [bsim|]; [|done].
    destruct (get_prop v «"detail"») as [bd|]; [|done].
    destruct (truthy bok) eqn:E1, (truthy bsim) eqn:E2; cbn [negb andb] in E; try done.
    destruct (json_nullish bd _) as [| | |t| |]; simplify_eq. by exists t.
  - intros ->. eauto.
Qed.

(** Behind RaftView the store only ever goes through states of the store
    model, so the store's invariants hold for the clicks of this view, and the
    event list shows the 30 latest entries: the reports of the settled actions in
    the order in which they settled, above the initial entry. *)
Theorem raft_view_refines_store es :
  reachable (λ _, True) (RaftView.sys (RaftView.run es RaftView.init)) ∧
  RaftView.events (RaftView.run es RaftView.init) =
    slice_first 30 (rev (bl_log es RaftView.init) ++ [RaftView.ready_event]).
Proof.
  split; [apply raft_view_reachable, reachable_init|].
  refine (bl_run_rows (R := jsstring) es RaftView.init _). cbn. lia.
Qed.

(** The report of a settled action tells what became of the store: an action
    reported as done left the store alone, one reported as failed restored the
    nodes and the mask of its start, and the report of a failure always carries
    the detail. *)
Theorem report_tells_verdict k id prev o s :
  let '(s', r) := action_settle k prev o s in
  if ok r then
    s' = s ∧ RaftView.report k id r = Normal («"Node "» ++ show_Z id ++ RaftView.done_word k ++
      (if nullish (simulated r) false then «" (simulated)."» else «"."»))
  else
    nodes s' = nodes prev ∧ forcedDownNodeIds s' = forcedDownNodeIds prev ∧
    ∃ d, detail r = JStr d ∧
      RaftView.report k id r = Normal (RaftView.failed_word k ++ show_Z id ++ «": "» ++ d).
Proof.
  pose proof (settle_detail k prev o s) as Hd.
  assert (ok (snd (action_settle k prev o s)) = true → fst (action_settle k prev o s) = s) as Hs.
  { unfold action_settle. destruct (action_await k o) as [[[[[] []] ?] []]|]; cbn; try done;
      by destruct (shouldUseClientSimulation _). }
  assert (ok (snd (action_settle k prev o s)) = false →
    fst (action_settle k prev o s) = set_nodes_forced (nodes prev) (forcedDownNodeIds prev) s) as Hf.
  { unfold action_settle. destruct (action_await k o) as [[[[[] []] ?] []]|]; cbn; try done;
      by destruct (shouldUseClientSimulation _). }
  destruct (action_settle k prev o s) as [s' r]. cbn [fst snd] in *. unfold RaftView.report.
  destruct (ok r); [split; [by apply Hs|done]|].
  rewrite (Hf eq_refl). destruct (Hd eq_refl) as [d Ed]. rewrite Ed. cbn. eauto.
Qed.

(** C16: in any interleaving of clicks, interval ticks and replies, the interval of
    an election watch stops with the first status reply that shows a new leader and
    at the latest with the 21st reply, and each reply logs the new leader it shows
    and, from the 21st on, a timeout.  If moreover every request of the watch is
    answered before the interval fires again, the log of the watch is exactly the
    first new leader among at most 21 replies, or a timeout after 21 replies
    without one; a leader that shows up in the 21st reply is logged together with a
    timeout. *)
Theorem election_watch_exact j prev es s :
  RaftPage.polls s !! j = Some (RaftPage.fresh prev) →
  let os := RaftPage.watch_replies j es s in
  (∃ p, RaftPage.polls (RaftPage.run es s) !! j = Some p ∧
     (RaftPage.active p = true ↔ length os ≤ 20 ∧ RaftPage.first_leader prev os = None)) ∧
  RaftPage.watch_log j es s = concat (imap (RaftPage.reply_texts prev) os) ∧
  (RaftPage.prompt j es s = true →
   length os ≤ 21 ∧
   RaftPage.watch_log j es s =
     match RaftPage.first_leader prev os with
     | Some (i, t) =>
         (t, RaftPage.Teal)
         :: (if (i =? 20)%nat then [(RaftPage.timeout_text, RaftPage.Red400)] else [])
     | None => if (length os =? 21)%nat then [(RaftPage.timeout_text, RaftPage.Red400)] else []
     end).
Proof.
  intros Hj os. assert (RaftPage.watch_ok (RaftPage.fresh prev)) as Hok by (intros _; cbn; lia).
  destruct (RaftPage.watch_run j es s _ Hj Hok) as [(p & Hp & Ha) Hlog]. fold os in Ha, Hlog.
  cbn [RaftPage.prevLeader RaftPage.attempts RaftPage.active RaftPage.fresh Nat.add] in *.
  split_and!; [exists p; naive_solver|done|]. intros Hpr.
  destruct (RaftPage.prompt_replies j es s _ Hj Hok ltac:(cbn; lia) ltac:(done) Hpr)
    as [Hnil|(_ & os' & o & Hos & Hf & Hle)]; fold os in Hnil || fold os in Hos.
  { rewrite Hlog, Hnil. split; [cbn; lia|done]. }
  cbn [RaftPage.prevLeader RaftPage.attempts RaftPage.fresh Nat.add] in *.
  rewrite Hlog, Hos, length_app, (RaftPage.first_leader_snoc prev os' o Hf), imap_app, concat_app.
  cbn [length]. split; [lia|].
  assert (concat (imap (λ i, RaftPage.reply_texts prev i) os') = []) as ->
    by exact (RaftPage.reply_texts_silent prev 0 os' Hf Hle).
  cbn [app imap concat]. rewrite app_nil_r.
  unfold compose, RaftPage.reply_texts. rewrite Nat.add_0_r.
  assert ((20 <=? length os') = (length os' =? 20)) as -> by lia.
  destruct (RaftPage.new_leader prev o) as [[t|]|]; [done|..]; cbn [app];
    replace (length os' + 1 =? 21) with (length os' =? 20) by lia; done.
Qed.

(** Whatever the interleaving of clicks, replies and interval ticks, the log
    of pages/Raft.tsx holds the 80 latest entries, and an interval that is still
    set has had at most 20 replies. *)
Theorem raft_page_bounded t es :
  let s := RaftPage.run es (RaftPage.init t) in
  RaftPage.events s =
    slice_first 80 (rev (bl_log es (RaftPage.init t)) ++ RaftPage.events (RaftPage.init t)) ∧
  Forall (λ p, RaftPage.active p = true → RaftPage.attempts p ≤ 20) (RaftPage.polls s).
Proof.
  split.
  - refine (bl_run_rows (R := RaftPage.EventRow) es (RaftPage.init t) _). cbn. lia.
  - assert (∀ s, Forall RaftPage.watch_ok (RaftPage.polls s) →
      Forall RaftPage.watch_ok (RaftPage.polls (RaftPage.run es s))) as Hrun; [|by apply Hrun].
    induction es as [|e es IH]; intros s Hs; [done|]. by apply IH, RaftPage.step_watches.
Qed.

(** A status reply with node [id] leading. *)
Definition leader_reply (id : Z) : fetch_outcome :=
  Responded 200 (Some (JObj [(«"nodes"», JArr [JObj [(«"node_id"», JNum (n_of_Z id));
    («"is_leader"», JBool true); («"healthy"», JBool true)]])])).

(** When a status reply takes longer than the interval of 200 ms, two status
    requests are in flight, and one election is reported twice: clearing the
    interval does not stop the second reply. *)
Theorem slow_replies_report_twice :
  let click := RaftPage.PClick Kill 1 (nodes initial_state) n_zero in
  let accepted := RaftPage.PReply 0 (Responded 200 (Some (JObj [(«"ok"», JBool true)]))) n_zero in
  let s := RaftPage.run [click; accepted; RaftPage.PTick 0; RaftPage.PTick 0;
    RaftPage.PStatus 0 (leader_reply 2) n_zero; RaftPage.PStatus 0 (leader_reply 2) n_zero]
    (RaftPage.init n_zero) in
  RaftPage.msg <$> take 2 (RaftPage.events s) =
    [«"New leader elected: Node 2"»; «"New leader elected: Node 2"»].
Proof. vm_compute. reflexivity. Qed.

End Views.

(** ** Witnesses *)

(** The page after an accepted kill of the leader, and a watch that only sees a new
    leader in the last reply. *)
Definition sample_watch : RaftPage.State :=
  @RaftPage.run sample_platform [RaftPage.PClick Kill 1 (nodes initial_state) n_zero;
    RaftPage.PReply 0 (Responded 200 (Some (JObj [(«"ok"», JBool true)]))) n_zero] (RaftPage.init n_zero).

Definition sample_replies : list RaftPage.event :=
  concat ((λ o, [RaftPage.PTick 0; RaftPage.PStatus 0 o n_zero]) <$>
    (replicate 20 (Rejected (ThrownError «"Failed to fetch"»)) ++ [leader_reply 2])).

Lemma election_watch_exact_witness :
  @RaftPage.watch_log sample_platform 0 sample_replies sample_watch =
  [(«"New leader elected: Node 2"», RaftPage.Teal); (RaftPage.timeout_text, RaftPage.Red400)].
Proof.
  destruct (@election_watch_exact sample_platform 0 (Some 1%Z) sample_replies sample_watch
    ltac:(vm_compute; reflexivity)) as (_ & _ & Hw).
  destruct (Hw ltac:(vm_compute; reflexivity)) as [_ Hlog]. rewrite Hlog. vm_compute. reflexivity.
Defined.

