(* ===== verification/Overview.v ===== *)
(** * The overview (DashboardView and FloatingMiniGraph in App.tsx,
      pages/Dashboard.tsx, LagChart.tsx)

    The numbers the dashboards derive from the stores, and the floating graph
    with its position and size kept in local storage.  Locale formatting of
    numbers and times is left out: the definitions give the numbers. *)

From S2P Require Import Prelude JsNumber JsString Text Store.

Local Open Scope list_scope.

(** ** Sums as the code folds them *)

(** [l.reduce((a, x) => a + f(x), 0)] *)
Definition sum_by {A} (f : A → number) (l : list A) : number :=
  foldl (λ a x, n_add a (f x)) n_zero l.

Definition n_of_nat (n : nat) : number := n_of_Z (Z.of_nat n).

Definition point_total (pt : MetricsPoint) : number := n_add (set_ops_per_sec pt) (get_ops_per_sec pt).

(** ** DashboardView *)

Module View.

(** [(latest?.set_ops_per_sec ?? 0) + (latest?.get_ops_per_sec ?? 0)] *)
Definition throughput (h : list MetricsPoint) : number :=
  let latest := array_last h in
  n_add (nullish (set_ops_per_sec <$> latest) n_zero) (nullish (get_ops_per_sec <$> latest) n_zero).

Definition latency (ns : list NodeMeta) : number :=
  math_round (n_div (sum_by latency_us ns) (math_max (n_of_Z 1) (n_of_nat (length ns)))).

Definition storage (ns : list NodeMeta) : number := sum_by key_count ns.

Definition healthy_count (ns : list NodeMeta) : nat := length (array_filter healthy ns).

(** [`${healthy}/${Math.max(nodes.length, 3)}`] *)
Definition nodes_card (ns : list NodeMeta) : jsstring :=
  show_nat (healthy_count ns) ++ «"/"» ++ show_nat (max (length ns) 3).

End View.

(** ** pages/Dashboard.tsx *)

Module Page.

Inductive Tone := ToneOk | ToneInfo | ToneDanger | ToneNeutral.

Definition leader_chip (ns : list NodeMeta) : jsstring :=
  match array_find is_leader ns with
  | Some n => «"node "» ++ show_Z (node_id n)
  | None => «"election"»
  end.

Definition cluster_tone (ns : list NodeMeta) : Tone :=
  if (length (array_filter healthy ns) =? 0)%nat then ToneDanger else ToneOk.

Definition totalKeys (ns : list NodeMeta) : number := sum_by key_count (array_filter healthy ns).

Definition avgLatencyUs (ns : list NodeMeta) : number :=
  let up := array_filter healthy ns in
  if (length up =? 0)%nat then n_zero
  else n_div (sum_by latency_us up) (n_of_nat (length up)).

(** [`${avgLatencyUs.toFixed(0)} us`] *)
Definition latency_stat (ns : list NodeMeta) : jsstring := toFixed 0 (avgLatencyUs ns) ++ «" us"».

End Page.

(** The bars of LagChart: name and rounded lag. *)
Definition lag_bars (ns : list NodeMeta) : list (jsstring * number * bool) :=
  (λ n, («"N"» ++ show_Z (node_id n), fixed_value 1 (lag_ms n), healthy n)) <$> ns.

(** ** FloatingMiniGraph *)

Module MiniGraph.

Inductive Corner := BottomRight | BottomLeft | TopRight | TopLeft.

#[global] Instance Corner_eq_dec : EqDecision Corner.
Proof. solve_decision. Defined.

Definition MINI_GRAPH_CORNERS : list Corner := [BottomRight; BottomLeft; TopRight; TopLeft].

(** The strings of the type [MiniGraphCorner]. *)
Definition corner_name (c : Corner) : jsstring :=
  match c with
  | BottomRight => «"bottom-right"»
  | BottomLeft => «"bottom-left"»
  | TopRight => «"top-right"»
  | TopLeft => «"top-left"»
  end.

(** The two keys of local storage. *)
Record Storage := { st_collapsed : option jsstring; st_corner : option jsstring }.

Record State := { collapsed : bool; corner : Corner; saved : Storage }.

Definition initial_collapsed (s : Storage) : bool :=
  match st_collapsed s with
  | Some raw => if jeqb raw [] then true else jeqb raw «"true"»
  | None => true
  end.

Definition initial_corner (s : Storage) : Corner :=
  match st_corner s with
  | Some raw => nullish (array_find (λ c, jeqb raw (corner_name c)) MINI_GRAPH_CORNERS) BottomRight
  | None => BottomRight
  end.

Definition show_bool (b : bool) : jsstring := if b then «"true"» else «"false"».

(** The two effects, which run on mount and after a change. *)
Definition save (cl : bool) (co : Corner) : Storage :=
  {| st_collapsed := Some (show_bool cl); st_corner := Some (corner_name co) |}.

Definition mount (s : Storage) : State :=
  let cl := initial_collapsed s in let co := initial_corner s in
  {| collapsed := cl; corner := co; saved := save cl co |}.

Fixpoint index_of (c : Corner) (l : list Corner) : nat :=
  match l with
  | [] => 0
  | x :: l' => if bool_decide (x = c) then 0 else S (index_of c l')
  end.

Definition nextCorner (c : Corner) : Corner :=
  nullish (MINI_GRAPH_CORNERS !! ((index_of c MINI_GRAPH_CORNERS + 1) mod length MINI_GRAPH_CORNERS)) c.

Inductive event := MCollapse (b : bool) | MMove | MReload.

Definition step (e : event) (s : State) : State :=
  match e with
  | MCollapse b => {| collapsed := b; corner := corner s; saved := save b (corner s) |}
  | MMove =>
      let c := nextCorner (corner s) in
      {| collapsed := collapsed s; corner := c; saved := save (collapsed s) c |}
  | MReload => mount (saved s)
  end.

Definition run (es : list event) (s : State) : State := foldl (λ s e, step e s) s es.

Definition miniData (h : list MetricsPoint) : list number := point_total <$> slice_last 20 h.

Definition latest (h : list MetricsPoint) : number := nullish (array_last (miniData h)) n_zero.

End MiniGraph.

(** ** Lemmas *)

Lemma reload_save cl co : MiniGraph.mount (MiniGraph.save cl co) =
  {| MiniGraph.collapsed := cl; MiniGraph.corner := co; MiniGraph.saved := MiniGraph.save cl co |}.
Proof. by destruct cl, co. Qed.

Lemma step_saved e s :
  MiniGraph.saved s = MiniGraph.save (MiniGraph.collapsed s) (MiniGraph.corner s) →
  MiniGraph.saved (MiniGraph.step e s) =
    MiniGraph.save (MiniGraph.collapsed (MiniGraph.step e s)) (MiniGraph.corner (MiniGraph.step e s)).
Proof. by destruct e. Qed.

Lemma run_saved es s :
  MiniGraph.saved s = MiniGraph.save (MiniGraph.collapsed s) (MiniGraph.corner s) →
  MiniGraph.saved (MiniGraph.run es s) =
    MiniGraph.save (MiniGraph.collapsed (MiniGraph.run es s)) (MiniGraph.corner (MiniGraph.run es s)).
Proof. revert s. induction es as [|e es IH]; intros s Hs; [done|]. by apply IH, step_saved. Qed.

Lemma last_slice_last {A} k (l : list A) : last (slice_last (S k) l) = last l.
Proof.
  destruct l as [|x l] using rev_ind; [done|]. by rewrite slice_last_snoc, !last_snoc.
Qed.

Lemma filter_all_healthy ns : Forall (λ n, healthy n = true) ns → array_filter healthy ns = ns.
Proof. induction 1 as [|n ns Hn _ IH]; [done|]. cbn. by rewrite Hn, IH. Qed.

Lemma kill_nodes_cons id n ns :
  kill_nodes id (n :: ns) = (if (node_id n =? id)%Z then mark_down n else n) :: kill_nodes id ns.
Proof. done. Qed.

Lemma healthy_count_cons n ns :
  View.healthy_count (n :: ns) = (if healthy n then 1 else 0) + View.healthy_count ns.
Proof. unfold View.healthy_count. cbn. by destruct (healthy n). Qed.

Lemma kill_other_nodes id ns :
  id ∉ (node_id <$> ns) → kill_nodes id ns = ns.
Proof.
  induction ns as [|n ns IH]; [done|]. rewrite fmap_cons, not_elem_of_cons. intros [Hn Hns].
  rewrite kill_nodes_cons, IH by done. by rewrite (proj2 (Z.eqb_neq (node_id n) id)).
Qed.

Lemma kill_count n ns :
  NoDup (node_id <$> ns) → n ∈ ns → healthy n = true →
  View.healthy_count ns = S (View.healthy_count (kill_nodes (node_id n) ns)).
Proof.
  induction ns as [|m ns IH]; [by intros _ ?%not_elem_of_nil|].
  rewrite fmap_cons. intros [Hm Hns]%NoDup_cons [<-|Hin]%elem_of_cons Hh;
    rewrite kill_nodes_cons, !healthy_count_cons.
  - rewrite Z.eqb_refl, Hh, kill_other_nodes by done. done.
  - rewrite (proj2 (Z.eqb_neq (node_id m) (node_id n))).
    + rewrite (IH Hns Hin Hh). lia.
    + intros Heq. apply Hm. rewrite Heq. by apply list_elem_of_fmap_2.
Qed.

(** ** Properties *)

(** C40: the floating graph survives a reload: after any sequence of moves,
    collapses and reloads, mounting it again from local storage gives the same
    corner and size. *)
Theorem mini_graph_survives_reload st es :
  let s := MiniGraph.run es (MiniGraph.mount st) in MiniGraph.mount (MiniGraph.saved s) = s.
Proof.
  intros s. pose proof (run_saved es (MiniGraph.mount st) eq_refl) as Hs. fold s in Hs.
  rewrite Hs, reload_save. destruct s as [cl co sv]. cbn in *. by rewrite Hs.
Qed.

(** The move button visits the four corners in turn. *)
Theorem corners_cycle c c' :
  ∃ n, n < 4 ∧ Nat.iter n MiniGraph.nextCorner c = c' ∧ Nat.iter 4 MiniGraph.nextCorner c = c.
Proof.
  destruct c, c'; first
    [ exists 0; split_and!; [lia|reflexivity..] | exists 1; split_and!; [lia|reflexivity..]
    | exists 2; split_and!; [lia|reflexivity..] | exists 3; split_and!; [lia|reflexivity..] ].
Qed.

(** The floating graph and the dashboard show the same throughput: the total
    of the last point of the history, or zero. *)
Theorem mini_graph_agrees h : MiniGraph.latest h = View.throughput h.
Proof.
  unfold MiniGraph.latest, MiniGraph.miniData, View.throughput, array_last.
  rewrite fmap_last, last_slice_last. by destruct (last h).
Qed.

(** Killing a healthy node lowers the dashboard's count of healthy nodes by
    exactly one and leaves the total alone. *)
Theorem kill_lowers_node_count s n :
  NoDup (node_id <$> nodes s) → n ∈ nodes s → healthy n = true →
  let s' := killNode_optimistic (node_id n) s in
  View.nodes_card (nodes s') =
    show_nat (View.healthy_count (nodes s) - 1) ++ «"/"» ++ show_nat (max (length (nodes s)) 3).
Proof.
  intros Hnd Hin Hh s'. unfold View.nodes_card. subst s'. cbn [nodes killNode_optimistic set_nodes_forced].
  rewrite (kill_count n (nodes s)) by done. unfold kill_nodes at 2. rewrite length_fmap.
  by rewrite Nat.sub_1_r.
Qed.

(** The two dashboards agree on the number of keys as long as every node is
    healthy; the keys of a node that is down are counted by DashboardView but not
    by pages/Dashboard.tsx. *)
Theorem key_totals_agree ns :
  Forall (λ n, healthy n = true) ns → View.storage ns = Page.totalKeys ns.
Proof. intros Hns. unfold Page.totalKeys. by rewrite filter_all_healthy. Qed.

(** ** Witnesses *)

Lemma kill_lowers_node_count_witness :
  View.nodes_card (nodes (killNode_optimistic 2 initial_state)) = «"2/3"».
Proof.
  change 2%Z with (node_id (nullish (nodes initial_state !! 1) (initial_node 0 [] 0 false 0))).
  etrans; [apply (kill_lowers_node_count initial_state)|]; [..|vm_compute; reflexivity].
  - apply (bool_decide_unpack _). vm_compute. exact I.
  - right. left.
  - reflexivity.
Defined.

Lemma key_totals_agree_witness :
  View.storage (nodes initial_state) = Page.totalKeys (nodes initial_state).
Proof. apply key_totals_agree. repeat constructor. Defined.
