(* ===== verification/Dom.v ===== *)
(** * Rendered views

    What a component returns from its [return (...)]: a tree of elements with the
    attributes that carry behaviour.  Handlers are the events of the component's
    state machine, so that a view says which events an operator can cause in a
    state.  Styling is erased, except for class names that depend on the state.
    Adjacent pieces of text are one text node. *)

From Stdlib Require Import Ascii String.
From S2P Require Import Prelude JsNumber JsString Digits.

Local Open Scope list_scope.

(** ** Trees *)

(** A field of a row of chart data. *)
Inductive datum := DText (s : jsstring) | DNum (n : number) | DBool (b : bool).

(** [Data], [DataKey] and [TickFormat] are properties of chart components: the
    rows to plot, the field of a row an axis or a series shows, and the text of a
    tick. *)
Inductive attr (Ev : Type) :=
  | Key (k : jsstring)
  | Class (c : jsstring)
  | Disabled (b : bool)
  | OnClick (e : Ev)
  | StopClick
  | OnMouseEnter (e : Ev)
  | OnChange (f : jsstring → Ev)
  | OnKeyDown (f : jsstring → option Ev)
  | Value (v : jsstring)
  | Placeholder (v : jsstring)
  | Label (v : jsstring)
  | Data (rows : list (list (jsstring * datum)))
  | DataKey (k : jsstring)
  | TickFormat (f : number → jsstring).
Arguments Key {Ev} k. Arguments Class {Ev} c. Arguments Disabled {Ev} b.
Arguments OnClick {Ev} e. Arguments StopClick {Ev}. Arguments OnMouseEnter {Ev} e.
Arguments OnChange {Ev} f. Arguments OnKeyDown {Ev} f. Arguments Value {Ev} v.
Arguments Placeholder {Ev} v. Arguments Label {Ev} v. Arguments Data {Ev} rows.
Arguments DataKey {Ev} k. Arguments TickFormat {Ev} f.

(** [Arr] is an array among the children of an element: React compares the keys
    of its members from one rendering to the next. *)
Inductive node (Ev : Type) :=
  | Txt (s : jsstring)
  | El (tag : jsstring) (attrs : list (attr Ev)) (children : list (node Ev))
  | Arr (members : list (node Ev)).
Arguments Txt {Ev} s. Arguments El {Ev} tag attrs children. Arguments Arr {Ev} members.

(** Literals. *)
Definition E {Ev} (tag : string) : list (attr Ev) → list (node Ev) → node Ev := El (js tag).
Definition T {Ev} (s : string) : node Ev := Txt (js s).

(** [cond ? a : null] among children. *)
Definition when {Ev} (b : bool) (l : list (node Ev)) : list (node Ev) := if b then l else [].

(** ** Attributes of an element *)

Fixpoint find_key {Ev} (attrs : list (attr Ev)) : option jsstring :=
  match attrs with
  | [] => None
  | Key k :: _ => Some k
  | _ :: attrs' => find_key attrs'
  end.

Definition key_of {Ev} (n : node Ev) : option jsstring :=
  match n with El _ attrs _ => find_key attrs | _ => None end.

Definition is_disabled {Ev} (attrs : list (attr Ev)) : bool :=
  existsb (λ a, match a with Disabled b => b | _ => false end) attrs.

Definition stops_click {Ev} (attrs : list (attr Ev)) : bool :=
  existsb (λ a, match a with StopClick => true | _ => false end) attrs.

Definition clicks_of {Ev} (attrs : list (attr Ev)) : list Ev :=
  omap (λ a, match a with OnClick e => Some e | _ => None end) attrs.

(** ** Events a view offers *)

(** For each place an operator can click, the handlers that run: those of the
    element, then those of its ancestors, up to one that stops the propagation.
    Nothing inside a disabled element reacts. *)
Fixpoint clicks {Ev} (up : list Ev) (n : node Ev) : list (list Ev) :=
  match n with
  | Txt _ => []
  | El _ attrs children =>
      if is_disabled attrs then []
      else
        let chain := clicks_of attrs ++ (if stops_click attrs then [] else up) in
        chain :: flat_map (clicks chain) children
  | Arr members => flat_map (clicks up) members
  end.

(** The handlers of a click at some place of a view, when there are any. *)
Definition offers {Ev} (n : node Ev) (es : list Ev) : Prop := es ∈ clicks [] n ∧ es ≠ [].

(** ** Text *)

(** All text of a tree, in order. *)
Fixpoint texts {Ev} (n : node Ev) : list jsstring :=
  match n with
  | Txt s => [s]
  | El _ _ children => flat_map texts children
  | Arr members => flat_map texts members
  end.

(** The elements of a tree with a given tag. *)
Fixpoint by_tag {Ev} (t : jsstring) (n : node Ev) : list (node Ev) :=
  match n with
  | Txt _ => []
  | El tag _ children => (if jeqb tag t then [n] else []) ++ flat_map (by_tag t) children
  | Arr members => flat_map (by_tag t) members
  end.

(** ** Components *)

(** A component inside another one: its events become events of the outer one. *)
Definition attr_map {A B} (f : A → B) (a : attr A) : attr B :=
  match a with
  | Key k => Key k | Class c => Class c | Disabled b => Disabled b
  | OnClick e => OnClick (f e) | StopClick => StopClick | OnMouseEnter e => OnMouseEnter (f e)
  | OnChange g => OnChange (λ v, f (g v)) | OnKeyDown g => OnKeyDown (λ k, f <$> g k)
  | Value v => Value v | Placeholder v => Placeholder v | Label v => Label v
  | Data rows => Data rows | DataKey k => DataKey k | TickFormat g => TickFormat g
  end.

Fixpoint node_map {A B} (f : A → B) (n : node A) : node B :=
  match n with
  | Txt s => Txt s
  | El tag attrs children => El tag (attr_map f <$> attrs) (node_map f <$> children)
  | Arr members => Arr (node_map f <$> members)
  end.

(** ** Charts *)

(** The fields the axes and series of a chart refer to. *)
Fixpoint data_keys {Ev} (n : node Ev) : list jsstring :=
  match n with
  | Txt _ => []
  | El _ attrs children =>
      omap (λ a, match a with DataKey k => Some k | _ => None end) attrs ++ flat_map data_keys children
  | Arr members => flat_map data_keys members
  end.

(** Every row has the fields the chart refers to. *)
Definition plots (rows : list (list (jsstring * datum))) (fields : list jsstring) : bool :=
  forallb (λ r, forallb (λ k, bool_decide (k ∈ r.*1)) fields) rows.

(** All charts of a view refer to fields of their data only. *)
Fixpoint charts_ok {Ev} (n : node Ev) : bool :=
  match n with
  | Txt _ => true
  | El _ attrs children =>
      forallb (λ a, match a with Data rows => plots rows (flat_map data_keys children) | _ => true end) attrs
      && forallb charts_ok children
  | Arr members => forallb charts_ok members
  end.

(** ** Keys *)

(** The members of every array have distinct keys. *)
Inductive well_keyed {Ev} : node Ev → Prop :=
  | wk_txt s : well_keyed (Txt s)
  | wk_el tag attrs children :
      Forall well_keyed children → well_keyed (El tag attrs children)
  | wk_arr members ks :
      key_of <$> members = Some <$> ks → NoDup ks → Forall well_keyed members →
      well_keyed (Arr members).

(** ** Lemmas *)

Section NodeInd.

Context {Ev : Type} (P : node Ev → Prop).
Context (P_txt : ∀ s, P (Txt s)).
Context (P_el : ∀ tag attrs children, Forall P children → P (El tag attrs children)).
Context (P_arr : ∀ members, Forall P members → P (Arr members)).

(** Induction with the hypothesis for all children. *)
Fixpoint node_nested_ind (n : node Ev) : P n :=
  let all := fix all (l : list (node Ev)) : Forall P l :=
    match l with
    | [] => Forall_nil_2 P
    | x :: l' => Forall_cons_2 P x l' (node_nested_ind x) (all l')
    end in
  match n with
  | Txt s => P_txt s
  | El tag attrs children => P_el tag attrs children (all children)
  | Arr members => P_arr members (all members)
  end.

End NodeInd.

Lemma find_key_map {A B} (f : A → B) attrs : find_key (attr_map f <$> attrs) = find_key attrs.
Proof. induction attrs as [|a attrs IH]; [done|]. by destruct a. Qed.

Lemma key_of_map {A B} (f : A → B) n : key_of (node_map f n) = key_of n.
Proof. destruct n; [done| |done]. apply find_key_map. Qed.

Lemma is_disabled_map {A B} (f : A → B) attrs : is_disabled (attr_map f <$> attrs) = is_disabled attrs.
Proof. unfold is_disabled. induction attrs as [|a attrs IH]; [done|]. cbn. by rewrite IH; destruct a. Qed.

Lemma stops_click_map {A B} (f : A → B) attrs : stops_click (attr_map f <$> attrs) = stops_click attrs.
Proof. unfold stops_click. induction attrs as [|a attrs IH]; [done|]. cbn. by rewrite IH; destruct a. Qed.

Lemma clicks_of_map {A B} (f : A → B) attrs : clicks_of (attr_map f <$> attrs) = f <$> clicks_of attrs.
Proof.
  unfold clicks_of. induction attrs as [|a attrs IH]; [done|]. rewrite fmap_cons.
  destruct a; cbn [omap list_omap attr_map] in *; try exact IH. rewrite fmap_cons. by f_equal.
Qed.

(** Embedding keeps keys distinct and translates the clicks. *)
Lemma well_keyed_node_map {A B} (f : A → B) n : well_keyed n → well_keyed (node_map f n).
Proof.
  induction n as [s|tag attrs children IH|members IH] using node_nested_ind; intros Hn; cbn [node_map].
  - apply wk_txt.
  - inversion Hn as [|? ? ? Hc|]; subst. apply wk_el, Forall_fmap, Forall_forall.
    rewrite Forall_forall in IH, Hc. cbn. auto.
  - inversion Hn as [| |? ks Hk Hnd Hm]; subst. apply (wk_arr _ ks); [|done|].
    + rewrite <-Hk, <-list_fmap_compose. apply list_fmap_ext. intros. apply key_of_map.
    + apply Forall_fmap, Forall_forall. rewrite Forall_forall in IH, Hm. cbn. auto.
Qed.

Lemma flat_map_map_ext {A B C D} (f : A → B) (g : B → list D) (h : A → list C) (k : C → D) l :
  Forall (λ x, g (f x) = k <$> h x) l → flat_map g (f <$> l) = k <$> flat_map h l.
Proof.
  induction 1 as [|x l Hx _ IH]; [done|]. cbn [fmap list_fmap flat_map].
  by rewrite fmap_app, Hx, <-IH.
Qed.

Lemma clicks_node_map {A B} (f : A → B) n (up : list A) :
  clicks (f <$> up) (node_map f n) = fmap (M:=list) f <$> clicks up n.
Proof.
  revert up. induction n as [s|tag attrs children IH|members IH] using node_nested_ind; intros up;
    cbn [node_map clicks]; [done| |].
  - rewrite is_disabled_map, stops_click_map, clicks_of_map.
    destruct (is_disabled attrs); [done|].
    assert ((f <$> clicks_of attrs) ++ (if stops_click attrs then [] else f <$> up) =
      f <$> (clicks_of attrs ++ (if stops_click attrs then [] else up))) as ->
      by (by destruct (stops_click attrs); rewrite fmap_app).
    rewrite fmap_cons. f_equal. apply flat_map_map_ext. eapply Forall_impl; [exact IH|]. auto.
  - apply flat_map_map_ext. eapply Forall_impl; [exact IH|]. auto.
Qed.

Lemma well_keyed_E {Ev} tag (attrs : list (attr Ev)) children :
  Forall well_keyed children → well_keyed (E tag attrs children).
Proof. apply wk_el. Qed.

Lemma well_keyed_when {Ev} b (l : list (node Ev)) :
  Forall well_keyed l → Forall well_keyed (when b l).
Proof. by destruct b. Qed.

(** An array built by mapping over a list, with the key first. *)
Lemma well_keyed_map {A Ev} (f : A → node Ev) (k : A → jsstring) (l : list A) :
  (∀ x, key_of (f x) = Some (k x)) → NoDup (k <$> l) → (∀ x, well_keyed (f x)) →
  well_keyed (Arr (f <$> l)).
Proof.
  intros Hk Hnd Hf. apply (wk_arr _ (k <$> l)); [|done|].
  - rewrite <-!list_fmap_compose. apply list_fmap_ext. intros; simpl. by rewrite Hk.
  - apply Forall_fmap, Forall_true. done.
Qed.

(** The same with the index, as [l.map((x, i) => ...)]. *)
Lemma well_keyed_mapi {A Ev} (f : nat → A → node Ev) (k : nat → A → jsstring) (l : list A) :
  (∀ i x, key_of (f i x) = Some (k i x)) →
  (∀ i j x y, l !! i = Some x → l !! j = Some y → k i x = k j y → i = j) →
  (∀ i x, well_keyed (f i x)) →
  well_keyed (Arr (array_mapi f l)).
Proof.
  intros Hk Hinj Hf. unfold array_mapi. apply (wk_arr _ (imap k l)).
  - apply list_eq. intros i. rewrite !list_lookup_fmap, !list_lookup_imap.
    destruct (l !! i); simpl; by rewrite ?Hk.
  - apply NoDup_alt. intros i j z. rewrite !list_lookup_imap.
    destruct (l !! i) as [x|] eqn:Ei, (l !! j) as [y|] eqn:Ej; try done. simpl.
    intros [= <-] [= Heq]. eauto.
  - apply Forall_lookup. intros i z. rewrite list_lookup_imap.
    destruct (l !! i); simpl; [|done]. intros [= <-]. apply Hf.
Qed.

(** A key [`${s}-${i}`], which determines the index. *)
Definition indexed_key (s : jsstring) (i : nat) : jsstring := s ++ «"-"» ++ show_nat i.

Lemma indexed_key_inj s t i j : indexed_key s i = indexed_key t j → i = j.
Proof. by apply digits_suffix_inj. Qed.

Lemma well_keyed_indexed {A Ev} (f : nat → A → node Ev) (g : A → jsstring) (l : list A) :
  (∀ i x, key_of (f i x) = Some (indexed_key (g x) i)) → (∀ i x, well_keyed (f i x)) →
  well_keyed (Arr (array_mapi f l)).
Proof.
  intros Hk Hf. apply (well_keyed_mapi f (λ i x, indexed_key (g x) i)); [done| |done].
  intros i j x y _ _. apply indexed_key_inj.
Qed.

(** A key that is an integer field, as [key={n.node_id}]. *)
Lemma integer_keys {A} (f : A → Z) l : NoDup (f <$> l) → NoDup ((λ x, show_Z (f x)) <$> l).
Proof.
  intros Hnd. change ((λ x, show_Z (f x)) <$> l) with ((show_Z ∘ f) <$> l).
  rewrite list_fmap_compose. by apply NoDup_fmap_2; [apply _|].
Qed.

(** An array whose keys do not depend on the index. *)
Lemma well_keyed_mapi_field {A Ev} (f : nat → A → node Ev) (k : A → jsstring) (l : list A) :
  (∀ i x, key_of (f i x) = Some (k x)) → NoDup (k <$> l) → (∀ i x, well_keyed (f i x)) →
  well_keyed (Arr (array_mapi f l)).
Proof.
  intros Hk Hnd Hf. apply (well_keyed_mapi _ (λ _ x, k x)); [done| |done].
  intros i j x y Hi Hj Hxy.
  apply (NoDup_lookup _ _ _ (k x) Hnd); rewrite list_lookup_fmap; [by rewrite Hi|].
  rewrite Hj. cbn. by rewrite Hxy.
Qed.

(** Rows built by mapping, all with the same fields. *)
Lemma plots_map {A} (f : A → list (jsstring * datum)) fields keys l :
  (∀ x, (f x).*1 = fields) → forallb (λ k, bool_decide (k ∈ fields)) keys = true →
  plots (f <$> l) keys = true.
Proof.
  intros Hf Hk. unfold plots. rewrite forallb_forall. intros r Hr.
  apply list_elem_of_In, list_elem_of_fmap in Hr as (x & -> & _). by rewrite Hf.
Qed.

(** ** Locale *)

(** The shapes in which the console asks for a time of day. *)
Inductive TimeFormat := FullTime | HourMinuteSecond | MinuteSecond.

(** Formatting that depends on the operator's locale and time zone:
    [toLocaleString] of a number, [toLocaleTimeString] of a time in milliseconds. *)
Class Locale := {
  show_number : number → jsstring;
  show_time : TimeFormat → number → jsstring;
}.

(** ** Automation *)

(** Decomposes a goal that a view is well keyed down to its arrays and to the
    components it calls. *)
Ltac keyed :=
  repeat match goal with
    | |- well_keyed (Txt _) => apply wk_txt
    | |- well_keyed (T _) => apply wk_txt
    | |- well_keyed (E _ _ _) => apply well_keyed_E
    | |- well_keyed (El _ _ _) => apply wk_el
    | |- Forall well_keyed [] => apply Forall_nil_2
    | |- Forall well_keyed (_ :: _) => apply Forall_cons_2
    | |- Forall well_keyed (_ ++ _) => apply Forall_app_2
    | |- Forall well_keyed (when _ _) => apply well_keyed_when
    end.

(** The same, through the definitions of small views. *)
Ltac keyed_leaf :=
  intros; repeat first [ apply wk_txt | apply wk_el | apply Forall_nil_2 | apply Forall_cons_2 ].

(** Arrays over a literal list: the keys are compared by computation. *)
Ltac keyed_literal k :=
  apply (well_keyed_map _ k); [done | apply (bool_decide_unpack _); vm_compute; exact I | keyed_leaf].

(** ** Lemmas on clicks *)

Lemma clicks_El {Ev} up tag (attrs : list (attr Ev)) children es :
  es ∈ clicks up (El tag attrs children) ↔
  is_disabled attrs = false ∧
  let chain := clicks_of attrs ++ (if stops_click attrs then [] else up) in
  (es = chain ∨ ∃ c, c ∈ children ∧ es ∈ clicks chain c).
Proof.
  cbn [clicks]. destruct (is_disabled attrs).
  - split; [by intros ?%not_elem_of_nil|by intros []].
  - rewrite elem_of_cons, list_elem_of_In, in_flat_map.
    setoid_rewrite <-list_elem_of_In. naive_solver.
Qed.

Lemma clicks_E {Ev} up tag (attrs : list (attr Ev)) children es :
  es ∈ clicks up (E tag attrs children) ↔
  is_disabled attrs = false ∧
  let chain := clicks_of attrs ++ (if stops_click attrs then [] else up) in
  (es = chain ∨ ∃ c, c ∈ children ∧ es ∈ clicks chain c).
Proof. apply clicks_El. Qed.

Lemma clicks_Arr {Ev} up (members : list (node Ev)) es :
  es ∈ clicks up (Arr members) ↔ ∃ c, c ∈ members ∧ es ∈ clicks up c.
Proof. cbn [clicks]. rewrite list_elem_of_In, in_flat_map. by setoid_rewrite <-list_elem_of_In. Qed.

Lemma clicks_Txt {Ev} up (s : jsstring) (es : list Ev) : ¬ es ∈ clicks up (Txt s).
Proof. apply not_elem_of_nil. Qed.

(** What every click of a view satisfies, by structure. *)
Lemma offered_El {Ev} (P : list Ev → Prop) up tag attrs children :
  (is_disabled attrs = false →
   let chain := clicks_of attrs ++ (if stops_click attrs then [] else up) in
   P chain ∧ Forall (λ c, Forall P (clicks chain c)) children) →
  Forall P (clicks up (El tag attrs children)).
Proof.
  intros HP. apply Forall_forall. intros es [Hd Hes]%clicks_El. destruct (HP Hd) as [Hc Hch].
  destruct Hes as [->|(c & Hin & Hes)]; [done|].
  rewrite Forall_forall in Hch. specialize (Hch c Hin). rewrite Forall_forall in Hch. auto.
Qed.

Lemma offered_Arr {Ev} (P : list Ev → Prop) up members :
  Forall (λ c, Forall P (clicks up c)) members → Forall P (clicks up (Arr members)).
Proof.
  intros HP. apply Forall_forall. intros es (c & Hin & Hes)%clicks_Arr.
  rewrite Forall_forall in HP. specialize (HP c Hin). rewrite Forall_forall in HP. auto.
Qed.

Lemma offered_Txt {Ev} (P : list Ev → Prop) up s : Forall P (clicks up (Txt s)).
Proof. constructor. Qed.

Lemma offered_mapi {A Ev} (P : list Ev → Prop) up (f : nat → A → node Ev) l :
  (∀ i x, l !! i = Some x → Forall P (clicks up (f i x))) → Forall P (clicks up (Arr (array_mapi f l))).
Proof.
  intros HP. apply offered_Arr, Forall_lookup. intros i c. unfold array_mapi.
  rewrite list_lookup_imap. destruct (l !! i) as [x|] eqn:E; [|done]. intros [= <-]. by apply HP.
Qed.

Lemma offered_map {A Ev} (P : list Ev → Prop) up (f : A → node Ev) l :
  (∀ x, x ∈ l → Forall P (clicks up (f x))) → Forall P (clicks up (Arr (f <$> l))).
Proof.
  intros HP. apply offered_Arr, Forall_forall. intros c (x & -> & Hx)%list_elem_of_fmap. by apply HP.
Qed.

Lemma offered_node_map {A B} (P : list B → Prop) (f : A → B) n :
  Forall (λ es, P (f <$> es)) (clicks [] n) → Forall P (clicks [] (node_map f n)).
Proof. intros HP. change (@nil B) with (f <$> (@nil A)). rewrite clicks_node_map. by apply Forall_fmap. Qed.

Lemma offered_when {Ev} (P : node Ev → Prop) b (l : list (node Ev)) :
  (b = true → Forall P l) → Forall P (when b l).
Proof. destruct b; [auto|constructor]. Qed.

(** Reduces a goal about every click of a view to one goal per element that can
    be clicked, with the fact that it is enabled; [tac] closes the goals for
    places without a handler. *)
Ltac offered tac :=
  repeat match goal with
    | |- Forall _ (clicks _ (Txt _)) => apply offered_Txt
    | |- Forall _ (clicks _ (T _)) => apply offered_Txt
    | |- Forall _ (clicks _ (E _ _ _)) => apply offered_El; intros ?; split; [try solve [tac]|]
    | |- Forall _ (clicks _ (El _ _ _)) => apply offered_El; intros ?; split; [try solve [tac]|]
    | |- Forall _ [] => apply Forall_nil_2
    | |- Forall _ (_ :: _) => apply Forall_cons_2
    | |- Forall _ (_ ++ _) => apply Forall_app_2
    | |- Forall _ (when _ _) => apply offered_when; intros ?
    end;
  cbn [clicks_of stops_click omap list_omap existsb orb app].

(** A click inside an element without a handler of its own. *)
Lemma clicks_child {Ev} up tag (attrs : list (attr Ev)) children c es :
  is_disabled attrs = false → clicks_of attrs = [] → stops_click attrs = false →
  c ∈ children → es ∈ clicks up c → es ∈ clicks up (E tag attrs children).
Proof. intros Hd Hc Hs Hin Hes. apply clicks_E. rewrite Hc, Hs. eauto. Qed.

(** Goes to the [i]-th child of an element. *)
Ltac descend i :=
  eapply clicks_child; [reflexivity|reflexivity|reflexivity| |];
  [ apply (list_elem_of_lookup_2 _ i); reflexivity |].

(** A click inside the [i]-th member of a mapped array. *)
Lemma clicks_mapi {A Ev} up (f : nat → A → node Ev) l i x es :
  l !! i = Some x → es ∈ clicks up (f i x) → es ∈ clicks up (Arr (array_mapi f l)).
Proof.
  intros Hx Hes. apply clicks_Arr. exists (f i x). split; [|done].
  unfold array_mapi. apply (list_elem_of_lookup_2 _ i). by rewrite list_lookup_imap, Hx.
Qed.

(** A click on an enabled element with a handler. *)
Lemma clicks_here {Ev} tag (e : Ev) b children :
  b = false → [e] ∈ clicks [] (E tag [OnClick e; Disabled b] children).
Proof. intros ->. apply clicks_E. split; [done|]. by left. Qed.
