(* ===== verification/ViewExplorer.v ===== *)
(** * Rendering of the explorers (ExplorerView in App.tsx, pages/Explorer.tsx,
      components/KeyTable.tsx)

    What the two explorers and the result table show in a state, and which events
    they offer. *)

From S2P Require Import Prelude JsNumber Rounding JsString Json Text Digits RuntimeConfig Api Store Explorer Dom.

Local Open Scope list_scope.

Definition all_ops : list Op := [GET; SET; DEL; SCAN].

(** ** ExplorerView *)

Module ExplorerView.

Import View.

(** [operationHelp] *)
Definition help_summary (o : Op) : jsstring :=
  match o with
  | GET => «"Reads one key from the cluster."»
  | SET => «"Writes or updates one key/value pair."»
  | DEL => «"Deletes one key from the cluster."»
  | SCAN => «"Lists keys by prefix match."»
  end.

Definition help_endpoint (o : Op) : jsstring :=
  match o with
  | GET => «"GET /api/keys/{key}"»
  | SET => «"POST /api/keys"»
  | DEL => «"DELETE /api/keys/{key}"»
  | SCAN => «"GET /api/keys?prefix=<x>&limit=50"»
  end.

(** The three numbered cards. *)
Definition guide : list (jsstring * jsstring) := [
  («"1) Choose Operation"», «"Select GET, SET, DEL, or SCAN based on the action you need."»);
  («"2) Fill Input"», «"Provide key (and value for SET). Use SCAN with a prefix like user:."»);
  («"3) Execute & Verify"», «"Run command and confirm status/latency/result in the history table."») ].

Definition guide_card (c : jsstring * jsstring) : node event :=
  E "div" [Key (fst c)] [E "p" [] [Txt (fst c)]; E "p" [] [Txt (snd c)]].

Definition op_button (current o : Op) : node event :=
  E "button" [Key (op_name o); OnClick (XSetOp o);
              Class (if bool_decide (current = o) then «"bg-white text-black"»
                     else «"bg-white/5 text-zinc-400 hover:bg-white/10 hover:text-zinc-200"»)]
    [Txt (op_name o)].

Definition example_button (i : nat) (e : Example) : node event :=
  E "button" [Key (ex_label e); OnClick (XExample i)] [Txt (ex_label e)].

(** One line of the result table. *)
Definition row_view (i : nat) (r : Row) : node event :=
  E "tr" [Key (indexed_key (row_key r) i)] [
    E "td" [] [Txt (op_name (row_op r))];
    E "td" [] [Txt (row_key r)];
    E "td" [] (match row_result r with Some t => [Txt t] | None => [] end);
    E "td" [] [Txt (row_latency r)];
    E "td" [Class (if row_ok r then «"text-emerald-300"» else «"text-rose-300"»)]
      [Txt (if row_ok r then «"OK"» else «"ERR"»)]].

Definition no_rows : node event :=
  E "tr" [] [E "td" [] [E "p" [] [T "No commands yet."];
    E "p" [] [T "Pick an example above or run your first operation."]]].

Definition table_view (rs : list Row) : node event :=
  E "table" [] [
    E "thead" [] [E "tr" [] [E "th" [] [T "op"]; E "th" [] [T "key"]; E "th" [] [T "result"];
                             E "th" [] [T "latency"]; E "th" [] [T "status"]]];
    E "tbody" [] [if (length rs =? 0)%nat then no_rows else Arr (array_mapi row_view rs)]].

(** The [disabled] attribute of the button. *)
Definition execute_disabled (s : State) : bool := jeqb (key s) [] && negb (is_scan (op s)).

(** The form: the inputs and the button; [start] and [now] are the clock readings
    its handler would take. *)
Definition form_view (start now : number) (s : State) : node event :=
  E "div" [] ([
    E "input" [Value (key s); OnChange XSetKey;
               Placeholder (if is_scan (op s) then «"prefix..."» else «"key"»)] []]
    ++ when (bool_decide (op s = SET))
         [E "input" [Value (value s); OnChange XSetValue; Placeholder «"value"»] []]
    ++ [E "button" [OnClick (XExecute start now); Disabled (execute_disabled s)] [T "Execute"]]).

Definition render (start now : number) (s : State) : node event :=
  E "div" [] [
    E "div" [] [E "h2" [] [T "Key Explorer"];
                E "p" [] [T "Direct command console for reading and writing keys"]];
    E "div" [] [Arr (guide_card <$> guide)];
    E "div" [] [
      E "div" [] [
        E "div" [] [E "p" [] [Txt («"Current Operation: "» ++ op_name (op s))];
                    E "p" [] [Txt (help_summary (op s))]];
        E "div" [] [E "p" [] [T "Gateway Endpoint"]; E "p" [] [Txt (help_endpoint (op s))]]];
      E "div" [] [Arr (op_button (op s) <$> all_ops)];
      E "div" [] [E "p" [] [T "Try Quick Examples"];
                  E "div" [] [Arr (array_mapi example_button quickExamples)]];
      form_view start now s;
      E "div" [] [table_view (rows s)]]].

(** ** Lemmas *)

Lemma row_view_keyed i r : well_keyed (row_view i r).
Proof. unfold row_view. destruct (row_result r); keyed. Qed.

Lemma examples_keyed : well_keyed (Arr (array_mapi example_button quickExamples)).
Proof.
  apply (well_keyed_mapi_field _ ex_label); [done| |keyed_leaf].
  apply (bool_decide_unpack _). vm_compute. exact I.
Qed.

Lemma table_keyed rs : well_keyed (table_view rs).
Proof.
  unfold table_view, no_rows. keyed. destruct (length rs =? 0); keyed.
  apply (well_keyed_indexed _ row_key); [done|apply row_view_keyed].
Qed.

(** The whole view has distinct keys, whatever the state. *)
Lemma explorer_view_keyed start now s : well_keyed (render start now s).
Proof.
  unfold render, form_view. keyed.
  - keyed_literal (@fst jsstring jsstring).
  - keyed_literal op_name.
  - apply examples_keyed.
  - apply table_keyed.
Qed.

(** The clicks the view offers: the buttons, with Execute only when it is not
    disabled. *)
Definition click_ok (start now : number) (s : State) (es : list event) : Prop :=
  match es with
  | [] => True
  | [XSetOp o] => True
  | [XExample i] => i < length quickExamples
  | [XExecute t0 t1] => t0 = start ∧ t1 = now ∧ execute_disabled s = false
  | _ => False
  end.

Lemma explorer_view_clicks start now s : Forall (click_ok start now s) (clicks [] (render start now s)).
Proof.
  unfold render, form_view, table_view. offered ltac:(exact I).
  - apply offered_map. intros c _. unfold guide_card. by offered ltac:(exact I).
  - apply offered_map. intros o _. unfold op_button. by offered ltac:(exact I).
  - apply offered_mapi. intros i e He%lookup_lt_Some. unfold example_button. by offered ltac:(exact I).
  - cbn [is_disabled existsb] in *. repeat split. by destruct (execute_disabled s).
  - destruct (length (rows s) =? 0); [unfold no_rows; by offered ltac:(exact I)|].
    apply offered_mapi. intros i r _. unfold row_view. offered ltac:(exact I).
    destruct (row_result r); by offered ltac:(exact I).
Qed.

(** Execute can be clicked exactly when it is not disabled. *)
Lemma execute_offered start now s :
  [XExecute start now] ∈ clicks [] (render start now s) ↔ execute_disabled s = false.
Proof.
  split.
  - intros Hin. pose proof (explorer_view_clicks start now s) as Hv. rewrite Forall_forall in Hv. apply (Hv _ Hin).
  - intros Hb. unfold render. descend 2. descend 3. unfold form_view.
    eapply clicks_child; [done..| |]; [apply elem_of_app; right; apply elem_of_app; right; left|].
    apply clicks_E. cbn [is_disabled existsb]. rewrite Hb. split; [done|]. by left.
Qed.

(** A command starts: its request is in flight, or its error is the newest row. *)
Definition starts (s s' : State) : Prop :=
  (∃ f, flights s' = flights s ++ [f] ∧ rows s' = rows s ∧ f_op f = op s ∧ f_key f = key s) ∨
  (∃ r, rows s' = slice_first 50 (r :: rows s) ∧ row_op r = op s ∧
     row_ok r = false ∧ flights s' = flights s).

Lemma view_execute_starts `{Platform} env start now s :
  execute_disabled s = false → starts s (execute env start now s).
Proof.
  intros Hd. unfold execute, blocked. unfold execute_disabled in Hd. rewrite Hd.
  destruct (execute_request _ _ _ _); [left|right]; eexists; by split_and!.
Qed.

Lemma view_execute_ignored `{Platform} env start now s :
  execute_disabled s = true → execute env start now s = s.
Proof. intros Hd. unfold execute, blocked. unfold execute_disabled in Hd. by rewrite Hd. Qed.

End ExplorerView.

(** ** KeyTable *)

Module KeyTable.

Import Page.

Section KeyTable.

Context {Ev : Type}.

Definition row_view (i : nat) (r : ResultRow) : Dom.node Ev :=
  E "tr" [Key (indexed_key (n_toString (rr_ts r)) i)] [
    E "td" [] [Txt (op_name (rr_op r))];
    E "td" [] [Txt (rr_key r)];
    E "td" [] [Txt (result_cell r)];
    E "td" [] [Txt (latency_cell r)];
    E "td" [] [E "span" [Class (if rr_ok r then «"text-emerald-300"» else «"text-red-400"»)]
                 [Txt (status_cell r)]]].

Definition render (rs : list ResultRow) : Dom.node Ev :=
  E "div" [] [E "table" [] [
    E "thead" [] [E "tr" [] [E "th" [] [T "op"]; E "th" [] [T "key"]; E "th" [] [T "result"];
                             E "th" [] [T "latency"]; E "th" [] [T "status"]]];
    E "tbody" [] [
      if (length rs =? 0)%nat
      then E "tr" [] [E "td" [] [T "Run an operation to see live results."]]
      else Arr (array_mapi row_view rs)]]].

Lemma key_table_keyed rs : well_keyed (render rs).
Proof.
  unfold render. keyed. destruct (length rs =? 0); [keyed|].
  apply (well_keyed_indexed _ (λ r, n_toString (rr_ts r))); [done|]. intros. unfold row_view. keyed.
Qed.

(** The table has no handlers. *)
Lemma key_table_clicks rs : Forall (λ es, es = []) (clicks [] (render rs)).
Proof.
  unfold render. offered ltac:(reflexivity).
  destruct (length rs =? 0); [by offered ltac:(reflexivity)|].
  apply offered_mapi. intros i r _. unfold row_view. by offered ltac:(reflexivity).
Qed.

End KeyTable.

End KeyTable.

(** ** pages/Explorer.tsx *)

Module ExplorerPage.

Import Page.

Definition sortedNodes (ns : list NodeMeta) : list NodeMeta := array_sort_by node_id ns.

(** [e.target.value ? Number(e.target.value) : null], on the values of the
    options. *)
Definition select_node (v : jsstring) : option Z :=
  if jeqb v [] then None else n_to_Z (string_to_number v).

Definition node_option (n : NodeMeta) : Dom.node event :=
  E "option" [Key (show_Z (node_id n)); Value (show_Z (node_id n))]
    [Txt («"Node "» ++ show_Z (node_id n))].

Definition node_select (ns : list NodeMeta) (current : option Z) : Dom.node event :=
  E "select" [Value (match current with Some z => show_Z z | None => [] end);
              OnChange (λ v, PSetNode (select_node v))]
    [E "option" [Value []] [T "Leader (default)"]; Arr (node_option <$> sortedNodes ns)].

Definition op_button (current o : Op) : Dom.node event :=
  E "button" [Key (op_name o); OnClick (PSetOp o);
              Class (if bool_decide (current = o) then «"bg-white text-ink-950"»
                     else «"bg-white/5 text-zinc-300 hover:bg-white/10"»)]
    [Txt (op_name o)].

(** The event of a key press in one of the two inputs. *)
Definition on_key (t0 now ts : number) (k : jsstring) : option event :=
  if jeqb k «"Enter"» then Some (PEnter t0 now ts) else None.

(** The [disabled] attribute of the button. *)
Definition run_disabled (s : State) : bool := loading s || negb (canRun (op s) (key s)).

Definition form_view (t0 now ts : number) (s : State) : Dom.node event :=
  E "div" [] ([
    E "input" [Value (key s); OnChange PSetKey; OnKeyDown (on_key t0 now ts);
               Placeholder (if is_scan (op s) then «"prefix (optional, for example user:)"»
                            else «"key"»)] []]
    ++ when (bool_decide (op s = SET))
         [E "input" [Value (val s); OnChange PSetVal; OnKeyDown (on_key t0 now ts);
                     Placeholder «"value"»] []]
    ++ [E "button" [OnClick (PClick t0 now ts);
                    Disabled (run_disabled s)]
          [Txt (if loading s then «"Running..."» else «"Run"»)]]).

Definition samples_view (s : State) : Dom.node event :=
  E "div" [] [
    E "button" [OnClick PSampleSet] [T "sample set"];
    E "button" [OnClick PSampleGet] [T "sample get"];
    E "span" [] [Txt («"history "» ++ show_nat (length (history s)) ++ «"/100"»)]].

Definition render (t0 now ts : number) (ns : list NodeMeta) (s : State) : Dom.node event :=
  E "div" [] [
    E "header" [] [E "h2" [] [T "Key Explorer"];
      E "p" [] [T "Execute real GET/SET/DEL/SCAN operations against live cluster nodes."]];
    E "section" [] [
      E "div" [] [Arr (op_button (op s) <$> all_ops); node_select ns (node s)];
      form_view t0 now ts s;
      samples_view s];
    KeyTable.render (history s)].

(** The value of a node's option is read back as its id. *)
Lemma select_node_shown z : (0 ≤ z < 2 ^ 53)%Z → select_node (show_Z z) = Some z.
Proof.
  intros Hz. unfold select_node, jeqb. rewrite bool_decide_false by apply (show_Z_digits z ltac:(lia)).
  by rewrite string_to_number_show, n_to_Z_of_Z by lia.
Qed.

(** The clicks the page offers: Run only when it is not disabled. *)
Definition click_ok (t0 now ts : number) (s : State) (es : list event) : Prop :=
  match es with
  | [] | [PSetOp _] | [PSampleSet] | [PSampleGet] => True
  | [PClick a b c] => a = t0 ∧ b = now ∧ c = ts ∧ run_disabled s = false
  | _ => False
  end.

Lemma explorer_page_keyed t0 now ts ns s :
  NoDup (node_id <$> ns) → well_keyed (render t0 now ts ns s).
Proof.
  intros Hnd. unfold render, form_view, samples_view, node_select. keyed.
  - keyed_literal op_name.
  - apply (well_keyed_map _ (λ n, show_Z (node_id n))); [done| |keyed_leaf].
    apply integer_keys. unfold sortedNodes. by rewrite array_sort_by_perm.
  - apply KeyTable.key_table_keyed.
Qed.

Lemma explorer_page_clicks t0 now ts ns s :
  Forall (click_ok t0 now ts s) (clicks [] (render t0 now ts ns s)).
Proof.
  unfold render, form_view, samples_view, node_select. offered ltac:(exact I).
  - apply offered_map. intros o _. unfold op_button. by offered ltac:(exact I).
  - apply offered_map. intros n _. unfold node_option. by offered ltac:(exact I).
  - cbn [is_disabled existsb] in *. repeat split. by destruct (run_disabled s).
  - eapply Forall_impl; [apply KeyTable.key_table_clicks|]. by intros ? ->.
Qed.

(** Run can be clicked exactly when it is not disabled. *)
Lemma page_run_offered t0 now ts ns s :
  [PClick t0 now ts] ∈ clicks [] (render t0 now ts ns s) ↔ run_disabled s = false.
Proof.
  split.
  - intros Hin. pose proof (explorer_page_clicks t0 now ts ns s) as Hv. rewrite Forall_forall in Hv. apply (Hv _ Hin).
  - intros Hd. unfold render. descend 1. descend 1. unfold form_view.
    eapply clicks_child; [done..| |]; [apply elem_of_app; right; apply elem_of_app; right; left|].
    apply clicks_E. cbn [is_disabled existsb]. rewrite Hd. split; [done|]. by left.
Qed.

(** A command starts: its request is in flight and the page is loading, or its
    error is the newest entry of the history. *)
Definition starts (s s' : State) : Prop :=
  (∃ f, flights s' = flights s ++ [f] ∧ loading s' = true ∧ history s' = history s ∧
     f_op f = op s ∧ f_key f = trim (key s)) ∨
  (∃ r, history s' = r :: slice_first 99 (history s) ∧ rr_op r = op s ∧
     rr_ok r = false ∧ loading s' = false ∧ flights s' = flights s).

Lemma page_execute_starts `{Platform} env t0 now ts s :
  canRun (op s) (key s) = true → starts s (execute env t0 now ts s).
Proof.
  intros Hc. unfold execute. rewrite Hc. cbn [negb].
  destruct (execute_request _ _ _ _ _); [left|right]; eexists; by split_and!.
Qed.

Lemma page_execute_ignored `{Platform} env t0 now ts s :
  canRun (op s) (key s) = false → execute env t0 now ts s = s.
Proof. intros Hc. unfold execute. by rewrite Hc. Qed.

End ExplorerPage.

(** ** Properties *)

(** A displayed endpoint: a method and a path with at most one placeholder. *)
Definition method_name (m : HttpMethod) : jsstring :=
  match m with HGet => «"GET"» | HPost => «"POST"» | HDelete => «"DELETE"» end.

Inductive describes (k : jsstring) : jsstring → HttpMethod → jsstring → Prop :=
  | describes_fixed m path : describes k (method_name m ++ «" "» ++ path) m path
  | describes_hole m pre hole post t :
      hole ∈ [«"{key}"»; «"<x>"»] → encodeURIComponent k = Some t →
      describes k (method_name m ++ «" "» ++ pre ++ hole ++ post) m (pre ++ t ++ post).

(** C36: the endpoint ExplorerView displays for an operation is the one its
    request goes to: the same method, and the same path with the encoded key in
    place of the placeholder. *)
Theorem displayed_endpoint_is_sent `{Platform} env o k v r :
  View.execute_request env o k v = Normal r →
  ∃ path, req_url r = apiUrl env path ∧
    describes k (ExplorerView.help_endpoint o) (req_method r) path.
Proof.
  destruct o; cbn; unfold key_request, scan_request; try (destruct (encodeURIComponent k) eqn:E; [|done]);
    intros [= <-]; cbn [req_url req_method]; (eexists; split; [reflexivity|]).
  - apply (describes_hole k HGet «"/api/keys/"» «"{key}"» []); [by left|done].
  - apply (describes_fixed k HPost).
  - apply (describes_hole k HDelete «"/api/keys/"» «"{key}"» []); [by left|done].
  - apply (describes_hole k HGet «"/api/keys?prefix="» «"<x>"» «"&limit=50"»); [by right; left|done].
Qed.

(** C24: the selector of pages/Explorer.tsx offers every node of the cluster exactly
    once, in ascending order of ids, and choosing a node whose id is an integer
    with 0 < id < 2^53 directs the next read at that node: exactly its id is in the
    query of the request.  For a node with id 0 the selection has no effect: the
    read is sent without a node, as for the default. *)
Theorem node_selection_directs_reads `{Platform} env ns n k v :
  n ∈ ns → (0 ≤ node_id n < 2 ^ 53)%Z →
  ExplorerPage.sortedNodes ns ≡ₚ ns ∧
  StronglySorted Z.le (node_id <$> ExplorerPage.sortedNodes ns) ∧
  ExplorerPage.node_option n ∈ ExplorerPage.node_option <$> ExplorerPage.sortedNodes ns ∧
  ExplorerPage.select_node (show_Z (node_id n)) = Some (node_id n) ∧
  Page.execute_request env GET k v (ExplorerPage.select_node (show_Z (node_id n))) =
    if decide (node_id n = 0%Z) then Page.execute_request env GET k v None
    else key_request env HGet k («"?node="» ++ show_Z (node_id n)).
Proof.
  intros Hn Hid. unfold ExplorerPage.sortedNodes. split_and!.
  - apply array_sort_by_perm.
  - apply array_sort_by_sorted.
  - apply list_elem_of_fmap_2. by rewrite array_sort_by_perm.
  - by apply ExplorerPage.select_node_shown.
  - rewrite ExplorerPage.select_node_shown by done. cbn [Page.execute_request].
    unfold Page.node_query. case_decide as H0; [by rewrite H0|]. by rewrite (proj2 (Z.eqb_neq _ _)).
Qed.

(** C35: in both explorers a click runs at most one handler, and the button that
    starts a command never starts nothing: when it can be clicked, the click puts
    a request in flight or an error row on top of the table; when it is disabled,
    [execute] would leave the state unchanged or, on the page only, another command
    is still loading. *)
Theorem run_buttons_follow_guards `{Platform} env t0 now ts ns (s : View.State) (p : Page.State) :
  Forall (λ es, length es ≤ 1) (clicks [] (ExplorerView.render t0 now s)) ∧
  ([View.XExecute t0 now] ∈ clicks [] (ExplorerView.render t0 now s) →
     ExplorerView.starts s (View.execute env t0 now s)) ∧
  ([View.XExecute t0 now] ∉ clicks [] (ExplorerView.render t0 now s) →
     View.execute env t0 now s = s) ∧
  Forall (λ es, length es ≤ 1) (clicks [] (ExplorerPage.render t0 now ts ns p)) ∧
  ([Page.PClick t0 now ts] ∈ clicks [] (ExplorerPage.render t0 now ts ns p) →
     Page.loading p = false ∧ ExplorerPage.starts p (Page.execute env t0 now ts p)) ∧
  ([Page.PClick t0 now ts] ∉ clicks [] (ExplorerPage.render t0 now ts ns p) →
     Page.loading p = true ∨ Page.execute env t0 now ts p = p).
Proof.
  pose proof (ExplorerView.explorer_view_clicks t0 now s) as Hv.
  pose proof (ExplorerPage.explorer_page_clicks t0 now ts ns p) as Hp.
  rewrite ExplorerView.execute_offered, ExplorerPage.page_run_offered, !not_false_iff_true. split_and!.
  - eapply Forall_impl; [exact Hv|]. intros [|e [|]] He; cbn; try lia. by destruct e.
  - apply ExplorerView.view_execute_starts.
  - apply ExplorerView.view_execute_ignored.
  - eapply Forall_impl; [exact Hp|]. intros [|e [|]] He; cbn; try lia. by destruct e.
  - intros [Hl Hc]%orb_false_iff. split; [done|]. by apply ExplorerPage.page_execute_starts, negb_false_iff.
  - intros [Hl|Hc]%orb_true_iff; [by left|right]. by apply ExplorerPage.page_execute_ignored, negb_true_iff.
Qed.

(** ** Witnesses *)

Lemma displayed_endpoint_is_sent_witness :
  ∃ path, describes «"user:7"» «"GET /api/keys/{key}"» HGet path.
Proof.
  destruct (@displayed_endpoint_is_sent sample_platform sample_env GET «"user:7"» []
    {| req_method := HGet; req_url := apiUrl sample_env «"/api/keys/user%3A7"»; req_body := None |})
    as (path & _ & Hd); [vm_compute; reflexivity|]. exists path. exact Hd.
Defined.

Lemma node_selection_directs_reads_witness :
  @Page.execute_request sample_platform sample_env GET «"k"» [] (ExplorerPage.select_node «"2"») =
  @key_request sample_platform sample_env HGet «"k"» «"?node=2"».
Proof.
  apply (@node_selection_directs_reads sample_platform sample_env (nodes initial_state)
    (initial_node 2 «"vaultkv-node2"» 7380 false 145) «"k"» []); [right; left|done].
Defined.
