(* ===== verification/ViewConsensus.v ===== *)
(** * Rendering of the consensus views (RaftView in App.tsx, pages/Raft.tsx,
      NodeCard.tsx)

    The node cards with their Kill and Restart buttons and the event logs.  The
    composition with the store is stated at the end: which buttons are enabled in
    every state the store can reach. *)

From S2P Require Import Prelude JsNumber JsString Json Text RuntimeConfig Store Consensus Dom.

Local Open Scope list_scope.

(** ** RaftView *)

Module RaftViewUI.

(** The buttons of the view: an action on the [i]-th node. *)
Inductive button := Button (k : action_kind) (i : nat).

Definition press (b : button) : RaftView.event := let 'Button k i := b in RaftView.RClick k i.

Section RaftView.

Context `{Locale}.

Definition node_card (i : nat) (n : NodeMeta) : node button :=
  E "div" [Key (show_Z (node_id n));
           Class (if is_leader n then «"border border-blue-500/35 bg-blue-500/[0.03]"» else [])] [
    E "div" [] [
      E "div" [] [
        E "div" [Class (if healthy n then «"bg-emerald-400"» else «"bg-rose-500"»)] [];
        E "p" [] [Txt («"Node "» ++ show_Z (node_id n))]];
      E "span" [] [Txt (if is_leader n then «"Leader"» else «"Follower"»)]];
    E "div" [] [
      E "button" [OnClick (Button Kill i); Disabled (negb (healthy n))] [E "Power" [] []; T "Kill"];
      E "button" [OnClick (Button Restart i); Disabled (healthy n)] [E "RefreshCw" [] []; T "Restart"]]].

(** [now] is the value of [new Date()] when the view is rendered. *)
Definition log_line (now : number) (i : nat) (t : jsstring) : node button :=
  E "p" [Key (indexed_key t i)] [Txt («"["» ++ show_time FullTime now ++ «"] "» ++ t)].

Definition render (now : number) (ns : list NodeMeta) (log : list jsstring) : node button :=
  E "div" [] [
    E "h2" [] [T "Raft Consensus"];
    E "div" [] [
      E "div" [] [Arr (array_mapi node_card ns)];
      E "div" [] [
        E "div" [] [E "Terminal" [] []; E "span" [] [T "Consensus Stream"]];
        E "div" [] [Arr (array_mapi (log_line now) log)]]]].

Lemma node_card_keyed i n : well_keyed (node_card i n).
Proof. unfold node_card. keyed. Qed.

Lemma raft_view_ui_keyed now ns log : NoDup (node_id <$> ns) → well_keyed (render now ns log).
Proof.
  intros Hnd. unfold render. keyed.
  - apply (well_keyed_mapi_field _ (λ n, show_Z (node_id n))); [done|by apply integer_keys|apply node_card_keyed].
  - apply (well_keyed_indexed _ id); [done|]. intros. unfold log_line. keyed.
Qed.

(** Every click is one of the two buttons of a node, and is enabled for it. *)
Lemma raft_view_ui_clicks now ns log :
  Forall (λ es, es = [] ∨ ∃ k i n, es = [Button k i] ∧ ns !! i = Some n ∧ RaftView.enabled k n = true)
    (clicks [] (render now ns log)).
Proof.
  unfold render. offered ltac:(by left).
  - apply offered_mapi. intros i n Hn. unfold node_card. offered ltac:(by left);
      (right; eexists _, i, n; split_and!; [reflexivity|exact Hn|]);
      cbn [is_disabled existsb RaftView.enabled] in *; by destruct (healthy n).
  - apply offered_mapi. intros i t _. unfold log_line. by offered ltac:(by left).
Qed.

(** A button of a node can be clicked exactly when it is enabled for the node. *)
Lemma button_offered now ns log k i n :
  ns !! i = Some n →
  [Button k i] ∈ clicks [] (render now ns log) ↔ RaftView.enabled k n = true.
Proof.
  intros Hn. split.
  - intros Hin. pose proof (raft_view_ui_clicks now ns log) as Hc. rewrite Forall_forall in Hc.
    destruct (Hc _ Hin) as [|(k' & i' & n' & Heq & Hn' & He)]; [done|]. by simplify_eq.
  - intros He. unfold render. descend 1. descend 0. descend 0.
    apply (clicks_mapi _ _ _ _ _ _ Hn). unfold node_card.
    eapply clicks_child; [reflexivity..| |]; [right; left|].
    destruct k; cbn [RaftView.enabled] in He; [descend 0|descend 1]; apply clicks_here; by destruct (healthy n).
Qed.

End RaftView.

End RaftViewUI.

(** ** NodeCard *)

Module NodeCardUI.

Import NodeCard.

Section NodeCard.

Context `{Locale}.

(** [Metric] *)
Definition Metric (title value tone : jsstring) : node event :=
  E "div" [] [E "div" [] [Txt title]; E "div" [Class tone] [Txt value]].

Definition render (n : NodeMeta) (s : State) : node event :=
  E "div" [Class (if is_leader n
                  then «"border-sky-400/70 shadow-[0_0_38px_-20px_rgba(56,189,248,.95)]"»
                  else «"border-white/10"»)] [
    E "div" [] [
      E "div" [] ([
        E "span" [Class (if healthy n then «"bg-emerald-400 animate-pulseSoft"» else «"bg-red-500"»)] [];
        E "span" [] [Txt («"Node "» ++ show_Z (node_id n))]]
        ++ when (is_leader n && healthy n) [E "span" [] [T "LEADER"]]);
      E "span" [] [Txt (host n ++ «":"» ++ show_Z (port n))]];
    E "div" [] [
      Metric «"latency"» (toFixed 0 (latency_us n) ++ «" us"») «"text-amber-300"»;
      Metric «"rep lag"» (toFixed 1 (lag_ms n) ++ «" ms"») «"text-orange-300"»;
      Metric «"SET ops"» (show_number (ops_set n)) «"text-teal-300"»;
      Metric «"GET ops"» (show_number (ops_get n)) «"text-sky-300"»];
    E "div" [] [
      E "button" [OnClick (CKill n); Disabled (kill_disabled n s)]
        [Txt (if pendingKill s then «"Killing..."» else «"Kill"»)];
      E "button" [OnClick (CRestart n); Disabled (restart_disabled n s)]
        [Txt (if pendingRestart s then «"Restarting..."» else «"Restart"»)]]].

Lemma node_card_ui_keyed n s : well_keyed (render n s).
Proof. unfold render, Metric. keyed. Qed.

(** A click starts a request of its kind, and none of that kind is in flight. *)
Lemma node_card_ui_clicks n s :
  Forall (λ es, es = [] ∨ es = [CKill n] ∧ kill_disabled n s = false
              ∨ es = [CRestart n] ∧ restart_disabled n s = false) (clicks [] (render n s)).
Proof.
  unfold render, Metric. offered ltac:(by left); cbn [is_disabled existsb] in *; right.
  - left. split; [done|]. by destruct (kill_disabled n s).
  - right. split; [done|]. by destruct (restart_disabled n s).
Qed.

End NodeCard.

End NodeCardUI.

(** ** pages/Raft.tsx *)

Module RaftPageUI.

Import RaftPage.

Section RaftPage.

Context `{Locale}.

Definition color_class (c : Color) : jsstring :=
  match c with
  | Zinc400 => «"text-zinc-400"» | Zinc300 => «"text-zinc-300"» | Amber => «"text-amber-300"»
  | Red300 => «"text-red-300"» | Red400 => «"text-red-400"» | Teal => «"text-teal-300"»
  | Sky => «"text-sky-300"»
  end.

(** [ns] are the nodes of this rendering, which the handlers capture; [t] is the
    time they would read. *)
Definition node_box (ns : list NodeMeta) (t : number) (n : NodeMeta) : node event :=
  E "div" [Key (show_Z (node_id n));
           Class (if is_leader n then «"border-sky-400/50 bg-sky-500/10"»
                  else if healthy n then «"border-white/10 bg-black/30"»
                  else «"border-red-400/30 bg-red-500/10"»)] [
    E "div" [] [
      E "span" [Class (if healthy n then (if is_leader n then «"bg-sky-400"» else «"bg-teal-400"»)
                       else «"bg-red-500"»)] [];
      E "span" [] [Txt («"Node "» ++ show_Z (node_id n) ++ «" "»
                        ++ (if is_leader n then «"(LEADER)"» else «"(follower)"»))]];
    E "div" [] [
      E "button" [OnClick (PClick Kill (node_id n) ns t); Disabled (negb (healthy n))] [T "Kill"];
      E "button" [OnClick (PClick Restart (node_id n) ns t); Disabled (healthy n)] [T "Restart"]]].

Definition log_line (i : nat) (r : EventRow) : node event :=
  E "div" [Key (indexed_key (n_toString (ts r)) i)] [
    E "span" [] [Txt (show_time FullTime (ts r))];
    E "span" [Class (color_class (color r))] [Txt (msg r)]].

Definition render (ns : list NodeMeta) (t : number) (s : State) : node event :=
  E "div" [] [
    E "section" [] [E "h2" [] [T "Cluster Topology"]; Arr (node_box ns t <$> ns)];
    E "section" [] [E "h2" [] [T "Raft Event Log"];
                    E "div" [] [Arr (array_mapi log_line (events s))]]].

Lemma raft_page_ui_keyed ns t s : NoDup (node_id <$> ns) → well_keyed (render ns t s).
Proof.
  intros Hnd. unfold render. keyed.
  - apply (well_keyed_map _ (λ n, show_Z (node_id n))); [done|by apply integer_keys|].
    intros. unfold node_box. keyed.
  - apply (well_keyed_indexed _ (λ r, n_toString (ts r))); [done|]. intros. unfold log_line. keyed.
Qed.

(** A click acts on a node of the cluster for which the action makes sense, and
    captures the nodes it was rendered with. *)
Lemma raft_page_ui_clicks ns t s :
  Forall (λ es, es = [] ∨ ∃ k n, es = [PClick k (node_id n) ns t] ∧ n ∈ ns ∧ RaftView.enabled k n = true)
    (clicks [] (render ns t s)).
Proof.
  unfold render. offered ltac:(by left).
  - apply offered_map. intros n Hn. unfold node_box. offered ltac:(by left);
      (right; eexists _, n; split_and!; [reflexivity|exact Hn|]);
      cbn [is_disabled existsb RaftView.enabled] in *; by destruct (healthy n).
  - apply offered_mapi. intros i r _. unfold log_line. by offered ltac:(by left).
Qed.

End RaftPage.

End RaftPageUI.

(** ** Composition with the store *)

Section Consensus.

Context `{Platform, Locale}.

Lemma view_step_reachable Q e s :
  (∀ ns, e = RaftView.ROther (ESetNodes ns) → Q ns) →
  reachable Q (RaftView.sys s) → reachable Q (RaftView.sys (RaftView.step e s)).
Proof.
  intros HQ Hs. cbn [RaftView.sys RaftView.step].
  destruct (RaftView.store_event e s) as [e'|] eqn:E; [|done].
  apply reachable_step; [done|]. intros ns ->. apply HQ. destruct e as [k i|i o|e]; cbn in E.
  - destruct (nodes _ !! i) as [n|]; cbn in E; [|done]. by destruct (RaftView.enabled k n).
  - done.
  - destruct (RaftView.is_other e); [|done]. by simplify_eq.
Qed.

(** What RaftView can reach is what the store can reach. *)
Lemma view_run_reachable Q es s :
  Forall (λ e, ∀ ns, e = RaftView.ROther (ESetNodes ns) → Q ns) es →
  reachable Q (RaftView.sys s) → reachable Q (RaftView.sys (RaftView.run es s)).
Proof.
  intros He. revert s. induction He as [|e es He _ IH]; intros s Hs; [done|].
  by apply IH, view_step_reachable.
Qed.

(** C23: after any run of RaftView, a node the operator took down is offered to be
    restarted and cannot be killed again, and one click on its Restart button
    takes it off the mask and shows it healthy: no node gets stuck down. *)
Theorem downed_node_can_be_restarted now es i n :
  let s := RaftView.run es RaftView.init in
  let view := RaftViewUI.render now (nodes (store (RaftView.sys s))) (RaftView.events s) in
  nodes (store (RaftView.sys s)) !! i = Some n →
  node_id n ∈ forcedDownNodeIds (store (RaftView.sys s)) →
  let s' := RaftView.step (RaftViewUI.press (RaftViewUI.Button Restart i)) s in
  ([RaftViewUI.Button Kill i] ∉ clicks [] view) ∧
  [RaftViewUI.Button Restart i] ∈ clicks [] view ∧
  (node_id n ∉ forcedDownNodeIds (store (RaftView.sys s'))) ∧
  healthy <$> nodes (store (RaftView.sys s')) !! i = Some true.
Proof.
  intros s view Hn Hf s'.
  assert (healthy n = false) as Hh.
  { eapply (reachable_masked (RaftView.sys s)); [|by eapply list_elem_of_lookup_2|done].
    apply view_run_reachable; [by apply Forall_true|apply reachable_init]. }
  subst view. rewrite !(RaftViewUI.button_offered now _ _ _ i n Hn). cbn [RaftView.enabled]. rewrite Hh.
  split_and!; [done|done| |]; subst s'; cbn [RaftViewUI.press RaftView.sys RaftView.step RaftView.store_event];
    rewrite Hn; cbn [mbind option_bind RaftView.enabled]; rewrite Hh;
    cbn [negb sys_step store action_optimistic restartNode_optimistic set_nodes_forced forcedDownNodeIds nodes].
  - unfold restart_forced. rewrite array_filter_In, Z.eqb_refl. by intros [].
  - unfold restart_nodes. rewrite list_lookup_fmap, Hn. cbn. by rewrite Z.eqb_refl.
Qed.

End Consensus.

(** The lines of the consensus stream carry the time at which the view is
    rendered, not the time of the event: rendering the same log again later
    changes the time of every line. *)
Theorem stream_times_are_render_times `{Locale} now log :
  texts (Arr (array_mapi (RaftViewUI.log_line now) log)) =
  (λ t, «"["» ++ show_time FullTime now ++ «"] "» ++ t) <$> log.
Proof.
  cbn [texts]. assert (∀ k, flat_map texts (imap (λ i, RaftViewUI.log_line now (k + i)) log) =
    ((λ t, «"["» ++ show_time FullTime now ++ «"] "» ++ t) <$> log)) as Hl; [|apply (Hl 0)].
  induction log as [|t l IH]; intros k; [done|]. cbn [imap flat_map].
  rewrite fmap_cons. f_equal.
  rewrite <-(IH (S k)). f_equal. apply imap_ext. intros i x _. cbn. f_equal. lia.
Qed.

(** ** Witnesses *)

(** A locale for examples: numbers and times in decimal. *)
#[export] Instance sample_locale : Locale :=
  {| show_number := n_toString; show_time := λ _, n_toString |}.

Lemma downed_node_can_be_restarted_witness :
  let s := @RaftView.run sample_platform [RaftView.RClick Kill 1] RaftView.init in
  [RaftViewUI.Button Restart 1] ∈
    clicks [] (RaftViewUI.render n_zero (nodes (store (RaftView.sys s))) (RaftView.events s)).
Proof.
  apply (@downed_node_can_be_restarted sample_platform sample_locale n_zero [RaftView.RClick Kill 1] 1
    (mark_down (initial_node 2 «"vaultkv-node2"» 7380 false 145))); [reflexivity|].
  apply (bool_decide_unpack _). vm_compute. exact I.
Defined.
