(* ===== verification/ViewOverview.v ===== *)
(** * Rendering of the overview (Landing, DashboardView and FloatingMiniGraph in
      App.tsx, pages/Dashboard.tsx, OpsChart.tsx, LagChart.tsx)

    The texts and the charts of the dashboards.  A chart is an element with its
    rows of data; its axes and series name fields of the rows.  Colours and sizes
    are left out. *)

From S2P Require Import Prelude JsNumber JsString Text Store Metrics Consensus Overview Dom ViewConsensus.

Local Open Scope list_scope.

(** [Boolean(x)] for a number. *)
Definition n_truthy (x : number) : bool := negb (is_nan x || n_eq x n_zero).

(** [pt.ts * 1000], the argument of [new Date]. *)
Definition point_time (pt : MetricsPoint) : number := n_mul (ts pt) (n_of_Z 1000).

Definition status_name (w : WsStatus) : jsstring :=
  match w with connecting => «"connecting"» | open => «"open"» | closed => «"closed"» end.

(** The definitions of a gradient, referred to by an area. *)
Definition gradient {Ev} (id : jsstring) : node Ev :=
  E "linearGradient" [Label id] [E "stop" [] []; E "stop" [] []].

(** ** Landing *)

Definition Landing {Ev} (onEnter : Ev) : node Ev :=
  E "motion.div" [] [
    E "div" [] [];
    E "div" [] [
      E "p" [] [T "Secure Protocol Initialized"];
      E "h1" [] [T "OBSERVE"];
      E "p" [] [T "A high-fidelity interface for distributed systems with real-time telemetry and orchestration."];
      E "button" [OnClick onEnter] [T "Initialize "; E "Zap" [] []]]].

(** ** DashboardView *)

Module DashboardUI.

Section Dashboard.

Context `{Locale} {Ev : Type}.

Record Card := { label : jsstring; value : jsstring; sub : jsstring; icon : jsstring }.

Definition cards (s : ClusterState) : list Card := [
  {| label := «"Throughput"»; value := show_number (View.throughput (history s));
     sub := «"Ops per second"»; icon := «"Activity"» |};
  {| label := «"Latency"»; value := n_toString (View.latency (nodes s));
     sub := «"Microseconds mean"»; icon := «"Zap"» |};
  {| label := «"Storage"»; value := show_number (View.storage (nodes s));
     sub := «"Total active keys"»; icon := «"Database"» |};
  {| label := «"Nodes"»; value := View.nodes_card (nodes s);
     sub := «"Cluster operational"»; icon := «"Server"» |} ].

Definition data (h : list MetricsPoint) : list (list (jsstring * datum)) :=
  (λ pt, [(«"time"», DText (show_time HourMinuteSecond (point_time pt)));
          («"SET"», DNum (set_ops_per_sec pt)); («"GET"», DNum (get_ops_per_sec pt))]) <$> h.

Definition card_view (c : Card) : node Ev :=
  E "div" [Key (label c)] [
    E "div" [] [El (icon c) [] []];
    E "p" [] [Txt (label c)]; E "p" [] [Txt (value c)]; E "p" [] [Txt (sub c)]].

Definition render (s : ClusterState) : node Ev :=
  E "div" [] [
    E "div" [] [E "h2" [] [T "Observe Dashboard"];
                E "p" [] [T "Distributed Storage Observability System"]];
    E "div" [] [Arr (card_view <$> cards s)];
    E "div" [] [
      E "h3" [] [T "Throughput Real-time"];
      E "ResponsiveContainer" [] [
        E "AreaChart" [Data (data (history s))] [
          E "defs" [] [gradient «"setGrad"»; gradient «"getGrad"»];
          E "CartesianGrid" [] [];
          E "XAxis" [DataKey «"time"»] [];
          E "YAxis" [] [];
          E "Tooltip" [] [];
          E "Area" [DataKey «"SET"»] [];
          E "Area" [DataKey «"GET"»] []]]]].

Lemma dashboard_ui_keyed s : well_keyed (render s).
Proof.
  unfold render, gradient. keyed. apply (well_keyed_map _ label); [done| |keyed_leaf].
  change (label <$> cards s) with [«"Throughput"»; «"Latency"»; «"Storage"»; «"Nodes"»].
  apply (bool_decide_unpack _). vm_compute. exact I.
Qed.

(** The dashboard has no handlers. *)
Lemma dashboard_ui_clicks s : Forall (λ es, es = []) (clicks [] (render s)).
Proof.
  unfold render, gradient. offered ltac:(reflexivity). apply offered_map. intros c _. unfold card_view.
  by offered ltac:(reflexivity).
Qed.

End Dashboard.

End DashboardUI.

(** ** OpsChart *)

Section OpsChart.

Context `{Locale} {Ev : Type}.

Definition ops_data (h : list MetricsPoint) : list (list (jsstring * datum)) :=
  (λ pt, [(«"time"», DText (show_time FullTime (point_time pt)));
          («"SET"», DNum (set_ops_per_sec pt)); («"GET"», DNum (get_ops_per_sec pt))]) <$> h.

(** [v >= 1000 ? `${(v / 1000).toFixed(0)}K` : `${v}`] *)
Definition tickFormatter (v : number) : jsstring :=
  if n_le (n_of_Z 1000) v then toFixed 0 (n_div v (n_of_Z 1000)) ++ «"K"» else n_toString v.

Definition OpsChart (h : list MetricsPoint) : node Ev :=
  E "section" [] ([E "h3" [] [T "Live throughput (ops/s)"]]
    ++ when (length (ops_data h) =? 0)%nat [E "p" [] [T "Waiting for metric stream..."]]
    ++ [E "ResponsiveContainer" [] [
          E "AreaChart" [Data (ops_data h)] [
            E "defs" [] [gradient «"setGrad"»; gradient «"getGrad"»];
            E "CartesianGrid" [] [];
            E "XAxis" [DataKey «"time"»] [];
            E "YAxis" [TickFormat tickFormatter] [];
            E "Tooltip" [] [];
            E "Legend" [] [];
            E "Area" [DataKey «"SET"»] [];
            E "Area" [DataKey «"GET"»] []]]]).

(** ** LagChart *)

Definition lag_data (ns : list NodeMeta) : list (list (jsstring * datum)) :=
  (λ '(name, lag, up), [(«"name"», DText name); («"lag"», DNum lag); («"healthy"», DBool up)])
    <$> lag_bars ns.

Definition LagChart (ns : list NodeMeta) : node Ev :=
  E "section" [] ([E "h3" [] [T "Replication lag (ms)"]]
    ++ when (length (lag_data ns) =? 0)%nat [E "p" [] [T "No cluster data yet."]]
    ++ [E "ResponsiveContainer" [] [
          E "BarChart" [Data (lag_data ns)] [
            E "CartesianGrid" [] [];
            E "XAxis" [DataKey «"name"»] [];
            E "YAxis" [] [];
            E "Tooltip" [] [];
            E "Bar" [DataKey «"lag"»] []]]]).

Lemma OpsChart_keyed h : well_keyed (OpsChart h).
Proof. unfold OpsChart, gradient. keyed. Qed.

Lemma LagChart_keyed ns : well_keyed (LagChart ns).
Proof. unfold LagChart. keyed. Qed.

End OpsChart.

(** ** pages/Dashboard.tsx *)

Module DashboardPage.

Import Page.

(** The events of the node cards. *)
Record event := { card_of : Z; card_event : NodeCard.event }.

Section Dashboard.

Context `{Locale}.

Definition Stat (title value note : jsstring) : node event :=
  E "article" [] [E "p" [] [Txt title]; E "p" [] [Txt value]; E "p" [] [Txt note]].

Definition tone_class (t : Tone) : jsstring :=
  match t with
  | ToneOk => «"border-emerald-400/35 bg-emerald-500/10 text-emerald-200"»
  | ToneInfo => «"border-sky-400/35 bg-sky-500/10 text-sky-200"»
  | ToneDanger => «"border-rose-400/35 bg-rose-500/10 text-rose-200"»
  | ToneNeutral => «"border-white/15 bg-white/5 text-zinc-200"»
  end.

Definition Chip (label value : jsstring) (tone : Tone) : node event :=
  E "div" [Class (tone_class tone)] [E "p" [] [Txt label]; E "p" [] [Txt value]].

Definition cluster_chip (ns : list NodeMeta) : jsstring :=
  show_nat (length (array_filter healthy ns)) ++ «"/"» ++ show_nat (max (length ns) 3) ++ «" healthy"».

Definition throughput_chip (latest : option MetricsPoint) : jsstring :=
  match latest with
  | Some pt => show_number (point_total pt) ++ «" ops/s"»
  | None => «"warming up"»
  end.

Definition update_chip (u : option number) : jsstring :=
  match u with
  | Some t => if n_truthy t then show_time FullTime t else «"pending"»
  | None => «"pending"»
  end.

(** A rate of the latest point, or [0]. *)
Definition rate_stat (f : MetricsPoint → number) (latest : option MetricsPoint) : jsstring :=
  match latest with Some pt => show_number (f pt) | None => «"0"» end.

(** [cards] holds the state of each node's card. *)
Definition render (c : WsClusterState) (h : list MetricsPoint) (cards : Z → NodeCard.State) : node event :=
  let ns := meta <$> ws_nodes c in
  let latest := array_last h in
  E "div" [] ([
    E "header" [] [E "div" [] [
      E "div" [] [E "h2" [] [T "Cluster Mission Control"];
        E "p" [] [T "Live telemetry from gateway stream with HTTP fallback recovery."]];
      E "div" [] [
        Chip «"cluster"» (cluster_chip ns) (cluster_tone ns);
        Chip «"leader"» (leader_chip ns) ToneInfo;
        Chip «"throughput"» (throughput_chip latest) ToneNeutral;
        Chip «"last update"» (update_chip (lastUpdated c))
          (if bool_decide (ws_status c = open) then ToneOk else ToneNeutral)]]];
    E "section" [] [
      Stat «"Total Keys"» (show_number (totalKeys ns)) «"across healthy nodes"»;
      Stat «"Avg Latency"» (latency_stat ns) «"healthy node mean"»;
      Stat «"SET Ops/s"» (rate_stat set_ops_per_sec latest) «"latest sample"»;
      Stat «"GET Ops/s"» (rate_stat get_ops_per_sec latest) «"latest sample"»]]
    ++ when (length ns =? 0)%nat
         [E "section" [] [T "Waiting for first cluster snapshot. If this takes more than a few seconds, verify gateway reachability."]]
    ++ [E "section" [] [
          Arr ((λ n, E "NodeCard" [Key (show_Z (node_id n))]
                       [node_map (Build_event (node_id n)) (NodeCardUI.render n (cards (node_id n)))]) <$> ns)];
        E "section" [] [OpsChart h; LagChart ns]]).

Lemma dashboard_page_keyed c h cards :
  NoDup (node_id <$> (meta <$> ws_nodes c)) → well_keyed (render c h cards).
Proof.
  intros Hnd. unfold render, Stat, Chip. keyed.
  - apply (well_keyed_map _ (λ n, show_Z (node_id n))); [done|by apply integer_keys|].
    intros n. keyed. apply well_keyed_node_map, NodeCardUI.node_card_ui_keyed.
  - apply OpsChart_keyed.
  - apply LagChart_keyed.
Qed.

End Dashboard.

End DashboardPage.

(** ** FloatingMiniGraph *)

Module MiniGraphUI.

Import MiniGraph.

Section MiniGraph.

Context `{Locale}.

Definition MINI_GRAPH_CORNER_CLASS (c : Corner) : jsstring :=
  match c with
  | BottomRight => «"bottom-5 right-5"»
  | BottomLeft => «"bottom-5 left-5"»
  | TopRight => «"top-28 right-5"»
  | TopLeft => «"top-28 left-5"»
  end.

Definition mini_data (h : list MetricsPoint) : list (list (jsstring * datum)) :=
  (λ pt, [(«"time"», DText (show_time MinuteSecond (point_time pt))); («"total"», DNum (point_total pt))])
    <$> slice_last 20 h.

Definition small (h : list MetricsPoint) : node event :=
  E "button" [OnClick (MCollapse false)] [
    E "Activity" [] [];
    E "div" [] [E "p" [] [T "Mini Throughput"]; E "p" [] [Txt (show_number (latest h) ++ «" ops/s"»)]];
    E "Maximize2" [] []].

(** The separator is U+00B7. *)
Definition large (w : WsStatus) (h : list MetricsPoint) : node event :=
  E "div" [] [
    E "div" [] [
      E "div" [] [
        E "p" [] [T "Live Throughput Mini Graph"];
        E "p" [] [Txt («"Status: "» ++ status_name w ++ [32; 183; 32]%N ++ show_number (latest h) ++ «" ops/s"»)]];
      E "div" [] [
        E "button" [OnClick MMove; Label «"Move mini graph corner"»] [E "Move" [] []];
        E "button" [OnClick (MCollapse true); Label «"Minimize mini graph"»] [E "Minimize2" [] []]]];
    E "div" [] [E "ResponsiveContainer" [] [
      E "AreaChart" [Data (mini_data h)] [
        E "defs" [] [gradient «"miniOpsGrad"»];
        E "CartesianGrid" [] [];
        E "XAxis" [DataKey «"time"»] [];
        E "YAxis" [] [];
        E "Tooltip" [] [];
        E "Area" [DataKey «"total"»] []]]];
    E "p" [] [T "Tip: use the move icon to cycle corners."]].

(** Nothing is rendered while the graph is not visible. *)
Definition render (isVisible : bool) (w : WsStatus) (h : list MetricsPoint) (s : State) : list (node event) :=
  when isVisible
    [E "motion.div" [Class (MINI_GRAPH_CORNER_CLASS (corner s))]
       [if collapsed s then small h else large w h]].

Lemma mini_graph_ui_keyed v w h s : Forall well_keyed (render v w h s).
Proof. unfold render, small, large, gradient. keyed. destruct (collapsed s); keyed. Qed.

(** Two clicks are offered: to change the size and to move. *)
Lemma mini_graph_ui_clicks v w h s :
  Forall (λ n, Forall (λ es, es = [] ∨ es = [MMove] ∨ ∃ b, es = [MCollapse b]) (clicks [] n)) (render v w h s).
Proof.
  unfold render. destruct v; [|constructor]. apply Forall_singleton. offered ltac:(by left).
  destruct (collapsed s); [unfold small|unfold large, gradient]; offered ltac:(by left);
    right; (by left) || (right; by eexists).
Qed.

End MiniGraph.

End MiniGraphUI.

(** ** Properties *)

Section Overview.

Context `{Locale}.

Lemma data_plotted h : plots (DashboardUI.data h) [«"time"»; «"SET"»; «"GET"»] = true.
Proof. by apply (plots_map _ [«"time"»; «"SET"»; «"GET"»]). Qed.

Lemma ops_data_plotted h : plots (ops_data h) [«"time"»; «"SET"»; «"GET"»] = true.
Proof. by apply (plots_map _ [«"time"»; «"SET"»; «"GET"»]). Qed.

Lemma lag_data_plotted ns : plots (lag_data ns) [«"name"»; «"lag"»] = true.
Proof. apply (plots_map _ [«"name"»; «"lag"»; «"healthy"»]); [by intros [[]]|done]. Qed.

Lemma mini_data_plotted h : plots (MiniGraphUI.mini_data h) [«"time"»; «"total"»] = true.
Proof. by apply (plots_map _ [«"time"»; «"total"»]). Qed.

(** C37: every axis and every series of the four charts names a field that each
    row of the chart's data has, whatever the stores hold: nothing is plotted from
    an undefined field. *)
Theorem charts_plot_existing_fields (s : ClusterState) v m :
  charts_ok (DashboardUI.render (Ev := unit) s) = true ∧
  charts_ok (OpsChart (Ev := unit) (history s)) = true ∧
  charts_ok (LagChart (Ev := unit) (nodes s)) = true ∧
  forallb charts_ok (MiniGraphUI.render v (wsStatus s) (history s) m) = true.
Proof.
  split_and!.
  - cbn -[plots DashboardUI.data]. by rewrite data_plotted.
  - unfold OpsChart. destruct (length _ =? 0); cbn -[plots ops_data]; by rewrite ops_data_plotted.
  - unfold LagChart. destruct (length _ =? 0); cbn -[plots lag_data]; by rewrite lag_data_plotted.
  - unfold MiniGraphUI.render. destruct v; [|done]. destruct (MiniGraph.collapsed m); [done|].
    cbn -[plots MiniGraphUI.mini_data]. by rewrite mini_data_plotted.
Qed.

(** The floating graph, the dashboard and pages/Dashboard.tsx show the same
    throughput once there is a point. *)
Theorem throughput_texts_agree h pt :
  array_last h = Some pt →
  show_number (MiniGraph.latest h) = show_number (View.throughput h) ∧
  DashboardPage.throughput_chip (array_last h) = show_number (View.throughput h) ++ «" ops/s"».
Proof.
  intros Hl. rewrite mini_graph_agrees. split; [done|].
  unfold View.throughput. by rewrite Hl.
Qed.

End Overview.
