(* ===== verification/ViewTrace.v ===== *)
(** * Rendering of the architecture view (ArchitectureView in App.tsx)

    The view indexes [pageModules] with the focused module, so rendering can throw;
    [render] returns a completion.  The view is split into its panels. *)

From S2P Require Import Prelude JsNumber JsString Json Text RuntimeConfig Store.
From S2P Require Import Notifications Overview Trace Dom ViewConsensus ViewOverview.

Local Open Scope list_scope.

(** ** Texts *)

(** The separator U+00B7 between blanks. *)
Definition middle_dot : jsstring := [32; 183; 32]%N.

Record Module_ := {
  m_id : jsstring; m_title : jsstring; m_icon : jsstring; m_goal : jsstring;
  m_input : jsstring; m_output : jsstring; m_signal : jsstring;
}.

Record Lifecycle := { l_title : jsstring; l_detail : jsstring; l_icon : jsstring; l_accent : jsstring }.

Definition pillars : list (jsstring * jsstring * jsstring) := [
  («"Frontend"», «"React + Motion"»,
   «"Operator console with live charts, topology controls, and failure simulation."»);
  («"Gateway"», «"FastAPI TLV Bridge"»,
   «"REST/WS ingress that validates payloads and translates them into compact TLV frames."»);
  («"Engine"», «"C++17 + epoll"»,
   «"Low-latency event loop with WAL, MemTable updates, and background compaction."»);
  («"Consensus"», «"Raft + Quorum ACK"»,
   «"Leader replicates logs to followers; write is acked only after majority confirmation."») ].

(** Name, description, icon and colour of the steps of the visual flow. *)
Definition flow_steps : list (jsstring * jsstring * jsstring * jsstring) := [
  («"Browser UI"», «"User action starts request"», «"Globe"», «"text-sky-300"»);
  («"FastAPI Gateway"», «"Validates and maps to TLV"», «"FileText"», «"text-amber-300"»);
  («"Leader WAL"», «"Durable append before commit"», «"Lock"», «"text-violet-300"»);
  («"Quorum Replication"», «"Majority follower ACK"», «"Activity"», «"text-emerald-300"»);
  («"Client ACK"», «"Linearizable success reply"», «"CheckCircle2"», «"text-blue-300"») ].

(** The value of the example, a JSON text with double quotes. *)
Definition example_key : jsstring := «"user:9421"».
Definition example_value : jsstring :=
  json_stringify (JObj [(«"tier"», JStr «"pro"»); («"region"», JStr «"ap-south-1"»)]).

(** The lengths the example frame declares, in hexadecimal. *)
Definition example_key_len : jsstring := «"0x08"».
Definition example_val_len : jsstring := «"0x12"».

Definition example_frame : jsstring :=
  «"Frame: [type=SET][key_len="» ++ example_key_len ++ «"][val_len="» ++ example_val_len
  ++ «"][term=0x2B]"» ++ [10]%N
  ++ «"Key  : "» ++ example_key ++ [10]%N
  ++ «"Value: "» ++ example_value ++ [10]%N
  ++ «"WAL  : append -> fsync -> replicate -> quorum_ack"».

Definition status_text (st : TraceStepStatus) : jsstring :=
  match st with Idle => «"idle"» | Running => «"running"» | Success => «"success"» | Error => «"error"» end.

Definition status_class (st : TraceStepStatus) : jsstring :=
  match st with
  | Idle => «"bg-white/5 text-zinc-500"»
  | Running => «"bg-amber-400/15 text-amber-300"»
  | Success => «"bg-emerald-400/15 text-emerald-300"»
  | Error => «"bg-rose-400/15 text-rose-300"»
  end.

(** [node.is_leader ? "leader" : node.healthy ? "follower" : "offline"] *)
Definition role_text (n : NodeMeta) : jsstring :=
  if is_leader n then «"leader"» else if healthy n then «"follower"» else «"offline"».

Module ArchitectureUI.

Section Architecture.

Context `{Locale}.

(** The values of one rendering: the store and the state of the runner. *)
Context (cs : ClusterState) (s : TraceState).

Let ns := nodes cs.
Let up := length (healthyNodes ns).
Let total := length ns.
Let need := quorum total.
Let reached := quorumReached total up.

(** [`${healthyNodes.length}/${nodes.length}`] *)
Definition up_ratio : jsstring := show_nat up ++ «"/"» ++ show_nat total.

(** [`${(healthyNodes.length / Math.max(1, nodes.length)) * 100}%`] *)
Definition bar_width : jsstring :=
  n_toString (n_mul (n_div (n_of_nat up) (math_max (n_of_Z 1) (n_of_nat total))) (n_of_Z 100)) ++ «"%"».

Definition leader_signal : jsstring :=
  match leader ns with
  | Some n => «"Leader Node "» ++ show_Z (node_id n)
  | None => «"Leader unavailable"»
  end.

Definition trace_signal : jsstring :=
  match traceResult (core s) with
  | Some r => (if tr_ok r then «"Trace success"» else «"Trace failed"») ++ middle_dot
              ++ toFixed 2 (tr_latencyMs r) ++ «"ms"»
  | None => «"Ready to run trace"»
  end.

Definition pageModules : list Module_ := [
  {| m_id := «"overview"»; m_title := «"Overview"»; m_icon := «"LayoutDashboard"»;
     m_goal := «"Operational health at a glance"»;
     m_input := «"Live WebSocket metrics + cluster snapshot"»;
     m_output := «"Throughput chart, latency profile, node summary"»;
     m_signal := show_number (View.throughput (history cs)) ++ «" ops/s live"» |};
  {| m_id := «"explorer"»; m_title := «"Explorer"»; m_icon := «"Search"»;
     m_goal := «"Direct key-value operations"»;
     m_input := «"GET / SET / DEL / SCAN requests"»;
     m_output := «"Low-latency responses with operation history"»;
     m_signal := «"Gateway API path verification"» |};
  {| m_id := «"consensus"»; m_title := «"Consensus"»; m_icon := «"Activity"»;
     m_goal := «"Fault tolerance and leader behavior"»;
     m_input := «"Node kill/restart actions + replication state"»;
     m_output := «"Election events, leader transitions, quorum behavior"»;
     m_signal := leader_signal |};
  {| m_id := «"architecture"»; m_title := «"Architecture"»; m_icon := «"BookOpen"»;
     m_goal := «"End-to-end request lifecycle proof"»;
     m_input := «"Trace runner command payload"»;
     m_output := «"Stage-by-stage runtime and commit result"»;
     m_signal := trace_signal |} ].

Definition lifecycle : list Lifecycle := [
  {| l_title := «"Client Request"»;
     l_detail := «"Client sends GET/SET/DEL command over HTTPS or WebSocket to FastAPI ingress."»;
     l_icon := «"Globe"»; l_accent := «"text-sky-300"» |};
  {| l_title := «"TLV Translation"»;
     l_detail := «"Gateway normalizes request, adds metadata, and serializes as compact TLV frame."»;
     l_icon := «"FileText"»; l_accent := «"text-amber-300"» |};
  {| l_title := «"Leader WAL Commit"»;
     l_detail := «"Leader node "» ++ nullish (show_Z <$> (node_id <$> leader ns)) «"?"»
                 ++ «" appends encrypted entry to WAL before replication."»;
     l_icon := «"Lock"»; l_accent := «"text-violet-300"» |};
  {| l_title := «"Quorum Replication"»;
     l_detail := «"Entry is replicated to followers until quorum "» ++ show_nat need ++ «"/"»
                 ++ show_nat total ++ «" is reached."»;
     l_icon := «"Activity"»; l_accent := «"text-emerald-300"» |};
  {| l_title := «"Client ACK"»;
     l_detail := «"Gateway returns success only after majority ACK, guaranteeing linearizable writes."»;
     l_icon := «"CheckCircle2"»; l_accent := «"text-blue-300"» |} ].

(** ** Panels *)

Definition header_view : node event :=
  E "div" [] [
    E "h2" [] [T "VaultKV Architecture"];
    E "p" [] [T "Run a live request trace below to verify each architecture stage in order: ingress, TLV translation, leader WAL, quorum replication, and final ACK."];
    E "div" [] [
      E "div" [] [E "p" [] [T "Live Throughput"];
                  E "p" [] [Txt (show_number (View.throughput (history cs)))];
                  E "p" [] [T "ops/sec combined"]];
      E "div" [] [E "p" [] [T "Consensus State"];
                  E "p" [] [Txt (if reached then «"Quorum Ready"» else «"Degraded"»)];
                  E "p" [] [Txt (up_ratio ++ «" healthy nodes"»)]];
      E "div" [] [E "p" [] [T "Active Leader"];
                  E "p" [] [Txt (match leader ns with
                                 | Some n => «"Node "» ++ show_Z (node_id n)
                                 | None => «"Unavailable"» end)];
                  E "p" [] [Txt (match leader ns with
                                 | Some n => host n ++ «":"» ++ show_Z (port n)
                                 | None => «"No active leader"» end)]]]].

Definition pillars_view : node event :=
  E "div" [] [Arr ((λ '(label, value, desc),
    E "div" [Key label] [E "p" [] [Txt label]; E "p" [] [Txt value]; E "p" [] [Txt desc]]) <$> pillars)].

Definition flow_step (idx : nat) (st : jsstring * jsstring * jsstring * jsstring) : node event :=
  let '(name, desc, icon, color) := st in
  E "div" [Key name] ([
    E "div" [] [El icon [Class color] []; E "p" [] [Txt name]];
    E "p" [] [Txt desc]]
    ++ when (idx <? length flow_steps - 1)%nat
         [E "div" [] [E "motion.div" [] [E "ChevronRight" [] []]]]).

Definition flow_view : node event :=
  E "div" [] [
    E "div" [] [E "h3" [] [T "System Visual Flow"];
                E "p" [] [T "How data moves from UI to consensus commit and back."]];
    E "div" [] [Arr (array_mapi flow_step flow_steps)]].

Definition module_button (index : nat) (m : Module_) : node event :=
  let active := (activeModule (form s) =? index)%nat in
  E "button" [Key (m_id m); OnClick (TFocus index);
              Class (if active then «"border-blue-400/40 bg-blue-500/10"»
                     else «"border-white/10 bg-white/[0.02] hover:bg-white/[0.05]"»)] ([
    E "div" [] [El (m_icon m) [Class (if active then «"text-blue-300"» else «"text-zinc-500"»)] [];
                E "p" [] [Txt (m_title m)]];
    E "p" [] [Txt (m_goal m)]]
    ++ when active [E "motion.div" [] [T "Active Focus"]]).

(** The panel of the focused module, [pageModules[activeModule]]. *)
Definition modules_view (focused : Module_) : node event :=
  E "div" [] [
    E "div" [] [
      E "div" [] [E "h3" [] [T "Control Plane Map"];
                  E "p" [] [T "What each page does, what it consumes, and what it produces."]];
      E "span" [] [T "Auto Focus"]];
    E "div" [] [Arr (array_mapi module_button pageModules)];
    E "div" [] [
      E "p" [] [T "Focused Module Detail"];
      E "h4" [] [Txt (m_title focused)];
      E "div" [] [
        E "p" [] [E "span" [] [T "Input:"]; Txt («" "» ++ m_input focused)];
        E "p" [] [E "span" [] [T "Output:"]; Txt («" "» ++ m_output focused)];
        E "p" [] [E "span" [] [T "Live Signal:"]; Txt («" "» ++ m_signal focused)]]]].

(** A line of the two lists of replicas. *)
Definition replica (tag down : jsstring) (n : NodeMeta) : node event :=
  El tag [Key (show_Z (node_id n))] [
    E "div" [] [E "div" [Class (if healthy n then «"bg-emerald-400"» else down)] [];
                E "span" [] [Txt («"Node "» ++ show_Z (node_id n))]];
    E "span" [] [Txt (role_text n)]].

Definition bar_view : node event :=
  E "div" [] [E "motion.div" [Label bar_width;
    Class (if reached then «"bg-emerald-400"» else «"bg-rose-400"»)] []].

Definition commit_badge : node event :=
  E "span" [Class (if reached then «"bg-emerald-400/15 text-emerald-300"»
                   else «"bg-rose-400/15 text-rose-300"»)]
    [Txt (if reached then «"Can Commit"» else «"Blocked"»)].

Definition commit_view : node event :=
  E "div" [] [
    E "h3" [] [T "Consensus: Why It Matters"];
    E "p" [] [T "Consensus prevents split-brain writes. Client ACK happens only after majority replication."];
    E "div" [] [
      E "div" [] [
        E "div" [] [
          E "span" [] [T "Commit Rule"];
          commit_badge];
        E "p" [] [Txt («"Need "» ++ show_nat need ++ «" ACKs, currently "» ++ up_ratio ++ «" healthy."»)];
        bar_view];
      E "div" [] [Arr (replica «"motion.div"» «"bg-rose-400"» <$> ns)];
      E "div" [] [
        E "p" [] [T "Consensus Outcome"];
        E "p" [] [T "If leader fails, followers elect a new leader. If quorum is lost, writes are safely paused until quorum is restored. This protects data correctness under node failures."]]]].

Definition op_button (o : TraceOp) : node event :=
  E "button" [Key (op_text o); OnClick (TSetOp o);
              Class (if jeqb (op_text (traceOp (form s))) (op_text o) then «"border-white bg-white text-black"»
                     else «"border-white/10 bg-white/5 text-zinc-300 hover:bg-white/10"»)]
    [Txt (op_text o)].

(** One stage; [traceSteps[i]] may be [undefined]. *)
Definition stage_view (i : nat) (l : Lifecycle) : node event :=
  let st := traceSteps (core s) !! i in
  E "div" [Key (l_title l)] [E "div" [] [
    E "div" [] [El (l_icon l) [Class (l_accent l)] []];
    E "div" [] [
      E "div" [] [
        E "p" [] [Txt (show_nat (i + 1) ++ «". "» ++ l_title l)];
        E "span" [Class (nullish (status_class <$> (status <$> st)) [])]
          [Txt (nullish (status_text <$> (status <$> st)) «"idle"»)]];
      E "p" [] [Txt (l_detail l)];
      E "p" [] (match st with Some x => [Txt (runtime x)] | None => [] end)]]].

(** The runner; [k] are the clock readings the Run handler would take. *)
Definition runner_view (k : Clock) : node event :=
  E "div" [] [
    E "div" [] [
      E "div" [] [E "h3" [] [T "Live Request Trace Runner"];
                  E "p" [] [T "Execute the pipeline and watch each stage status in real time."]];
      E "div" [] [
        E "span" [] [Txt («"Gateway "» ++ status_name (wsStatus cs))];
        E "button" [OnClick TReset; Disabled (traceRunning (core s))] [T "Reset"];
        E "button" [OnClick (TRun ns k);
                    Disabled (traceRunning (core s) || jeqb (trim (traceKey (form s))) [])]
          [Txt (if traceRunning (core s) then «"Running..."» else «"Run Trace"»)]]];
    E "div" [] ([
      Arr (op_button <$> [TGet; TSet; TDel]);
      E "input" [Value (traceKey (form s)); OnChange TSetKey; Placeholder «"key"»] []]
      ++ when (jeqb (op_text (traceOp (form s))) «"SET"»)
           [E "input" [Value (traceValue (form s)); OnChange TSetValue; Placeholder «"value"»] []]);
    E "div" [] [Arr (array_mapi stage_view lifecycle)]].

Definition result_view : node event :=
  E "div" [] [
    E "h3" [] [T "Trace Result"];
    match traceResult (core s) with
    | Some r =>
        E "div" [] ([
          E "p" [Class (if tr_ok r then «"text-emerald-300"» else «"text-rose-300"»)] [Txt (tr_message r)];
          E "p" [] [Txt («"End-to-end latency: "» ++ toFixed 2 (tr_latencyMs r) ++ «"ms"»)]]
          ++ when (negb (jeqb (tr_payload r) [])) [E "pre" [] [Txt (tr_payload r)]])
    | None => E "p" [] [T "Run trace to see real gateway response and commit result."]
    end].

Definition status_view : node event :=
  E "div" [] [
    E "div" [] [
      E "h3" [] [T "Quorum Readiness"];
      E "p" [] [Txt up_ratio];
      E "p" [] [Txt («"Healthy replicas (need "» ++ show_nat need ++ «" to ACK writes)"»)];
      bar_view];
    E "div" [] [
      E "h3" [] [T "Replica Status"];
      E "div" [] [Arr (replica «"div"» «"bg-rose-500"» <$> ns)]];
    result_view].

(** One line of the engine panel. *)
Definition internal (icon head body : jsstring) : node event :=
  E "div" [] [El icon [] []; E "p" [] [E "span" [] [Txt head]; Txt body]].

Definition internals_view : node event :=
  E "div" [] [
    E "div" [] [
      E "h3" [] [T "TLV + WAL Pipeline Snapshot"];
      E "p" [] [T "Example frame shape used between gateway and engine."];
      E "div" [] [E "pre" [] [Txt example_frame]]];
    E "div" [] [
      E "h3" [] [T "Engine Internals"];
      E "p" [] [T "Core components currently active in the runtime path."];
      E "div" [] [
        internal «"Cpu"» «"epoll Event Loop:"»
          «" multiplexes socket I/O for gateway and replication channels with low overhead."»;
        internal «"FileText"» «"WAL First:"»
          «" every mutating command is durably appended before applied state changes."»;
        internal «"RefreshCw"» «"Raft Replication:"»
          «" log entries stream to followers; commit index advances only after majority match."»;
        internal «"Lock"» «"Encrypted Persistence:"»
          «" WAL and persisted segments are written with at-rest encryption policies enabled."»]]].

Definition render `{Platform} (k : Clock) : completion (node event) :=
  match pageModules !! activeModule (form s) with
  | None => Throw (ThrownError type_error_message)
  | Some focused =>
      Normal (E "div" [] [
        header_view; pillars_view; flow_view;
        E "div" [] [modules_view focused; commit_view];
        E "div" [] [runner_view k; status_view];
        internals_view])
  end.

(** ** Lemmas *)

Lemma pillars_keyed : well_keyed pillars_view.
Proof.
  unfold pillars_view. keyed. apply (well_keyed_map _ (λ x, x.1.1)); [by intros [[]]| |].
  - apply (bool_decide_unpack _). vm_compute. exact I.
  - intros [[]]. keyed.
Qed.

Lemma flow_keyed : well_keyed flow_view.
Proof.
  unfold flow_view. keyed. apply (well_keyed_mapi_field _ (λ x, x.1.1.1)); [by intros ? [[[]]]| |].
  - apply (bool_decide_unpack _). vm_compute. exact I.
  - intros i [[[]]]. unfold flow_step. keyed.
Qed.

Lemma modules_keyed m : well_keyed (modules_view m).
Proof.
  unfold modules_view. keyed. apply (well_keyed_mapi_field _ m_id); [done| |].
  - change (m_id <$> pageModules) with [«"overview"»; «"explorer"»; «"consensus"»; «"architecture"»].
    apply (bool_decide_unpack _). vm_compute. exact I.
  - intros i x. unfold module_button. keyed.
Qed.

Lemma replicas_keyed tag down : NoDup (node_id <$> nodes cs) → well_keyed (Arr (replica tag down <$> ns)).
Proof.
  intros Hnd. apply (well_keyed_map _ (λ n, show_Z (node_id n))); [done|by apply integer_keys|keyed_leaf].
Qed.

Lemma runner_keyed k : well_keyed (runner_view k).
Proof.
  unfold runner_view. keyed.
  - keyed_literal op_text.
  - apply (well_keyed_mapi_field _ l_title); [done| |].
    + change (l_title <$> lifecycle) with (title <$> createTraceSteps).
      apply (bool_decide_unpack _). vm_compute. exact I.
    + intros i l. unfold stage_view. keyed. destruct (traceSteps _ !! i); keyed.
Qed.

Lemma architecture_ui_keyed `{Platform} k t :
  NoDup (node_id <$> nodes cs) → render k = Normal t → well_keyed t.
Proof.
  intros Hnd. unfold render. destruct (pageModules !! _) as [m|]; [|done]. intros [= <-].
  unfold header_view, commit_view, commit_badge, status_view, result_view, internals_view, bar_view, internal. keyed;
    try by apply replicas_keyed.
  - apply pillars_keyed.
  - apply flow_keyed.
  - apply modules_keyed.
  - apply runner_keyed.
  - destruct (traceResult (core s)); keyed.
Qed.

(** The clicks the view offers. *)
Definition click_ok (k : Clock) (es : list event) : Prop :=
  match es with
  | [] | [TSetOp _] => True
  | [TFocus i] => i < module_count
  | [TReset] => traceRunning (core s) = false
  | [TRun ns' k'] => ns' = ns ∧ k' = k ∧ traceRunning (core s) = false ∧ trim (traceKey (form s)) ≠ []
  | _ => False
  end.

Lemma replicas_clicks k tag down : Forall (click_ok k) (clicks [] (Arr (replica tag down <$> ns))).
Proof. apply offered_map. intros n _. unfold replica. by offered ltac:(exact I). Qed.

Lemma modules_clicks k m : Forall (click_ok k) (clicks [] (modules_view m)).
Proof.
  unfold modules_view. offered ltac:(exact I).
  apply offered_mapi. intros i x Hx%lookup_lt_Some. unfold module_button. cbn in Hx.
  offered ltac:(exact Hx).
Qed.

Lemma runner_clicks k : Forall (click_ok k) (clicks [] (runner_view k)).
Proof.
  unfold runner_view. offered ltac:(exact I).
  - cbn [is_disabled existsb] in *. cbn [click_ok]. by destruct (traceRunning (core s)).
  - cbn [is_disabled existsb] in *. cbn [click_ok].
    destruct (traceRunning (core s)); [done|]. unfold jeqb in *.
    cbn [orb] in *. case_bool_decide; [done|]. by split_and!.
  - apply offered_map. intros o _. unfold op_button. by offered ltac:(exact I).
  - apply offered_mapi. intros i l _. unfold stage_view. offered ltac:(exact I).
    destruct (traceSteps _ !! i); by offered ltac:(exact I).
Qed.

Lemma architecture_ui_clicks `{Platform} k t : render k = Normal t → Forall (click_ok k) (clicks [] t).
Proof.
  unfold render. destruct (pageModules !! _) as [m|]; [|done]. intros [= <-].
  unfold header_view, pillars_view, flow_view, commit_view, commit_badge, status_view, result_view, internals_view,
    bar_view, internal.
  offered ltac:(exact I); try apply replicas_clicks.
  - apply offered_map. intros [[]] _. by offered ltac:(exact I).
  - apply offered_mapi. intros i [[[]]] _. unfold flow_step. by offered ltac:(exact I).
  - apply modules_clicks.
  - apply runner_clicks.
  - destruct (traceResult (core s)); by offered ltac:(exact I).
Qed.

(** The Run button can be clicked exactly when a trace would start. *)
Lemma trace_run_offered `{Platform} k t :
  render k = Normal t →
  [TRun ns k] ∈ clicks [] t ↔ traceRunning (core s) = false ∧ trim (traceKey (form s)) ≠ [].
Proof.
  intros Ht. split.
  - intros Hin. pose proof (architecture_ui_clicks k t Ht) as Hc. rewrite Forall_forall in Hc.
    destruct (Hc _ Hin) as (_ & _ & Hr). exact Hr.
  - intros [Hr Hk]. revert Ht. unfold render. destruct (pageModules !! _) as [m|]; [|done].
    intros [= <-]. descend 4. descend 0. unfold runner_view. descend 0. descend 1. descend 2.
    apply clicks_here. rewrite Hr. unfold jeqb. by rewrite bool_decide_false.
Qed.

End Architecture.

End ArchitectureUI.

(** ** Properties *)

Section Trace.

Context `{Platform, Locale} (env : Env).

(** The focused module always exists, so rendering completes. *)
Lemma render_completes cs s k :
  trace_ok s → ∃ t, ArchitectureUI.render cs s k = Normal t.
Proof.
  intros [Hm _]. unfold ArchitectureUI.render.
  destruct (lookup_lt_is_Some_2 (ArchitectureUI.pageModules cs s) (activeModule (form s))) as [m ->];
    [done|eauto].
Qed.

Lemma trace_starts s ns k :
  trace_ok s →
  runs (core s) = [] ∧ runs (core (step env (TRun ns k) s)) ≠ [] ↔
  traceRunning (core s) = false ∧ trim (traceKey (form s)) ≠ [].
Proof.
  intros [_ Hc]. cbn [step]. unfold runTrace, jeqb.
  destruct (runs (core s)) as [|r rs] eqn:Er.
  - destruct Hc as [_ Hc]. rewrite Er in Hc. destruct Hc as [-> _].
    case_bool_decide as Hk; cbn; rewrite ?Er; split; naive_solver.
  - split; [by intros []|]. destruct Hc as [_ Hc]. rewrite Er in Hc. destruct rs; [|done].
    destruct Hc as (-> & _). by intros [].
Qed.

(** C20: the architecture view never throws while rendering: whatever the
    operator, the timers and the gateway do, the focused module exists.  The Run
    button can be clicked exactly when no run is in progress and the click starts
    one. *)
Theorem architecture_always_renders cs s k :
  trace_reachable env s →
  ∃ t, ArchitectureUI.render cs s k = Normal t ∧
    ([TRun (nodes cs) k] ∈ clicks [] t ↔
     runs (core s) = [] ∧ runs (core (step env (TRun (nodes cs) k) s)) ≠ []).
Proof.
  intros Hs. pose proof (reachable_ok env s Hs) as Hok.
  destruct (render_completes cs s k Hok) as [t Ht]. exists t. split; [done|].
  by rewrite (ArchitectureUI.trace_run_offered cs s k t Ht), trace_starts.
Qed.

(** Each stage card shows the status and the runtime text of the stage of
    the same title: the two lists of the view stay aligned in every reachable
    state. *)
Theorem stage_cards_aligned cs s i l :
  trace_reachable env s → ArchitectureUI.lifecycle cs !! i = Some l →
  ∃ st, traceSteps (core s) !! i = Some st ∧ title st = l_title l ∧
    texts (ArchitectureUI.stage_view s i l) =
      [show_nat (i + 1) ++ «". "» ++ l_title l; status_text (status st); l_detail l; runtime st].
Proof.
  intros Hs Hl. destruct (reachable_ok env s Hs) as [_ [Ht _]].
  assert (title <$> traceSteps (core s) = l_title <$> ArchitectureUI.lifecycle cs) as Htl by exact Ht.
  assert ((title <$> traceSteps (core s)) !! i = Some (l_title l)) as Hi.
  { by rewrite Htl, list_lookup_fmap, Hl. }
  rewrite list_lookup_fmap in Hi. destruct (traceSteps (core s) !! i) as [st|] eqn:Est; [|done].
  injection Hi as Hi. exists st. split_and!; [done|done|].
  unfold ArchitectureUI.stage_view. cbn [texts flat_map E T app]. rewrite Est. done.
Qed.

(** The view announces that writes can commit exactly when a trace started now
    would pass the quorum stage. *)
Theorem commit_rule_matches_runner cs f k :
  texts (ArchitectureUI.commit_badge cs) =
  [match stage_start env (run_of (nodes cs) k f) 3 with
   | Normal _ => «"Can Commit"» | Throw _ => «"Blocked"» end].
Proof.
  unfold ArchitectureUI.commit_badge. cbn [stage_start run_of r_total r_healthy].
  by destruct (quorumReached _ _).
Qed.

End Trace.

(** The lengths the example frame declares are those of neither the key nor the
    value shown below it: 8 and 18 for a key of 9 and a value of 36 bytes. *)
Theorem example_frame_lengths :
  string_to_number example_key_len = n_of_Z 8 ∧ length example_key = 9 ∧
  string_to_number example_val_len = n_of_Z 18 ∧ length example_value = 36.
Proof. split_and!; vm_compute; reflexivity. Qed.

(** ** Witnesses *)

Lemma architecture_always_renders_witness :
  ∃ t, @ArchitectureUI.render sample_locale initial_state trace_init sample_platform sample_clock = Normal t ∧
    [TRun (nodes initial_state) sample_clock] ∈ clicks [] t.
Proof.
  destruct (@architecture_always_renders sample_platform sample_locale sample_form_env initial_state trace_init
    sample_clock (trace_start _)) as (t & Ht & Hiff).
  exists t. split; [exact Ht|]. apply Hiff. split; [reflexivity|]. vm_compute. discriminate.
Defined.

Lemma stage_cards_aligned_witness :
  ∃ st, traceSteps (core trace_init) !! 2 = Some st ∧ title st = «"Leader WAL Commit"».
Proof.
  destruct (@stage_cards_aligned sample_platform sample_form_env initial_state trace_init 2
    {| l_title := «"Leader WAL Commit"»;
       l_detail := «"Leader node 1 appends encrypted entry to WAL before replication."»;
       l_icon := «"Lock"»; l_accent := «"text-violet-300"» |} (trace_start _) eq_refl) as (st & H1 & H2 & _).
  exists st. split; [exact H1|exact H2].
Defined.
