(* ===== verification/Console.v ===== *)
(** * The whole console (App in App.tsx with the components it mounts)

    One system in which the components run together: the metrics stream feeds the
    store, the consensus view changes it and awaits the gateway, the notification
    center watches it, and the palette decides which view is mounted.  A step is
    one task of the event loop, followed by the effects React runs when the store's
    status or node list was replaced.  The theorems of the components are lifted
    to the system by projections. *)

From S2P Require Import Prelude JsNumber JsString Json RuntimeConfig Store Metrics Stream.
From S2P Require Import Notifications Palette Explorer Trace Consensus Overview.

Local Open Scope list_scope.

#[local] Existing Instance simulated_metrics.

(** ** State *)

(** The state of a mounted view.  RaftView keeps only its log: the nodes and the
    actions in flight are the store's. *)
Inductive Mounted :=
  | MDashboard
  | MExplorer (s : Explorer.View.State)
  | MRaft (log : list jsstring)
  | MArchitecture (s : TraceState).

(** [views] lists all views mounted so far, the one on the screen last: a view
    that was left no longer renders, but its requests still settle.  [actions] are
    the kills and restarts in flight with the view that reports them. *)
Record Console := {
  stream : World;
  actions : list (Pending * nat);
  notif : NotifState;
  palette : PaletteState;
  graph : MiniGraph.State;
  views : list Mounted;
}.

Definition c_store (c : Console) : ClusterState := h_store (app (stream c)).

(** The console as the store sees it. *)
Definition sys_of (c : Console) : Sys := {| store := c_store c; pending := (actions c).*1 |}.

Definition mount_view (t : TabId) : Mounted :=
  match t with
  | dashboard => MDashboard
  | explorer => MExplorer Explorer.View.init
  | raft => MRaft [RaftView.ready_event]
  | architecture => MArchitecture trace_init
  end.

Definition kind_of (v : Mounted) : TabId :=
  match v with
  | MDashboard => dashboard | MExplorer _ => explorer
  | MRaft _ => raft | MArchitecture _ => architecture
  end.

(** ** Updates *)

Definition set_stream (w : World) (c : Console) : Console := {|
  stream := w; actions := actions c; notif := notif c; palette := palette c;
  graph := graph c; views := views c |}.

Definition set_notif (n : NotifState) (c : Console) : Console := {|
  stream := stream c; actions := actions c; notif := n; palette := palette c;
  graph := graph c; views := views c |}.

Definition set_views (l : list Mounted) (c : Console) : Console := {|
  stream := stream c; actions := actions c; notif := notif c; palette := palette c;
  graph := graph c; views := l |}.

Definition set_graph (g : MiniGraph.State) (c : Console) : Console := {|
  stream := stream c; actions := actions c; notif := notif c; palette := palette c;
  graph := g; views := views c |}.

(** A new store and new actions in flight. *)
Definition set_store (s : ClusterState) (l : list (Pending * nat)) (c : Console) : Console := {|
  stream := set_app {| h_store := s; h_prev := h_prev (app (stream c)) |} (stream c);
  actions := l; notif := notif c; palette := palette c; graph := graph c; views := views c |}.

(** A new palette; when it shows another tab, that view is mounted afresh. *)
Definition set_palette (p : PaletteState) (c : Console) : Console := {|
  stream := stream c; actions := actions c; notif := notif c; palette := p; graph := graph c;
  views := if bool_decide (tab p = tab (palette c)) then views c
           else views c ++ [mount_view (tab p)] |}.

(** ** Tasks *)

(** [Act k i]: the button of kind [k] on the card of the [i]-th node.
    [Reply i o]: the [i]-th kill or restart in flight settles.  [ViewX j e] and
    [ViewT j e]: an event of the explorer or trace view mounted as the [j]-th. *)
Inductive task :=
  | Net (e : ws_event)
  | Act (k : action_kind) (i : nat)
  | Reply (i : nat) (o : fetch_outcome)
  | Pal (e : palette_event)
  | Shortcut (k : KeyEvent)
  | Bell (e : notif_event)
  | Mini (e : MiniGraph.event)
  | ViewX (j : nat) (e : Explorer.View.event)
  | ViewT (j : nat) (e : Trace.event).

(** Events of a view that do not come from the operator. *)
Definition x_async (e : Explorer.View.event) : bool :=
  match e with Explorer.View.XSettle _ _ _ => true | _ => false end.

Definition t_async (e : Trace.event) : bool :=
  match e with Trace.TResume _ _ | Trace.TReply _ _ _ => true | _ => false end.

(** The index of the mounted view. *)
Definition current (c : Console) : nat := pred (length (views c)).

Section Console.

Context `{Platform} (env : Env) (stamp : nat → jsstring * number).

(** The nodes a trace captures are those on the screen. *)
Definition captured (ns : list NodeMeta) (e : Trace.event) : Trace.event :=
  match e with Trace.TRun _ k => Trace.TRun ns k | _ => e end.

(** What RaftView pushes when an action has settled; [j] is the view that
    started it. *)
Definition report_to (j : nat) (p : Pending) (r : NodeActionResult) (l : list Mounted) : list Mounted :=
  match l !! j, RaftView.report (p_kind p) (p_id p) r with
  | Some (MRaft log), Normal t => <[j := MRaft (RaftView.push t log)]> l
  | _, _ => l
  end.

(** The synchronous part of a task; [None] when it cannot occur. *)
Definition perform (t : task) (c : Console) : option Console :=
  match t with
  | Net Mount | Net Unmount => None
  | Net e => w ← ws_step e (stream c); Some (set_stream w c)
  | Act k i =>
      match last (views c), nodes (c_store c) !! i with
      | Some (MRaft _), Some n =>
          if RaftView.enabled k n then
            let p := {| p_kind := k; p_id := node_id n; p_previous := c_store c |} in
            Some (set_store (action_optimistic k (node_id n) (c_store c))
                    (actions c ++ [(p, current c)]) c)
          else None
      | _, _ => None
      end
  | Reply i o =>
      match actions c !! i with
      | Some (p, j) =>
          let '(s, r) := action_settle (p_kind p) (p_previous p) o (c_store c) in
          Some (set_views (report_to j p r (views c)) (set_store s (delete i (actions c)) c))
      | None => None
      end
  | Pal (PShortcut _ _) => None
  | Pal e => p ← palette_step e (palette c); Some (set_palette p c)
  | Shortcut k =>
      let '(p, n) := handle k (palette c) (notif c) in Some (set_notif n (set_palette p c))
  | Bell e =>
      match e with
      | NToggle | NClose | NClear => Some (set_notif (notif_step stamp e (notif c)) c)
      | _ => None
      end
  | Mini e =>
      match e with
      | MiniGraph.MReload => None
      | _ => Some (set_graph (MiniGraph.step e (graph c)) c)
      end
  | ViewX j e =>
      match views c !! j with
      | Some (MExplorer s) =>
          if x_async e || (j =? current c)%nat
          then Some (set_views (<[j := MExplorer (Explorer.View.step env e s)]> (views c)) c) else None
      | _ => None
      end
  | ViewT j e =>
      match views c !! j with
      | Some (MArchitecture s) =>
          if Trace.on_screen e && (t_async e || (j =? current c)%nat)
          then Some (set_views
                 (<[j := MArchitecture (Trace.step env (captured (nodes (c_store c)) e) s)]> (views c)) c)
          else None
      | _ => None
      end
  end.

(** The task replaces the store's node array: a snapshot was stored, or an action
    was started or rolled back. *)
Definition replaces_nodes (t : task) (c : Console) : bool :=
  match t with
  | Net (Message _ _ (Some d)) | Net (PollReply _ (Some d)) =>
      bool_decide (as_nodes (d_nodes d) ≠ None)
  | Act _ _ => true
  | Reply i o =>
      match actions c !! i with
      | Some (p, _) => negb (ok (snd (action_settle (p_kind p) (p_previous p) o (c_store c))))
      | None => false
      end
  | _ => false
  end.

(** The effects of App that run after the task. *)
Definition run_effects (replaced : bool) (c : Console) : Console :=
  let n1 := status_effect stamp (wsStatus (c_store c)) (notif c) in
  set_notif (if replaced then nodes_effect stamp (nodes (c_store c)) n1 else n1) c.

Definition console_step (t : task) (c : Console) : option Console :=
  c' ← perform t c; Some (run_effects (replaces_nodes t c) c').

(** After the first commit: the stream's effect has run, and the notification
    center has been initialised. *)
Definition console_init (saved : stored) (mini : MiniGraph.Storage) : Console :=
  let w := run_effect (world_init {| h_store := initial_state; h_prev := None |}) in
  let s := h_store (app w) in
  {| stream := w; actions := [];
     notif := notif_run stamp [NMount; NStatus (wsStatus s); NNodes (nodes s)]
                (notif_init (wsStatus initial_state) (nodes initial_state));
     palette := palette_init saved; graph := MiniGraph.mount mini;
     views := [mount_view dashboard] |}.

(** States reachable when every snapshot satisfies [Q]. *)
Definition snapshot_ok (Q : list NodeMeta → Prop) (t : task) : Prop :=
  match t with
  | Net (Message _ _ (Some d)) | Net (PollReply _ (Some d)) =>
      ∀ l, as_nodes (d_nodes d) = Some l → Q l
  | _ => True
  end.

Inductive console_reachable (Q : list NodeMeta → Prop) (saved : stored) (mini : MiniGraph.Storage)
    : Console → Prop :=
  | console_start : console_reachable Q saved mini (console_init saved mini)
  | console_next t c c' :
      console_reachable Q saved mini c → snapshot_ok Q t → console_step t c = Some c' →
      console_reachable Q saved mini c'.

End Console.

(** Snapshots in which no node appears twice. *)
Definition distinct_ids (ns : list NodeMeta) : Prop := NoDup (node_id <$> ns).

(** ** Projection to the store *)

Section Store.

Context `{Platform} (Q : list NodeMeta → Prop).

(** [s'] follows from [s] by snapshots, metrics and status changes. *)
Definition store_run (s s' : ClusterState) : Prop :=
  ∃ es, Forall (λ e, RaftView.is_other e = true ∧ ∀ ns, e = ESetNodes ns → Q ns) es ∧
    ∀ p, sys_run es {| store := s; pending := p |} = {| store := s'; pending := p |}.

Lemma store_run_refl s : store_run s s.
Proof. exists []. by split. Qed.

Lemma store_run_trans s1 s2 s3 : store_run s1 s2 → store_run s2 s3 → store_run s1 s3.
Proof.
  intros (es1 & H1 & E1) (es2 & H2 & E2). exists (es1 ++ es2). split; [by apply Forall_app|].
  intros p. by rewrite sys_run_app, E1.
Qed.

Lemma store_run_status w s : store_run s (setStatus w s).
Proof. exists [ESetStatus w]. split; [|done]. by apply Forall_singleton. Qed.

Lemma store_run_nodes ns s : Q ns → store_run s (setNodes ns s).
Proof.
  intros HQ. exists [ESetNodes ns]. split; [|done]. apply Forall_singleton.
  split; [done|]. by intros ? [= <-].
Qed.

Lemma store_run_metrics pt s : store_run s (pushMetrics pt s).
Proof. exists [EPushMetrics pt]. split; [|done]. by apply Forall_singleton. Qed.

Lemma store_run_consume now d h :
  (∀ l, as_nodes (d_nodes d) = Some l → Q l) → store_run (h_store h) (h_store (consume now d h)).
Proof.
  intros HQ. unfold consume. cbn [h_store].
  assert (∀ l, fx_nodes (consumeSnapshot now d (h_prev h)) = Some l → Q l) as Hl.
  { intros l. unfold consumeSnapshot. intros Hl. apply HQ. revert Hl.
    destruct (direct_point _ _), (as_nodes (d_nodes d)), (h_prev h); naive_solver. }
  eapply (store_run_trans _ (match fx_nodes (consumeSnapshot now d (h_prev h)) with
    | Some l => setNodes l (h_store h) | None => h_store h end)).
  - destruct (fx_nodes _) as [l|]; [apply store_run_nodes; auto|apply store_run_refl].
  - destruct (fx_push _); [apply store_run_metrics|apply store_run_refl].
Qed.

Lemma store_run_reachable s s' p :
  store_run s s' → reachable Q {| store := s; pending := p |} →
  reachable Q {| store := s'; pending := p |}.
Proof.
  intros (es & Hes & Hrun) Hs. rewrite <-Hrun. clear Hrun. revert Hs.
  generalize {| store := s; pending := p |}. induction Hes as [|e es [_ He] _ IH]; intros σ Hσ; [done|].
  apply IH. by apply reachable_step.
Qed.

(** ** What the handlers of the stream do to the store *)

Implicit Types w : World.

Lemma close_ref_app w : app (close_ref w) = app w.
Proof. unfold close_ref. by destruct (wsRef w). Qed.

Lemma connect_store i w : store_run (h_store (app w)) (h_store (app (connect i w))).
Proof. unfold connect. destruct (is_disposed i w); [apply store_run_refl|apply store_run_status]. Qed.

Lemma on_open_store i w : store_run (h_store (app w)) (h_store (app (on_open i w))).
Proof. apply store_run_status. Qed.

Lemma on_close_store i w : store_run (h_store (app w)) (h_store (app (on_close i w))).
Proof.
  unfold on_close. destruct (is_disposed _ _); [apply store_run_refl|apply store_run_status].
Qed.

Lemma on_message_store now data w :
  (∀ d l, data = Some d → as_nodes (d_nodes d) = Some l → Q l) →
  store_run (h_store (app w)) (h_store (app (on_message now data w))).
Proof.
  intros HQ. destruct data as [d|]; [|apply store_run_refl]. apply store_run_consume. eauto.
Qed.

Lemma net_store e w w' :
  snapshot_ok Q (Net e) → ws_step e w = Some w' → e ≠ Mount → e ≠ Unmount →
  store_run (h_store (app w)) (h_store (app w')).
Proof.
  intros HQ Hstep Hm Hu. destruct e as [| |s|s now data|s failed|t|i|now data]; try done; cbn [ws_step] in Hstep.
  - destruct (sockets w !! s) as [k|]; [|done]. case_decide; simplify_eq.
    apply (on_open_store (sk_owner k) (set_sockets (<[s:=set_state OPEN k]> (sockets w)) w)).
  - destruct (sockets w !! s) as [k|]; [|done]. case_decide; simplify_eq.
    apply on_message_store. intros d l -> Hl. by apply HQ.
  - destruct (sockets w !! s) as [k|]; [|done]. case_decide; simplify_eq.
    replace (app w) with (app (if failed then on_error (set_sockets (<[s:=set_state CLOSED k]> (sockets w)) w)
      else set_sockets (<[s:=set_state CLOSED k]> (sockets w)) w)); [apply on_close_store|].
    destruct failed; [|done]. unfold on_error. by rewrite close_ref_app.
  - destruct (array_find _ _) as [[t' i]|]; simplify_eq. apply (connect_store i (set_timeouts (array_filter (λ p, negb (fst p =? t)%nat) (timeouts w)) w)).
  - destruct (insts w !! i) as [x|]; [|done]. destruct (polling x); simplify_eq.
    destruct (poll_due w); apply store_run_refl.
  - destruct (inflight w =? 0); simplify_eq.
    apply (on_message_store now data (set_inflight (pred (inflight w)) w)). intros d l -> Hl. by apply HQ.
Qed.

End Store.

(** ** Projections of the system *)

Section Projections.

Context `{Platform} (env : Env) (stamp : nat → jsstring * number).

Lemma fmap_delete {A B} (f : A → B) (l : list A) i : f <$> delete i l = delete i (f <$> l).
Proof. revert i. induction l as [|x l IH]; intros [|i]; [done..|]. cbn. f_equal. apply IH. Qed.

Lemma run_effects_sys b c : sys_of (run_effects stamp b c) = sys_of c.
Proof. done. Qed.

(** Inverts [console_step]. *)
Lemma console_step_inv t c c' :
  console_step env stamp t c = Some c' →
  ∃ c1, perform env stamp t c = Some c1 ∧ c' = run_effects stamp (replaces_nodes t c) c1.
Proof. unfold console_step. destruct (perform _ _ _ _) as [c1|]; cbn; naive_solver. Qed.

(** Induction over reachable consoles: a property of the state that holds at the
    start, is kept by the synchronous part of every task and by the effects. *)
Lemma console_inv (P : Console → Prop) Q saved mini c :
  P (console_init stamp saved mini) →
  (∀ t c c1, P c → snapshot_ok Q t → perform env stamp t c = Some c1 →
     P (run_effects stamp (replaces_nodes t c) c1)) →
  console_reachable env stamp Q saved mini c → P c.
Proof.
  intros H0 Hs. induction 1 as [|t c c' _ IH HQ Hc]; [done|].
  destruct (console_step_inv t c c' Hc) as (c1 & Hp & ->). by apply (Hs t).
Qed.

(** The parts of the console a task leaves alone. *)
Lemma perform_cases t c c1 :
  perform env stamp t c = Some c1 →
  (∃ e w, t = Net e ∧ ws_step e (stream c) = Some w ∧ e ≠ Mount ∧ e ≠ Unmount ∧ c1 = set_stream w c) ∨
  (∃ k i n log, t = Act k i ∧ last (views c) = Some (MRaft log) ∧ nodes (c_store c) !! i = Some n ∧
     RaftView.enabled k n = true ∧
     c1 = set_store (action_optimistic k (node_id n) (c_store c))
       (actions c ++ [({| p_kind := k; p_id := node_id n; p_previous := c_store c |}, current c)]) c) ∨
  (∃ i o p j, t = Reply i o ∧ actions c !! i = Some (p, j) ∧
     let r := action_settle (p_kind p) (p_previous p) o (c_store c) in
     c1 = set_views (report_to j p (snd r) (views c)) (set_store (fst r) (delete i (actions c)) c)) ∨
  (∃ e p, t = Pal e ∧ palette_step e (palette c) = Some p ∧ c1 = set_palette p c) ∨
  (∃ k, t = Shortcut k ∧
     c1 = set_notif (snd (handle k (palette c) (notif c)))
            (set_palette (fst (handle k (palette c) (notif c))) c)) ∨
  (∃ e, t = Bell e ∧ e ∈ [NToggle; NClose; NClear] ∧ c1 = set_notif (notif_step stamp e (notif c)) c) ∨
  (∃ e, t = Mini e ∧ c1 = set_graph (MiniGraph.step e (graph c)) c) ∨
  (∃ j e s, t = ViewX j e ∧ views c !! j = Some (MExplorer s) ∧
     c1 = set_views (<[j := MExplorer (Explorer.View.step env e s)]> (views c)) c) ∨
  (∃ j e s, t = ViewT j e ∧ views c !! j = Some (MArchitecture s) ∧ Trace.on_screen e = true ∧
     c1 = set_views (<[j := MArchitecture (Trace.step env (captured (nodes (c_store c)) e) s)]> (views c)) c).
Proof.
  intros Hp. destruct t as [e|k i|i o|e|k|e|e|j e|j e]; cbn [perform] in Hp.
  - left. destruct e; try done; destruct (ws_step _ (stream c)) as [w|] eqn:E; simplify_eq/=; eauto 10.
  - right. left. destruct (last (views c)) as [[| |log|]|] eqn:El; try done.
    destruct (nodes _ !! i) as [n|] eqn:En; [|done]. destruct (RaftView.enabled k n) eqn:Ee; simplify_eq.
    by exists k, i, n, log.
  - do 2 right. left. destruct (actions c !! i) as [[p j]|] eqn:Ei; [|done].
    destruct (action_settle _ _ _ _) as [s r] eqn:Es. simplify_eq.
    exists i, o, p, j. cbn zeta. by rewrite Es.
  - do 3 right. left. destruct e; try done; destruct (palette_step _ (palette c)) eqn:E; simplify_eq/=; eauto 10.
  - do 4 right. left. exists k. destruct (handle k (palette c) (notif c)). by simplify_eq.
  - do 5 right. left. exists e. destruct e; simplify_eq; split_and!; done || set_solver.
  - do 6 right. left. exists e. destruct e; by simplify_eq.
  - do 7 right. left. destruct (views c !! j) as [[|s| |]|] eqn:Ej; try done. destruct (_ || _); simplify_eq. by exists j, e, s.
  - do 8 right. destruct (views c !! j) as [[| | |s]|] eqn:Ej; try done.
    destruct (Trace.on_screen e) eqn:He; [|done]. destruct (t_async e || _); simplify_eq/=. by exists j, e, s.
Qed.

Ltac perform_cases Hp :=
  apply perform_cases in Hp as
    [(e & w & -> & Hw & Hm & Hu & ->)
    |[(k & i & n & log & -> & Hlast & Hn & He & ->)
    |[(i & o & p & j & -> & Hi & ->)
    |[(e & p & -> & Hpal & ->)
    |[(k & -> & ->)
    |[(e & -> & Hbell & ->)
    |[(e & -> & ->)
    |[(j & e & s & -> & Hj & ->)
    |(j & e & s & -> & Hj & He & ->)]]]]]]]].

(** *** The store *)

(** What a task does to the store and to the actions in flight is a sequence of
    steps of the store. *)
Lemma perform_store Q t c c1 :
  snapshot_ok Q t → perform env stamp t c = Some c1 → reachable Q (sys_of c) → reachable Q (sys_of c1).
Proof.
  intros HQ Hp Hc. perform_cases Hp; try exact Hc.
  - eapply (store_run_reachable Q (c_store c)); [|exact Hc]. by apply (net_store Q e (stream c) w).
  - replace (sys_of _) with (sys_step (EStart k (node_id n)) (sys_of c)); [by apply reachable_step|].
    unfold sys_of. cbn. by rewrite fmap_app.
  - replace (sys_of _) with (sys_step (ESettle i o) (sys_of c)); [by apply reachable_step|].
    unfold sys_of at 1. cbn [sys_step pending store]. rewrite list_lookup_fmap, Hi.
    unfold sys_of. cbn. by rewrite fmap_delete.
Qed.

(** The console refines the store: every reachable console shows a store that
    the store's own transition system reaches. *)
Lemma console_store Q saved mini c :
  console_reachable env stamp Q saved mini c → reachable Q (sys_of c).
Proof.
  induction 1 as [|t c c' _ IH HQ Hs].
  - apply (store_run_reachable Q initial_state); [|apply reachable_init]. apply store_run_status.
  - destruct (console_step_inv t c c' Hs) as (c1 & Hp & ->). rewrite run_effects_sys.
    by eapply perform_store.
Qed.

(** *** The stream *)

Lemma mounted_step e w w' : ws_step e w = Some w' → e ≠ Mount → e ≠ Unmount → mounted w = true → mounted w' = true.
Proof.
  intros Hs Hm Hu. unfold mounted.
  assert (disposed <$> insts w' = disposed <$> insts w) as Hd.
  { destruct e as [| |s|s now d|s failed|t|i|now d]; try done; cbn [ws_step] in Hs.
    - destruct (sockets w !! s); [|done]. case_decide; by simplify_eq.
    - destruct (sockets w !! s); [|done]. case_decide; simplify_eq. by destruct d.
    - destruct (sockets w !! s) as [k|]; [|done]. case_decide; simplify_eq.
      set (w1 := if failed then _ else _).
      assert (insts w1 = insts w) as Hi.
      { subst w1. destruct failed; [|done]. unfold on_error, close_ref. by destruct (wsRef _). }
      unfold on_close. destruct (is_disposed _ _); cbn; rewrite Hi; [done|].
      rewrite (list_fmap_alter disposed _ id) by (by apply Forall_true).
      apply list_eq. intros j. destruct (decide (j = sk_owner k)) as [->|].
      + rewrite list_lookup_alter_eq. by destruct (_ !! _).
      + by rewrite list_lookup_alter_ne.
    - destruct (array_find _ _) as [[t' i]|]; simplify_eq. unfold connect. by destruct (is_disposed _ _).
    - destruct (insts w !! i); [|done]. destruct (polling _); simplify_eq. by destruct (poll_due w).
    - destruct (inflight w =? 0); simplify_eq. by destruct d. }
  assert (∀ l, forallb disposed l = forallb id (disposed <$> l)) as Hf.
  { induction l as [|x l IH]; [done|]. cbn. by rewrite IH. }
  by rewrite !Hf, Hd.
Qed.

Lemma set_store_Inv s l c :
  wsStatus s = wsStatus (c_store c) → Inv (stream c) → Inv (stream (set_store s l c)).
Proof. intros Hs. by apply Inv_ext. Qed.

Lemma optimistic_status k id s : wsStatus (action_optimistic k id s) = wsStatus s.
Proof. by destruct k. Qed.

Lemma settle_status k prev o s : wsStatus (fst (action_settle k prev o s)) = wsStatus s.
Proof. by destruct (action_settle_cases k prev o s) as [[_ ->]|[_ ->]]. Qed.

(** Kills, restarts and roll-backs leave the status alone, so the stream's own
    invariant holds in the composed system. *)
Lemma console_stream Q saved mini c :
  console_reachable env stamp Q saved mini c → Inv (stream c) ∧ mounted (stream c) = true.
Proof.
  apply (console_inv (λ c, Inv (stream c) ∧ mounted (stream c) = true)).
  - split; [|done]. apply Inv_mount; [apply Inv_init|done].
  - clear c. intros t c c1 [HI Hm'] _ Hp. perform_cases Hp; cbn [stream run_effects set_notif]; try done.
    + split; [by eapply Inv_step|by eapply mounted_step].
    + split; [|done]. apply set_store_Inv; [apply optimistic_status|done].
    + split; [|done]. apply set_store_Inv; [apply settle_status|done].
Qed.

(** *** The notification center *)

Definition in_sync (c : Console) : Prop :=
  prevNodes (notif c) = nodes (c_store c) ∧ prevWsStatus (notif c) = wsStatus (c_store c) ∧
  nodesInitialized (notif c) = true.

(** What the effects do to the refs. *)
Lemma push_all_refs l n :
  prevNodes (push_all stamp l n) = prevNodes n ∧ prevWsStatus (push_all stamp l n) = prevWsStatus n ∧
  nodesInitialized (push_all stamp l n) = nodesInitialized n.
Proof. revert n. induction l as [|x l IH]; intros n; [done|]. apply (IH (pushNotification stamp x n)). Qed.

Lemma status_effect_refs w n :
  prevNodes (status_effect stamp w n) = prevNodes n ∧ prevWsStatus (status_effect stamp w n) = w ∧
  nodesInitialized (status_effect stamp w n) = nodesInitialized n.
Proof. unfold status_effect. by case_decide. Qed.

Lemma nodes_effect_refs ns n :
  prevNodes (nodes_effect stamp ns n) = ns ∧ prevWsStatus (nodes_effect stamp ns n) = prevWsStatus n ∧
  nodesInitialized (nodes_effect stamp ns n) = true.
Proof.
  unfold nodes_effect. split_and!; [done| |done]. cbn. destruct (nodesInitialized n); [|done]. apply push_all_refs.
Qed.

Lemma set_open_refs b n :
  prevNodes (set_open b n) = prevNodes n ∧ prevWsStatus (set_open b n) = prevWsStatus n ∧
  nodesInitialized (set_open b n) = nodesInitialized n.
Proof. unfold set_open. by destruct (Bool.eqb _ _), b. Qed.

(** A task that does not replace the node array leaves it as it is. *)
Lemma consume_nodes now d h :
  as_nodes (d_nodes d) = None → nodes (h_store (consume now d h)) = nodes (h_store h).
Proof.
  intros Hd. unfold consume, consumeSnapshot. rewrite Hd. by destruct (direct_point _ _), (h_prev h).
Qed.

Lemma net_nodes e w w' c :
  ws_step e w = Some w' → e ≠ Mount → e ≠ Unmount → replaces_nodes (Net e) c = false →
  nodes (h_store (app w')) = nodes (h_store (app w)).
Proof.
  intros Hs Hm Hu Hr. destruct e as [| |s|s now d|s failed|t|i|now d]; try done; cbn [ws_step replaces_nodes] in *.
  - destruct (sockets w !! s); [|done]. case_decide; by simplify_eq.
  - destruct (sockets w !! s); [|done]. case_decide; simplify_eq. destruct d as [d|]; [|done].
    apply consume_nodes. apply bool_decide_eq_false, dec_stable in Hr. done.
  - destruct (sockets w !! s) as [k|]; [|done]. case_decide; simplify_eq.
    unfold on_close. destruct (is_disposed _ _), failed; cbn; unfold on_error; by rewrite ?close_ref_app.
  - destruct (array_find _ _) as [[t' i]|]; simplify_eq. unfold connect. by destruct (is_disposed _ _).
  - destruct (insts w !! i); [|done]. destruct (polling _); simplify_eq. by destruct (poll_due w).
  - destruct (inflight w =? 0); simplify_eq. destruct d as [d|]; [|done].
    apply consume_nodes. apply bool_decide_eq_false, dec_stable in Hr. done.
Qed.

Lemma perform_nodes t c c1 :
  perform env stamp t c = Some c1 → replaces_nodes t c = false →
  nodes (c_store c1) = nodes (c_store c).
Proof.
  intros Hp Hr. perform_cases Hp; try done.
  - by eapply net_nodes.
  - cbn [replaces_nodes] in Hr. rewrite Hi in Hr. apply negb_false_iff in Hr.
    change (nodes (fst (action_settle (p_kind p) (p_previous p) o (c_store c))) = nodes (c_store c)).
    destruct (action_settle_cases (p_kind p) (p_previous p) o (c_store c)) as [[_ Hs]|[Hok _]]; [|congruence].
    by rewrite Hs.
Qed.

Lemma perform_refs t c c1 :
  perform env stamp t c = Some c1 →
  prevNodes (notif c1) = prevNodes (notif c) ∧ prevWsStatus (notif c1) = prevWsStatus (notif c) ∧
  nodesInitialized (notif c1) = nodesInitialized (notif c).
Proof.
  intros Hp. perform_cases Hp; try done.
  - unfold handle. destruct (_ && _), (jeqb (key k) _); cbn; try done; try apply set_open_refs.
    destruct (set_open_refs false (set_open false (notif c))) as (-> & -> & ->). apply set_open_refs.
  - cbn [notif set_notif]. repeat (apply elem_of_cons in Hbell as [->|Hbell]);
      [apply set_open_refs|apply set_open_refs|done|by apply not_elem_of_nil in Hbell].
Qed.

(** After every task the notification center has seen the store as it is. *)
Lemma console_sync Q saved mini c : console_reachable env stamp Q saved mini c → in_sync c.
Proof.
  apply (console_inv in_sync); [done|]. clear c. intros t c c1 (Hn & Hw & Hi) _ Hp.
  destruct (perform_refs t c c1 Hp) as (Hn1 & _ & Hi1). unfold in_sync. cbn [notif run_effects set_notif].
  change (c_store (run_effects stamp (replaces_nodes t c) c1)) with (c_store c1).
  destruct (status_effect_refs (wsStatus (c_store c1)) (notif c1)) as (Hs1 & Hs2 & Hs3).
  destruct (replaces_nodes t c) eqn:Hr.
  - destruct (nodes_effect_refs (nodes (c_store c1)) (status_effect stamp (wsStatus (c_store c1)) (notif c1)))
      as (-> & -> & ->). done.
  - rewrite Hs1, Hs2, Hs3, Hn1, Hi1, Hn. split_and!; [|done|done]. symmetry. by apply (perform_nodes t).
Qed.

(** *** Navigation and views *)

Lemma console_palette Q saved mini c :
  console_reachable env stamp Q saved mini c → palette_reachable saved (palette c).
Proof.
  apply (console_inv (λ c, palette_reachable saved (palette c))); [apply palette_start|].
  clear c. intros t c c1 Hc _ Hp. perform_cases Hp; try exact Hc; cbn.
  - by eapply palette_next.
  - by apply (palette_next _ (PShortcut k (notif c)) (palette c)).
Qed.

(** RaftView by itself, with the actions it started: mounted on the screen with an
    empty list of actions and its first log entry, it takes clicks until it is
    left, its actions settle at any time, and everything else only replaces the
    store under it. *)
Inductive raft_alone : bool → RaftView.State → Prop :=
  | alone_mount st :
      raft_alone true {| RaftView.sys := {| store := st; pending := [] |};
                         RaftView.events := [RaftView.ready_event] |}
  | alone_click k i s :
      raft_alone true s → raft_alone true (RaftView.step (RaftView.RClick k i) s)
  | alone_settle b i o s :
      raft_alone b s → raft_alone b (RaftView.step (RaftView.RSettle i o) s)
  | alone_other b st s :
      raft_alone b s →
      raft_alone b {| RaftView.sys := {| store := st; pending := pending (RaftView.sys s) |};
                      RaftView.events := RaftView.events s |}
  | alone_leave b s : raft_alone b s → raft_alone false s.

(** The actions in flight that the [j]-th view started. *)
Definition own (j : nat) (l : list (Pending * nat)) : list Pending :=
  (filter (λ a, a.2 = j) l).*1.

(** The state of the [j]-th view, a RaftView with this log. *)
Definition raft_state (c : Console) (j : nat) (log : list jsstring) : RaftView.State := {|
  RaftView.sys := {| store := c_store c; pending := own j (actions c) |};
  RaftView.events := log |}.

(** What each view can reach by itself; the dashboard has no state. *)
Definition view_ok (c : Console) (j : nat) (v : Mounted) : Prop :=
  match v with
  | MDashboard => True
  | MExplorer s => ∃ es, s = Explorer.View.run env es Explorer.View.init
  | MRaft log => raft_alone (j =? current c)%nat (raft_state c j log)
  | MArchitecture s => trace_reachable env s
  end.

Lemma mount_view_kind t : kind_of (mount_view t) = t.
Proof. by destruct t. Qed.

(** The views are the ones the components reach, every action in flight belongs to
    a RaftView, and the last view belongs to the selected tab. *)
Record views_ok (c : Console) : Prop := {
  vo_views j v : views c !! j = Some v → view_ok c j v;
  vo_actions a : a ∈ actions c → kind_of <$> views c !! a.2 = Some raft;
  vo_last : kind_of <$> last (views c) = Some (tab (palette c));
}.

(** *** Actions of one view *)

Lemma own_snoc j p j' l : own j (l ++ [(p, j')]) = own j l ++ (if decide (j' = j) then [p] else []).
Proof.
  unfold own. rewrite filter_app, fmap_app. f_equal. cbn. by case_decide.
Qed.

Lemma own_none j l : (∀ a, a ∈ l → a.2 ≠ j) → own j l = [].
Proof.
  intros Hl. unfold own. induction l as [|a l IH]; [done|].
  rewrite filter_cons_False by (apply Hl; left). apply IH. intros b Hb. apply Hl. by right.
Qed.

Lemma own_delete_other j l i p j' : l !! i = Some (p, j') → j' ≠ j → own j (delete i l) = own j l.
Proof.
  intros Hi Hne. revert i Hi. unfold own. induction l as [|a l IH]; intros [|i] Hi; try done.
  - simplify_eq/=. by rewrite filter_cons_False.
  - cbn in Hi. cbn [delete list_delete]. rewrite !filter_cons. case_decide; rewrite ?fmap_cons; by rewrite IH.
Qed.

Lemma own_delete j l i p :
  l !! i = Some (p, j) → ∃ i', own j l !! i' = Some p ∧ own j (delete i l) = delete i' (own j l).
Proof.
  revert i. unfold own. induction l as [|a l IH]; intros [|i] Hi; try done.
  - simplify_eq/=. exists 0. by rewrite filter_cons_True.
  - destruct (IH i Hi) as (i' & H1 & H2). cbn [delete list_delete]. rewrite !filter_cons. case_decide.
    + exists (S i'). rewrite !fmap_cons. split; [done|]. cbn [delete list_delete]. by f_equal.
    + by exists i'.
Qed.

(** *** Preservation *)

(** What happens elsewhere only replaces the store. *)
Lemma view_ok_env c c' j v :
  own j (actions c') = own j (actions c) → current c' = current c → view_ok c j v → view_ok c' j v.
Proof.
  intros Ha Hcur. destruct v; cbn [view_ok]; try done. rewrite Hcur. unfold raft_state. rewrite Ha.
  apply (alone_other _ (c_store c') (raft_state c j log)).
Qed.

Lemma views_ok_env c c' :
  actions c' = actions c → views c' = views c → tab (palette c') = tab (palette c) →
  views_ok c → views_ok c'.
Proof.
  intros Ha Hv Ht [H1 H2 H3]. split; rewrite ?Ha, ?Hv, ?Ht; try done.
  intros j v Hj. apply (view_ok_env c); [by rewrite Ha|by unfold current; rewrite Hv|by apply H1].
Qed.

Lemma last_current c v : last (views c) = Some v → views c !! current c = Some v.
Proof. by rewrite last_lookup. Qed.

(** A view mounted on the screen. *)
Lemma view_ok_mount c j t : own j (actions c) = [] → j = current c → view_ok c j (mount_view t).
Proof.
  intros Ho ->. destruct t; cbn [mount_view view_ok]; [done|by exists []| |apply trace_start].
  rewrite Nat.eqb_refl. unfold raft_state. rewrite Ho. apply alone_mount.
Qed.

(** A view that is left, or was left before. *)
Lemma view_ok_leave c c' j v :
  actions c' = actions c → (j =? current c')%nat = false → view_ok c j v → view_ok c' j v.
Proof.
  intros Ha Hj. destruct v; cbn [view_ok]; try done. rewrite Hj. intros Hc.
  apply alone_leave in Hc. unfold raft_state. rewrite Ha.
  exact (alone_other _ (c_store c') _ Hc).
Qed.

Lemma views_ok_set_palette p c : views_ok c → views_ok (set_palette p c).
Proof.
  intros Hc. case (decide (tab p = tab (palette c))) as [Ht|Ht].
  { apply (views_ok_env c); [done| |done|done]. cbn. by rewrite bool_decide_true. }
  assert (views (set_palette p c) = views c ++ [mount_view (tab p)]) as Hv
    by (cbn; by rewrite bool_decide_false).
  assert (current (set_palette p c) = length (views c)) as Hcur
    by (unfold current; rewrite Hv, length_app; cbn; lia).
  destruct Hc as [H1 H2 H3]. split; rewrite ?Hv; cbn [actions set_palette palette].
  - intros j v [Hj|[Hge Hj]]%lookup_app_Some.
    + apply (view_ok_leave c); [done| |by apply H1]. apply Nat.eqb_neq. rewrite Hcur.
      apply lookup_lt_Some in Hj. lia.
    + apply list_lookup_singleton_Some in Hj as [Hj <-].
      apply view_ok_mount; [|lia]. apply own_none. intros a Ha Hj'.
      specialize (H2 a Ha). rewrite lookup_ge_None_2 in H2 by lia. done.
  - intros a Ha. rewrite lookup_app_l; [by apply H2|]. apply lookup_lt_is_Some.
    specialize (H2 a Ha). by destruct (views c !! a.2).
  - rewrite last_snoc. cbn. by rewrite mount_view_kind.
Qed.

Lemma last_insert_kind (l : list Mounted) j v v' :
  l !! j = Some v → kind_of v' = kind_of v → kind_of <$> last (<[j := v']> l) = kind_of <$> last l.
Proof.
  intros Hj Hk. rewrite !last_lookup, length_insert.
  destruct (decide (pred (length l) = j)) as [->|Hne].
  - rewrite list_lookup_insert_eq by (by eapply lookup_lt_Some). rewrite Hj. cbn. by f_equal.
  - by rewrite list_lookup_insert_ne.
Qed.

Lemma lookup_insert_kind (l : list Mounted) j v v' i :
  l !! j = Some v → kind_of v' = kind_of v → kind_of <$> <[j := v']> l !! i = kind_of <$> l !! i.
Proof.
  intros Hj Hk. destruct (decide (i = j)) as [->|Hne]; [|by rewrite list_lookup_insert_ne].
  rewrite list_lookup_insert_eq by (by eapply lookup_lt_Some). rewrite Hj. cbn. by f_equal.
Qed.

(** Replacing a view by one of the same kind; [c'] may also have fewer actions of
    this view. *)
Lemma views_ok_insert j v v' c c' :
  views c !! j = Some v → kind_of v' = kind_of v → views c' = <[j := v']> (views c) →
  (∀ a, a ∈ actions c' → a ∈ actions c) → (∀ i, i ≠ j → own i (actions c') = own i (actions c)) →
  tab (palette c') = tab (palette c) → view_ok c' j v' → views_ok c → views_ok c'.
Proof.
  intros Hj Hk Hv Ha Ho Ht Hok [H1 H2 H3]. split; rewrite ?Hv, ?Ht.
  - intros i u Hi. destruct (decide (i = j)) as [->|Hne].
    + rewrite list_lookup_insert_eq in Hi by (by eapply lookup_lt_Some). by simplify_eq.
    + rewrite list_lookup_insert_ne in Hi by done. apply (view_ok_env c); [by apply Ho| |by apply H1].
      unfold current. by rewrite Hv, length_insert.
  - intros a Hin. rewrite (lookup_insert_kind _ _ _ _ _ Hj Hk). by apply H2, Ha.
  - by rewrite (last_insert_kind _ _ _ _ Hj Hk).
Qed.

Lemma explorer_next c j e s :
  view_ok c j (MExplorer s) → view_ok c j (MExplorer (Explorer.View.step env e s)).
Proof. intros [es ->]. exists (es ++ [e]). unfold Explorer.View.run. by rewrite foldl_app. Qed.

(** A click in the view on the screen. *)
Lemma views_ok_act k i n log c :
  last (views c) = Some (MRaft log) → nodes (c_store c) !! i = Some n → RaftView.enabled k n = true →
  views_ok c →
  views_ok (set_store (action_optimistic k (node_id n) (c_store c))
    (actions c ++ [({| p_kind := k; p_id := node_id n; p_previous := c_store c |}, current c)]) c).
Proof.
  intros Hl Hn He [H1 H2 H3]. set (c' := set_store _ _ c). split; [|intros a Ha|done].
  - intros j v Hj. destruct (decide (current c = j)) as [Hc|Hc].
    + assert (v = MRaft log) as -> by (apply last_current in Hl; change (views c' !! j) with (views c !! j) in Hj; congruence).
      specialize (H1 j _ Hj). cbn [view_ok] in H1 |- *. change (current c') with (current c).
      rewrite Hc, Nat.eqb_refl in H1 |- *. apply (alone_click k i) in H1. revert H1. subst c'.
      unfold RaftView.step, RaftView.store_event, raft_state. cbn -[own]. rewrite Hn. cbn -[own]. rewrite He.
      by rewrite own_snoc, decide_True.
    + apply (view_ok_env c); [|done|by apply H1]. cbn -[own]. by rewrite own_snoc, decide_False, app_nil_r.
  - change (views c') with (views c). apply elem_of_app in Ha as [Ha|Ha]; [by apply H2|].
    apply list_elem_of_singleton in Ha as ->. cbn. by rewrite (last_current c _ Hl).
Qed.

(** The settling of an action of the [j]-th view. *)
Lemma views_ok_settle i o p j c :
  actions c !! i = Some (p, j) → views_ok c →
  let r := action_settle (p_kind p) (p_previous p) o (c_store c) in
  views_ok (set_views (report_to j p (snd r) (views c)) (set_store (fst r) (delete i (actions c)) c)).
Proof.
  intros Hi Hc r.
  pose proof (vo_actions c Hc _ (list_elem_of_lookup_2 _ _ _ Hi)) as Hj. cbn in Hj.
  destruct (views c !! j) as [v|] eqn:Ej; [|done]. destruct v as [| |log|]; try done.
  set (log' := foldl (λ l t, RaftView.push t l) log
    (match RaftView.report (p_kind p) (p_id p) (snd r) with Normal t => [t] | Throw _ => [] end)).
  assert (report_to j p (snd r) (views c) = <[j := MRaft log']> (views c)) as Hr.
  { unfold report_to. rewrite Ej. subst log'. destruct (RaftView.report _ _ _); [done|].
    cbn. by rewrite list_insert_id. }
  eapply (views_ok_insert j (MRaft log) (MRaft log') c); try done.
  - intros a Ha. exact (list_elem_of_delete_inv a i _ Ha).
  - intros j' Hne. cbn -[own]. by eapply own_delete_other.
  - destruct (own_delete j _ i p Hi) as (i' & Hi' & Hd).
    pose proof (vo_views c Hc _ _ Ej) as Hv. cbn [view_ok] in Hv |- *.
    apply (alone_settle _ i' o) in Hv. revert Hv.
    unfold current. cbn [views set_views]. rewrite Hr, length_insert.
    unfold RaftView.step, raft_state, RaftView.reports. cbn -[own]. rewrite Hi', Hd. cbn -[own].
    done.
Qed.

Lemma console_views Q saved mini c : console_reachable env stamp Q saved mini c → views_ok c.
Proof.
  apply (console_inv views_ok).
  { split; [|set_solver|done]. intros [|j] v Hj; simplify_eq/=. done. }
  clear c. intros t c c1 Hc _ Hp. apply (views_ok_env c1); try done. perform_cases Hp; try exact Hc.
  - by apply (views_ok_env c).
  - by apply (views_ok_act k i n log).
  - by apply (views_ok_settle i o p j).
  - exact (views_ok_set_palette p c Hc).
  - apply (views_ok_env (set_palette (fst (handle k (palette c) (notif c))) c)); try done.
    by apply views_ok_set_palette.
  - by apply (views_ok_env c).
  - by apply (views_ok_env c).
  - apply (views_ok_insert j (MExplorer s) (MExplorer (Explorer.View.step env e s)) c); try done.
    apply (explorer_next c j). by apply (vo_views c Hc).
  - eapply (views_ok_insert j (MArchitecture s) (MArchitecture (Trace.step env _ s)) c); try done.
    apply trace_next; [by apply (vo_views c Hc _ _ Hj)|].
    by destruct e.
Qed.

(** *** Identifiers of the notifications *)

(** The feed consists of distinct past calls. *)
Definition feed_ok (n : NotifState) : Prop :=
  ∃ idx, ni_id <$> notifications n = (λ i, fst (stamp i)) <$> idx ∧ NoDup idx ∧
    Forall (λ i, i < calls n) idx.

Lemma feed_ok_push x n : feed_ok n → feed_ok (pushNotification stamp x n).
Proof.
  intros (idx & Hid & Hnd & Hlt). exists (take 60 (calls n :: idx)).
  cbn [notifications pushNotification calls]. unfold slice_first. split_and!.
  - rewrite !fmap_take. cbn [fmap list_fmap ni_id]. by f_equal; f_equal.
  - eapply sublist_NoDup; [|apply sublist_take]. constructor; [|done].
    intros Hin. rewrite Forall_forall in Hlt. specialize (Hlt _ Hin). lia.
  - apply Forall_take. constructor; [lia|]. eapply Forall_impl; [exact Hlt|]. cbn. lia.
Qed.

Lemma feed_ok_push_all l n : feed_ok n → feed_ok (push_all stamp l n).
Proof. revert n. induction l as [|x l IH]; intros n Hn; [done|]. by apply IH, feed_ok_push. Qed.

(** Changes that keep the ids and the counter. *)
Lemma feed_ok_ext n n' :
  ni_id <$> notifications n' = ni_id <$> notifications n → calls n' = calls n → feed_ok n → feed_ok n'.
Proof. intros H1 H2 (idx & Hid & Hnd & Hlt). exists idx. by rewrite H1, H2. Qed.

Lemma set_open_ids b n :
  ni_id <$> notifications (set_open b n) = ni_id <$> notifications n ∧ calls (set_open b n) = calls n.
Proof.
  unfold set_open. destruct (Bool.eqb _ _), b; try done. cbn. split; [|done].
  rewrite <-list_fmap_compose. apply list_fmap_ext. intros i x _. cbn. unfold mark_read. by destruct (ni_read x).
Qed.

Lemma feed_ok_step e n : feed_ok n → feed_ok (notif_step stamp e n).
Proof.
  intros Hn. destruct e as [|w|ns| | |]; cbn [notif_step].
  - by apply feed_ok_push.
  - unfold status_effect. case_decide; [by eapply feed_ok_ext, Hn|].
    by eapply feed_ok_ext, (feed_ok_push (status_notice w)).
  - unfold nodes_effect. destruct (nodesInitialized n); [|by eapply feed_ok_ext, Hn].
    by eapply feed_ok_ext, (feed_ok_push_all (node_change_notices (prevNodes n) ns)).
  - unfold toggle_open. eapply feed_ok_ext; [apply set_open_ids..|done].
  - eapply feed_ok_ext; [apply set_open_ids..|done].
  - exists []. split_and!; [done|constructor|constructor].
Qed.

Lemma console_feed Q saved mini c : console_reachable env stamp Q saved mini c → feed_ok (notif c).
Proof.
  apply (console_inv (λ c, feed_ok (notif c))).
  { repeat apply feed_ok_step. exists []. split_and!; [done|constructor|constructor]. }
  clear c. intros t c c1 Hc _ Hp.
  assert (feed_ok (notif c1)) as H1.
  { perform_cases Hp; try exact Hc.
    - cbn. unfold handle. destruct (_ && _), (jeqb (key k) _); cbn; try exact Hc;
        repeat (eapply feed_ok_ext; [apply set_open_ids..|]); done.
    - by apply feed_ok_step. }
  cbn [notif run_effects set_notif].
  destruct (replaces_nodes t c); [apply (feed_ok_step (NNodes _))|];
    by apply (feed_ok_step (NStatus (wsStatus (c_store c1)))).
Qed.

(** ** The feed of the composed system *)

Lemma feed_length Q saved mini c :
  console_reachable env stamp Q saved mini c → length (notifications (notif c)) ≤ 60.
Proof.
  apply (console_inv (λ c, length (notifications (notif c)) ≤ 60)).
  { by repeat apply notif_step_length; cbn; lia. }
  clear c. intros t c c1 Hc _ Hp.
  assert (length (notifications (notif c1)) ≤ 60) as H1.
  { perform_cases Hp; try exact Hc.
    - cbn. unfold handle. destruct (_ && _), (jeqb (key k) _); cbn; by rewrite ?set_open_keeps.
    - by apply notif_step_length. }
  cbn [notif run_effects set_notif].
  destruct (replaces_nodes t c); [apply (notif_step_length stamp (NNodes _))|];
    by apply (notif_step_length stamp (NStatus (wsStatus (c_store c1)))).
Qed.

(** What is new in the store [s'] for one who has seen [s]: the status if it is
    another one, then what happened to the nodes, the leader and the quorum. *)
Definition news (s s' : ClusterState) : list Notice :=
  (if decide (wsStatus s = wsStatus s') then [] else [status_notice (wsStatus s')])
  ++ node_change_notices (nodes s) (nodes s').

(** The feed as a reader sees it. *)
Definition feed (c : Console) : list Notice := as_notice <$> notifications (notif c).

Lemma status_effect_feed w n :
  length (notifications n) ≤ 60 →
  as_notice <$> notifications (status_effect stamp w n) =
  take 60 (rev (if decide (prevWsStatus n = w) then [] else [status_notice w])
           ++ (as_notice <$> notifications n)).
Proof.
  intros Hn. unfold status_effect. case_decide; cbn [notifications rev app].
  - symmetry. apply take_ge. by rewrite length_fmap.
  - apply pushNotification_feed.
Qed.

(** The effects add exactly the news of a task to the feed; when the nodes effect
    does not run there must be nothing new about the nodes. *)
Lemma run_effects_feed b c c1 :
  (b = false → node_change_notices (nodes (c_store c)) (nodes (c_store c1)) = []) →
  in_sync c → prevNodes (notif c1) = prevNodes (notif c) → prevWsStatus (notif c1) = prevWsStatus (notif c) →
  nodesInitialized (notif c1) = nodesInitialized (notif c) → length (notifications (notif c1)) ≤ 60 →
  feed (run_effects stamp b c1) = take 60 (rev (news (c_store c) (c_store c1)) ++ feed c1).
Proof.
  intros Hb (Hn & Hw & Hi) Hn1 Hw1 Hi1 Hl. unfold feed, news. cbn [notif run_effects set_notif].
  set (n1 := status_effect stamp (wsStatus (c_store c1)) (notif c1)).
  assert (length (notifications n1) ≤ 60) as Hl1
    by by apply (notif_step_length stamp (NStatus (wsStatus (c_store c1)))).
  pose proof (status_effect_feed (wsStatus (c_store c1)) (notif c1) Hl) as Hf. fold n1 in Hf.
  rewrite Hw1, Hw in Hf. destruct b.
  - destruct (status_effect_refs (wsStatus (c_store c1)) (notif c1)) as (Hp & _ & Hini). fold n1 in Hp, Hini.
    unfold nodes_effect. rewrite Hini, Hi1, Hi. cbn [notifications].
    rewrite push_all_feed, Hp, Hn1, Hn, Hf, take_app_take, rev_app_distr, <-app_assoc by done. done.
  - by rewrite Hb, app_nil_r, Hf.
Qed.

Lemma set_open_feed b n : as_notice <$> notifications (set_open b n) = as_notice <$> notifications n.
Proof.
  unfold set_open. destruct (Bool.eqb _ _), b; try done. cbn.
  rewrite <-list_fmap_compose. apply list_fmap_ext. intros i x _. cbn. unfold mark_read. by destruct (ni_read x).
Qed.

Lemma perform_feed t c c1 :
  perform env stamp t c = Some c1 → t ≠ Bell NClear → feed c1 = feed c.
Proof.
  intros Hp Ht. perform_cases Hp; try done; unfold feed; cbn [notif set_notif].
  - unfold handle. destruct (_ && _), (jeqb (key k) _); cbn; by rewrite ?set_open_feed.
  - repeat (apply elem_of_cons in Hbell as [->|Hbell]);
      [apply set_open_feed|apply set_open_feed|done|by apply not_elem_of_nil in Hbell].
Qed.

Lemma step_feed saved mini t c c' :
  console_reachable env stamp distinct_ids saved mini c → console_step env stamp t c = Some c' →
  t ≠ Bell NClear → feed c' = take 60 (rev (news (c_store c) (c_store c')) ++ feed c).
Proof.
  intros Hc Hs Ht. destruct (console_step_inv t c c' Hs) as (c1 & Hp & ->).
  destruct (perform_refs t c c1 Hp) as (H1 & H2 & H3).
  rewrite (run_effects_feed _ c c1); [|intros Hr|by eapply console_sync|done..|].
  - by rewrite (perform_feed t c c1 Hp Ht).
  - rewrite (perform_nodes t c c1 Hp Hr). apply unchanged_nodes_are_silent.
    apply (reachable_distinct_ids (sys_of c)). by eapply console_store.
  - pose proof (f_equal length (perform_feed t c c1 Hp Ht)) as Hl. unfold feed in Hl.
    rewrite !length_fmap in Hl. rewrite Hl. by eapply feed_length.
Qed.

(** ** Recoveries that are not *)

(** Only a healthy node of the new list is reported as recovered. *)
Lemma recovered_in_news s s' n :
  recovered_notice n ∈ news s s' → ∃ m, m ∈ nodes s' ∧ node_id m = node_id n ∧ healthy m = true.
Proof.
  unfold news, node_change_notices. rewrite elem_of_app. intros [Hin|Hin].
  { case_decide; [by apply not_elem_of_nil in Hin|]. apply list_elem_of_singleton in Hin.
    by destruct (wsStatus s'). }
  rewrite !elem_of_app in Hin. destruct Hin as [Hin|[Hin|Hin]].
  - apply list_elem_of_omap in Hin as (m & Hm & Hn). exists m. split; [done|]. revert Hn.
    unfold node_notice. destruct (prevById _ _); [|done]. destruct (Bool.eqb _ _); [done|].
    destruct (healthy m); intros [= Ht].
    split; [|done]. by apply (inj (.++ «" Recovered"»)), (inj show_Z) in Ht.
  - unfold leader_notice in Hin. case_decide; [by apply not_elem_of_nil in Hin|].
    destruct (Notifications.leader_id (nodes s')) as [id|]; [destruct (id =? 0)%Z|];
      by apply list_elem_of_singleton in Hin.
  - unfold quorum_notice in Hin. destruct (Bool.eqb _ _); [by apply not_elem_of_nil in Hin|].
    destruct (_ <=? _); by apply list_elem_of_singleton in Hin.
Qed.

(** ** Properties *)


(** C7: nothing that happens to the store goes unreported or is reported twice:
    when the nodes of every snapshot have distinct ids, then after every task other
    than Clear the feed is the old feed with exactly the news on top, cut to 60
    entries, where the news depend on nothing but the store before and after the
    task: the status if it changed, and the changes of health, leader and quorum
    between the two node lists. *)
Theorem feed_reports_store_changes saved mini t c c' :
  console_reachable env stamp distinct_ids saved mini c → console_step env stamp t c = Some c' →
  t ≠ Bell NClear → feed c' = take 60 (rev (news (c_store c) (c_store c')) ++ feed c).
Proof. apply step_feed. Qed.

(** C21: while a node is masked by the operator no task announces its recovery,
    whatever the snapshots of the gateway say about it. *)
Theorem masked_node_not_reported_recovered Q saved mini t c c' n :
  console_reachable env stamp Q saved mini c → console_step env stamp t c = Some c' → snapshot_ok Q t →
  node_id n ∈ forcedDownNodeIds (c_store c') →
  recovered_notice n ∉ news (c_store c) (c_store c').
Proof.
  intros Hc Hs HQ Hf (m & Hm & Hid & Hh)%recovered_in_news.
  assert (reachable Q (sys_of c')) as Hr by (eapply console_store, console_next; eauto).
  apply (reachable_weaken Q (λ _, True)) in Hr; [|done].
  destruct (reachable_masked (sys_of c') Hr m Hm); [by rewrite Hid|congruence].
Qed.

(** ** A kill is reported *)

Lemma unchanged_nodes_silent ns l :
  (∀ m, m ∈ l → prevById ns (node_id m) = Some m) → omap (node_notice ns) l = [].
Proof.
  induction l as [|m l IH]; intros Hl; [done|]. cbn [omap list_omap].
  unfold node_notice at 1. rewrite (Hl m) by left. rewrite Bool.eqb_reflx.
  apply IH. intros m' Hm'. apply Hl. by right.
Qed.

Lemma killed_node_notice ns n :
  prevById ns (node_id n) = Some n → healthy n = true →
  node_notice ns (mark_down n) = Some (unreachable_notice (mark_down n)).
Proof. intros Hp Hh. unfold node_notice. cbn [node_id mark_down with_health]. by rewrite Hp, Hh. Qed.

Lemma kill_notices ns n :
  NoDup (node_id <$> ns) → n ∈ ns → healthy n = true →
  omap (node_notice ns) (kill_nodes (node_id n) ns) = [unreachable_notice (mark_down n)].
Proof.
  intros Hnd Hin Hh.
  assert (∀ m, m ∈ ns → prevById ns (node_id m) = Some m) as Hprev
    by (intros m Hm; by apply (prevById_spec ns (node_id m) m)).
  apply list_elem_of_split in Hin as (l1 & l2 & Hns).
  assert ((node_id n ∉ (node_id <$> l1)) ∧ (node_id n ∉ (node_id <$> l2))) as [Hn1 Hn2].
  { rewrite Hns, fmap_app, fmap_cons in Hnd. apply NoDup_app in Hnd as (_ & Hd & Hnd).
    apply NoDup_cons in Hnd as [? _]. split; [|done]. intros Hx. apply (Hd _ Hx). left. }
  rewrite Hns at 2. unfold kill_nodes. rewrite fmap_app, fmap_cons.
  fold (kill_nodes (node_id n) l1) (kill_nodes (node_id n) l2). rewrite !kill_other_nodes by done.
  rewrite Z.eqb_refl, omap_app. cbn [omap list_omap].
  rewrite killed_node_notice by (done || apply Hprev; rewrite Hns; set_solver).
  rewrite !unchanged_nodes_silent; [done|..]; intros m Hm; apply Hprev; rewrite Hns; set_solver.
Qed.

Lemma news_on_top (l : list Notice) k x :
  length l ≤ 60 → x ∈ l → x ∈ take 60 (rev l ++ k).
Proof.
  intros Hl Hx. rewrite take_app, elem_of_app. left.
  rewrite take_ge by (rewrite length_rev; lia).
  by apply list_elem_of_In, in_rev; rewrite rev_involutive; apply list_elem_of_In.
Qed.


End Projections.

(** ** Witnesses *)

Definition sample_stamp (i : nat) : jsstring * number := (show_nat i, n_zero).
Definition sample_env : Env := Build_Env None None.
Definition sample_mini : MiniGraph.Storage := {| MiniGraph.st_collapsed := None; MiniGraph.st_corner := None |}.

Definition sample_step (t : task) (c : Console) : option Console :=
  @console_step sample_platform sample_env sample_stamp t c.

(** The state after a task, or the state before it when the task cannot occur. *)
Definition after (t : task) (c : Console) : Console := default c (sample_step t c).

Definition can (t : task) (c : Console) : bool := match sample_step t c with Some _ => true | None => false end.

Lemma after_step t c : can t c = true → sample_step t c = Some (after t c).
Proof. unfold can, after. by destruct (sample_step t c). Qed.

Definition sample_reachable : Console → Prop :=
  @console_reachable sample_platform sample_env sample_stamp distinct_ids NotStored sample_mini.

Lemma after_reachable t c :
  sample_reachable c → snapshot_ok distinct_ids t → can t c = true → sample_reachable (after t c).
Proof. intros Hc Ht Hcan. eapply console_next; [exact Hc|exact Ht|]. by apply after_step. Qed.

(** The consensus view, before and after its second node was killed. *)
Definition sample_start : Console := console_init sample_stamp NotStored sample_mini.
Definition sample_raft : Console := after (Pal (PSetTab raft)) sample_start.
Definition sample_killed : Console := after (Act Kill 1) sample_raft.

(** A reply to the first poll in which all nodes are healthy. *)
Definition sample_reply : task := Net (PollReply n_zero (Some (nodes_only n_zero (nodes initial_state)))).

Lemma sample_raft_reachable : sample_reachable sample_raft.
Proof. apply after_reachable; [apply console_start|exact I|vm_compute; reflexivity]. Defined.

Lemma sample_killed_reachable : sample_reachable sample_killed.
Proof. apply after_reachable; [apply sample_raft_reachable|exact I|vm_compute; reflexivity]. Defined.

Lemma sample_reply_ok : snapshot_ok distinct_ids sample_reply.
Proof. intros l [= <-]. apply (bool_decide_unpack _). vm_compute. exact I. Defined.


Lemma feed_reports_store_changes_witness :
  feed sample_killed =
  take 60 (rev (news (c_store sample_raft) (c_store sample_killed)) ++ feed sample_raft).
Proof.
  apply (@feed_reports_store_changes sample_platform sample_env sample_stamp NotStored sample_mini
    (Act Kill 1) sample_raft sample_killed sample_raft_reachable); [|discriminate].
  apply after_step. vm_compute. reflexivity.
Defined.

Lemma masked_node_not_reported_recovered_witness :
  recovered_notice (initial_node 2 «"vaultkv-node2"» 7380 false 145) ∉
  news (c_store sample_killed)
    (c_store (after sample_reply sample_killed)).
Proof.
  apply (@masked_node_not_reported_recovered sample_platform sample_env sample_stamp distinct_ids NotStored
    sample_mini sample_reply sample_killed (after sample_reply sample_killed));
    [apply sample_killed_reachable|apply after_step; vm_compute; reflexivity|apply sample_reply_ok|].
  apply (bool_decide_unpack _). vm_compute. exact I.
Defined.

