(* ===== verification/ViewShell.v ===== *)
(** * Rendering of the whole console (App in App.tsx)

    The landing page, the search overlay, the notification panel, the side bar, the
    header and the mounted view, for a state of the composed system.  Handlers are
    the tasks of [Console], so the theorems relate what the screen offers to what
    the system can do.  The overlay renders the parsed values of the recent
    searches, so that rendering throws on values without the asserted type. *)

From S2P Require Import Prelude JsNumber JsString Json Text RuntimeConfig Api Store Metrics Stream.
From S2P Require Import Notifications Palette PaletteStorage Explorer Trace Consensus Overview Console.
From S2P Require Import Dom ViewExplorer ViewConsensus ViewOverview ViewTrace.

Local Open Scope list_scope.

#[local] Existing Instance simulated_metrics.

(** ** Texts *)

Definition tab_icon (t : TabId) : jsstring :=
  match t with
  | dashboard => «"LayoutDashboard"» | explorer => «"Search"» | raft => «"Activity"»
  | architecture => «"BookOpen"»
  end.

Definition level_class (l : NotificationLevel) : jsstring :=
  match l with
  | success => «"bg-emerald-400"» | warn => «"bg-amber-400"» | error => «"bg-rose-400"»
  | info => «"bg-sky-400"»
  end.

(** What the clocks would read if a handler of this rendering ran, [new Date()] of
    the rendering itself, and what React throws for a child that is a plain
    object. *)
Record Readings := {
  rd_start : number;
  rd_now : number;
  rd_clock : Clock;
  rd_date : number;
  rd_object_child : thrown;
}.

(** [l.map(f)] for a function that may throw. *)
Fixpoint collect {A} (l : list (completion A)) : completion (list A) :=
  match l with
  | [] => Normal []
  | Normal x :: r => match collect r with Normal k => Normal (x :: k) | Throw e => Throw e end
  | Throw e :: _ => Throw e
  end.

Section Shell.

Context `{Platform, Locale} (rd : Readings).

(** ** The search overlay *)

(** [onKeyDown] of the search field. *)
Definition search_key (k : jsstring) : option task := Some (Pal (PKey k)).

Definition search_field (p : PaletteState) : node task :=
  E "div" [] [
    E "div" [] [E "Search" [] []];
    E "input" [Value (searchQuery p); OnChange (λ q, Pal (PChange q)); OnKeyDown search_key;
               Placeholder «"Search pages, actions, and console views..."»] [];
    E "span" [] [T "ESC"]].

(** A parsed value as a child of an element: [null] and booleans show nothing,
    the members of an array are children, and an object is refused. *)
Fixpoint value_child (v : json) : completion (list (node task)) :=
  match v with
  | JNull | JBool _ => Normal []
  | JNum n => Normal [Txt (n_toString n)]
  | JStr t => Normal [Txt t]
  | JArr l =>
      match collect (value_child <$> l) with
      | Normal ls => Normal (concat ls)
      | Throw e => Throw e
      end
  | JObj _ => Throw (rd_object_child rd)
  end.

(** The button of an element of [recentSearches], which nothing has validated. *)
Definition recent_entry (i : nat) (entry : json) : completion (node task) :=
  match recent_row_key entry, get_prop entry «"label"» with
  | Normal k, Normal label =>
      match (match label with Some v => value_child v | None => Normal [] end) with
      | Normal shown =>
          Normal (E "button" [Key k; OnClick (Pal (PPickRecent i))] [
            E "div" [] [E "History" [] []; E "span" [] shown];
            E "ArrowUpRight" [] []])
      | Throw e => Throw e
      end
  | Throw e, _ | _, Throw e => Throw e
  end.

Definition jump_entry (i : nat) (it : SearchItem) : node task :=
  E "button" [Key («"jump-"» ++ tab_name (si_id it)); OnClick (Pal (PJump i))] [
    E "div" [] [El (tab_icon (si_id it)) [] []; E "span" [] [Txt (si_label it)]];
    E "p" [] [Txt (si_subtitle it)]].

Definition result_entry (active : nat) (i : nat) (it : SearchItem) : node task :=
  let on := (active =? i)%nat in
  E "button" [Key («"result-"» ++ tab_name (si_id it)); OnClick (Pal (PPickResult i));
              OnMouseEnter (Pal (PHover i));
              Class (if on then «"border-blue-400/35 bg-blue-500/10"»
                     else «"border-white/10 bg-white/[0.02] hover:bg-white/[0.08]"»)] [
    E "div" [] [
      E "div" [Class (if on then «"border-blue-400/30 bg-blue-500/15"» else «"border-white/10 bg-white/5"»)]
        [El (tab_icon (si_id it)) [] []];
      E "div" [] [E "p" [] [Txt (si_label it)]; E "p" [] [Txt (si_subtitle it)]]];
    E "ArrowUpRight" [Class (if on then «"text-blue-300"» else «"text-zinc-600"»)] []].

(** The quotation marks are U+201C and U+201D. *)
Definition no_results (q : jsstring) : node task :=
  E "div" [] [
    E "p" [] [Txt («"No results for "» ++ [8220]%N ++ q ++ [8221]%N)];
    E "p" [] [T "Try terms like `explorer`, `consensus`, or `architecture`."]].

(** The overlay for an empty query, around the buttons of the recent searches. *)
Definition start_page (recent : list (node task)) : node task :=
  E "div" [] [
    E "div" [] [E "p" [] [T "Recent"]; E "div" [] [Arr recent]];
    E "div" [] [E "p" [] [T "Jump To"]; E "div" [] [Arr (array_mapi jump_entry searchItems)]]].

(** The overlay for a query. *)
Definition results_page (p : PaletteState) : node task :=
  if (0 <? length (filteredSearchItems (searchQuery p)))%nat then
    E "div" [] [Arr (array_mapi (result_entry (searchActiveIndex p)) (filteredSearchItems (searchQuery p)))]
  else no_results (searchQuery p).

Definition search_body (recents : list json) (p : PaletteState) : completion (node task) :=
  if jeqb (trim (searchQuery p)) [] then
    match collect (array_mapi recent_entry recents) with
    | Normal recent => Normal (start_page recent)
    | Throw e => Throw e
    end
  else Normal (results_page p).

(** The arrows are U+2191 and U+2193. *)
Definition search_footer : node task :=
  E "div" [] [
    E "div" [] [
      E "span" [] [E "span" [] [Txt [8593; 8595]%N]; T "Navigate"];
      E "span" [] [E "span" [] [E "CornerDownLeft" [] []]; T "Open"]];
    E "span" [] [T "Observe Command Palette"]].

(** The overlay around its body. *)
Definition overlay (p : PaletteState) (body : list (node task)) : node task :=
  E "AnimatePresence" [] (when (searchOpen p) [
    E "motion.div" [OnClick (Pal PBackdrop)] [
      E "motion.div" [StopClick] [search_field p; E "div" [] body; search_footer]]]).

Definition search_view (recents : list json) (p : PaletteState) : completion (node task) :=
  if searchOpen p then
    match search_body recents p with
    | Normal body => Normal (overlay p [body])
    | Throw e => Throw e
    end
  else Normal (overlay p []).

(** ** The notification panel *)

Definition notification_entry (i : NotificationItem) : node task :=
  E "div" [Key (ni_id i);
           Class (if ni_read i then «"border-white/10 bg-white/[0.02]"»
                  else «"border-blue-500/35 bg-blue-500/[0.08]"»)] [
    E "div" [] [
      E "div" [] [E "div" [Class (level_class (ni_level i))] []; E "p" [] [Txt (ni_title i)]];
      E "span" [] [Txt (show_time HourMinuteSecond (ni_ts i))]];
    E "p" [] [Txt (ni_detail i)]].

Definition notification_list (l : list NotificationItem) : node task :=
  if (length l =? 0)%nat then
    E "div" [] [E "p" [] [T "No notifications yet."];
                E "p" [] [T "Events will appear here as the cluster changes."]]
  else Arr (notification_entry <$> l).

Definition notification_view (n : NotifState) : node task :=
  E "AnimatePresence" [] (when (notificationsOpen n) [
    E "motion.div" [OnClick (Bell NClose)] [
      E "motion.div" [StopClick] [
        E "div" [] [
          E "div" [] [E "p" [] [T "Notifications"]; E "p" [] [T "Cluster Activity Feed"]];
          E "div" [] [
            E "button" [OnClick (Bell NClear)] [T "Clear"];
            E "button" [OnClick (Bell NClose)] [E "X" [] []]]];
        E "div" [] [notification_list (notifications n)]]]]).

(** ** The side bar and the header *)

Definition tab_entry (p : PaletteState) (e : Entry) : node task :=
  E "button" [Key (tab_name (e_id e)); OnClick (Pal (PSetTab (e_id e)));
              Class (if bool_decide (tab p = e_id e) then «"bg-white text-black"»
                     else «"text-zinc-500 hover:bg-white/10 hover:text-zinc-100"»)]
    ([El (tab_icon (e_id e)) [] []] ++ when (sidebarOpen p) [E "span" [] [Txt (e_label e)]]).

Definition sidebar_view (p : PaletteState) : node task :=
  E "motion.aside" [] [
    E "div" [] [E "div" [] ([E "div" [] [E "Zap" [] []]]
      ++ when (sidebarOpen p) [E "div" [] [E "p" [] [T "OBSERVE"]; E "p" [] [T "Console"]]])];
    E "nav" [] [Arr (tab_entry p <$> tabs)];
    E "div" [] [E "button" [OnClick (Pal PToggleSidebar)]
      [E "ChevronRight" [Class (if sidebarOpen p then «"rotate-180"» else [])] []]]].

Definition status_line (w : WsStatus) : node task :=
  E "span" [] [Txt («"System Status: "» ++ status_name w)].

Definition header_view (w : WsStatus) (n : NotifState) : node task :=
  E "header" [] [
    E "div" [] [
      E "div" [] [E "div" [] []; status_line w];
      E "button" [OnClick (Pal POpenSearch)] [E "Command" [] []; T "Quick Search"]];
    E "div" [] [
      E "button" [OnClick (Bell NToggle);
                  Class (if notificationsOpen n then «"bg-white/10 text-white"»
                         else «"text-zinc-500 hover:bg-white/10 hover:text-white"»)]
        (E "Bell" [] [] :: match badge n with Some t => [E "span" [] [Txt t]] | None => [] end)]].

(** ** The mounted view *)

Definition press_task (b : RaftViewUI.button) : task := let 'RaftViewUI.Button k i := b in Act k i.

(** The [j]-th view, on the screen. *)
Definition view_node (j : nat) (s : ClusterState) (v : Mounted) : completion (node task) :=
  match v with
  | MDashboard => Normal (DashboardUI.render s)
  | MExplorer x => Normal (node_map (ViewX j) (ExplorerView.render (rd_start rd) (rd_now rd) x))
  | MRaft log => Normal (node_map press_task (RaftViewUI.render (rd_date rd) (nodes s) log))
  | MArchitecture t =>
      match ArchitectureUI.render s t (rd_clock rd) with
      | Normal n => Normal (node_map (ViewT j) n)
      | Throw e => Throw e
      end
  end.

(** [App], with [recents] the parsed values its state holds for the recent
    searches: the overlay is evaluated first, the mounted view after it. *)
Definition render_app (recents : list json) (c : Console) : completion (node task) :=
  let s := c_store c in
  let p := palette c in
  let mounted_view :=
    match last (views c) with
    | Some v => view_node (current c) s v
    | None => Throw (ThrownError type_error_message)
    end in
  match search_view recents p, mounted_view with
  | Throw e, _ | _, Throw e => Throw e
  | Normal search, Normal view =>
      Normal (E "div" [] [
        E "AnimatePresence" [] (when (isLanding p) [Landing (Pal PLeaveLanding)]);
        search;
        notification_view (notif c);
        E "div" [] [
          sidebar_view p;
          E "main" [] [
            header_view (wsStatus s) (notif c);
            E "div" [] [E "div" [] [E "AnimatePresence" [] [
              E "motion.div" [Key (tab_name (tab p))] [view]]]]]];
        E "AnimatePresence" []
          (node_map Mini <$> MiniGraphUI.render (negb (bool_decide (tab p = dashboard)))
                               (wsStatus s) (history s) (graph c))])
  end.

(** ** The overlay on values of the asserted type *)

(** The button of an entry. *)
Definition entry_button (i : nat) (e : Entry) : node task :=
  E "button" [Key (recent_key e); OnClick (Pal (PPickRecent i))] [
    E "div" [] [E "History" [] []; E "span" [] [Txt (e_label e)]];
    E "ArrowUpRight" [] []].

Lemma recent_entry_typed i v e : entry_of_json v = Some e → recent_entry i v = Normal (entry_button i e).
Proof.
  intros Hv. unfold recent_entry. rewrite (recent_row_key_typed v e Hv).
  destruct (entry_of_json_inv v e Hv) as [_ ->]. done.
Qed.

Lemma collect_mapi {A B C} (f : nat → A → completion B) (g : nat → C → B) (R : A → C → Prop) l k :
  (∀ i x y, R x y → f i x = Normal (g i y)) → Forall2 R l k →
  collect (array_mapi f l) = Normal (array_mapi g k).
Proof.
  unfold array_mapi. intros Hf Hl. revert f g Hf. induction Hl as [|x y l k Hxy _ IH]; intros f g Hf; [done|].
  cbn [imap collect]. rewrite (Hf 0 x y Hxy), (IH (f ∘ S) (g ∘ S)); [done|].
  intros i. apply (Hf (S i)).
Qed.

(** The body of the overlay, from the entries. *)
Definition typed_body (p : PaletteState) : node task :=
  if jeqb (trim (searchQuery p)) [] then start_page (array_mapi entry_button (recentSearches p))
  else results_page p.

Lemma search_view_typed recents p :
  represents recents (recentSearches p) →
  search_view recents p = Normal (overlay p (when (searchOpen p) [typed_body p])).
Proof.
  intros Hr%mapM_Some. unfold search_view, search_body, typed_body.
  destruct (searchOpen p); [|done]. destruct (jeqb _ _); [|done].
  by rewrite (collect_mapi _ entry_button (λ v e, entry_of_json v = Some e) recents (recentSearches p))
    by (auto using recent_entry_typed).
Qed.

(** ** Keys *)

Lemma recent_key_id a b : recent_key a = recent_key b → e_id a = e_id b.
Proof. unfold recent_key. by destruct (e_id a), (e_id b). Qed.

#[local] Instance tab_name_inj : Inj (=) (=) tab_name.
Proof. by intros [] []. Qed.

Lemma filtered_ids q : NoDup (si_id <$> filteredSearchItems q).
Proof.
  apply (sublist_NoDup _ (si_id <$> searchItems)); [|apply fmap_sublist].
  - apply (bool_decide_unpack _). vm_compute. exact I.
  - unfold filteredSearchItems. destruct (jeqb _ _); [apply sublist_nil_l|apply array_filter_sublist].
Qed.

Lemma typed_body_keyed p : NoDup (e_id <$> recentSearches p) → well_keyed (typed_body p).
Proof.
  intros Hnd. unfold typed_body, start_page, results_page. destruct (jeqb _ _); [|destruct (_ <? _)]; keyed.
  - apply (well_keyed_mapi_field _ recent_key); [done| |keyed_leaf].
    eapply NoDup_fmap_finer; [apply recent_key_id|done].
  - apply (well_keyed_mapi_field _ (λ it, «"jump-"» ++ tab_name (si_id it))); [done| |keyed_leaf].
    apply (bool_decide_unpack _). vm_compute. exact I.
  - apply (well_keyed_mapi_field _ (λ it, «"result-"» ++ tab_name (si_id it))); [done| |keyed_leaf].
    eapply NoDup_fmap_finer, filtered_ids. intros x y Hxy%app_inv_head. by apply (inj tab_name).
  - unfold no_results. keyed.
Qed.

Lemma notification_list_keyed l : NoDup (ni_id <$> l) → well_keyed (notification_list l).
Proof.
  intros Hnd. unfold notification_list. destruct (_ =? _); keyed.
  apply (well_keyed_map _ ni_id); [done|done|]. intros. unfold notification_entry. keyed.
Qed.

Lemma sidebar_keyed p : well_keyed (sidebar_view p).
Proof.
  unfold sidebar_view. keyed. apply (well_keyed_map _ (λ e, tab_name (e_id e))); [done| |].
  - apply (bool_decide_unpack _). vm_compute. exact I.
  - intros e. unfold tab_entry. keyed.
Qed.

Lemma header_keyed w n : well_keyed (header_view w n).
Proof. unfold header_view, status_line. keyed. destruct (badge n); keyed. Qed.

Lemma view_node_keyed j s v n :
  NoDup (node_id <$> nodes s) → view_node j s v = Normal n → well_keyed n.
Proof.
  intros Hnd. destruct v as [|x|log|t]; cbn [view_node].
  - intros <-%(inj Normal). apply DashboardUI.dashboard_ui_keyed.
  - intros <-%(inj Normal). apply well_keyed_node_map, ExplorerView.explorer_view_keyed.
  - intros <-%(inj Normal). by apply well_keyed_node_map, RaftViewUI.raft_view_ui_keyed.
  - destruct (ArchitectureUI.render s t (rd_clock rd)) as [m|] eqn:Em; [|done]. intros <-%(inj Normal).
    apply well_keyed_node_map. by eapply ArchitectureUI.architecture_ui_keyed.
Qed.

Lemma render_app_keyed recents c n :
  represents recents (recentSearches (palette c)) →
  NoDup (node_id <$> nodes (c_store c)) → NoDup (e_id <$> recentSearches (palette c)) →
  NoDup (ni_id <$> notifications (notif c)) → render_app recents c = Normal n → well_keyed n.
Proof.
  intros Hr Hids Hrec Hnot. unfold render_app. rewrite (search_view_typed recents _ Hr).
  destruct (last (views c)) as [v|]; [|done].
  destruct (view_node _ _ v) as [view|] eqn:Hv; [|done]. intros <-%(inj Normal).
  unfold overlay, notification_view, search_field, search_footer, Landing. keyed.
  - by apply typed_body_keyed.
  - by apply notification_list_keyed.
  - apply sidebar_keyed.
  - apply header_keyed.
  - by eapply view_node_keyed.
  - apply Forall_fmap. eapply Forall_impl; [apply MiniGraphUI.mini_graph_ui_keyed|]. intros. by apply well_keyed_node_map.
Qed.

(** ** Clicks *)

Context (env : Env) (stamp : nat → jsstring * number).

(** What an operator may do in a state, from the conditions of the handlers: an
    action needs the consensus view on the screen and a node in the right health,
    an entry of the overlay needs the open overlay and must be in its list, and the
    view on the screen takes a command only when its own guard would let it pass
    ([execute] returns at once without a key, [runTrace] without a key or during a
    run, and so does [resetTrace] during a run). *)
Definition accepted (c : Console) (t : task) : Prop :=
  let p := palette c in
  match t with
  | Act k i =>
      ∃ log n, last (views c) = Some (MRaft log) ∧ nodes (c_store c) !! i = Some n ∧
        healthy n = match k with Kill => true | Restart => false end
  | Pal PLeaveLanding => isLanding p = true
  | Pal (PSetTab _) | Pal PToggleSidebar | Pal POpenSearch => True
  | Pal PBackdrop => searchOpen p = true
  | Pal (PPickResult i) => searchOpen p = true ∧ i < length (filteredSearchItems (searchQuery p))
  | Pal (PPickRecent i) =>
      searchOpen p = true ∧ trim (searchQuery p) = [] ∧ i < length (recentSearches p)
  | Pal (PJump i) => searchOpen p = true ∧ trim (searchQuery p) = [] ∧ i < length tabs
  | Bell NToggle => True
  | Bell NClose | Bell NClear => notificationsOpen (notif c) = true
  | Mini MiniGraph.MMove | Mini (MiniGraph.MCollapse _) => tab p ≠ dashboard
  | ViewX j e =>
      j = current c ∧ ∃ x, last (views c) = Some (MExplorer x) ∧
        match e with
        | View.XSetOp _ => True
        | View.XExample i => i < length View.quickExamples
        | View.XExecute _ _ => View.key x ≠ [] ∨ View.op x = SCAN
        | _ => False
        end
  | ViewT j e =>
      j = current c ∧ ∃ a, last (views c) = Some (MArchitecture a) ∧
        match e with
        | TSetOp _ => True
        | TFocus i => i < module_count
        | TReset => traceRunning (core a) = false
        | TRun ns _ => ns = nodes (c_store c) ∧ traceRunning (core a) = false ∧ trim (traceKey (form a)) ≠ []
        | _ => False
        end
  | _ => False
  end.

(** Such a task can occur in the composed system. *)
Lemma accepted_performs c t : accepted c t → is_Some (console_step env stamp t c).
Proof.
  intros Ht. enough (is_Some (perform env stamp t c)) as [c1 Hc]
    by (unfold console_step; rewrite Hc; eauto).
  destruct t as [| k i| |e| |e|e|j e|j e]; cbn [accepted] in Ht; try done; cbn [perform].
  - destruct Ht as (log & n & -> & -> & Hh). destruct k; cbn [RaftView.enabled]; rewrite Hh; eauto.
  - destruct e; try done; cbn [palette_step]; try (by eauto).
    + destruct Ht as [_ [it ->]%lookup_lt_is_Some]. eauto.
    + destruct Ht as (_ & _ & [it ->]%lookup_lt_is_Some). eauto.
    + destruct Ht as (_ & _ & Hi). assert (i < length searchItems) as [it ->]%lookup_lt_is_Some by done. eauto.
  - destruct e; try done; eauto.
  - destruct e; try done; eauto.
  - destruct Ht as (-> & x & ->%last_current & _). rewrite Nat.eqb_refl, orb_true_r. eauto.
  - destruct Ht as (-> & a & ->%last_current & He). rewrite Nat.eqb_refl, orb_true_r, andb_true_r.
    destruct e; try done; cbn [Trace.on_screen]; try (by eauto). apply Nat.ltb_lt in He as ->. eauto.
Qed.

(** A click runs no handler, or one whose task is accepted. *)
Definition possible (c : Console) (es : list task) : Prop := es = [] ∨ ∃ t, es = [t] ∧ accepted c t.

Lemma possible_task c t : accepted c t → possible c [t].
Proof. intros Ht. right. by exists t. Qed.

Lemma typed_body_clicks c :
  searchOpen (palette c) = true → Forall (possible c) (clicks [] (typed_body (palette c))).
Proof.
  intros Ho. unfold typed_body, start_page, results_page.
  destruct (jeqb _ _) eqn:Hq; [apply bool_decide_eq_true in Hq|destruct (_ <? _); [|unfold no_results]];
    offered ltac:(by left).
  - apply offered_mapi. intros i e He%lookup_lt_Some. unfold entry_button.
    offered ltac:(by left); by apply possible_task.
  - apply offered_mapi. intros i it Hi%lookup_lt_Some. unfold jump_entry.
    offered ltac:(by left); by apply possible_task.
  - apply offered_mapi. intros i it Hi%lookup_lt_Some. unfold result_entry.
    offered ltac:(by left); by apply possible_task.
Qed.

Lemma explorer_click_accepted c x e :
  last (views c) = Some (MExplorer x) →
  ExplorerView.click_ok (rd_start rd) (rd_now rd) x [e] → accepted c (ViewX (current c) e).
Proof.
  intros Hlast He. split; [done|]. exists x. split; [done|]. destruct e; try done.
  destruct He as (_ & _ & Hd). unfold ExplorerView.execute_disabled, jeqb in Hd.
  apply andb_false_iff in Hd as [Hk%bool_decide_eq_false|Hs%negb_false_iff]; [by left|right].
  by destruct (View.op x).
Qed.

Lemma trace_click_accepted c a e :
  last (views c) = Some (MArchitecture a) →
  ArchitectureUI.click_ok (c_store c) a (rd_clock rd) [e] → accepted c (ViewT (current c) e).
Proof.
  intros Hlast He. split; [done|]. exists a. split; [done|]. destruct e; try done.
  by destruct He as (-> & _ & ? & ?).
Qed.

Lemma view_node_clicks c v n :
  last (views c) = Some v → view_node (current c) (c_store c) v = Normal n →
  Forall (possible c) (clicks [] n).
Proof.
  intros Hlast. destruct v as [|x|log|t]; cbn [view_node].
  - intros <-%(inj Normal). eapply Forall_impl; [apply DashboardUI.dashboard_ui_clicks|]. intros ? ->. by left.
  - intros <-%(inj Normal). apply offered_node_map.
    eapply Forall_impl; [apply ExplorerView.explorer_view_clicks|]. intros [|e [|]] He; [by left| |by destruct e].
    apply possible_task. by eapply explorer_click_accepted.
  - intros <-%(inj Normal). apply offered_node_map.
    eapply Forall_impl; [apply RaftViewUI.raft_view_ui_clicks|]. intros es [->|(k & i & m & -> & Hm & Hen)]; [by left|].
    apply possible_task. exists log, m. split_and!; [done|done|]. destruct k; [done|by apply negb_true_iff].
  - destruct (ArchitectureUI.render _ t (rd_clock rd)) as [m|] eqn:Em; [|done]. intros <-%(inj Normal).
    apply offered_node_map.
    eapply Forall_impl; [by eapply ArchitectureUI.architecture_ui_clicks|]. intros [|e [|]] He; [by left| |by destruct e].
    apply possible_task. by eapply trace_click_accepted.
Qed.

Lemma mini_clicks c w h s :
  Forall (λ n, Forall (possible c) (clicks [] n))
    (node_map Mini <$> MiniGraphUI.render (negb (bool_decide (tab (palette c) = dashboard))) w h s).
Proof.
  apply Forall_fmap. case_bool_decide as Ht; [constructor|].
  eapply Forall_impl; [apply MiniGraphUI.mini_graph_ui_clicks|]. intros n Hn.
  apply offered_node_map. eapply Forall_impl; [exact Hn|].
  intros es [->|[->|[b ->]]]; [by left|by apply possible_task..].
Qed.

Lemma overlay_clicks c :
  Forall (possible c)
    (clicks [] (overlay (palette c) (when (searchOpen (palette c)) [typed_body (palette c)]))).
Proof.
  unfold overlay, search_field, search_footer. offered ltac:(by left); try by apply possible_task.
  by apply typed_body_clicks.
Qed.

Lemma notification_clicks c : Forall (possible c) (clicks [] (notification_view (notif c))).
Proof.
  unfold notification_view. offered ltac:(by left); try by apply possible_task.
  unfold notification_list. destruct (_ =? _); offered ltac:(by left).
  apply offered_map. intros i _. unfold notification_entry. by offered ltac:(by left).
Qed.

Lemma sidebar_clicks c : Forall (possible c) (clicks [] (sidebar_view (palette c))).
Proof.
  unfold sidebar_view. offered ltac:(by left); try by apply possible_task.
  apply offered_map. intros e _. unfold tab_entry. offered ltac:(by left); by apply possible_task.
Qed.

Lemma header_clicks c w : Forall (possible c) (clicks [] (header_view w (notif c))).
Proof.
  unfold header_view, status_line. offered ltac:(by left); try by apply possible_task.
  destruct (badge _); offered ltac:(by left); by apply possible_task.
Qed.

Lemma render_app_clicks recents c n :
  represents recents (recentSearches (palette c)) → render_app recents c = Normal n →
  Forall (possible c) (clicks [] n).
Proof.
  intros Hr. unfold render_app. rewrite (search_view_typed recents _ Hr).
  destruct (last (views c)) as [v|] eqn:Hlast; [|done].
  destruct (view_node _ _ v) as [view|] eqn:Hv; [|done]. intros <-%(inj Normal).
  unfold Landing. offered ltac:(by left); try by apply possible_task.
  - apply overlay_clicks.
  - apply notification_clicks.
  - apply sidebar_clicks.
  - apply header_clicks.
  - by eapply view_node_clicks.
  - apply mini_clicks.
Qed.

(** ** Properties *)

Lemma view_node_completes c j v :
  view_ok env c j v → ∃ n, view_node (current c) (c_store c) v = Normal n.
Proof.
  destruct v as [|x|log|t]; cbn [view_ok view_node]; [by eauto..|].
  intros Ht%reachable_ok. destruct (render_completes (c_store c) t (rd_clock rd) Ht) as [n ->]. eauto.
Qed.

Lemma render_app_completes Q saved mini recents c :
  console_reachable env stamp Q saved mini c → represents recents (recentSearches (palette c)) →
  ∃ n, render_app recents c = Normal n.
Proof.
  intros Hc Hr. destruct (console_views env stamp Q saved mini c Hc) as [Hv _ Hk].
  unfold render_app. rewrite (search_view_typed recents _ Hr).
  destruct (last (views c)) as [v|] eqn:Hlast; [|done].
  destruct (view_node_completes c _ v (Hv _ _ (last_current c v Hlast))) as [n ->]. eauto.
Qed.

(** C6: the screen offers only what the system can do: in every reachable state,
    for every list of parsed values that represents the recent searches (an
    element without the asserted type makes rendering throw), rendering completes,
    a click anywhere runs at most one handler (overlays stop the propagation), the
    condition under which that handler does its work holds (a healthy node for
    Kill, a node that is down for Restart, an entry of the list shown, a key for a
    command, no trace in progress), and the composed system takes its task. *)
Theorem screen_offers_only_possible_tasks Q saved mini recents c :
  console_reachable env stamp Q saved mini c → represents recents (recentSearches (palette c)) →
  ∃ n, render_app recents c = Normal n ∧
    Forall (λ es, es = [] ∨
      ∃ t, es = [t] ∧ accepted c t ∧ is_Some (console_step env stamp t c)) (clicks [] n).
Proof.
  intros Hc Hr. destruct (render_app_completes Q saved mini recents c Hc Hr) as [n Hn].
  exists n. split; [done|]. eapply Forall_impl; [by eapply render_app_clicks|].
  intros es [->|(t & -> & Ht)]; [by left|right]. exists t. auto using accepted_performs.
Qed.

(** C39: a stored text that is an array with a [null] in it passes the
    initialiser's checks, and from then on opening the overlay makes rendering
    throw: whatever else the state is, with the overlay open and no query typed the
    whole application has no rendering. *)
Theorem null_entry_breaks_overlay c :
  searchOpen (palette c) = true → trim (searchQuery (palette c)) = [] →
  recents_of_text (Some «"[null]"») = [JNull] ∧
  render_app (recents_of_text (Some «"[null]"»)) c = Throw (ThrownError type_error_message).
Proof.
  intros Ho Hq. assert (recents_of_text (Some «"[null]"») = [JNull]) as -> by (vm_compute; reflexivity).
  split; [done|]. unfold render_app, search_view, search_body, jeqb. by rewrite Ho, Hq, bool_decide_true.
Qed.

(** C22: the lists on the screen are well formed: in every reachable state the
    members of every rendered list have distinct keys, provided the snapshots list
    each node once, the saved searches name each page once, and the generated
    notification ids differ. *)
Theorem screen_is_well_keyed saved mini recents c n :
  (∀ i j, fst (stamp i) = fst (stamp j) → i = j) → NoDup (e_id <$> initial_recent saved) →
  console_reachable env stamp (λ ns, NoDup (node_id <$> ns)) saved mini c →
  represents recents (recentSearches (palette c)) → render_app recents c = Normal n → well_keyed n.
Proof.
  intros Hstamp Hsaved Hc Hr. apply render_app_keyed; [done|..].
  - apply (reachable_distinct_ids (sys_of c)). by eapply console_store.
  - apply (reachable_recents (λ r _, NoDup (e_id <$> r)) saved); [apply select_distinct|done|].
    by eapply console_palette.
  - destruct (console_feed env stamp _ saved mini c Hc) as (idx & -> & Hnd & _).
    apply NoDup_fmap_2; [exact Hstamp|done].
Qed.

(** C18: the status in the header is that of the connection: in every reachable
    state of the composed system it reads "connecting" or "open" while the newest
    socket is, and "closed" once that socket is closed and a reconnect is
    scheduled, whatever kills, restarts and roll-backs did to the store. *)
Theorem header_shows_connection Q saved mini c :
  console_reachable env stamp Q saved mini c →
  ∃ i k, wsRef (stream c) = Some i ∧ sockets (stream c) !! i = Some k ∧
    let shown := texts (status_line (wsStatus (c_store c))) in
    match sk_state k with
    | CONNECTING => shown = [«"System Status: connecting"»]
    | OPEN => shown = [«"System Status: open"»]
    | CLOSING => shown ≠ [«"System Status: closed"»]
    | CLOSED => shown = [«"System Status: closed"»] ∧ timeouts (stream c) ≠ []
    end.
Proof.
  intros Hc. destruct (console_stream env stamp Q saved mini c Hc) as [HI Hm].
  apply Inv_mounted in Hm as (ipre & x & kpre & k & _ & _ & Hks & _ & Href & Hph); [|done].
  exists (length kpre), k. split_and!; [done|by rewrite Hks, list_lookup_middle|].
  change (hook_status (app (stream c))) with (wsStatus (c_store c)) in Hph. cbn zeta.
  destruct (sk_state k).
  - by destruct Hph as [_ ->].
  - by destruct Hph as [_ ->].
  - destruct Hph as [_ Hph]. by destruct (wsStatus (c_store c)).
  - destruct Hph as (-> & t & -> & _). done.
Qed.

End Shell.

(** ** Witnesses *)

Definition sample_readings : Readings :=
  {| rd_start := n_zero; rd_now := n_zero; rd_clock := sample_clock; rd_date := n_zero;
     rd_object_child := ThrownOther |}.

(** The values of the recent searches of the sample states. *)
Definition sample_recents : list json := entry_json <$> recentSearches (palette sample_killed).

Lemma sample_recents_represent : represents sample_recents (recentSearches (palette sample_killed)).
Proof. vm_compute. reflexivity. Defined.

Lemma screen_offers_only_possible_tasks_witness :
  ∃ n, @render_app sample_platform sample_locale sample_readings sample_recents sample_killed = Normal n.
Proof.
  destruct (@screen_offers_only_possible_tasks sample_platform sample_locale sample_readings Console.sample_env
    sample_stamp distinct_ids NotStored sample_mini sample_recents sample_killed sample_killed_reachable
    sample_recents_represent) as (n & Hn & _).
  exists n. exact Hn.
Defined.

Lemma null_entry_breaks_overlay_witness :
  @render_app sample_platform sample_locale sample_readings [JNull] (after (Pal POpenSearch) sample_killed)
    = Throw (ThrownError (@type_error_message sample_platform)).
Proof.
  apply (@null_entry_breaks_overlay sample_platform sample_locale sample_readings
    (after (Pal POpenSearch) sample_killed)); vm_compute; reflexivity.
Defined.

Lemma screen_is_well_keyed_witness :
  match @render_app sample_platform sample_locale sample_readings sample_recents sample_killed with
  | Normal n => well_keyed n
  | Throw _ => True
  end.
Proof.
  destruct (render_app _ _ sample_killed) as [n|] eqn:Hn; [|exact I].
  apply (@screen_is_well_keyed sample_platform sample_locale sample_readings Console.sample_env sample_stamp
    NotStored sample_mini sample_recents sample_killed n); [|apply (bool_decide_unpack _); vm_compute; exact I
    |apply sample_killed_reachable|apply sample_recents_represent|exact Hn].
  intros i j Hij. by apply (inj show_nat).
Defined.

Lemma header_shows_connection_witness :
  ∃ i k, wsRef (stream sample_killed) = Some i ∧ sockets (stream sample_killed) !! i = Some k.
Proof.
  destruct (@header_shows_connection sample_platform Console.sample_env sample_stamp distinct_ids NotStored
    sample_mini sample_killed sample_killed_reachable) as (i & k & Hi & Hk & _).
  exists i, k. split; [exact Hi|exact Hk].
Defined.
